(* ===== verification/_CoqProject ===== *)
-Q . S2P
Prelude.v
CInt.v
CString.v
Libc.v
Notes.v
CFloat.v
Utils.v
Getopt.v
Calibrate.v
Pincpu.v
Sched.v
Spin.v
Pulse.v
Pipeline.v
Schedfreq.v
Pipette.v
Rpc.v
Perfuser.v
Process.v
Cpm.v
Inception.v
Imbalance.v
Locks.v
KernelLock.v
Threadtree.v
Memory.v
Traces.v
Signals.v
Heartbeat.v
Cputemp.v
Cpm3.v
Sigbench.v
Files.v
Sockpair.v
Workers.v
Tasks.v
Proclife.v
PipelineSpec.v
Affinity.v
Kernel.v
Routine.v
PipetteRun.v
Providers.v
Cpm3Run.v
RpcRun.v
Kinship.v
Clock.v
Timing.v
ProclifeRun.v
