(* ===== verification/Prelude.v ===== *)
(** * Workload-kit: a verification library

    The workload kit is a collection of small C programs whose behaviour is
    known, run under a tracer to check what the tracer shows: programs that
    pass items through a pipeline, burn the CPU in bursts, deadlock, invert
    priorities, fork chains of processes, answer remote calls, measure
    themselves.  Four of its C files form a library (libwk: utils, calibrate,
    pincpu, spin), which the programs under src/src and src/ust use; each program is
    one C file with a [main].  This library models all of them, with
    the declarations of their tracepoints, and proves that they do what they are for.

    ** How the code is modelled

    Sequential code.  A C function is a [prog] (Libc): the tree of the calls
    it makes to the C library and the kernel, each followed by a continuation
    on the answer.  The constructors of [sys] are these calls.  The answers
    come from a [handler], the environment, over which the theorems
    quantify: what they assume of it ("memory is granted", "a transfer gives at
    least one byte") is a hypothesis, and every theorem with hypotheses has a
    [_witness] beside it, an instance at a concrete environment.  [run] executes a
    program against a handler to an [outcome]: a result, an exit status, or
    undefined behaviour, which is a value of the semantics ([Undef]) and not
    left out.  [traced h] is [h] with a record of the calls and answers; Notes and
    Traces say what of a record a theorem looks at.

    Concurrent code.  The threads of a program are a transition system
    (Sched): a shared state, and for each thread the function that makes its
    next atomic step, a statement that touches shared memory or a
    synchronisation.  Reachability, schedules, invariants, the bound on the length of
    schedules, deadlocks, exploration of finite systems and simulation are shared lemmas
    of Sched.  Programs whose threads share only data they read, or
    only a barrier, are products of sequential programs (Heartbeat, Perfuser,
    Imbalance).

    Families of processes.  Programs that fork, wait and talk to each other run under
    a [kernel] (Kernel): each process is a program tree, and a step of the family
    is a call of one process, answered in the shared state, a fork, a wait (which
    fails at once where there is nothing to wait for), a signal or an exit.  What one process does is proved on its tree against a
    protocol ([wp]), whatever the others do; [adequacy] turns an invariant of what the
    processes know into safety and freedom from deadlock of every interleaving,
    and [executions_finite] with [completes] into termination; in a family that
    is not meant to end, [stuck_blocked] says what every process waits for.
    PipetteRun, Cpm3Run and RpcRun are its clients; each has a kernel of its own
    with one pipe or one connection.  Clock is the client for programs that only
    fork and wait.

    Time.  The programs made to have a known critical path are run by [timed]
    (Process), which gives the exact instants at which the processes of a
    family compute, sleep and wait.  [timed] takes the processes one after
    another; [family_runs] (Clock) is the refinement that justifies it: under a
    kernel that keeps a clock for every process, each interleaving of a family
    in which processes wait only for their children, and for all of them, is
    finite, never blocks, and tells exactly what [timed] tells, in
    another order.  Forks succeed there; what happens when one fails is said by
    [timed] alone.

    Data.  A machine integer is a [Z] with its wrap written out (CInt:
    [s32], [u32], [s64], [u64]); signed overflow is undefined in C, and the models either
    end in [Undef] or wrap, the theorems then assuming the bounds under which there is
    none.  A [double] is a binary64 number of the Standard Library's
    specification of floating point (CFloat), a C string a [string] (CString), a
    buffer the list of its bytes.  A struct is a [Record]; where a program writes
    or reads one as raw memory (the messages of Rpc), the layout of its [int]s is
    written out, little endian and without padding ([Rpc.encode], [Rpc.decode]): it is
    the machine's, no code of the program.

    ** The files

    - Prelude: tactics, the hint database [wk], sums and lists.
    - CInt, CString, CFloat: integers, strings, doubles.
    - Libc, Notes, Traces: the calls, programs, traces.
    - Getopt: [getopt_long], and the loop of the [parse_opts] functions.
    - Sched, Process: interleavings of threads; processes in time.
    - Kinship, Clock: the tree of a family and the books kept of it; the kernel with
      a clock for each process.  Timing, ProclifeRun: cpm1, cpm2 and inception,
      and proclife, under it.
    - Kernel: processes together, each a program.  Routine: the calls that are
      nobody else's concern, and the library functions made of them ([do_sleep],
      [calibrate]) under any protocol.
    - Utils: utils.c, utils.h.  Time arithmetic, sleeping, page faults, and
      the profiling harness [profile_init], [profile_func], [profile_stats],
      [profile_save], [profile_combo], which is parametrised by the measured function and its
      argument; Memory and Sigbench are clients of it.
    - Calibrate: calibrate.c.  [do_hog], [counter], [calibrate]; clients Rpc,
      Perfuser, Cpm, Cpm3, Imbalance, Workers.
    - Pincpu: pincpu.c.  The list of CPUs of Pulse; pinning.
    - Spin: spin.c.  The pool of burning threads that Pulse starts.
    - Pipeline: pipeline.c.  PipelineSpec: its contract.
    - Pulse, Schedfreq, Pipette, Rpc, Perfuser: pulse.c, schedfreq.c, pipette.c,
      rpc.h with rpc-client.c and rpc-server.c, perfuser.c.
    - Cpm (Modules Cpm1, Cpm2, Reparent), Cpm3, Inception, Imbalance: cpm1.c, cpm2.c,
      reparent.c, cpm3.c, inception.c, imbalance.c.
    - PipetteRun, Cpm3Run, RpcRun: the whole of wk-pipette, of cpm3, and of
      wk-rpc-client with wk-rpc-server, under a kernel; the programs are those of
      Pipette, Cpm3 and Rpc, unchanged.
    - Locks (Modules Mutex, Deadlock, Dthread): mutex.c, deadlock.c, dthread.c.
    - KernelLock, Affinity: the module wk_lock.c and the program wk_kernel_lock.c,
      together; the calls behind the step that sets affinity and priority.
    - Memory (Modules Timemalloc, Stp, Evfreq, Copymm): timemalloc.c, stp.c,
      evfreq.c, copymm.c.
    - Signals, Sigbench: signest.c, sigbench.c.
    - Files (Modules Ioburst, Lockfight), Sockpair, Proclife: ioburst.c, lockfight.c,
      sockpair.c, proclife.c.
    - Threadtree, Tasks: ust/threadtree/threadtree.c, its threads; its command line
      and its memory.
    - Heartbeat (Modules Heartbeat, Burnust): ust/heartbeat, ust/burnust.
    - Cputemp: ust/cputemp.  Workers (Modules Bossthread, Functrace, Hello, Uevent):
      ust/bossthread, ust/functrace with cyg.c, ust/hello-openmp,
      tests/test-uevent.c.
    - Providers: tp.h and the files ending in _tp_provider.h, as data, with what the
      programs of Threadtree, Sigbench, Heartbeat, Cputemp and Workers record.

    A definition has the name of its C function.  A loop that needs names of its
    own is a [Fixpoint] or a [for_]; [parse_opt] is the body of the option loop of a
    [parse_opts], [optstring] and [options] its tables.

    ** What is shown

    Concurrency.  The pipeline ends on every schedule in at most 253 steps,
    never deadlocks, never reads a slot being written (C1 to C3), and refines
    a contract of three bounded stages (C30).  The pool of Spin burns once per
    call and per worker, joins cleanly and makes progress (C9 to C11).  The
    ring of Schedfreq holds one token, turns in rotation and ends (C14, C15).
    The stages of Threadtree run in order (C22); the only deadlock is a join of
    a slot not yet filled, and it is reachable (C23).  The kernel lock excludes, and
    hangs when a thread fails before the barrier (C24, C25).  The
    deadlock of deadlock.c is certain (C29), the one of mutex.c impossible
    ([Locks.Mutex.mutex_exclusion]).

    The library.  The profiling harness measures and saves exactly the gaps of
    its clock readings (C4) and its statistics are those of the exact gaps (C5);
    [calibrate] is the mean of its ten counts (C6); the parser of CPU lists is
    safe on every input, accepts exactly what [strtol] reads below the number of CPUs
    once cut to an [int], and reads back what is rendered (C7, C8).

    The programs.  Bursts on the multiples of the period, on a wall clock (C12);
    options parsed back (C13); the session of the server of the remote calls with
    any client, and the turns of the client: reading of the clock, request,
    answer (C17, C19); the rows of the
    sampling experiment and the depth of unwinding (C20, C21); the
    supersteps of imbalance (C28); signals sent while blocked are not queued (C31);
    the events that heartbeat, burnust and cputemp record (C32 to C34); the
    span sigbench reports (C36); the calls and the connection of sockpair (C37); the
    memory of the stages (C39).

    Programs of several processes.  Every interleaving of cpm1 has the critical path
    the program was made for, and every interleaving of wk-inception is the
    same nested story (C26, C27); the ten children of proclife are all awaited,
    and it takes as long as the last of them, or the parent, to end, whatever
    the files and the sound system cost each (C38).  Every interleaving of
    wk-pipette ends, the main process with status 0, and the consumer has summed
    the bytes of every block (C16).  Every interleaving of cpm3 ends the same way when the server listens
    before the client connects; when a connection is refused, an execution in
    which the program hangs is exhibited (C35).  The client and the server of the
    remote calls alternate in every interleaving, which ends with the client gone,
    refused or answered in full, and the server back in [accept] (C18).

    The traces.  Every event a program records is declared by its provider, with
    arguments that the declared parameters can hold and fields that read
    only those parameters (C40).

    Further theorems of the component files: [Utils.profile_save_correct],
    [Pipette.pipette_end_to_end], [Pipette.pipette_parse_opts_correct],
    [Rpc.rpc_client_server],
    [Cpm3.cpm3_exchange], [Perfuser.unwind_all_configs], [Memory.fills_agree],
    [Memory.data_never_assigned], [Signals.signest_actions],
    [Sigbench.sigbench_thread_counts], [Proclife.proclife_family],
    [Timing.cpm2_any_order], [Workers.FunctraceFacts.functrace_foo],
    [Heartbeat.options_well_typed], and those of Files, Workers and Cpm.

    ** Fuel and bounds

    A loop without a structural measure takes fuel, and the theorems say how much
    is enough: [do_hog] needs as many turns as it counts; [counter_loop] follows the list of the reads of the [run] flag, the
    transfer loops of Pipette need as many turns as bytes, since each turn moves at least
    one byte; the session loop of Rpc as many as requests; [bar_loop] of Workers at most
    one per bit; [story] of Inception the number of processes.  No theorem
    is about runs that end for lack of fuel: that outcome is a value of its own,
    different from every result the theorems give.  The
    finite systems of Locks are explored completely; Pipeline, Spin, Schedfreq,
    Threadtree and KernelLock are proved by invariants and measures, for every
    number of threads or stages where the program has a parameter for it.

    ** What is not modelled

    The code that the macros of the tracing library generate from the
    declarations of the providers, and the ring buffers it fills: the models call the
    events by provider and name.  The sine function of proclife.c, a parameter, and the sensors
    and sound libraries, which answer through the environment.  The priorities of the scheduler: every
    interleaving is allowed.  The adoption of orphans by init: under a kernel the child of
    a process that has ended keeps its parent's number; the only program that leaves one
    is reparent.c, which has its timed theorem ([Cpm.Reparent.parent_ends_at_once]).
    Weak memory: a step of a thread is visible at once.
    The scripts, the lists of kernel events, the Python tools, the XML state
    machines, the manual pages and the build files. *)

From stdpp Require Export base tactics option list numbers strings.
From Stdlib Require Export ZArith Lia.

#[global] Open Scope Z_scope.
#[global] Set Default Proof Using "Type".

(** ** Tactics of the development *)

(** Split the boolean tests of the goal, turning them into arithmetic facts. *)
Ltac bool_to_prop :=
  repeat match goal with
  | H : (_ =? _)%Z = true |- _ => apply Z.eqb_eq in H
  | H : (_ =? _)%Z = false |- _ => apply Z.eqb_neq in H
  | H : (_ <? _)%Z = true |- _ => apply Z.ltb_lt in H
  | H : (_ <? _)%Z = false |- _ => apply Z.ltb_ge in H
  | H : (_ <=? _)%Z = true |- _ => apply Z.leb_le in H
  | H : (_ <=? _)%Z = false |- _ => apply Z.leb_gt in H
  | H : (_ =? _)%nat = true |- _ => apply Nat.eqb_eq in H
  | H : (_ =? _)%nat = false |- _ => apply Nat.eqb_neq in H
  | H : (_ <? _)%nat = true |- _ => apply Nat.ltb_lt in H
  | H : (_ <? _)%nat = false |- _ => apply Nat.ltb_ge in H
  | H : (_ && _)%bool = true |- _ => apply andb_true_iff in H; destruct H
  | H : (_ || _)%bool = false |- _ => apply orb_false_iff in H; destruct H
  | H : negb _ = true |- _ => apply negb_true_iff in H
  | H : negb _ = false |- _ => apply negb_false_iff in H
  end.

Ltac case_if :=
  match goal with
  | |- context [if ?b then _ else _] =>
      lazymatch type of b with
      | bool => let E := fresh "E" in destruct b eqn:E; bool_to_prop
      end
  end.

Ltac case_if_in H :=
  match type of H with
  | context [if ?b then _ else _] =>
      lazymatch type of b with
      | bool => let E := fresh "E" in destruct b eqn:E; bool_to_prop
      end
  end.

(** ** Hint databases *)
Create HintDb wk.

(** ** Lists *)

Lemma last_cons_default {A} (l : list A) (x y : A) : List.last (y :: l) x = List.last l y.
Proof.
  revert x y. induction l as [|z l IH]; intros x y; [done|].
  change (List.last (z :: l) x = List.last (z :: l) y). by rewrite !IH.
Qed.

(** ** Sums of integers *)

(** The mathematical (unbounded) sum of a list. *)
Definition zsum (l : list Z) : Z := foldr Z.add 0 l.

Lemma zsum_app l k : zsum (l ++ k) = zsum l + zsum k.
Proof. induction l as [|x l IH]; simpl; [done|]. unfold zsum in *; simpl; lia. Qed.

Lemma zsum_cons x l : zsum (x :: l) = x + zsum l.
Proof. done. Qed.

Lemma zsum_replicate n x : zsum (replicate n x) = Z.of_nat n * x.
Proof. induction n as [|n IH]; [done|]. simpl replicate. rewrite zsum_cons, IH. lia. Qed.

Lemma zsum_nonneg l : Forall (Z.le 0) l -> 0 <= zsum l.
Proof. induction 1; [done|]. rewrite zsum_cons. lia. Qed.

(** ** Sums over lists *)

Lemma sum_list_insert {A} (f : A -> nat) (l : list A) i x y :
  l !! i = Some x -> (sum_list_with f (<[i := y]> l) + f x = sum_list_with f l + f y)%nat.
Proof.
  revert i. induction l as [|z l IH]; intros [|i] H; cbn in *; try done.
  - injection H as ->. lia.
  - specialize (IH i H). unfold insert in *. lia.
Qed.

(** ** Updates under [omap] *)

Lemma omap_insert_same {A B} (f : A -> option B) (l : list A) i x y :
  l !! i = Some x -> f x = f y -> omap f (<[i := y]> l) = omap f l.
Proof.
  intros H E. rewrite insert_take_drop by (by eapply lookup_lt_Some).
  rewrite <- (take_drop_middle l i x H) at 3. rewrite !omap_app. cbn. by rewrite E.
Qed.
Lemma omap_insert_new {A B} (f : A -> option B) (l : list A) i x y b :
  l !! i = Some x -> f x = None -> f y = Some b -> omap f (<[i := y]> l) ≡ₚ b :: omap f l.
Proof.
  intros H Ex Ey. rewrite insert_take_drop by (by eapply lookup_lt_Some).
  rewrite <- (take_drop_middle l i x H) at 3. rewrite !omap_app. cbn. rewrite Ex, Ey.
  by rewrite Permutation_middle.
Qed.

Lemma length_omap_le {A B} (f : A -> option B) (l : list A) : (length (omap f l) <= length l)%nat.
Proof. induction l as [|x l IH]; [done|]. cbn. destruct (f x); cbn; unfold omap in *; lia. Qed.

Lemma omap_full {A B} (f : A -> option B) (l : list A) i x :
  length (omap f l) = length l -> l !! i = Some x -> is_Some (f x).
Proof.
  intros E H. rewrite <- (take_drop_middle l i x H) in E. rewrite omap_app, !length_app in E.
  pose proof (length_omap_le f (take i l)). cbn in E. pose proof (length_omap_le f (drop (S i) l)).
  destruct (f x) as [b|]; [by exists b|]. unfold omap in *. cbn in *. lia.
Qed.

Lemma omap_NoDup_inj {A B} (f : A -> option B) (l : list A) i j x y b :
  NoDup (omap f l) -> l !! i = Some x -> l !! j = Some y -> f x = Some b -> f y = Some b -> i = j.
Proof.
  revert i j. induction l as [|z l IH]; intros i j Hn Hi Hj Hx Hy; [done|]. cbn in Hn.
  assert (forall k w, l !! k = Some w -> f w = Some b -> f z = Some b -> False) as Hz.
  { intros k w Hk Hw Hfz. rewrite Hfz in Hn. apply NoDup_cons in Hn as [Hn _]. apply Hn.
    apply list_elem_of_omap. exists w. split; [by eapply list_elem_of_lookup_2|done]. }
  assert (NoDup (omap f l)) as Hn' by (destruct (f z); [by apply NoDup_cons in Hn as [_ ?]|done]).
  destruct i as [|i], j as [|j]; cbn in Hi, Hj; simplify_eq; try done.
  - exfalso. by eapply Hz.
  - exfalso. by eapply Hz.
  - f_equal. by eapply IH.
Qed.

(** A sum with one term that is not zero. *)
Lemma sum_list_single {A} (f : A -> nat) (l : list A) i x :
  l !! i = Some x -> (forall j y, l !! j = Some y -> j <> i -> f y = 0%nat) -> sum_list_with f l = f x.
Proof.
  revert i. induction l as [|z l IH]; intros [|i] Hi H; cbn in *; try done.
  - injection Hi as ->. assert (sum_list_with f l = 0%nat) as ->; [|lia].
    assert (forall j y, l !! j = Some y -> f y = 0%nat) as Hz by (intros j y Hj; by apply (H (S j))).
    clear -Hz. induction l as [|w l IH]; [done|]. cbn. rewrite (Hz 0%nat w eq_refl), IH; [done|].
    intros j y. by apply (Hz (S j)).
  - rewrite (IH i Hi); [by rewrite (H 0%nat z eq_refl)|]. intros j y Hj Hne. apply (H (S j) y Hj). lia.
Qed.

Lemma sum_list_pos {A} (f : A -> nat) (l : list A) :
  (0 < sum_list_with f l)%nat -> exists i x, l !! i = Some x /\ (0 < f x)%nat.
Proof.
  induction l as [|z l IH]; cbn; [lia|]. intros H. destruct (f z) eqn:E.
  - destruct (IH H) as (i & x & ? & ?). by exists (S i), x.
  - exists 0%nat, z. split; [done|lia].
Qed.
