(* ===== verification/CInt.v ===== *)
(** * C integers

    The machine integers of the sources (x86-64 Linux): [int] has 32 bits,
    [long], [time_t], [size_t] and pointers 64, [char] 8 bits and is signed.
    A value is a [Z]; an operation whose mathematical result may leave the
    type is followed by the wrap of that type.  Unsigned wrap-around and the
    conversions between widths are defined by the language; signed overflow
    is not, and the theorems of the components that speak of signed values
    carry bounds under which no wrap takes place. *)

From S2P Require Import Prelude.

(** ** Wrapping to a width *)

Definition uwrap (w : Z) (x : Z) : Z := x mod 2 ^ w.
Definition swrap (w : Z) (x : Z) : Z := (x + 2 ^ (w - 1)) mod 2 ^ w - 2 ^ (w - 1).

Definition s8 : Z -> Z := swrap 8.
Definition s32 : Z -> Z := swrap 32.
Definition s64 : Z -> Z := swrap 64.
Definition u8 : Z -> Z := uwrap 8.
Definition u32 : Z -> Z := uwrap 32.
Definition u64 : Z -> Z := uwrap 64.

Definition INT_MAX : Z := 2147483647.
Definition INT_MIN : Z := -2147483648.
Definition LONG_MAX : Z := 9223372036854775807.
Definition LONG_MIN : Z := -9223372036854775808.
Definition ULONG_MAX : Z := 18446744073709551615.

Definition in_s32 (x : Z) : Prop := INT_MIN <= x <= INT_MAX.
Definition in_s64 (x : Z) : Prop := LONG_MIN <= x <= LONG_MAX.
Definition in_u64 (x : Z) : Prop := 0 <= x <= ULONG_MAX.

#[export] Instance in_s32_dec x : Decision (in_s32 x).
Proof. unfold in_s32. apply _. Defined.
#[export] Instance in_s64_dec x : Decision (in_s64 x).
Proof. unfold in_s64. apply _. Defined.
#[export] Instance in_u64_dec x : Decision (in_u64 x).
Proof. unfold in_u64. apply _. Defined.

(** C's [/] and [%] truncate towards zero. *)
Definition cdiv : Z -> Z -> Z := Z.quot.
Definition crem : Z -> Z -> Z := Z.rem.

(** ** Lemmas *)

Lemma swrap_id w x : 0 < w -> - 2 ^ (w - 1) <= x < 2 ^ (w - 1) -> swrap w x = x.
Proof.
  intros Hw Hx. unfold swrap.
  assert (2 ^ w = 2 * 2 ^ (w - 1)) as Hp.
  { rewrite <- Z.pow_succ_r by lia. f_equal. lia. }
  rewrite Z.mod_small; lia.
Qed.

Lemma swrap_range w x : 0 < w -> - 2 ^ (w - 1) <= swrap w x < 2 ^ (w - 1).
Proof.
  intros Hw. unfold swrap.
  assert (2 ^ w = 2 * 2 ^ (w - 1)) as Hp.
  { rewrite <- Z.pow_succ_r by lia. f_equal. lia. }
  pose proof (Z.mod_pos_bound (x + 2 ^ (w - 1)) (2 ^ w)).
  assert (0 < 2 ^ (w - 1)) by (apply Z.pow_pos_nonneg; lia). lia.
Qed.

(** Wrapping forgets multiples of the modulus. *)
Lemma swrap_add_mod w x k : swrap w (x + k * 2 ^ w) = swrap w x.
Proof.
  unfold swrap. f_equal.
  replace (x + k * 2 ^ w + 2 ^ (w - 1)) with (x + 2 ^ (w - 1) + k * 2 ^ w) by lia.
  apply Z_mod_plus_full.
Qed.

Lemma swrap_mod w x : swrap w (x mod 2 ^ w) = swrap w x.
Proof.
  rewrite <- (swrap_add_mod w (x mod 2 ^ w) (x / 2 ^ w)). f_equal.
  pose proof (Z_div_mod_eq_full x (2 ^ w)). lia.
Qed.

Lemma s32_id x : in_s32 x -> s32 x = x.
Proof. unfold in_s32, INT_MIN, INT_MAX, s32. intros. apply swrap_id; simpl; lia. Qed.

Lemma s64_id x : in_s64 x -> s64 x = x.
Proof. unfold in_s64, LONG_MIN, LONG_MAX, s64. intros. apply swrap_id; simpl; lia. Qed.

Lemma s8_id x : -128 <= x <= 127 -> s8 x = x.
Proof. intros. apply swrap_id; simpl; lia. Qed.

Lemma u64_id x : in_u64 x -> u64 x = x.
Proof. unfold in_u64, ULONG_MAX, u64, uwrap. intros. apply Z.mod_small. simpl; lia. Qed.

Lemma s32_range x : in_s32 (s32 x).
Proof. unfold in_s32, INT_MIN, INT_MAX, s32. pose proof (swrap_range 32 x). simpl in *; lia. Qed.

Lemma s64_range x : in_s64 (s64 x).
Proof. unfold in_s64, LONG_MIN, LONG_MAX, s64. pose proof (swrap_range 64 x). simpl in *; lia. Qed.

Lemma u64_range x : in_u64 (u64 x).
Proof.
  unfold in_u64, ULONG_MAX, u64, uwrap. pose proof (Z.mod_pos_bound x (2 ^ 64)). simpl in *; lia.
Qed.

Lemma u64_add_idemp_l x y : u64 (u64 x + y) = u64 (x + y).
Proof. apply Zplus_mod_idemp_l. Qed.

Lemma u32_s32 x : u32 (s32 x) = u32 x.
Proof.
  unfold u32, s32, uwrap, swrap. rewrite Zminus_mod_idemp_l. f_equal. lia.
Qed.

Lemma u32_id x : 0 <= x < 2 ^ 32 -> u32 x = x.
Proof. apply Z.mod_small. Qed.

(** Unfold the bounds, then linear arithmetic. *)
Ltac unfold_bounds :=
  unfold in_s32, in_s64, in_u64, INT_MIN, INT_MAX, LONG_MIN, LONG_MAX, ULONG_MAX in *.
Ltac clia := unfold_bounds; lia.

#[export] Hint Resolve s32_range s64_range u64_range : wk.
#[export] Hint Rewrite s32_id s64_id u64_id using clia : wk.

#[global] Opaque swrap.
