(* ===== verification/CString.v ===== *)
(** * C strings

    The string functions of the C library that the sources call: [strtol],
    [atoi], [atol], [strtok], [strcmp], [strstr], and the decimal rendering
    of [printf]'s [%d] and [%ld].  A C string is a [string] (the bytes before the
    terminating NUL). *)

From S2P Require Import Prelude CInt.
From Stdlib Require Export Ascii.

Local Open Scope string_scope.
Local Open Scope list_scope.
Local Open Scope Z_scope.

(** The newline of a format string. *)
Definition NL : string := String (ascii_of_nat 10) EmptyString.

(** ** Characters *)

Definition code (c : ascii) : Z := Z.of_N (N_of_ascii c).

(** [isspace] in the C locale. *)
Definition isspace (c : ascii) : bool :=
  (code c =? 32) || ((9 <=? code c) && (code c <=? 13)).

Definition isdigit (c : ascii) : bool := (48 <=? code c) && (code c <=? 57).
Definition digit_val (c : ascii) : Z := code c - 48.
Definition digit_char (d : Z) : ascii := ascii_of_N (Z.to_N (48 + d)).

(** ** strtol, base 10 *)

Fixpoint skip_spaces (s : string) : string :=
  match s with
  | String c r => if isspace c then skip_spaces r else s
  | EmptyString => EmptyString
  end.

(** The longest run of digits: its value and what follows it. *)
Fixpoint digits (acc : Z) (s : string) : Z * string :=
  match s with
  | String c r => if isdigit c then digits (acc * 10 + digit_val c) r else (acc, s)
  | EmptyString => (acc, EmptyString)
  end.

(** An optional sign. *)
Definition sign (s : string) : bool * string :=
  match s with
  | String c r =>
      if code c =? 45 then (true, r)
      else if code c =? 43 then (false, r) else (false, s)
  | EmptyString => (false, s)
  end.

Definition starts_with_digit (s : string) : bool :=
  match s with String c _ => isdigit c | EmptyString => false end.

Definition clamp_long (x : Z) : Z := Z.max LONG_MIN (Z.min LONG_MAX x).

(** [strtol(s, &end, 10)]: the value and the string at [end]; without any
    digit the value is 0 and [end] is [s] itself. *)
Definition strtol (s : string) : Z * string :=
  let '(neg, r) := sign (skip_spaces s) in
  if starts_with_digit r then
    let '(v, rest) := digits 0 r in
    (clamp_long (if neg then - v else v), rest)
  else (0, s).

(** [atoi] is [(int) strtol(s, NULL, 10)]. *)
Definition atoi (s : string) : Z := s32 (strtol s).1.
Definition atol (s : string) : Z := (strtol s).1.

(** ** strtok *)

(** Is [c] one of the separators? *)
Fixpoint strchr (delims : string) (c : ascii) : bool :=
  match delims with
  | String d r => Ascii.eqb d c || strchr r c
  | EmptyString => false
  end.

Fixpoint skip_delims (delims : string) (s : string) : string :=
  match s with
  | String c r => if strchr delims c then skip_delims delims r else s
  | EmptyString => EmptyString
  end.

(** The text up to the next separator, and what follows that separator. *)
Fixpoint tok_split (delims : string) (s : string) : string * string :=
  match s with
  | String c r =>
      if strchr delims c then (EmptyString, r)
      else let '(t, rest) := tok_split delims r in (String c t, rest)
  | EmptyString => (EmptyString, EmptyString)
  end.

(** One call of [strtok] at the saved position [s]: the token and the new
    saved position, [None] for NULL. *)
Definition strtok (delims : string) (s : string) : option (string * string) :=
  match skip_delims delims s with
  | EmptyString => None
  | s' => Some (tok_split delims s')
  end.

(** ** strstr: does [sub] occur in [s]? *)
Fixpoint strstr (s sub : string) : bool :=
  String.prefix sub s || match s with String _ r => strstr r sub | EmptyString => false end.

(** ** Decimal rendering *)

Fixpoint dec_digits (fuel : nat) (n : Z) (acc : string) : string :=
  match fuel with
  | O => acc
  | S fuel =>
      let acc' := String (digit_char (n mod 10)) acc in
      if n <? 10 then acc' else dec_digits fuel (n / 10) acc'
  end.

Definition render_nat (n : Z) : string := dec_digits (S (Z.to_nat (Z.log2 n))) n "".

(** What [%d] and [%ld] print. *)
Definition render (n : Z) : string :=
  if n <? 0 then String "-" (render_nat (- n)) else render_nat n.

(** ** Lemmas *)

Lemma string_app_cons c s t : String c s +:+ t = String c (s +:+ t).
Proof. reflexivity. Qed.

Lemma string_app_nil s : s +:+ "" = s.
Proof. induction s as [|c s IH]; [done|]. by rewrite string_app_cons, IH. Qed.

Lemma code_range c : 0 <= code c < 256.
Proof. unfold code. pose proof (N_ascii_bounded c). lia. Qed.

Lemma code_digit_char d : 0 <= d <= 9 -> code (digit_char d) = 48 + d.
Proof.
  intros H. unfold code, digit_char. rewrite N_ascii_embedding; [lia|].
  lia.
Qed.

Lemma isdigit_digit_char d : 0 <= d <= 9 -> isdigit (digit_char d) = true.
Proof.
  intros H. unfold isdigit. rewrite code_digit_char by done.
  apply andb_true_iff. rewrite !Z.leb_le. lia.
Qed.

Lemma digit_val_char d : 0 <= d <= 9 -> digit_val (digit_char d) = d.
Proof. intros H. unfold digit_val. rewrite code_digit_char; lia. Qed.

Lemma isdigit_not_space c : isdigit c = true -> isspace c = false.
Proof.
  unfold isdigit, isspace. intros H. bool_to_prop.
  apply orb_false_iff. rewrite Z.eqb_neq, andb_false_iff, !Z.leb_gt. lia.
Qed.

(** The digits of [n], read back after the accumulator [a]. *)
Lemma digits_dec_digits fuel n acc a :
  0 <= n -> n < 2 ^ Z.of_nat fuel ->
  exists k, 0 <= k /\ digits a (dec_digits fuel n acc) = digits (a * 10 ^ k + n) acc.
Proof.
  revert n acc a. induction fuel as [|fuel IH]; intros n acc a Hn Hf.
  { exists 0. simpl in *. split; [lia|]. f_equal. lia. }
  pose proof (Z.mod_pos_bound n 10 ltac:(lia)) as Hmod.
  cbn [dec_digits]. case_if.
  - exists 1. split; [lia|]. cbn [digits].
    rewrite isdigit_digit_char, digit_val_char by lia.
    rewrite Z.mod_small by lia. f_equal; lia.
  - destruct (IH (n / 10) (String (digit_char (n mod 10)) acc) a) as (k & Hk & ->).
    { apply Z.div_pos; lia. }
    { rewrite Nat2Z.inj_succ, Z.pow_succ_r in Hf by lia.
      apply Z.div_lt_upper_bound; lia. }
    exists (k + 1). split; [lia|]. cbn [digits].
    rewrite isdigit_digit_char, digit_val_char by lia. f_equal.
    rewrite Z.pow_add_r by lia. pose proof (Z_div_mod_eq_full n 10). lia.
Qed.

Lemma log2_fuel n : 0 <= n -> n < 2 ^ Z.of_nat (S (Z.to_nat (Z.log2 n))).
Proof.
  intros H. rewrite Nat2Z.inj_succ, Z2Nat.id by apply Z.log2_nonneg.
  destruct (decide (n = 0)) as [->|]; [done|]. apply Z.log2_spec. lia.
Qed.

(** A string all of whose characters satisfy a boolean test. *)
Fixpoint all_chars (P : ascii -> bool) (s : string) : bool :=
  match s with String c r => P c && all_chars P r | EmptyString => true end.

Lemma dec_digits_all fuel n acc :
  0 <= n -> all_chars isdigit acc = true -> all_chars isdigit (dec_digits fuel n acc) = true.
Proof.
  revert n acc. induction fuel as [|fuel IH]; intros n acc Hn Hacc; [done|].
  pose proof (Z.mod_pos_bound n 10 ltac:(lia)).
  assert (all_chars isdigit (String (digit_char (n mod 10)) acc) = true) as Hacc'.
  { cbn. rewrite isdigit_digit_char by lia. done. }
  cbn [dec_digits]. case_if; [done|]. apply IH; [apply Z.div_pos; lia|done].
Qed.

Lemma dec_digits_cons fuel n acc c r :
  acc = String c r -> exists c' r', dec_digits fuel n acc = String c' r'.
Proof.
  revert n acc c r. induction fuel as [|fuel IH]; intros n acc c r ->; [eauto|].
  cbn [dec_digits]. case_if; [eauto|]. eapply IH. done.
Qed.

Lemma render_nat_all n : 0 <= n -> all_chars isdigit (render_nat n) = true.
Proof. intros. by apply dec_digits_all. Qed.

Lemma render_nat_cons n : exists c r, render_nat n = String c r.
Proof.
  unfold render_nat. cbn [dec_digits]. case_if; [eauto|].
  by eapply dec_digits_cons.
Qed.

Lemma digits_render_nat n : 0 <= n -> digits 0 (render_nat n) = (n, "").
Proof.
  intros Hn. destruct (digits_dec_digits (S (Z.to_nat (Z.log2 n))) n "" 0)
    as (k & _ & Hk); [done|by apply log2_fuel|].
  unfold render_nat. rewrite Hk. simpl. f_equal; lia.
Qed.

(** A digit string has no sign and no leading blanks. *)
Lemma digit_prefix c r :
  isdigit c = true ->
  skip_spaces (String c r) = String c r /\ sign (String c r) = (false, String c r).
Proof.
  intros H. cbn. rewrite isdigit_not_space by done. split; [done|].
  unfold isdigit in H. bool_to_prop.
  destruct (Z.eqb_spec (code c) 45); [lia|]. destruct (Z.eqb_spec (code c) 43); [lia|]. done.
Qed.

(** Reading back what [%ld] printed. *)
Lemma strtol_render n : in_s64 n -> strtol (render n) = (n, "").
Proof.
  intros Hn. unfold strtol, render. case_if.
  - cbn [skip_spaces]. change (isspace "-") with false. cbv iota.
    cbn [sign]. change (code "-" =? 45) with true. cbv iota.
    pose proof (render_nat_all (- n)) as Hall. pose proof (digits_render_nat (- n)) as Hd.
    destruct (render_nat_cons (- n)) as (c & r & Hr). rewrite Hr in *.
    cbn [starts_with_digit]. cbn in Hall. destruct (isdigit c); [|by discriminate Hall; lia].
    rewrite Hd by lia. unfold clamp_long. f_equal. clia.
  - pose proof (render_nat_all n E) as Hall. pose proof (digits_render_nat n E) as Hd.
    destruct (render_nat_cons n) as (c & r & Hr). rewrite Hr in *.
    cbn in Hall. apply andb_true_iff in Hall as [Hc _].
    destruct (digit_prefix c r Hc) as [-> ->]. cbn [starts_with_digit].
    rewrite Hc, Hd. unfold clamp_long. f_equal. clia.
Qed.

Lemma atoi_render n : in_s32 n -> atoi (render n) = n.
Proof. intros H. unfold atoi. rewrite strtol_render by clia. by apply s32_id. Qed.

Lemma strtol_range s : in_s64 (strtol s).1.
Proof.
  unfold strtol. destruct (sign (skip_spaces s)) as [neg r].
  destruct (starts_with_digit r); [|simpl; clia].
  destruct (digits 0 r) as [v rest]. unfold clamp_long. simpl. clia.
Qed.

Lemma atoi_range s : in_s32 (atoi s).
Proof. apply s32_range. Qed.

(** [tok_split] gets shorter, so iterating [strtok] terminates. *)
Lemma tok_split_length delims s :
  (String.length (tok_split delims s).2 <= String.length s)%nat.
Proof.
  induction s as [|c r IH]; [done|]. cbn. destruct (strchr delims c); [cbn; lia|].
  destruct (tok_split delims r) as [t rest]. cbn in *. lia.
Qed.

Lemma skip_delims_length delims s :
  (String.length (skip_delims delims s) <= String.length s)%nat.
Proof. induction s as [|c r IH]; [done|]. cbn. destruct (strchr delims c); cbn; lia. Qed.

Lemma skip_delims_head delims s c r :
  skip_delims delims s = String c r -> strchr delims c = false.
Proof.
  induction s as [|c' s IH]; [done|]. cbn. destruct (strchr delims c') eqn:E; [done|].
  intros [= -> ->]. done.
Qed.

Lemma strtok_shrinks delims s t rest :
  strtok delims s = Some (t, rest) -> (String.length rest < String.length s)%nat.
Proof.
  unfold strtok. destruct (skip_delims delims s) as [|c r] eqn:E; [done|].
  intros [= Ht]. pose proof (skip_delims_length delims s) as Hl. rewrite E in Hl.
  pose proof (skip_delims_head _ _ _ _ E) as Hc. cbn in Ht, Hl. rewrite Hc in Ht.
  pose proof (tok_split_length delims r) as Hr.
  destruct (tok_split delims r) as [t' rest']. cbn in Hr. inv Ht. lia.
Qed.

(** Strings over the digits and the minus sign hold no comma. *)
Lemma render_chars n :
  all_chars (fun c => isdigit c || (code c =? 45)) (render n) = true.
Proof.
  assert (forall s, all_chars isdigit s = true ->
            all_chars (fun c => isdigit c || (code c =? 45)) s = true) as Hw.
  { induction s as [|c s IH]; [done|]. cbn. intros H. bool_to_prop.
    rewrite H. by rewrite IH. }
  unfold render. case_if; cbn; apply Hw, render_nat_all; lia.
Qed.

#[export] Hint Resolve strtol_range atoi_range : wk.
