(* ===== verification/Libc.v ===== *)
(** * Programs over the C library and the kernel

    A C function is a [prog]: a tree of the calls it makes ([sys]), each
    followed by a continuation on the answer.  The answers come from the
    environment: a [handler] over a world [W] of its own gives one for every
    call, and [run] executes a program against it.  Theorems quantify over
    the handler, so they hold for every behaviour of the kernel and the
    library that satisfies their hypotheses.  [traced] records the calls. *)

From S2P Require Import Prelude CInt CString.
From Stdlib Require SpecFloat.

(** ** Data of the library *)

Record timespec := Timespec { tv_sec : Z; tv_nsec : Z }.

#[export] Instance timespec_eq_dec : EqDecision timespec.
Proof. solve_decision. Defined.

(** The arguments of a formatted print, by conversion class; a [double] is
    given by the bits it was computed with (see [CFloat]). *)
Inductive parg :=
  | PInt (z : Z)
  | PStr (s : option string)
  | PDouble (d : SpecFloat.spec_float).

Inductive clock := CLOCK_MONOTONIC | CLOCK_MONOTONIC_RAW.
Inductive signo := SIGALRM | SIGIO | SIGUSR1 | SIGUSR2 | SIGSEGV | SIGKILL | SIGRT.

(** [struct perf_event_attr], the fields the programs set; [pe_sample] is the union
    of the period and the frequency, [pe_freq] chooses. *)
Record perf_event_attr := Perf_event_attr {
  pe_type : Z; pe_config : Z; pe_sample : Z; pe_freq : Z; pe_disabled : Z;
  pe_watermark : Z; pe_wakeup_events : Z
}.

(** ** The calls

    A file descriptor, a pid, a stream and an address are integers; a NULL
    pointer answer is [None].  [Run_reads] is the environment's choice of the
    values that the successive reads of a [volatile] flag, reset by a signal
    handler, will see. *)
Inductive sys : Type -> Type :=
  (* stdio *)
  | Printf (fmt : string) (args : list parg) : sys unit
  | Eprintf (fmt : string) (args : list parg) : sys unit
  | Perror (msg : option string) : sys unit
  | Strerror_errno : sys (option string)
  | Vasprintf (fmt : string) (args : list parg) : sys (option (Z * string))
  | Fopen (path mode : string) : sys (option Z)
  | Fprintf (f : Z) (fmt : string) (args : list parg) : sys unit
  | Fflush (f : Z) : sys unit
  | Fclose (f : Z) : sys unit
  | Fread (f : Z) (size : Z) : sys (list Z)
  | Fwrite (f : Z) (bytes : list Z) : sys Z
  (* memory *)
  | Malloc (size : Z) : sys (option Z)
  | Calloc (n size : Z) : sys (option Z)
  | Free (p : option Z) : sys unit
  | Memset (p : Z) (c n : Z) : sys unit
  | Mmap (len : Z) : sys Z
  | Munmap (p len : Z) : sys Z
  | Madvise (p len : Z) : sys Z
  | Getpagesize : sys Z
  (* time *)
  | Gettimeofday : sys (Z * Z)
  | Nanosleep (t : timespec) : sys Z
  | Usleep (us : Z) : sys Z
  | Clock_gettime (c : clock) : sys timespec
  | Setitimer_real (interval value : Z * Z) : sys Z
  (* signals *)
  | Sigemptyset : sys Z
  | Sigaction (s : signo) : sys Z
  | Run_reads : sys (list bool)
  (* processors *)
  | Nprocessors_onln : sys Z
  | Gettid : sys Z
  | Sched_setaffinity (tid : Z) (cpus : list Z) : sys Z
  | Sched_getcpu : sys Z
  (* files, pipes and sockets *)
  | Open (path : string) (flags mode : Z) : sys Z
  | Close (fd : Z) : sys Z
  | Read (fd n : Z) : sys (Z * list Z)
  | Write (fd : Z) (bytes : list Z) : sys Z
  | Pipe : sys (Z * (Z * Z))
  | Stat_isreg (path : string) : sys bool
  | Getenv (name : string) : sys (option string)
  | Socket : sys Z
  | Setsockopt_reuse (fd : Z) : sys Z
  | Gethostbyname (name : string) : sys (option (list Z))
  | Bind (fd : Z) (addr : list Z) (port : Z) : sys Z
  | Listen (fd backlog : Z) : sys Z
  | Accept (fd : Z) : sys Z
  | Connect (fd : Z) (addr : list Z) (port : Z) : sys Z
  | Poll_in (fd timeout : Z) : sys Z
  (* performance counters; the flags of [fcntl], the requests of [ioctl] *)
  | Perf_event_open (attr : perf_event_attr) (pid cpu group_fd flags : Z) : sys Z
  | Fcntl_setown (fd tid : Z) : sys Z
  | Fcntl_getfl (fd : Z) : sys Z
  | Fcntl_setfl_async (fd flags : Z) : sys Z
  | Ioctl (fd : Z) (request : string) (arg : Z) : sys Z
  (* threads; [Signals]: how many signals arrive during the next busy loop *)
  | Barrier_init (n : Z) : sys Z
  | Barrier_wait : sys Z
  | Pthread_create (i : Z) : sys Z
  | Pthread_join (i : Z) : sys Z
  | Signals : sys Z
  (* stack unwinding and tracepoints *)
  | Getcontext : sys Z
  | Unw_init : sys Z
  | Unw_step : sys Z
  | Unw_get_ip : sys Z
  | Unw_backtrace (max : Z) : sys (Z * list Z)
  | Tracepoint (provider name : string) (args : list Z) : sys unit
  (* processes *)
  | Fork : sys Z
  | Wait : sys Z
  | Waitpid (pid : Z) : sys Z
  | Sleep (sec : Z) : sys Z
  | Getpid : sys Z
  | Getppid : sys Z
  | Execv (path : string) (args : list string) : sys Z
  | Prctl_name (name : string) : sys Z
  | Sched_setscheduler_rr (prio : Z) : sys Z
  (* signals to oneself or to a thread; [error(0, errno, ...)] of the library *)
  | Signal (s : signo) (handler : string) : sys Z
  | Kill (s : signo) : sys Z
  | Pthread_kill (i : Z) (s : signo) : sys Z
  | Pthread_self : sys Z
  | Error_errno (msg : string) : sys unit
  (* record locks; connected sockets *)
  | Fcntl_setlkw (fd type : Z) : sys Z
  | Send (fd : Z) (bytes : list Z) : sys Z
  | Recv (fd n : Z) : sys (Z * list Z)
  | Shutdown (fd how : Z) : sys Z
  | Getsockname (fd : Z) : sys (Z * Z * (Z * Z))
  | Omp_get_num_procs : sys Z
  | Clone_thread_sighand (stack : Z) : sys Z
  (* the rest of stdio: a print whose status the caller looks at *)
  | Fprintf_status (f : Z) (fmt : string) (args : list parg) : sys Z
  | Tracepoint_args (provider name : string) (args : list parg) : sys unit
  (* libsensors: chips, features and subfeatures are handles *)
  | Sensors_init : sys Z
  | Sensors_cleanup : sys unit
  | Sensors_strerror (err : Z) : sys (option string)
  | Sensors_snprintf_chip_name (chip size : Z) : sys (Z * string)
  | Sensors_get_detected_chips (nr : Z) : sys (option (Z * string) * Z)
  | Sensors_get_features (chip nr : Z) : sys (option (Z * string * Z) * Z)
  | Sensors_get_label (chip feature : Z) : sys (option (Z * string))
  | Sensors_get_subfeature (chip feature type : Z) : sys (option (string * Z))
  | Sensors_get_value (chip number : Z) : sys (Z * SpecFloat.spec_float)
  (* libasound: the status, and the handle it leaves *)
  | Snd_pcm_open (device : string) : sys (Z * option Z)
  | Snd_pcm_set_params (handle : option Z) (channels rate soft_resample latency : Z) : sys Z
  | Snd_pcm_wait (handle : option Z) (timeout : Z) : sys Z
  | Snd_pcm_writei (handle : option Z) (bytes : list Z) (frames : Z) : sys Z
  | Snd_pcm_close (handle : Z) : sys Z
  | Snd_pcm_hw_params_free (params : option Z) : sys unit
  | Snd_strerror (status : Z) : sys (option string)
  (* a busy loop of so many turns, as its callers see it *)
  | Busy (turns : Z) : sys unit
  (* the spin library, as its clients see it *)
  | Spin_init (n : Z) : sys unit
  | Spin_run (usec : Z) : sys unit
  | Spin_exit : sys unit.

(** ** Programs *)

(** [Exit] ends the process, [Undef] is an operation the language leaves
    undefined (a NULL dereference, a division by zero, a write outside an
    object), and [Fuel] is a loop cut by the model, which the theorems
    exclude. *)
Inductive prog (A : Type) : Type :=
  | Ret (a : A)
  | Exit (status : Z)
  | Undef (why : string)
  | Fuel
  | Vis {X : Type} (e : sys X) (k : X -> prog A).

Arguments Ret {A} a.
Arguments Exit {A} status.
Arguments Undef {A} why.
Arguments Fuel {A}.
Arguments Vis {A X} e k.

Definition call {X} (e : sys X) : prog X := Vis e Ret.

#[export] Instance prog_ret : MRet prog := fun A a => Ret a.
#[export] Instance prog_bind : MBind prog :=
  fun A B f => fix go (m : prog A) : prog B :=
    match m with
    | Ret a => f a
    | Exit s => Exit s
    | Undef w => Undef w
    | Fuel => Fuel
    | Vis e k => Vis e (fun x => go (k x))
    end.

(** [for (i = i0; ...; i++)], [n] turns, threading the state [s]. *)
Fixpoint for_ {S : Type} (n : nat) (i : Z) (body : Z -> S -> prog S) (s : S) : prog S :=
  match n with
  | O => Ret s
  | S n => s' ← body i s ; for_ n (i + 1) body s'
  end.

(** ** Execution *)

Inductive outcome (A : Type) :=
  | Done (a : A)
  | Exited (status : Z)
  | Undefined (why : string)
  | Out_of_fuel.

Arguments Done {A} a.
Arguments Exited {A} status.
Arguments Undefined {A} why.
Arguments Out_of_fuel {A}.

Definition handler (W : Type) : Type := forall X, sys X -> W -> X * W.

Fixpoint run {W A} (h : handler W) (p : prog A) (w : W) : outcome A * W :=
  match p with
  | Ret a => (Done a, w)
  | Exit s => (Exited s, w)
  | Undef r => (Undefined r, w)
  | Fuel => (Out_of_fuel, w)
  | Vis e k => let '(x, w') := h _ e w in run h (k x) w'
  end.

(** What to do with the outcome of the first part of a sequence. *)
Definition and_then {W A B} (r : outcome A * W) (f : A -> W -> outcome B * W)
  : outcome B * W :=
  match r with
  | (Done a, w) => f a w
  | (Exited s, w) => (Exited s, w)
  | (Undefined r, w) => (Undefined r, w)
  | (Out_of_fuel, w) => (Out_of_fuel, w)
  end.

(** ** Traces *)

Inductive ev := | Ev {X : Type} (e : sys X) (x : X).

Definition traced {W} (h : handler W) : handler (W * list ev) :=
  fun X e wl => let '(x, w') := h X e wl.1 in (x, (w', wl.2 ++ [Ev e x])).

(** ** Default answers: every call succeeds with the least it can return *)
Definition default_answer {X} (e : sys X) : X :=
  match e in sys X return X with
  | Printf _ _ | Eprintf _ _ | Perror _ | Fprintf _ _ _ | Fflush _ | Fclose _
  | Free _ | Memset _ _ _ | Busy _ | Error_errno _ | Tracepoint _ _ _ | Tracepoint_args _ _ _
  | Sensors_cleanup | Spin_init _ | Spin_run _ | Spin_exit => tt
  | Vasprintf _ _ | Strerror_errno => None
  | Fopen _ _ | Malloc _ | Calloc _ _ => Some 1
  | Fread _ _ => []
  | Fwrite _ _ => 1
  | Mmap _ | Munmap _ _ | Madvise _ _ => 0
  | Getpagesize => 4096
  | Gettimeofday => (0, 0)
  | Nanosleep _ | Usleep _ | Setitimer_real _ _ | Sigemptyset | Sigaction _ => 0
  | Clock_gettime _ => Timespec 0 0
  | Run_reads => []
  | Nprocessors_onln | Gettid => 1
  | Sched_setaffinity _ _ | Sched_getcpu => 0
  | Open _ _ _ | Socket => 3
  | Close _ | Setsockopt_reuse _ | Bind _ _ _ | Listen _ _ | Connect _ _ _ => 0
  | Read _ _ => (0, [])
  | Write _ bytes => Z.of_nat (length bytes)
  | Pipe => (0, (3, 4))
  | Stat_isreg _ => false
  | Getenv _ => None
  | Gethostbyname _ => Some [127; 0; 0; 1]
  | Accept _ => 4
  | Poll_in _ _ => 1
  | Perf_event_open _ _ _ _ _ => 3
  | Fcntl_setown _ _ | Fcntl_getfl _ | Fcntl_setfl_async _ _ | Ioctl _ _ _ => 0
  | Barrier_init _ | Barrier_wait | Pthread_create _ | Pthread_join _ | Signals => 0
  | Getcontext | Unw_init | Unw_step | Unw_get_ip => 0
  | Unw_backtrace _ => (0, [])
  | Fork => 1
  | Wait => 1
  | Waitpid pid => pid
  | Sleep _ | Prctl_name _ | Sched_setscheduler_rr _ | Signal _ _ | Kill _ | Pthread_kill _ _
  | Fcntl_setlkw _ _ | Shutdown _ _ => 0
  | Execv _ _ | Clone_thread_sighand _ => -1
  | Getpid | Getppid | Pthread_self | Omp_get_num_procs => 1
  | Send _ bytes => Z.of_nat (length bytes)
  | Recv _ _ => (0, [])
  | Getsockname _ => (0, 16, (0, 0))
  | Fprintf_status _ _ _ | Sensors_init => 0
  | Sensors_strerror _ => None
  | Sensors_snprintf_chip_name _ _ => (0, "chip"%string)
  | Sensors_get_detected_chips nr => (None, nr)
  | Sensors_get_features _ nr => (None, nr)
  | Sensors_get_label _ _ | Sensors_get_subfeature _ _ _ => None
  | Sensors_get_value _ _ => (0, SpecFloat.S754_zero false)
  | Snd_pcm_open _ => (0, Some 1)
  | Snd_pcm_writei _ _ frames => frames
  | Snd_pcm_set_params _ _ _ _ _ | Snd_pcm_wait _ _ | Snd_pcm_close _ => 0
  | Snd_pcm_hw_params_free _ => tt
  | Snd_strerror _ => None
  end.

Definition default_handler {W} : handler W := fun X e w => (default_answer e, w).

(** ** Lemmas *)

Create HintDb wk_fuelled.

Lemma run_bind {W A B} (h : handler W) (m : prog A) (f : A -> prog B) w :
  run h (m ≫= f) w = and_then (run h m w) (fun a w' => run h (f a) w').
Proof.
  revert w. induction m as [a|s|r| |X e k IH]; intros w; try done.
  cbn. destruct (h X e w) as [x w']. apply IH.
Qed.

Lemma run_call {W X} (h : handler W) (e : sys X) w :
  run h (call e) w = (Done (h X e w).1, (h X e w).2).
Proof. cbn. by destruct (h X e w). Qed.

Lemma run_for_0 {W S} (h : handler W) i body (s : S) w :
  run h (for_ 0 i body s) w = (Done s, w).
Proof. done. Qed.

Lemma run_for_S {W S} (h : handler W) n i body (s : S) w :
  run h (for_ (Datatypes.S n) i body s) w
  = and_then (run h (body i s) w) (fun s' w' => run h (for_ n (i + 1) body s') w').
Proof. cbn [for_]. apply run_bind. Qed.

Lemma run_ret {W A} (h : handler W) (a : A) w : run h (Ret a) w = (Done a, w).
Proof. done. Qed.

(** [p] has fuel enough, whatever the world. *)
Definition fuelled {W A} (h : handler W) (p : prog A) : Prop := forall w, (run h p w).1 <> Out_of_fuel.

Lemma fuelled_ret {W A} (h : handler W) (a : A) : fuelled h (Ret a).
Proof. by intros w. Qed.
Lemma fuelled_exit {W A} (h : handler W) s : fuelled h (Exit (A := A) s).
Proof. by intros w. Qed.
Lemma fuelled_undef {W A} (h : handler W) why : fuelled h (Undef (A := A) why).
Proof. by intros w. Qed.
Lemma fuelled_call {W X} (h : handler W) (e : sys X) : fuelled h (call e).
Proof. intros w. by rewrite run_call. Qed.

Lemma fuelled_bind {W A B} (h : handler W) (p : prog A) (f : A -> prog B) :
  fuelled h p -> (forall a, fuelled h (f a)) -> fuelled h (p ≫= f).
Proof.
  intros Hp Hf w. specialize (Hp w). rewrite run_bind.
  destruct (run h p w) as [[a|s|why|] w']; cbn in *; [apply Hf|done..].
Qed.

(** Only the answers that the environment gives matter. *)
Lemma fuelled_answer {W X B} (h : handler W) (e : sys X) (f : X -> prog B) :
  (forall w, fuelled h (f (h _ e w).1)) -> fuelled h (call e ≫= f).
Proof. intros Hf w. rewrite run_bind, run_call. apply Hf. Qed.

Lemma fuelled_for {W S} (h : handler W) (body : Z -> S -> prog S) n i s :
  (forall j s, fuelled h (body j s)) -> fuelled h (for_ n i body s).
Proof.
  intros Hb. revert i s. induction n as [|n IH]; intros i s; cbn [for_]; [apply fuelled_ret|].
  by apply fuelled_bind.
Qed.

(** Walk through a program without loops of its own. *)
Ltac walk_fuelled :=
  repeat first
    [ progress intros
    | match goal with
      | |- fuelled _ (Ret _) => apply fuelled_ret
      | |- fuelled _ (Exit _) => apply fuelled_exit
      | |- fuelled _ (Undef _) => apply fuelled_undef
      | |- fuelled _ (call _) => apply fuelled_call
      | |- fuelled _ (mbind _ _) => apply fuelled_bind
      | |- fuelled _ (match ?x with _ => _ end) => destruct x
      end
    | solve [auto with wk_fuelled] ].

(** An invariant of a loop: if each turn from an invariant state is done and
    keeps it, so does the loop. *)
Lemma run_for_invariant {W S} (h : handler W) (Inv : Z -> S -> W -> Prop) body n i s w :
  (forall j s w, i <= j < i + Z.of_nat n -> Inv j s w ->
     exists s' w', run h (body j s) w = (Done s', w') /\ Inv (j + 1) s' w') ->
  Inv i s w ->
  exists s' w', run h (for_ n i body s) w = (Done s', w') /\ Inv (i + Z.of_nat n) s' w'.
Proof.
  revert i s w. induction n as [|n IH]; intros i s w Hbody Hinv.
  { exists s, w. split; [done|]. by replace (i + Z.of_nat 0) with i by lia. }
  rewrite run_for_S.
  destruct (Hbody i s w ltac:(lia) Hinv) as (s' & w' & -> & Hinv').
  cbn [and_then].
  destruct (IH (i + 1) s' w') as (s'' & w'' & -> & Hinv''); [|done|].
  { intros j s0 w0 Hj. apply Hbody. lia. }
  exists s'', w''. split; [done|].
  by replace (i + Z.of_nat (Datatypes.S n)) with (i + 1 + Z.of_nat n) by lia.
Qed.

(** A left fold with the index of the element. *)
Fixpoint ifold {D S : Type} (f : Z -> D -> S -> S) (i : Z) (ds : list D) (s : S) : S :=
  match ds with
  | [] => s
  | d :: ds => ifold f (i + 1) ds (f i d s)
  end.

Lemma ifold_app {D S} (f : Z -> D -> S -> S) i ds1 ds2 s :
  ifold f i (ds1 ++ ds2) s = ifold f (i + Z.of_nat (length ds1)) ds2 (ifold f i ds1 s).
Proof.
  revert i s. induction ds1 as [|d ds1 IH]; intros i s; cbn [ifold app length].
  - f_equal. lia.
  - rewrite IH. f_equal. lia.
Qed.

Lemma ifold_const {D S} i (ds : list D) (s : S) : ifold (fun _ _ s => s) i ds s = s.
Proof. revert i. induction ds as [|d ds IH]; intros i; [done|]. apply IH. Qed.

Lemma ifold_foldl {D S} (f : S -> D -> S) i (ds : list D) (s : S) :
  ifold (fun _ d s => f s d) i ds s = foldl f s ds.
Proof. revert i s. induction ds as [|d ds IH]; intros i s; [done|]. apply IH. Qed.

(** A loop whose turns are deterministic functions of an indexed list is a
    fold, on its state and on the world. *)
Lemma run_for_fold {W S D} (h : handler W) (F : Z -> D -> S -> S) (G : Z -> D -> W -> W)
    body (ds : list D) i s w :
  (forall (j : nat) d s w, ds !! j = Some d ->
     run h (body (i + Z.of_nat j) s) w
     = (Done (F (i + Z.of_nat j) d s), G (i + Z.of_nat j) d w)) ->
  run h (for_ (length ds) i body s) w = (Done (ifold F i ds s), ifold G i ds w).
Proof.
  revert i s w. induction ds as [|d ds IH]; intros i s w Hb; [done|].
  cbn [length]. rewrite run_for_S.
  specialize (Hb 0%nat d s w eq_refl) as H0. rewrite Z.add_0_r in H0. rewrite H0.
  cbn [and_then ifold]. apply IH. intros j d' s' w' Hj.
  specialize (Hb (Datatypes.S j) d' s' w' Hj).
  by replace (i + 1 + Z.of_nat j) with (i + Z.of_nat (Datatypes.S j)) by lia.
Qed.

Lemma run_traced_call {W X} (h : handler W) (e : sys X) w tr :
  run (traced h) (call e) (w, tr)
  = (Done (h X e w).1, ((h X e w).2, tr ++ [Ev e (h X e w).1])).
Proof. unfold call, traced. cbn [run fst snd]. destruct (h X e w). reflexivity. Qed.

(** A call without a result. *)
Lemma run_traced_unit {W} (h : handler W) (e : sys unit) w tr :
  run (traced h) (call e) (w, tr) = (Done tt, ((h unit e w).2, tr ++ [Ev e tt])).
Proof. rewrite run_traced_call. by destruct (h unit e w).1. Qed.

Lemma run_unit {W} (h : handler W) (e : sys unit) w :
  run h (call e) w = (Done tt, (h unit e w).2).
Proof. rewrite run_call. by destruct (h unit e w).1. Qed.

(** The instants the monotonic clock answered in a trace. *)
Definition clock_reading (e : ev) : option timespec :=
  match e with
  | Ev e x =>
      match e in sys X return X -> option timespec with
      | Clock_gettime CLOCK_MONOTONIC => fun t => Some t
      | _ => fun _ => None
      end x
  end.

Definition clock_readings (tr : list ev) : list timespec := omap clock_reading tr.

Lemma clock_readings_app tr1 tr2 :
  clock_readings (tr1 ++ tr2) = clock_readings tr1 ++ clock_readings tr2.
Proof. unfold clock_readings. by rewrite omap_app. Qed.

#[export] Hint Rewrite @run_bind @run_call @run_ret : wk_run.

(** Execute the head of a program symbolically. *)
Ltac step_run :=
  cbn [and_then fst snd];
  repeat (first [rewrite run_bind | rewrite run_traced_unit | rewrite run_traced_call | rewrite run_unit
    | rewrite run_call | rewrite run_ret];
          cbn [and_then fst snd]).
