(* ===== verification/Notes.v ===== *)
(** * What a program shows

    Most theorems about programs speak of a few of their calls only: the rows
    they write, the work they do.  A component says which events it observes
    ([note_of]); [shows h p P] is total correctness against a handler: from
    every world and trace [p] runs to its end, and its result and what it has
    shown satisfy [P]. *)

From S2P Require Import Prelude Libc.

Local Open Scope list_scope.

Section notes.
Context {N : Type} (note_of : ev -> option N).

Definition notes (tr : list ev) : list N := omap note_of tr.

Lemma notes_app tr1 tr2 : notes (tr1 ++ tr2) = notes tr1 ++ notes tr2.
Proof. unfold notes. by rewrite omap_app. Qed.

Lemma notes_cons e tr : notes (e :: tr) = option_list (note_of e) ++ notes tr.
Proof. unfold notes. cbn. by destruct (note_of e). Qed.

(** [p] ends with [a] and shows [l]. *)
Definition shows {W A} (h : handler W) (p : prog A) (P : A -> list N -> Prop) : Prop :=
  forall w tr, exists a w' tr',
    run (traced h) p (w, tr) = (Done a, (w', tr ++ tr')) /\ P a (notes tr').

Lemma shows_bind {W A B} (h : handler W) (p : prog A) (f : A -> prog B) (P : A -> list N -> Prop)
    (Q : B -> list N -> Prop) :
  shows h p P ->
  (forall a l, P a l -> shows h (f a) (fun b k => Q b (l ++ k))) -> shows h (p ≫= f) Q.
Proof.
  intros Hp Hf w tr. destruct (Hp w tr) as (a & w1 & tr1 & H1 & HP).
  destruct (Hf a _ HP w1 (tr ++ tr1)) as (b & w2 & tr2 & H2 & HQ).
  exists b, w2, (tr1 ++ tr2). rewrite run_bind, H1. cbn [and_then]. rewrite H2, <- app_assoc.
  split; [done|]. by rewrite notes_app.
Qed.

Lemma shows_ret {W A} (h : handler W) (a : A) (Q : A -> list N -> Prop) : Q a [] -> shows h (Ret a) Q.
Proof. intros H w tr. exists a, w, []. by rewrite app_nil_r. Qed.

Lemma shows_call {W X} (h : handler W) (e : sys X) (Q : X -> list N -> Prop) :
  (forall w, Q (h _ e w).1 (option_list (note_of (Ev e (h _ e w).1)))) -> shows h (call e) Q.
Proof.
  intros H w tr. rewrite run_traced_call. do 3 eexists. split; [reflexivity|].
  rewrite notes_cons, app_nil_r. apply H.
Qed.

Lemma shows_weaken {W A} (h : handler W) (p : prog A) (P Q : A -> list N -> Prop) :
  shows h p P -> (forall a l, P a l -> Q a l) -> shows h p Q.
Proof.
  intros Hp HPQ w tr. destruct (Hp w tr) as (a & w' & tr' & H & HP). exists a, w', tr'. eauto.
Qed.

Lemma shows_for {W S} (h : handler W) (Inv : Z -> S -> list N -> Prop) body n i s :
  Inv i s [] ->
  (forall j s l, i <= j < i + Z.of_nat n -> Inv j s l ->
     shows h (body j s) (fun s' k => Inv (j + 1) s' (l ++ k))) ->
  shows h (for_ n i body s) (Inv (i + Z.of_nat n)).
Proof.
  intros H0 Hb w tr.
  destruct (run_for_invariant (traced h)
    (fun j s '(w', tr') => exists tr1, tr' = tr ++ tr1 /\ Inv j s (notes tr1)) body n i s (w, tr))
    as (s' & [w' tr'] & Hr & tr1 & -> & HI).
  - intros j s1 [w1 tr1] Hj (tr2 & -> & HI).
    destruct (Hb j s1 _ Hj HI w1 (tr ++ tr2)) as (s2 & w2 & tr3 & Hr & H2).
    do 2 eexists. split; [exact Hr|]. exists (tr2 ++ tr3). by rewrite notes_app, app_assoc.
  - exists []. by rewrite app_nil_r.
  - by exists s', w', tr1.
Qed.

(** Programs that show nothing. *)
Definition silent {W A} (h : handler W) (p : prog A) : Prop := shows h p (fun _ l => l = []).

Lemma silent_call {W X} (h : handler W) (e : sys X) : (forall x, note_of (Ev e x) = None) -> silent h (call e).
Proof. intros H. apply shows_call. intros w. by rewrite H. Qed.

Lemma silent_bind {W A B} (h : handler W) (p : prog A) (f : A -> prog B) (Q : B -> list N -> Prop) :
  silent h p -> (forall a, shows h (f a) Q) -> shows h (p ≫= f) Q.
Proof. intros Hp Hf. eapply shows_bind; [exact Hp|]. intros a l ->. apply Hf. Qed.

Lemma silent_ret {W A} (h : handler W) (a : A) : silent h (Ret a).
Proof. by apply shows_ret. Qed.


End notes.

#[export] Hint Resolve silent_ret silent_call : wk.

Arguments shows_bind {N note_of W A B} h p f P Q.
Arguments shows_ret {N note_of W A} h a Q.
Arguments shows_call {N note_of W X} h e Q.
Arguments shows_weaken {N note_of W A} h p P Q.
Arguments shows_for {N note_of W S} h Inv body n i s.
Arguments silent_call {N note_of W X} h e.
Arguments silent_bind {N note_of W A B} h p f Q.
Arguments silent_ret {N note_of W A} h a.
