(* ===== verification/CFloat.v ===== *)
(** * C doubles

    The [double] arithmetic of the sources, on the IEEE 754 binary64
    specification of the Standard Library ([SpecFloat] at precision 53 and
    maximal exponent 1024, rounding to nearest even): every operation is
    executable and rounds as the hardware does.  The lemmas show that on
    integers below 2^53 the operations the sources use are exact. *)

From S2P Require Import Prelude CInt.
From Stdlib Require Export SpecFloat.

Definition prec : Z := 53.
Definition emax : Z := 1024.
Abbreviation double := spec_float.

(** [(double) z] for an integer [z]. *)
Definition double_of_Z (z : Z) : double := binary_normalize prec emax z 0 false.
Definition dadd : double -> double -> double := SFadd prec emax.
Definition dsub : double -> double -> double := SFsub prec emax.
Definition dmul : double -> double -> double := SFmul prec emax.
Definition ddiv : double -> double -> double := SFdiv prec emax.
Definition dsqrt : double -> double := SFsqrt prec emax.
Definition dltb : double -> double -> bool := SFltb.

(** [float] is binary32: the rounding of a double to it, its sum, and
    [a != b] (a NaN differs from everything, the two zeros are equal). *)
Abbreviation float := spec_float.
Definition float_of_double (d : double) : float :=
  match d with
  | S754_finite s m e => binary_round 24 128 s m e
  | d => d
  end.
Definition fadd : float -> float -> float := SFadd 24 128.
Definition fneqb (a b : float) : bool := negb (SFeqb a b).

(** [(long) d]: truncation towards zero; undefined outside [long]. *)
Definition long_of_double (d : double) : option Z :=
  let trunc s m e :=
    let a := if 0 <=? e then Zpos m * 2 ^ e else Zpos m / 2 ^ (- e) in
    if s : bool then - a else a in
  match d with
  | S754_zero _ => Some 0
  | S754_finite s m e =>
      let z := trunc s m e in
      if (LONG_MIN <=? z) && (z <=? LONG_MAX) then Some z else None
  | _ => None
  end.

(** ** Canonical floats of integers *)

Definition bits (z : Z) : Z := Z.log2 z + 1.

Definition canon (s : bool) (z : Z) : double :=
  S754_finite s (Z.to_pos (z * 2 ^ (prec - bits z))) (bits z - prec).

Lemma digits2_pos_bits p : Zpos (digits2_pos p) = bits (Zpos p).
Proof.
  unfold bits. induction p as [p IH|p IH|]; cbn [digits2_pos]; [..|done];
    rewrite Pos2Z.inj_succ, IH.
  - change (Zpos p~1) with (2 * Zpos p + 1). rewrite Z.log2_succ_double by lia. lia.
  - change (Zpos p~0) with (2 * Zpos p). rewrite Z.log2_double by lia. lia.
Qed.

Lemma Zdigits2_bits z : 0 < z -> Zdigits2 z = bits z.
Proof. intros. destruct z; try lia. apply digits2_pos_bits. Qed.

Lemma bits_mul_pow2 z k : 0 < z -> 0 <= k -> bits (z * 2 ^ k) = bits z + k.
Proof. intros. unfold bits. rewrite Z.log2_mul_pow2 by lia. lia. Qed.

Lemma bits_pos z : 0 < z -> 1 <= bits z.
Proof. intros. unfold bits. pose proof (Z.log2_nonneg z). lia. Qed.

Lemma bits_le z n : 0 < z -> 0 <= n -> z < 2 ^ n -> bits z <= n.
Proof. intros. unfold bits. assert (Z.log2 z < n); [|lia]. by apply Z.log2_lt_pow2. Qed.

Lemma bits_mul_lower a b : 0 < a -> 0 < b -> bits a + bits b - 1 <= bits (a * b).
Proof. intros. unfold bits. pose proof (Z.log2_mul_below a b). lia. Qed.

Lemma fexp_bits z : 0 < z -> fexp prec emax (bits z) = bits z - prec.
Proof.
  intros. pose proof (bits_pos z). unfold fexp, emin, prec, emax. lia.
Qed.

Definition mrs0 (z : Z) : shr_record := Build_shr_record z false false.

Lemma shr_1_double z : 0 <= z -> shr_1 (mrs0 (z * 2)) = mrs0 z.
Proof. intros. destruct z; try lia; [done|]. by rewrite <- Pos2Z.inj_mul, Pos.mul_comm. Qed.

Lemma iter_shr_1 p z : 0 <= z -> iter_pos shr_1 p (mrs0 (z * 2 ^ Zpos p)) = mrs0 z.
Proof.
  revert z. induction p as [p IH|p IH|]; intros z Hz; cbn [iter_pos].
  - replace (z * 2 ^ Zpos p~1) with ((z * 2 ^ Zpos p) * 2 ^ Zpos p * 2).
    + rewrite shr_1_double by nia. rewrite IH by nia. by apply IH.
    + change (Zpos p~1) with (2 * Zpos p + 1). rewrite Z.pow_add_r, Z.pow_mul_r by lia.
      rewrite Z.pow_1_r. replace (2 ^ 2) with (2 * 2) by done. rewrite Z.pow_mul_l. lia.
  - replace (z * 2 ^ Zpos p~0) with ((z * 2 ^ Zpos p) * 2 ^ Zpos p).
    + rewrite IH by nia. by apply IH.
    + change (Zpos p~0) with (2 * Zpos p). rewrite Z.pow_mul_r by lia.
      replace (2 ^ 2) with (2 * 2) by done. rewrite Z.pow_mul_l. lia.
  - rewrite Z.pow_1_r. by apply shr_1_double.
Qed.

Lemma shr_exact z e n : 0 <= z -> 0 <= n -> shr (mrs0 (z * 2 ^ n)) e n = (mrs0 z, e + n).
Proof.
  intros Hz Hn. destruct n as [|p|p]; try lia.
  - cbn. rewrite Z.mul_1_r, Z.add_0_r. done.
  - unfold shr. by rewrite iter_shr_1.
Qed.

(** Rounding an integer written with [k] extra low zero bits is exact. *)
Lemma binary_round_aux_exact s z k :
  0 < z -> z < 2 ^ prec -> 0 <= k -> prec - bits z <= k ->
  binary_round_aux prec emax s (z * 2 ^ k) (- k) loc_Exact = canon s z.
Proof.
  intros Hz Hlt Hk Hbk.
  pose proof (bits_le z prec Hz ltac:(done) Hlt) as Hb. pose proof (bits_pos z Hz).
  assert (0 < 2 ^ (prec - bits z)) as Hp by (apply Z.pow_pos_nonneg; lia).
  unfold binary_round_aux, shr_fexp.
  rewrite Zdigits2_bits, bits_mul_pow2 by nia.
  replace (bits z + k + - k) with (bits z) by lia. rewrite fexp_bits by done.
  replace (z * 2 ^ k) with (z * 2 ^ (prec - bits z) * 2 ^ (bits z - prec - - k)).
  2:{ rewrite <- Z.mul_assoc, <- Z.pow_add_r by lia. do 2 f_equal. lia. }
  cbn [shr_record_of_loc]. change (Build_shr_record ?x false false) with (mrs0 x).
  rewrite shr_exact by lia.
  cbn [mrs0 shr_m loc_of_shr_record round_nearest_even shr_record_of_loc].
  rewrite Zdigits2_bits, bits_mul_pow2 by nia.
  replace (bits z + (prec - bits z) + (- k + (bits z - prec - - k))) with (bits z) by lia.
  rewrite fexp_bits by done.
  replace (bits z - prec - (- k + (bits z - prec - - k))) with 0 by lia.
  cbn [shr shr_m]. unfold canon.
  replace (- k + (bits z - prec - - k)) with (bits z - prec) by lia.
  destruct (z * 2 ^ (prec - bits z)) eqn:E; try lia. cbn [Z.to_pos].
  replace (bits z - prec <=? emax - prec) with true; [done|].
  symmetry. apply Z.leb_le. unfold emax, prec in *. lia.
Qed.

Lemma iter_xO p d : Zpos (Pos.iter xO p d) = Zpos p * 2 ^ Zpos d.
Proof.
  revert p. induction d as [|d IH] using Pos.peano_ind; intros p.
  - cbn. lia.
  - rewrite Pos.iter_succ, Pos2Z.inj_succ, Z.pow_succ_r by lia.
    change (Zpos (Pos.iter xO p d)~0) with (2 * Zpos (Pos.iter xO p d)). rewrite IH. lia.
Qed.

Lemma binary_round_exact s p z j :
  Zpos p = z * 2 ^ j -> 0 < z -> z < 2 ^ prec -> 0 <= j ->
  binary_round prec emax s p (- j) = canon s z.
Proof.
  intros Hp Hz Hlt Hj. unfold binary_round.
  pose proof (bits_le z prec Hz ltac:(done) Hlt) as Hb.
  rewrite digits2_pos_bits, Hp, bits_mul_pow2 by lia.
  replace (bits z + j + - j) with (bits z) by lia. rewrite fexp_bits by done.
  unfold shl_align. destruct (bits z - prec - - j) as [|d|d] eqn:Hd.
  - rewrite Hp. apply binary_round_aux_exact; lia.
  - rewrite Hp. apply binary_round_aux_exact; lia.
  - rewrite iter_xO, Hp, <- Z.mul_assoc, <- Z.pow_add_r by lia.
    replace (bits z - prec) with (- (j + Zpos d)) by lia.
    apply binary_round_aux_exact; lia.
Qed.

(** The double of an integer, by sign. *)
Definition dcanon (z : Z) : double :=
  if z =? 0 then S754_zero false else canon (z <? 0) (Z.abs z).

Lemma binary_normalize_exact z j :
  Z.abs z < 2 ^ prec -> 0 <= j ->
  binary_normalize prec emax (z * 2 ^ j) (- j) false = dcanon z.
Proof.
  intros Hlt Hj. assert (0 < 2 ^ j) by (apply Z.pow_pos_nonneg; lia).
  unfold dcanon. destruct (Z.eqb_spec z 0) as [->|Hz]; [done|].
  destruct (Z.ltb_spec z 0).
  - destruct (z * 2 ^ j) as [|p|p] eqn:E; [lia|nia|]. cbn.
    apply binary_round_exact; [|lia..].
    replace (Z.abs z) with (- z) by lia. rewrite Z.mul_opp_l, E. done.
  - destruct (z * 2 ^ j) as [|p|p] eqn:E; [lia| |nia]. cbn.
    apply binary_round_exact; [|lia..]. replace (Z.abs z) with z by lia. done.
Qed.

Lemma double_of_Z_canon z : Z.abs z < 2 ^ prec -> double_of_Z z = dcanon z.
Proof.
  intros. unfold double_of_Z. rewrite <- (binary_normalize_exact z 0) by lia.
  f_equal. lia.
Qed.

(** ** Exactness *)

Lemma canon_mantissa z :
  0 < z -> z < 2 ^ prec -> Zpos (Z.to_pos (z * 2 ^ (prec - bits z))) = z * 2 ^ (prec - bits z).
Proof.
  intros Hz Hlt. pose proof (bits_le z prec Hz ltac:(done) Hlt).
  apply Z2Pos.id. assert (0 < 2 ^ (prec - bits z)) by (apply Z.pow_pos_nonneg; lia). nia.
Qed.

(** The product with a positive integer. *)
Lemma dmul_exact a b :
  Z.abs a < 2 ^ prec -> 0 < b < 2 ^ prec -> Z.abs (a * b) < 2 ^ prec ->
  dmul (double_of_Z a) (double_of_Z b) = double_of_Z (a * b).
Proof.
  intros Ha Hb Hab. rewrite !double_of_Z_canon by lia. unfold dcanon.
  replace (b =? 0) with false by lia. replace (b <? 0) with false by lia.
  destruct (Z.eqb_spec a 0) as [->|Hz]; [done|].
  replace (a * b =? 0) with false by nia.
  replace (a * b <? 0) with (a <? 0) by (destruct (Z.ltb_spec a 0), (Z.ltb_spec (a * b) 0); nia).
  unfold dmul, canon, SFmul. rewrite xorb_false_r, Z.abs_mul, (Z.abs_eq b) by lia.
  rewrite Pos2Z.inj_mul, !canon_mantissa by lia.
  pose proof (bits_mul_lower (Z.abs a) b ltac:(lia) ltac:(lia)).
  pose proof (bits_le (Z.abs a) prec ltac:(lia) ltac:(done) ltac:(lia)).
  pose proof (bits_le b prec ltac:(lia) ltac:(done) ltac:(lia)).
  replace (Z.abs a * 2 ^ (prec - bits (Z.abs a)) * (b * 2 ^ (prec - bits b)))
    with (Z.abs a * b * 2 ^ ((prec - bits (Z.abs a)) + (prec - bits b)))
    by (rewrite Z.pow_add_r by lia; lia).
  replace (bits (Z.abs a) - prec + (bits b - prec))
    with (- ((prec - bits (Z.abs a)) + (prec - bits b))) by lia.
  apply binary_round_aux_exact; [nia| |lia|unfold prec in *; lia].
  rewrite Z.abs_mul, (Z.abs_eq b) in Hab by lia. done.
Qed.

Lemma shl_align_fst p e e' :
  e' <= e -> Zpos (fst (shl_align p e e')) = Zpos p * 2 ^ (e - e').
Proof.
  intros H. unfold shl_align. destruct (e' - e) as [|d|d] eqn:E; try lia; cbn [fst].
  - replace (e - e') with 0 by lia. lia.
  - rewrite iter_xO. do 2 f_equal. lia.
Qed.

Lemma cond_Zopp_abs z : cond_Zopp (z <? 0) (Z.abs z) = z.
Proof. unfold cond_Zopp. destruct (Z.ltb_spec z 0); lia. Qed.

Lemma cond_Zopp_mul s a b : cond_Zopp s (a * b) = cond_Zopp s a * b.
Proof. destruct s; cbn; lia. Qed.

(** The aligned signed mantissa of a canonical float. *)
Lemma aligned_mantissa z e :
  z <> 0 -> Z.abs z < 2 ^ prec -> e <= bits (Z.abs z) - prec ->
  cond_Zopp (z <? 0)
    (Zpos (fst (shl_align (Z.to_pos (Z.abs z * 2 ^ (prec - bits (Z.abs z))))
                          (bits (Z.abs z) - prec) e)))
  = z * 2 ^ (- e).
Proof.
  intros Hz Hlt He.
  pose proof (bits_le (Z.abs z) prec ltac:(lia) ltac:(done) ltac:(lia)).
  rewrite shl_align_fst, canon_mantissa by lia.
  rewrite <- Z.mul_assoc, <- Z.pow_add_r by lia.
  replace (prec - bits (Z.abs z) + (bits (Z.abs z) - prec - e)) with (- e) by lia.
  by rewrite cond_Zopp_mul, cond_Zopp_abs.
Qed.

Lemma dadd_exact a b :
  Z.abs a < 2 ^ prec -> Z.abs b < 2 ^ prec -> Z.abs (a + b) < 2 ^ prec ->
  dadd (double_of_Z a) (double_of_Z b) = double_of_Z (a + b).
Proof.
  intros Ha Hb Hab. rewrite !double_of_Z_canon by done.
  destruct (Z.eqb_spec a 0) as [->|Haz].
  { rewrite Z.add_0_l. unfold dcanon at 1. cbn. unfold dcanon. by case_if. }
  destruct (Z.eqb_spec b 0) as [->|Hbz].
  { rewrite Z.add_0_r. unfold dcanon. replace (a =? 0) with false by lia. done. }
  pose proof (bits_le (Z.abs a) prec ltac:(lia) ltac:(done) ltac:(lia)).
  pose proof (bits_le (Z.abs b) prec ltac:(lia) ltac:(done) ltac:(lia)).
  unfold dcanon at 1 2. replace (a =? 0) with false by lia. replace (b =? 0) with false by lia.
  unfold dadd, canon, SFadd.
  set (ez := Z.min (bits (Z.abs a) - prec) (bits (Z.abs b) - prec)).
  rewrite !aligned_mantissa by lia. rewrite <- Z.mul_add_distr_r.
  replace ez with (- - ez) at 2 by lia. apply binary_normalize_exact; lia.
Qed.

Lemma long_of_double_exact z :
  Z.abs z < 2 ^ prec -> long_of_double (double_of_Z z) = Some z.
Proof.
  intros Hz. rewrite double_of_Z_canon by done. unfold dcanon.
  destruct (Z.eqb_spec z 0) as [->|Hz0]; [done|].
  unfold canon, long_of_double. rewrite canon_mantissa by lia.
  pose proof (bits_le (Z.abs z) prec ltac:(lia) ltac:(done) ltac:(lia)).
  replace (if 0 <=? bits (Z.abs z) - prec then _ else _) with (Z.abs z).
  - replace (if z <? 0 then - Z.abs z else Z.abs z) with z
      by (destruct (Z.ltb_spec z 0); lia).
    replace (_ && _) with true; [done|].
    symmetry. apply andb_true_iff. rewrite !Z.leb_le.
    unfold prec in Hz. simpl in Hz. clia.
  - destruct (Z.leb_spec 0 (bits (Z.abs z) - prec)).
    + replace (bits (Z.abs z) - prec) with 0 by lia.
      replace (prec - bits (Z.abs z)) with 0 by lia. lia.
    + replace (- (bits (Z.abs z) - prec)) with (prec - bits (Z.abs z)) by lia.
      rewrite Z.div_mul; [done|]. apply Z.pow_nonzero; lia.
Qed.

(** Comparing the double of a natural number with another. *)
Lemma dltb_exact a b :
  0 <= a < 2 ^ prec -> Z.abs b < 2 ^ prec -> dltb (double_of_Z a) (double_of_Z b) = (a <? b).
Proof.
  intros Ha Hb. rewrite !double_of_Z_canon by lia. unfold dcanon.
  rewrite (proj2 (Z.ltb_ge a 0)), (Z.abs_eq a) by lia.
  destruct (Z.ltb_spec b 0) as [Hn|Hn].
  { rewrite (proj2 (Z.eqb_neq b 0)) by lia. symmetry.
    destruct (a =? 0); unfold dltb, SFltb; cbn; apply Z.ltb_ge; lia. }
  rewrite (Z.abs_eq b) in * by lia.
  destruct (Z.eqb_spec a 0) as [->|Ha0], (Z.eqb_spec b 0) as [->|Hb0]; unfold dltb, SFltb; cbn.
  - done.
  - symmetry. apply Z.ltb_lt. lia.
  - symmetry. apply Z.ltb_ge. lia.
  - destruct (Z.compare_spec (bits a - prec) (bits b - prec)) as [He|He|He].
    + pose proof (canon_mantissa a ltac:(lia) ltac:(lia)) as Ma.
      pose proof (canon_mantissa b ltac:(lia) ltac:(lia)) as Mb.
      replace (bits b) with (bits a) in * by lia.
      assert (0 < 2 ^ (prec - bits a)) as Hp.
      { apply Z.pow_pos_nonneg; [lia|]. pose proof (bits_le a prec ltac:(lia) ltac:(done) ltac:(lia)). lia. }
      change (Pos.compare_cont Eq ?x ?y) with (x ?= y)%positive.
      destruct (Pos.compare_spec (Z.to_pos (a * 2 ^ (prec - bits a))) (Z.to_pos (b * 2 ^ (prec - bits a)))) as [H|H|H].
      * symmetry. apply Z.ltb_ge. rewrite H, Mb in Ma. nia.
      * symmetry. apply Z.ltb_lt. assert (a * 2 ^ (prec - bits a) < b * 2 ^ (prec - bits a)) by lia. nia.
      * symmetry. apply Z.ltb_ge. assert (b * 2 ^ (prec - bits a) < a * 2 ^ (prec - bits a)) by lia. nia.
    + symmetry. apply Z.ltb_lt. apply Z.log2_lt_cancel. unfold bits in He. lia.
    + symmetry. apply Z.ltb_ge. apply Z.lt_le_incl, Z.log2_lt_cancel. unfold bits in He. lia.
Qed.

#[global] Opaque double_of_Z dadd dmul.
#[export] Hint Rewrite dmul_exact dadd_exact dltb_exact long_of_double_exact using (unfold prec; lia) : wk.
