(* ===== verification/Utils.v ===== *)
(** * libwk: src/utils.c

    Time arithmetic on [struct timespec], the sleeping and page-fault helpers,
    and the profiling harness ([struct profile] and the [profile_*]
    functions), which most of the executables use. *)

From S2P Require Import Prelude CInt CString Libc CFloat.

Local Open Scope string_scope.
Local Open Scope list_scope.
Local Open Scope Z_scope.

Definition EXIT_SUCCESS : Z := 0.
Definition EXIT_FAILURE : Z := 1.

(** [assert(b)]: the process aborts (SIGABRT, status 128+6) when [b] fails. *)
Definition assert_ (b : bool) : prog unit := if b then Ret tt else Exit 134.

(** ** throw, do_sleep, do_page_faults, gettid *)

Definition throw {A} (msg : option string) : prog A :=
  call (Perror msg);; Exit 1.

Definition do_sleep (mili : Z) : prog Z :=
  let t := Timespec (cdiv mili 1000) (s32 (crem mili 1000 * 1000000)) in
  if mili =? 0 then Ret 0
  else
    call Gettimeofday;;
    r ← call (Nanosleep t);
    if r <? 0 then Ret (-1)
    else call Gettimeofday;; Ret 0.

Definition do_page_faults (repeat : Z) : prog Z :=
  pgsz ← call Getpagesize;
  for_ (Z.to_nat repeat) 0 (fun _ _ =>
    buf ← call (Mmap pgsz);
    assert_ (negb (buf =? 0));;
    (* mmap reports a failure with MAP_FAILED, (void * ) -1, which passes the
       assertion and is then written to *)
    (if buf =? -1 then Undef "memset of MAP_FAILED"
     else call (Memset buf 66 pgsz));;
    call (Munmap buf pgsz);;
    call (Madvise buf pgsz);;
    Ret tt) tt;;
  Ret 0.

Definition gettid : prog Z := t ← call Gettid; Ret (s32 t).

(** ** struct timespec arithmetic *)

Definition NSEC : Z := 1000000000.

Definition time_sub (x y : timespec) : timespec :=
  let sec := s64 (tv_sec x - tv_sec y) in
  let nsec := s64 (tv_nsec x - tv_nsec y) in
  if tv_nsec x <? tv_nsec y
  then Timespec (s64 (sec - 1)) (s64 (nsec + NSEC))
  else Timespec sec nsec.

(** [time_add] updates [*x]; the result is the new [*x]. *)
Definition time_add (x y : timespec) : timespec :=
  let sec := s64 (tv_sec x + tv_sec y) in
  let nsec := s64 (tv_nsec x + tv_nsec y) in
  if NSEC <=? nsec
  then Timespec (s64 (sec + 1)) (s64 (nsec - NSEC))
  else Timespec sec nsec.

Definition timespec_to_double_ns (t : timespec) : double :=
  let sec := dmul (double_of_Z (tv_sec t)) (double_of_Z NSEC) in
  let nsec := double_of_Z (tv_nsec t) in
  dadd sec nsec.

(** ** struct profile *)

(** The [data] member: NULL, never assigned (an automatic variable), or an
    array at an address. *)
Inductive tsbuf :=
  | BNull
  | BIndet
  | BArr (p : Z) (l : list timespec).

(** [func] takes the object [args] points to and returns its result with
    the object it leaves. *)
Record profile {Args : Type} := Profile {
  name : option string;
  func : Args -> prog (Z * Args);
  args : Args;
  repeat : Z;
  mean : double;
  sd : double;
  nr_thread : Z;
  data : tsbuf
}.
Arguments profile : clear implicits.

Section profile.
Context {Args : Type}.
Implicit Type prof : profile Args.

Definition set_data prof (d : tsbuf) : profile Args :=
  Profile _ (name prof) (func prof) (args prof) (repeat prof) (mean prof) (sd prof)
    (nr_thread prof) d.
Definition set_name prof (s : option string) : profile Args :=
  Profile _ s (func prof) (args prof) (repeat prof) (mean prof) (sd prof)
    (nr_thread prof) (data prof).
Definition set_args prof (a : Args) : profile Args :=
  Profile _ (name prof) (func prof) a (repeat prof) (mean prof) (sd prof)
    (nr_thread prof) (data prof).
Definition set_stats prof (m s : double) : profile Args :=
  Profile _ (name prof) (func prof) (args prof) (repeat prof) m s
    (nr_thread prof) (data prof).

(** Reading and writing [data[i]]. *)
Definition load_ts (d : tsbuf) (i : Z) : prog timespec :=
  match d with
  | BArr _ l =>
      match (if i <? 0 then None else l !! Z.to_nat i) with
      | Some t => Ret t
      | None => Undef "read outside data"
      end
  | _ => Undef "read through an invalid data pointer"
  end.

Definition store_ts (d : tsbuf) (i : Z) (t : timespec) : prog tsbuf :=
  match d with
  | BArr p l =>
      if (0 <=? i) && (i <? Z.of_nat (length l))
      then Ret (BArr p (<[Z.to_nat i := t]> l))
      else Undef "write outside data"
  | _ => Undef "write through an invalid data pointer"
  end.

Definition sizeof_timespec : Z := 16.

Definition profile_init prof : prog (profile Args) :=
  let size := u64 (u64 (repeat prof) * sizeof_timespec) in
  p ← call (Malloc size);
  d ← (match p with
       | Some a =>
           call (Memset a 0 size);;
           Ret (BArr a (replicate (Z.to_nat (size / sizeof_timespec)) (Timespec 0 0)))
       | None => if size =? 0 then Ret BNull else Undef "memset of NULL"
       end);
  let prof := set_data prof d in
  Ret (set_name prof (match name prof with Some s => Some s | None => Some "default" end)).

Definition profile_destroy prof : prog (profile Args) :=
  (match data prof with
   | BArr p _ => call (Free (Some p))
   | BNull => call (Free None)
   | BIndet => Undef "free of an indeterminate pointer"
   end);;
  Ret (set_data prof BNull).

Definition profile_func prof : prog (profile Args) :=
  (* warm *)
  '(_, a) ← func prof (args prof);
  '(d, a) ← for_ (Z.to_nat (repeat prof)) 0 (fun i '(d, a) =>
      t ← call (Clock_gettime CLOCK_MONOTONIC);
      d ← store_ts d i t;
      '(_, a) ← func prof a;
      Ret (d, a)) (data prof, a);
  Ret (set_args (set_data prof d) a).

(** [time_sub(&data[i + 1], &data[i])]. *)
Definition delta_at (d : tsbuf) (i : Z) : prog timespec :=
  t1 ← load_ts d (i + 1);
  t0 ← load_ts d i;
  Ret (time_sub t1 t0).

Definition profile_stats prof : prog (profile Args) :=
  match data prof with
  | BNull => Ret prof
  | d =>
      let n := Z.to_nat (s32 (repeat prof - 1)) in
      total ← for_ n 0 (fun i total =>
          delta ← delta_at d i; Ret (time_add total delta)) (Timespec 0 0);
      let mean := ddiv (timespec_to_double_ns total) (double_of_Z (repeat prof)) in
      sq ← for_ n 0 (fun i acc =>
          delta ← delta_at d i;
          let nsec := timespec_to_double_ns delta in
          let diff := dsub nsec mean in
          Ret (dadd acc (dmul diff diff))) (double_of_Z 0);
      Ret (set_stats prof mean (dsqrt (ddiv sq (double_of_Z (repeat prof)))))
  end.

Definition profile_stats_print prof (out : Z) : prog unit :=
  call (Fprintf out ("profile %s mean=%6.0f sd=%6.0f" +:+ NL)
          [PStr (name prof); PDouble (mean prof); PDouble (sd prof)]).

(** glibc prints a NULL string as "(null)". *)
Definition csv_name prof : string :=
  match name prof with Some s => s +:+ ".csv" | None => "(null).csv" end.

Definition profile_save prof : prog unit :=
  out ← call (Fopen (csv_name prof) "w");
  match out with
  | None => Undef "fprintf to a NULL stream"
  | Some out =>
      call (Fprintf out ("iter;nsec;" +:+ NL) []);;
      for_ (Z.to_nat (s32 (repeat prof - 1))) 0 (fun i _ =>
        delta ← delta_at (data prof) i;
        match long_of_double (timespec_to_double_ns delta) with
        | None => Undef "double outside long"
        | Some nsec => call (Fprintf out ("%d;%ld;" +:+ NL) [PInt i; PInt nsec])
        end) tt;;
      call (Fclose out)
  end.

Definition profile_combo prof : prog (profile Args) :=
  prof ← profile_init prof;
  prof ← profile_func prof;
  prof ← profile_stats prof;
  profile_save prof;;
  profile_destroy prof.
End profile.

(** ** Time: lemmas *)

(** The instant (or duration) a [timespec] denotes, in nanoseconds. *)
Definition ns (t : timespec) : Z := tv_sec t * NSEC + tv_nsec t.

(** The normalised [timespec] of a number of nanoseconds. *)
Definition ts_of_ns (n : Z) : timespec := Timespec (n / NSEC) (n mod NSEC).

(** Normalised, with seconds far from the end of [time_t]. *)
Definition normal (t : timespec) : Prop :=
  0 <= tv_nsec t < NSEC /\ - 2 ^ 61 <= tv_sec t <= 2 ^ 61.

#[export] Instance normal_dec t : Decision (normal t).
Proof. unfold normal. apply _. Defined.

Lemma ns_of_ns n : ns (ts_of_ns n) = n.
Proof. unfold ns, ts_of_ns. cbn. pose proof (Z_div_mod_eq_full n NSEC). lia. Qed.

Lemma ts_of_ns_unique t : 0 <= tv_nsec t < NSEC -> t = ts_of_ns (ns t).
Proof.
  intros H. destruct t as [s n]. unfold ts_of_ns, ns in *. cbn in *.
  rewrite Z.div_add_l, Z.div_small, Z.add_0_r by (unfold NSEC in *; lia).
  rewrite Z.add_comm, Z_mod_plus_full, Z.mod_small by lia. done.
Qed.

Lemma ts_of_ns_normal n : - 2 ^ 90 <= n <= 2 ^ 90 -> normal (ts_of_ns n).
Proof.
  intros H. unfold normal, ts_of_ns. cbn.
  pose proof (Z.mod_pos_bound n NSEC ltac:(done)).
  pose proof (Z_div_mod_eq_full n NSEC). unfold NSEC in *. split; [lia|].
  simpl in *. lia.
Qed.

Lemma ts_of_ns_sec n : - 2 ^ 92 <= n <= 2 ^ 92 -> in_s64 (tv_sec (ts_of_ns n)).
Proof.
  intros H. cbn [ts_of_ns tv_sec]. pose proof (Z_div_mod_eq_full n NSEC).
  pose proof (Z.mod_pos_bound n NSEC ltac:(done)). unfold NSEC in *. simpl in *. clia.
Qed.

Lemma time_sub_ns x y : normal x -> normal y -> time_sub x y = ts_of_ns (ns x - ns y).
Proof.
  intros [Hx Hxs] [Hy Hys].
  assert (0 <= tv_nsec (time_sub x y) < NSEC /\ ns (time_sub x y) = ns x - ns y) as [Hr Hn].
  { unfold time_sub, ns, NSEC in *. simpl in *. case_if; cbn;
      rewrite ?s64_id by (rewrite ?s64_id; clia); lia. }
  rewrite <- Hn. by apply ts_of_ns_unique.
Qed.

Lemma time_add_ns x y : normal x -> normal y -> time_add x y = ts_of_ns (ns x + ns y).
Proof.
  intros [Hx Hxs] [Hy Hys].
  assert (0 <= tv_nsec (time_add x y) < NSEC /\ ns (time_add x y) = ns x + ns y) as [Hr Hn].
  { unfold time_add, ns, NSEC in *. simpl in *.
    rewrite (s64_id (tv_nsec x + tv_nsec y)) by clia. case_if; cbn;
      rewrite ?s64_id by (rewrite ?s64_id; clia); lia. }
  rewrite <- Hn. by apply ts_of_ns_unique.
Qed.

Lemma timespec_to_double_ns_exact n :
  Z.abs n < 2 ^ 52 -> timespec_to_double_ns (ts_of_ns n) = double_of_Z n.
Proof.
  intros H. unfold timespec_to_double_ns, ts_of_ns. cbn [tv_sec tv_nsec].
  pose proof (Z.mod_pos_bound n NSEC ltac:(done)).
  pose proof (Z_div_mod_eq_full n NSEC). unfold NSEC in *. simpl in *.
  rewrite dmul_exact by (unfold prec; simpl; lia).
  rewrite dadd_exact by (unfold prec; simpl; lia). f_equal. lia.
Qed.

(** ** Time: theorems *)

(** [time_sub] computes the difference of two instants: on normalised
    arguments its result is normalised and denotes exactly the difference in
    nanoseconds, a negative one included, with no overflow of either field;
    and adding the difference back to the earlier instant gives the later. *)
Theorem time_sub_correct (x y : timespec) (Hx : normal x) (Hy : normal y) :
  0 <= tv_nsec (time_sub x y) < NSEC
  /\ ns (time_sub x y) = ns x - ns y
  /\ in_s64 (tv_sec (time_sub x y))
  /\ (normal (time_sub x y) -> time_add (time_sub x y) y = x).
Proof.
  pose proof Hx as [Hx1 Hx2]. pose proof Hy as [Hy1 Hy2].
  rewrite time_sub_ns by done. rewrite ns_of_ns.
  assert (0 <= tv_nsec (ts_of_ns (ns x - ns y)) < NSEC) by (by apply Z.mod_pos_bound).
  split; [done|]. split; [done|]. split.
  - apply ts_of_ns_sec. unfold ns, NSEC in *. simpl in *. lia.
  - intros Hn. rewrite time_add_ns, ns_of_ns by done.
    rewrite Z.sub_add. symmetry. by apply ts_of_ns_unique.
Qed.

Theorem time_sub_correct_witness :
  ns (time_sub (Timespec 5 1) (Timespec 7 2)) = -2000000001.
Proof.
  destruct (time_sub_correct (Timespec 5 1) (Timespec 7 2)) as (_ & H & _).
  - vm_compute. intuition discriminate.
  - vm_compute. intuition discriminate.
  - rewrite H. reflexivity.
Defined.

(** [do_sleep] asks the kernel for one sleep of exactly [mili]
    milliseconds, as a normalised [timespec]; zero makes no call at all, and
    the result is -1 exactly when [nanosleep] failed. *)
Theorem do_sleep_correct {W} (h : handler W) (w : W) (mili : Z) (H : 0 <= mili <= INT_MAX) :
  exists r w' tr,
    run (traced h) (do_sleep mili) (w, []) = (Done r, (w', tr))
    /\ (mili = 0 /\ r = 0 /\ tr = []
        \/ 0 < mili /\ exists t a g,
             0 <= tv_nsec t < NSEC /\ ns t = mili * 1000000
             /\ ((a < 0 /\ r = -1 /\ tr = [Ev Gettimeofday g; Ev (Nanosleep t) a])
                 \/ (0 <= a /\ r = 0 /\ exists g',
                      tr = [Ev Gettimeofday g; Ev (Nanosleep t) a; Ev Gettimeofday g']))).
Proof.
  unfold do_sleep. destruct (Z.eqb_spec mili 0) as [->|Hm].
  { exists 0, w, []. split; [done|]. left. done. }
  pose proof (Z.quot_rem' mili 1000) as Hqr.
  pose proof (Z.rem_bound_pos mili 1000 ltac:(lia) ltac:(lia)) as Hr.
  assert (s32 (crem mili 1000 * 1000000) = crem mili 1000 * 1000000) as Hs.
  { apply s32_id. unfold crem. clia. }
  rewrite Hs. set (t := Timespec _ _).
  assert (0 <= tv_nsec t < NSEC /\ ns t = mili * 1000000) as [Ht1 Ht2].
  { unfold ns, NSEC, t, cdiv, crem. cbn [tv_sec tv_nsec]. lia. }
  step_run. case_if; step_run; do 3 eexists; (split; [done|right]); (split; [lia|]);
    do 3 eexists; (split; [exact Ht1|]); (split; [exact Ht2|]); [left|right]; eauto.
Qed.

Theorem do_sleep_correct_witness :
  exists r w' tr, run (traced (@default_handler unit)) (do_sleep 1500) (tt, []) = (Done r, (w', tr))
    /\ r = 0 /\ length tr = 3%nat.
Proof.
  destruct (do_sleep_correct (@default_handler unit) tt 1500 ltac:(vm_compute; intuition discriminate))
    as (r & w' & tr & Hr & _).
  exists r, w', tr. split; [exact Hr|].
  vm_compute in Hr. injection Hr as <- <- <-. split; reflexivity.
Defined.

(** ** Profiling: lemmas *)

Lemma store_ts_append {W} (h : handler W) p (rs l : list timespec) t w :
  (length rs < length l)%nat ->
  run h (store_ts (BArr p (rs ++ drop (length rs) l)) (Z.of_nat (length rs)) t) w
  = (Done (BArr p (rs ++ [t] ++ drop (S (length rs)) l)), w).
Proof.
  intros Hlt. unfold store_ts.
  replace (_ && _) with true.
  2:{ symmetry. apply andb_true_iff. rewrite Z.leb_le, Z.ltb_lt, length_app, length_drop. lia. }
  cbn. rewrite Nat2Z.id, insert_app_r_alt, Nat.sub_diag by lia.
  destruct (lookup_lt_is_Some_2 l (length rs) Hlt) as [x Hx].
  rewrite (drop_S l x (length rs)) by done. done.
Qed.

(** An answer of the monotonic clock. *)
Definition clock_answer {W} (h : handler W) (t : timespec) : Prop :=
  exists w, t = (h _ (Clock_gettime CLOCK_MONOTONIC) w).1.

(** Called again and again from the object [a0] on, the profiled function
    terminates, maps the object it is given by [step], and does not itself
    read the monotonic clock. *)
Definition func_ok {W Args} (h : handler W) (f : Args -> prog (Z * Args)) (step : Args -> Args)
    (a0 : Args) : Prop :=
  forall k w tr, let a := Nat.iter k step a0 in exists r w' tr',
    run (traced h) (f a) (w, tr) = (Done (r, step a), (w', tr ++ tr'))
    /\ clock_readings tr' = [].

Lemma profile_func_run {W Args} (h : handler W) (prof : profile Args) (step : Args -> Args)
    (p : Z) (l : list timespec) (w : W) (tr0 : list ev) :
  data prof = BArr p l -> repeat prof = Z.of_nat (length l) -> func_ok h (func prof) step (args prof) ->
  exists w' tr,
    run (traced h) (profile_func prof) (w, tr0)
    = (Done (set_args (set_data prof (BArr p (clock_readings tr)))
               (Nat.iter (S (length l)) step (args prof))), (w', tr0 ++ tr))
    /\ length (clock_readings tr) = length l
    /\ Forall (clock_answer h) (clock_readings tr).
Proof.
  intros Hdata Hrep Hfunc. unfold profile_func. rewrite run_bind.
  pose proof (Hfunc O w tr0) as (r0 & w0 & trw & H0 & Hc0). cbn in H0. rewrite H0. cbn [and_then].
  rewrite run_bind, Hdata, Hrep, Nat2Z.id.
  edestruct (run_for_invariant (traced h)
    (fun i '(d, a) '(w, tr) => exists tr', tr = tr0 ++ tr' /\
       d = BArr p (clock_readings tr' ++ drop (Z.to_nat i) l)
       /\ length (clock_readings tr') = Z.to_nat i
       /\ a = Nat.iter (S (Z.to_nat i)) step (args prof)
       /\ Forall (clock_answer h) (clock_readings tr')))
    as ([d a] & [w' tr] & -> & tr' & -> & Hd & Hl & Ha & Hf).
  - intros j [d a] [w1 tr1] Hj (tr' & -> & -> & Hl & -> & Hf). step_run.
    set (t := (h timespec _ w1).1). set (w2 := (h timespec _ w1).2).
    replace j with (Z.of_nat (length (clock_readings tr'))) by lia. rewrite Nat2Z.id.
    rewrite store_ts_append by lia. cbn [and_then]. rewrite run_bind.
    destruct (Hfunc (S (length (clock_readings tr'))) w2 ((tr0 ++ tr') ++ [Ev (Clock_gettime CLOCK_MONOTONIC) t]))
      as (r & w3 & tr3 & -> & Hc3). cbn [and_then].
    eexists (_, _), (_, _). split; [done|].
    exists (tr' ++ [Ev (Clock_gettime CLOCK_MONOTONIC) t] ++ tr3).
    replace (Z.to_nat (Z.of_nat (length (clock_readings tr')) + 1))
      with (S (length (clock_readings tr'))) by lia.
    rewrite !clock_readings_app, Hc3, app_nil_r. cbn [clock_readings omap list_omap clock_reading].
    rewrite <- !app_assoc. split; [done|]. split; [done|].
    split; [rewrite length_app; cbn; lia|]. split; [done|].
    apply Forall_app. split; [done|]. repeat constructor. by exists w1.
  - exists trw. rewrite Hc0. done.
  - cbn [and_then]. exists w', tr'. rewrite Z.add_0_l, Nat2Z.id in Hd, Hl, Ha.
    rewrite drop_all, app_nil_r in Hd. subst. done.
Qed.

(** The profiling loop: on a data array of [n] slots, with [repeat = n]
    and a profiled function that terminates, [profile_func] terminates without
    leaving the array; it calls the function [n + 1] times (once to warm up)
    and leaves in [data] the [n] readings of the monotonic clock, in order. *)
Theorem profile_func_correct {W Args} (h : handler W) (prof : profile Args) (step : Args -> Args)
    (p : Z) (l : list timespec) (w : W)
    (Hdata : data prof = BArr p l) (Hrep : repeat prof = Z.of_nat (length l))
    (Hfunc : func_ok h (func prof) step (args prof)) :
  exists prof' w' tr,
    run (traced h) (profile_func prof) (w, []) = (Done prof', (w', tr))
    /\ data prof' = BArr p (clock_readings tr)
    /\ length (clock_readings tr) = length l
    /\ args prof' = Nat.iter (S (length l)) step (args prof).
Proof.
  destruct (profile_func_run h prof step p l w [] Hdata Hrep Hfunc) as (w' & tr & Hr & Hl & _).
  do 3 eexists. split; [exact Hr|]. done.
Qed.

(** A profile whose function counts its calls in its argument. *)
Definition counting_profile (n : Z) (d : tsbuf) : profile Z :=
  Profile Z (Some "count") (fun a => Ret (0, a + 1)) 0 n (double_of_Z 0) (double_of_Z 0) 1 d.

Theorem profile_func_correct_witness :
  exists prof', (run (traced (@default_handler unit))
                   (profile_func (counting_profile 2 (BArr 7 [Timespec 9 9; Timespec 9 9])))
                   (tt, [])).1 = Done prof'
    /\ args prof' = 3 /\ data prof' = BArr 7 [Timespec 0 0; Timespec 0 0].
Proof.
  destruct (profile_func_correct (@default_handler unit)
              (counting_profile 2 (BArr 7 [Timespec 9 9; Timespec 9 9])) (fun a => a + 1) 7
              [Timespec 9 9; Timespec 9 9] tt eq_refl eq_refl)
    as (prof' & w' & tr & Hrun & Hd & Hl & Ha).
  - intros k w tr. exists 0, w, []. rewrite app_nil_r. split; reflexivity.
  - exists prof'. rewrite Hrun. split; [reflexivity|]. split; [exact Ha|].
    vm_compute in Hrun. injection Hrun as <- <- <-. reflexivity.
Defined.

(** The gaps between successive instants, in nanoseconds. *)
Fixpoint deltas (l : list timespec) : list Z :=
  match l with
  | x :: (y :: _) as l' => (ns y - ns x) :: deltas l'
  | _ => []
  end.

(** The gaps add up to the distance from the first to the last instant. *)
Lemma zsum_deltas x l : zsum (deltas (x :: l)) = ns (List.last l x) - ns x.
Proof.
  revert x. induction l as [|y l IH]; intros x; [cbn; lia|].
  change (deltas (x :: y :: l)) with ((ns y - ns x) :: deltas (y :: l)).
  rewrite zsum_cons, IH, last_cons_default. lia.
Qed.

Lemma length_deltas l : length (deltas l) = pred (length l).
Proof.
  induction l as [|x [|y l] IH]; [done..|].
  change (S (length (deltas (y :: l))) = S (length l)). by rewrite IH.
Qed.

Lemma lookup_deltas l j d :
  deltas l !! j = Some d ->
  exists x y, l !! j = Some x /\ l !! S j = Some y /\ d = ns y - ns x.
Proof.
  revert j. induction l as [|x [|y l] IH]; intros j; [done..|].
  change (deltas (x :: y :: l)) with ((ns y - ns x) :: deltas (y :: l)).
  destruct j as [|j]; cbn [lookup list_lookup].
  - intros [= <-]. eauto.
  - intros H. destruct (IH j H) as (x' & y' & Hx & Hy & ->). eauto.
Qed.

(** Samples whose instants are normalised and lie within 2^51 ns (26 days)
    of one another, in the array [data]. *)
Record samples {Args} (prof : profile Args) (p : Z) (l : list timespec) : Prop := Samples {
  samples_data : data prof = BArr p l;
  samples_repeat : repeat prof = Z.of_nat (length l);
  samples_nonempty : 0 < repeat prof <= INT_MAX;
  samples_normal : Forall normal l;
  samples_span : forall x y, x ∈ l -> y ∈ l -> Z.abs (ns x - ns y) < 2 ^ 51
}.

Lemma run_load_ts {W} (h : handler W) p l j x w :
  l !! j = Some x -> run h (load_ts (BArr p l) (Z.of_nat j)) w = (Done x, w).
Proof.
  intros H. unfold load_ts. case_if; [lia|]. by rewrite Nat2Z.id, H.
Qed.

Lemma run_delta_at {W} (h : handler W) p l j d w :
  Forall normal l -> deltas l !! j = Some d ->
  run h (delta_at (BArr p l) (Z.of_nat j)) w = (Done (ts_of_ns d), w).
Proof.
  intros Hn Hd. destruct (lookup_deltas _ _ _ Hd) as (x & y & Hx & Hy & ->).
  unfold delta_at. rewrite run_bind.
  replace (Z.of_nat j + 1) with (Z.of_nat (S j)) by lia.
  rewrite (run_load_ts h p l (S j) y w Hy). cbn [and_then]. rewrite run_bind.
  rewrite (run_load_ts h p l j x w Hx). cbn [and_then]. rewrite run_ret.
  rewrite time_sub_ns; [done|by eapply Forall_lookup_1..].
Qed.

Lemma samples_count {Args} (prof : profile Args) p l :
  samples prof p l -> Z.to_nat (s32 (repeat prof - 1)) = length (deltas l).
Proof.
  intros [_ Hr Hp _ _]. rewrite s32_id by clia. rewrite length_deltas. lia.
Qed.

Lemma samples_delta {Args} (prof : profile Args) p l j d :
  samples prof p l -> deltas l !! j = Some d -> Z.abs d < 2 ^ 51.
Proof.
  intros [_ _ _ _ Hs] Hd. destruct (lookup_deltas _ _ _ Hd) as (x & y & Hx & Hy & ->).
  apply Hs; by eapply list_elem_of_lookup_2.
Qed.

(** A prefix of the gaps adds up to a distance between two samples. *)
Lemma zsum_take_deltas {Args} (prof : profile Args) p l j :
  samples prof p l -> Z.abs (zsum (take j (deltas l))) < 2 ^ 51.
Proof.
  intros [_ _ _ _ Hs].
  destruct l as [|x l]; [by destruct j|].
  assert (exists l', take j (deltas (x :: l)) = deltas (x :: l') /\ l' = take j l) as (l' & -> & ->).
  { eexists. split; [|done]. clear. revert x j.
    induction l as [|y l IH]; intros x j; [by destruct j|].
    destruct j as [|j]; [done|].
    change (deltas (x :: y :: l)) with ((ns y - ns x) :: deltas (y :: l)).
    cbn [take]. change (deltas (x :: y :: take j l)) with ((ns y - ns x) :: deltas (y :: take j l)).
    by rewrite IH. }
  rewrite zsum_deltas. apply Hs; [|left].
  destruct (take j l) as [|y l'] eqn:E; [left|]. right.
  eapply (subseteq_take j). rewrite E. apply list_elem_of_In.
  destruct (exists_last (l := y :: l') ltac:(done)) as (l0 & z & ->).
  rewrite List.last_last. apply in_or_app. right. by left.
Qed.

(** The statistics of a list of gaps, [n] being the divisor. *)
Definition mean_of (ds : list Z) (n : Z) : double :=
  ddiv (double_of_Z (zsum ds)) (double_of_Z n).

Definition sd_of (ds : list Z) (n : Z) : double :=
  let square acc d :=
    let diff := dsub (double_of_Z d) (mean_of ds n) in dadd acc (dmul diff diff) in
  dsqrt (ddiv (foldl square (double_of_Z 0) ds) (double_of_Z n)).

Lemma ifold_time_add (ds : list Z) i acc :
  (forall j, Z.abs (acc + zsum (take j ds)) < 2 ^ 51) ->
  (forall j d, ds !! j = Some d -> Z.abs d < 2 ^ 51) ->
  ifold (fun _ d total => time_add total (ts_of_ns d)) i ds (ts_of_ns acc)
  = ts_of_ns (acc + zsum ds).
Proof.
  revert i acc. induction ds as [|d ds IH]; intros i acc Hsum Hd; cbn [ifold].
  - f_equal. cbn. lia.
  - pose proof (Hsum 0%nat) as H0. cbn in H0. pose proof (Hd 0%nat d eq_refl) as Hd0.
    simpl in H0, Hd0.
    rewrite time_add_ns, !ns_of_ns by (apply ts_of_ns_normal; simpl; lia).
    rewrite IH.
    + rewrite zsum_cons. f_equal. lia.
    + intros j. specialize (Hsum (S j)). cbn [take] in Hsum. rewrite zsum_cons in Hsum.
      by rewrite <- Z.add_assoc.
    + intros j d' Hj. by apply (Hd (S j)).
Qed.

Lemma profile_stats_run {W Args} (h : handler W) (w : W) (prof : profile Args) (p : Z)
    (l : list timespec) (Hs : samples prof p l) :
  run h (profile_stats prof) w
  = (Done (set_stats prof (mean_of (deltas l) (repeat prof)) (sd_of (deltas l) (repeat prof))), w).
Proof.
  pose proof (samples_normal _ _ _ Hs) as Hn.
  unfold profile_stats. rewrite (samples_data _ _ _ Hs). rewrite (samples_count _ _ _ Hs).
  rewrite run_bind.
  rewrite (run_for_fold h (fun _ d total => time_add total (ts_of_ns d)) (fun _ _ w => w)).
  2:{ intros j d s w' Hj. cbn [Z.add]. rewrite run_bind, (run_delta_at h p l j d) by done. done. }
  cbn [and_then]. rewrite ifold_const.
  change (Timespec 0 0) with (ts_of_ns 0). rewrite ifold_time_add, Z.add_0_l.
  2:{ intros j. by eapply zsum_take_deltas. }
  2:{ intros j d Hj. by eapply samples_delta. }
  rewrite timespec_to_double_ns_exact.
  2:{ pose proof (zsum_take_deltas prof p l (length (deltas l)) Hs) as Ht.
      rewrite take_ge in Ht by lia. simpl in *. lia. }
  rewrite run_bind.
  rewrite (run_for_fold h (fun _ d acc =>
     let diff := dsub (double_of_Z d) (mean_of (deltas l) (repeat prof)) in
     dadd acc (dmul diff diff)) (fun _ _ w => w)).
  2:{ intros j d s w' Hj. cbn [Z.add]. rewrite run_bind, (run_delta_at h p l j d) by done.
      cbn [and_then]. rewrite timespec_to_double_ns_exact; [done|].
      pose proof (samples_delta _ _ _ _ _ Hs Hj). simpl in *. lia. }
  cbn [and_then]. rewrite ifold_const, ifold_foldl. done.
Qed.

(** (C5) [profile_stats] against its mathematical reference: on samples
    spanning less than 26 days, the accumulated [timespec] total is exact, so
    [mean] is the correctly rounded quotient of the exact distance between
    the first and last instants by [repeat], and [sd] is the root of the
    rounded sum of squared deviations of the exact gaps, over [repeat]. *)
Theorem profile_stats_correct {W Args} (h : handler W) (w : W) (prof : profile Args) (p : Z)
    (l : list timespec) (Hs : samples prof p l) :
  run h (profile_stats prof) w
  = (Done (set_stats prof (mean_of (deltas l) (repeat prof)) (sd_of (deltas l) (repeat prof))), w)
  /\ zsum (deltas l) = ns (List.last l (Timespec 0 0)) - ns (hd (Timespec 0 0) l).
Proof.
  split; [by eapply profile_stats_run|].
  destruct Hs as [_ Hr Hp _ _]. destruct l as [|x l]; [cbn in Hr; lia|].
  by rewrite zsum_deltas, last_cons_default.
Qed.

(** Three samples, 1000 and 3000 ns apart. *)
Definition three_samples : list timespec :=
  [Timespec 10 999999500; Timespec 11 500; Timespec 11 3500].

Lemma three_samples_ok : samples (counting_profile 3 (BArr 7 three_samples)) 7 three_samples.
Proof.
  split; [reflexivity..|vm_compute; intuition discriminate| |].
  - repeat constructor; vm_compute; intuition discriminate.
  - intros x y Hx Hy. unfold three_samples in *.
    repeat (apply elem_of_cons in Hx as [->|Hx]); try (by apply not_elem_of_nil in Hx);
    repeat (apply elem_of_cons in Hy as [->|Hy]); try (by apply not_elem_of_nil in Hy);
      vm_compute; reflexivity.
Qed.

(** On three samples the two gaps add up to 4000 ns and the divisor is 3. *)
Theorem profile_stats_correct_witness :
  exists prof', (run (@default_handler unit)
                   (profile_stats (counting_profile 3 (BArr 7 three_samples))) tt).1 = Done prof'
    /\ mean prof' = ddiv (double_of_Z 4000) (double_of_Z 3).
Proof.
  destruct (profile_stats_correct (@default_handler unit) tt
              (counting_profile 3 (BArr 7 three_samples)) 7 three_samples three_samples_ok)
    as [Hrun Hsum].
  eexists. rewrite Hrun. split; [reflexivity|].
  cbn [mean set_stats]. unfold mean_of. rewrite Hsum. reflexivity.
Defined.

(** The lines [profile_save] writes for the gaps [ds], from index [i] on. *)
Definition csv_line (f i d : Z) : ev :=
  Ev (Fprintf f ("%d;%ld;" +:+ NL) [PInt i; PInt d]) tt.

Definition csv_lines (f : Z) (ds : list Z) : list ev :=
  imap (fun i d => csv_line f (Z.of_nat i) d) ds.

Lemma ifold_csv {W} (h : handler W) f (ds : list Z) i w tr :
  exists w',
    ifold (fun i d '(w, tr) =>
             ((h _ (Fprintf f ("%d;%ld;" +:+ NL) [PInt i; PInt d]) w).2, tr ++ [csv_line f i d]))
      (Z.of_nat i) ds (w, tr)
    = (w', tr ++ imap (fun j d => csv_line f (Z.of_nat (i + j)) d) ds).
Proof.
  revert i w tr. induction ds as [|d ds IH]; intros i w tr; cbn [ifold].
  - exists w. cbn. by rewrite app_nil_r.
  - replace (Z.of_nat i + 1) with (Z.of_nat (S i)) by lia.
    destruct (IH (S i) (h _ (Fprintf f ("%d;%ld;" +:+ NL) [PInt (Z.of_nat i); PInt d]) w).2
                (tr ++ [csv_line f (Z.of_nat i) d])) as [w' ->].
    exists w'. rewrite imap_cons, <- app_assoc. cbn [app]. f_equal. f_equal.
    f_equal; [do 2 f_equal; lia|]. apply imap_ext. intros j x _. cbn. do 2 f_equal. lia.
Qed.

Lemma profile_save_trace {W Args} (h : handler W) (w : W) tr0 (prof : profile Args) (p f : Z)
    (l : list timespec) (Hs : samples prof p l)
    (Hopen : (h _ (Fopen (csv_name prof) "w") w).1 = Some f) :
  exists w',
    run (traced h) (profile_save prof) (w, tr0)
    = (Done tt, (w', tr0 ++ [Ev (Fopen (csv_name prof) "w") (Some f);
                      Ev (Fprintf f ("iter;nsec;" +:+ NL) []) tt]
                     ++ csv_lines f (deltas l) ++ [Ev (Fclose f) tt])).
Proof.
  unfold profile_save. step_run. rewrite Hopen. step_run.
  rewrite (samples_data _ _ _ Hs), (samples_count _ _ _ Hs).
  rewrite (run_for_fold (traced h) (fun _ _ s => s) (fun i d '(w, tr) =>
             ((h _ (Fprintf f ("%d;%ld;" +:+ NL) [PInt i; PInt d]) w).2, tr ++ [csv_line f i d]))).
  2:{ intros j d s [w' tr] Hj. cbn [Z.add]. rewrite run_bind.
      rewrite (run_delta_at _ p l j d) by (eauto; apply (samples_normal _ _ _ Hs)).
      cbn [and_then]. pose proof (samples_delta _ _ _ _ _ Hs Hj). simpl in *.
      rewrite timespec_to_double_ns_exact, long_of_double_exact by (unfold prec; simpl; lia).
      rewrite run_traced_unit. by destruct s. }
  rewrite ifold_const. cbn [and_then].
  destruct (ifold_csv h f (deltas l) 0
    (h _ (Fprintf f ("iter;nsec;" +:+ NL) []) (h _ (Fopen (csv_name prof) "w") w).2).2
    ((tr0 ++ [Ev (Fopen (csv_name prof) "w") (Some f)]) ++
     [Ev (Fprintf f ("iter;nsec;" +:+ NL) []) tt]))
    as [w' Hw']. change (Z.of_nat 0) with 0 in Hw'. rewrite Hw'.
  rewrite run_traced_unit.
  eexists. rewrite <- !app_assoc. reflexivity.
Qed.

(** [profile_save] writes the exact gaps: whatever the kernel does, once
    the file opens, the calls are the header, one line per gap carrying its
    index and the exact number of nanoseconds between the two samples (the
    detour through [double] loses nothing), and the close, and nothing else. *)
Theorem profile_save_correct {W Args} (h : handler W) (w : W) (prof : profile Args) (p f : Z)
    (l : list timespec) (Hs : samples prof p l)
    (Hopen : (h _ (Fopen (csv_name prof) "w") w).1 = Some f) :
  exists w',
    run (traced h) (profile_save prof) (w, [])
    = (Done tt, (w', [Ev (Fopen (csv_name prof) "w") (Some f);
                      Ev (Fprintf f ("iter;nsec;" +:+ NL) []) tt]
                     ++ csv_lines f (deltas l) ++ [Ev (Fclose f) tt])).
Proof. exact (profile_save_trace h w [] prof p f l Hs Hopen). Qed.

Theorem profile_save_correct_witness :
  exists w', run (traced (@default_handler unit))
               (profile_save (counting_profile 3 (BArr 7 three_samples))) (tt, [])
    = (Done tt, (w', [Ev (Fopen "count.csv" "w") (Some 1);
                      Ev (Fprintf 1 ("iter;nsec;" +:+ NL) []) tt;
                      csv_line 1 0 1000; csv_line 1 1 3000; Ev (Fclose 1) tt])).
Proof.
  exact (profile_save_correct (@default_handler unit) tt
           (counting_profile 3 (BArr 7 three_samples)) 7 1 three_samples three_samples_ok eq_refl).
Defined.

(** An environment in which memory and files are granted and the monotonic
    clock stays within a window of 26 days. *)
Record profiling_env {W} (h : handler W) (p f : Z) : Prop := ProfilingEnv {
  env_malloc : forall size w, (h _ (Malloc size) w).1 = Some p;
  env_fopen : forall path w, (h _ (Fopen path "w") w).1 = Some f;
  env_clock : forall t, clock_answer h t -> normal t;
  env_span : forall t u, clock_answer h t -> clock_answer h u -> Z.abs (ns t - ns u) < 2 ^ 51
}.

Lemma samples_of_env {W Args} (h : handler W) (prof : profile Args) p f l :
  profiling_env h p f -> data prof = BArr p l -> repeat prof = Z.of_nat (length l) ->
  0 < repeat prof <= INT_MAX -> Forall (clock_answer h) l -> samples prof p l.
Proof.
  intros He Hd Hr Hp Hf. rewrite Forall_forall in Hf. split; [done..| |].
  - apply Forall_forall. intros t Ht. by apply (env_clock _ _ _ He), Hf.
  - intros x y Hx Hy. by apply (env_span _ _ _ He); apply Hf.
Qed.

Lemma clock_readings_csv g ds : clock_readings (csv_lines g ds) = [].
Proof.
  unfold csv_lines, clock_readings. generalize 0%nat as k.
  induction ds as [|d ds IH] using rev_ind; intros k; [done|].
  rewrite imap_app, omap_app. cbn. by rewrite (IH k).
Qed.

(** What a complete run of the harness on [prof] does: the block, the run of
    the function between clock readings ([mid]), the file with every gap, and
    the block again. *)
Definition combo_trace {Args} (p f : Z) (prof : profile Args) (tr : list ev) : Prop :=
  length (clock_readings tr) = Z.to_nat (repeat prof)
  /\ exists mid,
       tr = [Ev (Malloc (16 * repeat prof)) (Some p); Ev (Memset p 0 (16 * repeat prof)) tt]
            ++ mid
            ++ [Ev (Fopen (default "default" (name prof) +:+ ".csv") "w") (Some f);
                Ev (Fprintf f ("iter;nsec;" +:+ NL) []) tt]
            ++ csv_lines f (deltas (clock_readings tr))
            ++ [Ev (Fclose f) tt; Ev (Free (Some p)) tt].

Lemma profile_combo_run {W Args} (h : handler W) (w : W) tr0 (prof : profile Args)
    (step : Args -> Args) (p f : Z)
    (Henv : profiling_env h p f) (Hrep : 0 < repeat prof <= INT_MAX)
    (Hfunc : func_ok h (func prof) step (args prof)) :
  exists prof' w' tr,
    run (traced h) (profile_combo prof) (w, tr0) = (Done prof', (w', tr0 ++ tr))
    /\ data prof' = BNull
    /\ mean prof' = mean_of (deltas (clock_readings tr)) (repeat prof)
    /\ sd prof' = sd_of (deltas (clock_readings tr)) (repeat prof)
    /\ combo_trace p f prof tr.
Proof.
  unfold profile_combo, profile_init, sizeof_timespec.
  rewrite (u64_id (repeat prof)), u64_id by clia.
  replace (repeat prof * 16) with (16 * repeat prof) by lia.
  step_run. rewrite (env_malloc _ _ _ Henv). step_run.
  rewrite (Z.mul_comm 16 (repeat prof)), Z.div_mul, (Z.mul_comm (repeat prof) 16) by lia.
  set (prof1 := set_name _ _).
  match goal with |- context [run _ (profile_func prof1) (?w0, ?tr1)] =>
    destruct (profile_func_run h prof1 step p
                (replicate (Z.to_nat (repeat prof)) (Timespec 0 0)) w0 tr1)
      as (w1 & mid & Hrun & Hlen & Hf); [done| |done|]
  end.
  { rewrite length_replicate. cbn. lia. }
  rewrite Hrun. cbn [and_then]. rewrite length_replicate in Hlen. rewrite run_bind.
  set (prof2 := set_args _ _).
  assert (samples prof2 p (clock_readings mid)) as Hs.
  { eapply samples_of_env; [done..| | |done]; cbn; lia. }
  rewrite (profile_stats_run _ _ _ _ _ Hs). cbn [and_then]. rewrite run_bind.
  set (prof3 := set_stats _ _ _).
  assert (samples prof3 p (clock_readings mid)) as Hs3 by (by destruct Hs).
  match goal with |- context [run _ (profile_save prof3) (?w0, ?tr1)] =>
    destruct (profile_save_trace h w0 tr1 prof3 p f _ Hs3 (env_fopen _ _ _ Henv _ _)) as [w2 ->]
  end.
  cbn [and_then]. unfold profile_destroy. cbn [data prof3 prof2 set_stats set_args set_data].
  step_run. rewrite <- !app_assoc. cbn [app].
  eexists _, _, _. split; [reflexivity|]. split; [done|]. unfold combo_trace.
  assert (csv_name prof3 = default "default" (name prof) +:+ ".csv") as Hname.
  { unfold csv_name. cbn. by destruct (name prof). }
  cbn -[csv_lines csv_name mean_of sd_of deltas Z.mul].
  rewrite Hname. change (omap clock_reading) with clock_readings.
  match goal with |- context [clock_readings (mid ++ ?rest)] =>
    assert (clock_readings (mid ++ rest) = clock_readings mid) as E
  end.
  { rewrite clock_readings_app. cbn [clock_readings omap list_omap clock_reading].
    change (omap clock_reading) with clock_readings. rewrite clock_readings_app, clock_readings_csv.
    cbn. apply app_nil_r. }
  rewrite !E.
  split_and!; try done. by exists mid.
Qed.

(** (C4) The whole harness: in an environment that grants memory and files,
    [profile_combo] terminates; it leaves the statistics of exactly the gaps
    between the [repeat] clock readings it took, saves those very gaps, line by
    line, and gives back at the end the one block it allocated, leaving no
    pointer to it. *)
Theorem profile_combo_correct {W Args} (h : handler W) (w : W) (prof : profile Args)
    (step : Args -> Args) (p f : Z)
    (Henv : profiling_env h p f) (Hrep : 0 < repeat prof <= INT_MAX)
    (Hfunc : func_ok h (func prof) step (args prof)) :
  exists prof' w' tr,
    run (traced h) (profile_combo prof) (w, []) = (Done prof', (w', tr))
    /\ data prof' = BNull
    /\ mean prof' = mean_of (deltas (clock_readings tr)) (repeat prof)
    /\ sd prof' = sd_of (deltas (clock_readings tr)) (repeat prof)
    /\ combo_trace p f prof tr.
Proof. exact (profile_combo_run h w [] prof step p f Henv Hrep Hfunc). Qed.

Theorem profile_combo_correct_witness :
  exists prof', (run (traced (@default_handler unit))
                   (profile_combo (counting_profile 4 BIndet)) (tt, [])).1 = Done prof'
    /\ data prof' = BNull.
Proof.
  destruct (profile_combo_correct (@default_handler unit) tt (counting_profile 4 BIndet)
              (fun a => a + 1) 1 1) as (prof' & w' & tr & Hrun & Hd & _).
  - split; [reflexivity|reflexivity| |];
      intros t; [|intros u]; intros [? ->]; [|intros [? ->]]; vm_compute; intuition discriminate.
  - vm_compute. intuition discriminate.
  - intros k w tr. exists 0, w, []. rewrite app_nil_r. split; reflexivity.
  - exists prof'. rewrite Hrun. split; [reflexivity|exact Hd].
Defined.
