(* ===== verification/Getopt.v ===== *)
(** * Command lines

    [getopt_long] of the GNU C library, as the [parse_opts] functions of the
    executables use it, and what these functions share.  The library
    permutes the arguments, so a command line is the sequence of the options
    it holds, whatever stands between them; [--] ends it.  An unknown option,
    a missing or superfluous argument and an ambiguous abbreviation give the
    character [?]; the message the library then prints is not modelled. *)

From S2P Require Import Prelude CInt CString Libc CFloat Utils.

Local Open Scope string_scope.
Local Open Scope list_scope.
Local Open Scope Z_scope.

(** [struct option] ([flag] is 0 everywhere in the kit). *)
Record option_ := Option_ { opt_name : string; has_arg : bool; val : ascii }.

(** What a call of [getopt_long] returns, with [optarg]. *)
Record found := Found { opt : ascii; optarg : option string }.

Definition bad : found := Found "?" None.

(** ** Short options *)

(** Is [c] an option of the string, and does a colon follow it? *)
Fixpoint short_option (optstring : string) (c : ascii) : option bool :=
  match optstring with
  | String d r =>
      if Ascii.eqb c d && negb (Ascii.eqb c ":") then
        Some (match r with String ":" _ => true | _ => false end)
      else short_option r c
  | EmptyString => None
  end.

(** The options of one word [-abc]; the character left at the end waits for
    its argument in the next word. *)
Fixpoint cluster (optstring : string) (s : string) : list found * option ascii :=
  match s with
  | EmptyString => ([], None)
  | String c r =>
      match short_option optstring c with
      | None => let '(l, p) := cluster optstring r in (bad :: l, p)
      | Some false => let '(l, p) := cluster optstring r in (Found c None :: l, p)
      | Some true =>
          match r with
          | EmptyString => ([], Some c)
          | _ => ([Found c (Some r)], None)
          end
      end
  end.

(** ** Long options *)

(** The text before the first [=], and what follows it. *)
Fixpoint split_eq (s : string) : string * option string :=
  match s with
  | String "=" r => (EmptyString, Some r)
  | String c r => let '(n, v) := split_eq r in (String c n, v)
  | EmptyString => (EmptyString, None)
  end.

Definition same_option (o p : option_) : bool :=
  Bool.eqb (has_arg o) (has_arg p) && Ascii.eqb (val o) (val p).

(** The exact name, or else the only option (up to equality of what it
    means) it abbreviates. *)
Definition find_long (longopts : list option_) (name : string) : option option_ :=
  match List.find (fun o => String.eqb (opt_name o) name) longopts with
  | Some o => Some o
  | None =>
      match List.filter (fun o => String.prefix name (opt_name o)) longopts with
      | o :: os => if forallb (same_option o) os then Some o else None
      | [] => None
      end
  end.

Definition long_option (longopts : list option_) (s : string) : list found * option ascii :=
  let '(name, arg) := split_eq s in
  match find_long longopts name with
  | None => ([bad], None)
  | Some o =>
      match has_arg o, arg with
      | true, Some a => ([Found (val o) (Some a)], None)
      | true, None => ([], Some (val o))
      | false, Some _ => ([bad], None)
      | false, None => ([Found (val o) None], None)
      end
  end.

(** ** The whole command line

    [pending]: the option whose argument is the next word. *)
Fixpoint getopt_long (optstring : string) (longopts : list option_) (pending : option ascii)
    (argv : list string) : list found :=
  match argv, pending with
  | [], None => []
  | [], Some _ => [bad]
  | a :: argv, Some c => Found c (Some a) :: getopt_long optstring longopts None argv
  | a :: argv, None =>
      match a with
      | "--" => []
      | String "-" (String "-" s) =>
          let '(l, p) := long_option longopts s in
          l ++ getopt_long optstring longopts p argv
      | String "-" (String c s) =>
          let '(l, p) := cluster optstring (String c s) in
          l ++ getopt_long optstring longopts p argv
      | _ => getopt_long optstring longopts None argv
      end
  end.

(** [while ((opt = getopt_long(...)) != -1) switch (opt) ...]: the body of
    the loop for each option in turn.  [argv] is without the program name. *)
Fixpoint opt_loop {S} (body : found -> S -> prog S) (l : list found) (s : S) : prog S :=
  match l with
  | [] => Ret s
  | f :: l => s ← body f s; opt_loop body l s
  end.

(** A string function on [optarg]; NULL is not a string. *)
Definition with_arg {S} (f : found) (k : string -> prog S) : prog S :=
  match optarg f with Some a => k a | None => Undef "NULL optarg" end.

(** [usage]: a text to stderr, then [exit(EXIT_FAILURE)]. *)
Fixpoint eprint_all (l : list (string * list parg)) : prog unit :=
  match l with
  | [] => Ret tt
  | (fmt, args) :: l => call (Eprintf fmt args);; eprint_all l
  end.

Definition usage_text {A} (l : list (string * list parg)) : prog A :=
  eprint_all l;; Exit EXIT_FAILURE.

(** ** Writing a command line *)

(** Each option with its argument, as separate words. *)
Definition words (l : list (option_ * option string)) : list string :=
  concat (map (fun '(o, a) => ("--" +:+ opt_name o) :: option_list a) l).

(** The option is found under its own name, and has an argument exactly
    when it takes one. *)
Definition written (longopts : list option_) (oa : option_ * option string) : bool :=
  let '(o, a) := oa in
  negb (String.eqb (opt_name o) "")
  && match split_eq (opt_name o) with (n, None) => String.eqb n (opt_name o) | _ => false end
  && match find_long longopts (opt_name o) with
     | Some p => String.eqb (opt_name p) (opt_name o) && same_option p o
     | None => false
     end
  && Bool.eqb (has_arg o) (match a with Some _ => true | None => false end).

Definition found_of (oa : option_ * option string) : found := Found (val oa.1) oa.2.

(** ** Lemmas *)

Lemma getopt_long_word optstring longopts o a argv :
  written longopts (o, a) = true ->
  getopt_long optstring longopts None ((("--" +:+ opt_name o) :: option_list a) ++ argv)
  = Found (val o) a :: getopt_long optstring longopts None argv.
Proof.
  intros H. unfold written in H.
  rewrite !andb_true_iff, negb_true_iff in H. destruct H as [[[Hne Hs] Hf] Ha].
  destruct o as [n ha v]. cbn [opt_name has_arg val] in *.
  destruct (split_eq n) as [n' [x|]] eqn:Es; [done|].
  apply String.eqb_eq in Hs. subst n'.
  assert (long_option longopts n = if ha then ([], Some v) else ([Found v None], None)) as Hl.
  { unfold long_option. rewrite Es. destruct (find_long longopts n) as [[pn pa pv]|]; [|done].
    unfold same_option in Hf. cbn [opt_name has_arg val] in *.
    rewrite !andb_true_iff in Hf. destruct Hf as [_ [H1 H2]].
    apply Bool.eqb_prop in H1. apply Ascii.eqb_eq in H2. subst. by destruct ha. }
  destruct n as [|c n]; [done|].
  apply Bool.eqb_prop in Ha. subst ha.
  rewrite !string_app_cons. change ("" +:+ String c n) with (String c n).
  destruct a as [a|]; cbn [option_list app getopt_long]; rewrite Hl; reflexivity.
Qed.

Lemma getopt_long_words optstring longopts l :
  forallb (written longopts) l = true ->
  getopt_long optstring longopts None (words l) = map found_of l.
Proof.
  induction l as [|[o a] l IH]; [done|]. cbn [forallb]. intros H.
  apply andb_true_iff in H as [Ho Hl]. unfold words. cbn [map concat].
  rewrite getopt_long_word by done. f_equal. by apply IH.
Qed.

Lemma run_eprint_all {W} (h : handler W) l w tr :
  exists w', run (traced h) (eprint_all l) (w, tr)
             = (Done tt, (w', tr ++ map (fun '(f, a) => Ev (Eprintf f a) tt) l)).
Proof.
  revert w tr. induction l as [|[f a] l IH]; intros w tr.
  - exists w. by rewrite app_nil_r.
  - cbn [eprint_all map]. step_run.
    destruct (IH (h unit (Eprintf f a) w).2 (tr ++ [Ev (Eprintf f a) tt])) as [w' ->].
    exists w'. by rewrite <- app_assoc.
Qed.

(** [usage] never returns. *)
Lemma run_usage {W A} (h : handler W) l w tr :
  exists w', run (traced h) (usage_text (A := A) l) (w, tr)
             = (Exited EXIT_FAILURE, (w', tr ++ map (fun '(f, a) => Ev (Eprintf f a) tt) l)).
Proof.
  unfold usage_text. destruct (run_eprint_all h l w tr) as [w' E].
  exists w'. rewrite run_bind, E. reflexivity.
Qed.

(** A loop over options each of which only updates the state. *)
Lemma run_opt_loop {W S} (h : handler W) (body : found -> S -> prog S) (f : found -> S -> S) l s w :
  (forall x s, x ∈ l -> body x s = Ret (f x s)) ->
  run h (opt_loop body l s) w = (Done (foldl (fun s x => f x s) s l), w).
Proof.
  revert s. induction l as [|x l IH]; intros s Hb; [done|].
  cbn [opt_loop foldl]. rewrite run_bind, Hb by (by apply list_elem_of_here).
  rewrite run_ret. cbn [and_then]. apply IH. intros. apply Hb. by apply list_elem_of_further.
Qed.

(** ** Arguments *)

(** Has the option an argument in each table that declares it? *)
Definition needs_arg (optstring : string) (longopts : list option_) (c : ascii) : bool :=
  match short_option optstring c with Some false => false | _ => true end
  && forallb (fun o => negb (Ascii.eqb (val o) c) || has_arg o) longopts
  && negb (Ascii.eqb c "?").

Definition has_its_arg (optstring : string) (longopts : list option_) (f : found) : Prop :=
  needs_arg optstring longopts (opt f) = true -> is_Some (optarg f).

Lemma cluster_args optstring longopts s :
  Forall (has_its_arg optstring longopts) (cluster optstring s).1.
Proof.
  assert (has_its_arg optstring longopts bad) as Hbad.
  { unfold has_its_arg, needs_arg. cbn [opt bad]. by rewrite andb_false_r. }
  induction s as [|c r IH]; cbn [cluster]; [constructor|].
  destruct (short_option optstring c) as [[]|] eqn:E.
  - destruct r; constructor; [|constructor]. intros _. by eexists.
  - destruct (cluster optstring r). constructor; [|done].
    unfold has_its_arg, needs_arg. cbn [opt]. by rewrite E.
  - destruct (cluster optstring r). by constructor.
Qed.

Lemma find_long_in longopts name o : find_long longopts name = Some o -> o ∈ longopts.
Proof.
  unfold find_long. destruct (List.find _ longopts) as [o'|] eqn:E.
  { intros [= ->]. apply List.find_some in E as [? _]. by apply list_elem_of_In. }
  destruct (List.filter _ longopts) as [|o' os] eqn:F; [done|]. destruct (forallb _ _); [|done].
  intros [= ->]. apply list_elem_of_In, (List.filter_In (fun o => String.prefix name (opt_name o))).
  rewrite F. by left.
Qed.

Lemma long_option_args optstring longopts s :
  Forall (has_its_arg optstring longopts) (long_option longopts s).1.
Proof.
  assert (has_its_arg optstring longopts bad) as Hbad.
  { unfold has_its_arg, needs_arg. cbn [opt bad]. by rewrite andb_false_r. }
  unfold long_option. destruct (split_eq s) as [name arg].
  destruct (find_long longopts name) as [o|] eqn:E; [|by repeat constructor].
  apply find_long_in in E. destruct (has_arg o) eqn:Ha, arg; try (by repeat constructor).
  { repeat constructor. intros _. by eexists. }
  repeat constructor. unfold has_its_arg, needs_arg. cbn [opt]. rewrite !andb_true_iff. intros [[_ Hl] _].
  rewrite forallb_forall in Hl. specialize (Hl o (proj1 (list_elem_of_In _ _) E)).
  by rewrite Ha, Ascii.eqb_refl in Hl.
Qed.

(** Whatever the command line, an option that must have an argument comes
    with one. *)
Lemma getopt_long_args optstring longopts pending argv :
  Forall (has_its_arg optstring longopts) (getopt_long optstring longopts pending argv).
Proof.
  assert (has_its_arg optstring longopts bad) as Hbad.
  { unfold has_its_arg, needs_arg. cbn [opt bad]. by rewrite andb_false_r. }
  revert pending. induction argv as [|a argv IH]; intros [c|]; cbn [getopt_long]; try by repeat constructor.
  { constructor; [|done]. intros _. by eexists. }
  repeat case_match; try done; try constructor;
    match goal with
    | H : cluster _ ?s = (?l, _) |- _ => pose proof (cluster_args optstring longopts s) as Hl; rewrite H in Hl
    | H : long_option _ ?s = (?l, _) |- _ => pose proof (long_option_args optstring longopts s) as Hl; rewrite H in Hl
    end; cbn [fst] in Hl; apply Forall_app; split; done.
Qed.

(** ** What the reading of a command line may give

    From every world, [p] ends with a result that satisfies [P], or in
    [usage]. *)
Definition returns {W A} (h : handler W) (p : prog A) (P : A -> Prop) : Prop :=
  forall w, match (run h p w).1 with
            | Done a => P a
            | Exited s => s = EXIT_FAILURE
            | _ => False
            end.

Lemma returns_ret {W A} (h : handler W) (a : A) (P : A -> Prop) : P a -> returns h (Ret a) P.
Proof. by intros H w. Qed.

Lemma returns_bind {W A B} (h : handler W) (p : prog A) (f : A -> prog B) P Q :
  returns h p P -> (forall a, P a -> returns h (f a) Q) -> returns h (p ≫= f) Q.
Proof.
  intros Hp Hf w. specialize (Hp w). rewrite run_bind.
  destruct (run h p w) as [[a|s|why|] w']; cbn in *; [by apply Hf|done..].
Qed.

Lemma returns_call {W X B} (h : handler W) (e : sys X) (f : X -> prog B) Q :
  (forall x, returns h (f x) Q) -> returns h (call e ≫= f) Q.
Proof. intros Hf w. rewrite run_bind, run_call. apply Hf. Qed.

Lemma returns_usage {W A} (h : handler W) l (P : A -> Prop) : returns h (usage_text l) P.
Proof.
  unfold usage_text. apply (returns_bind _ _ _ (fun _ => True)); [|by intros _ _ w].
  induction l as [|[fmt args] l IH]; [by intros w|]. by apply returns_call.
Qed.

Lemma returns_with_arg {W S} (h : handler W) f (g : string -> S) (P : S -> Prop) :
  is_Some (optarg f) -> (forall a, P (g a)) -> returns h (with_arg f (fun a => Ret (g a))) P.
Proof. intros [a Ha] Hg. unfold with_arg. rewrite Ha. by apply returns_ret. Qed.

(** An invariant of the options is kept by the loop over them. *)
Lemma returns_opt_loop {W S} (h : handler W) (body : found -> S -> prog S) optstring longopts argv
    (P : S -> Prop) s :
  P s -> (forall f s, has_its_arg optstring longopts f -> P s -> returns h (body f s) P) ->
  returns h (opt_loop body (getopt_long optstring longopts None argv) s) P.
Proof.
  intros Hs Hb. pose proof (getopt_long_args optstring longopts None argv) as Hl. revert s Hs.
  induction Hl as [|f l Hf _ IH]; intros s Hs; cbn [opt_loop]; [by apply returns_ret|].
  apply (returns_bind _ _ _ P); [by apply Hb|]. intros s' Hs'. by apply IH.
Qed.
