(* ===== verification/Calibrate.v ===== *)
(** * src/calibrate.c

    The busy loop [do_hog], the interruptible [counter], and [calibrate],
    which measures how far the CPU counts in a given interval.  Every program
    of the kit that needs a calibrated amount of work calls these. *)

From S2P Require Import Prelude CInt CString Libc CFloat Utils.

Local Open Scope string_scope.
Local Open Scope list_scope.
Local Open Scope Z_scope.

Definition HIST : Z := 10.

(** ** do_hog

    [while (dummy && --niters);]  [dummy] is a volatile that nothing clears:
    every turn reads it as 1.  The loop gives the number of turns it took
    (the decrements), which is the amount of work the callers ask for. *)
Fixpoint hog_loop (fuel : nat) (niters : Z) (turns : Z) : option Z :=
  match fuel with
  | O => None
  | S fuel =>
      let niters := s64 (niters - 1) in
      if niters =? 0 then Some (turns + 1) else hog_loop fuel niters (turns + 1)
  end.

(** The turns of [do_hog(niters)] and its result. *)
Definition do_hog (fuel : nat) (niters : Z) : option (Z * Z) :=
  let niters := if niters <=? 0 then 1 else niters in
  match hog_loop fuel niters 0 with
  | Some turns => Some (turns, 0)
  | None => None
  end.

(** [do_hog] inside a program: the loop is one call that takes its turns
    ([do_hog_terminates] shows the loop takes exactly these). *)
Definition hog (niters : Z) : prog unit := call (Busy (Z.max 1 niters)).

(** ** counter

    [run = 1; while (run && --niters); return niters;] where the SIGALRM
    handler sets [run] to 0.  [reads] are the values the successive reads of
    [run] see; [None]: the loop still runs when they are exhausted. *)
Definition signalhandler (run : bool) : bool := false.

Fixpoint counter_loop (reads : list bool) (niters : Z) : option Z :=
  match reads with
  | [] => None
  | false :: _ => Some niters
  | true :: reads =>
      let niters := u64 (niters - 1) in
      if niters =? 0 then Some niters else counter_loop reads niters
  end.

Definition counter (niters : Z) : prog Z :=
  reads ← call Run_reads;
  match counter_loop reads niters with
  | Some n => Ret n
  | None => Fuel
  end.

(** ** error, calibrate *)

(** [strerror(errno_code)]. *)
Definition error {A} (status : Z) (msg : string) : prog A :=
  call (Eprintf msg []);;
  e ← call Strerror_errno;
  call (Eprintf (": %s" +:+ NL) [PStr e]);;
  Exit status.

(** [if (e) error(EXIT_FAILURE, msg);] *)
Definition or_error (r : Z) (msg : string) : prog unit :=
  if r =? 0 then Ret tt else error EXIT_FAILURE msg.

Definition calibrate (usec : Z) : prog Z :=
  r ← call Sigemptyset;
  or_error r "sigemptyset failed";;
  r ← call (Sigaction SIGALRM);
  or_error r "sigaction failed";;
  r ← call (Setitimer_real (0, usec) (0, usec));
  or_error r "setitimer failed";;
  (* warm-up *)
  counter ULONG_MAX;;
  (* gather values *)
  result ← for_ (Z.to_nat HIST) 0 (fun _ result =>
    n ← counter ULONG_MAX;
    Ret (u64 (result + u64 (ULONG_MAX - n)))) 0;
  r ← call (Setitimer_real (0, 0) (0, 0));
  or_error r "setitimer stop failed";;
  Ret (result / HIST).

(** ** Lemmas *)

Lemma hog_loop_turns fuel n turns :
  0 < n <= LONG_MAX -> (Z.to_nat n <= fuel)%nat ->
  hog_loop fuel n turns = Some (turns + n).
Proof.
  revert n turns. induction fuel as [|fuel IH]; intros n turns Hn Hf; [lia|].
  cbn [hog_loop]. rewrite s64_id by clia. case_if.
  - f_equal. lia.
  - rewrite IH by clia. f_equal. lia.
Qed.

(** The number of leading reads that found the flag set. *)
Fixpoint set_reads (reads : list bool) : Z :=
  match reads with true :: r => 1 + set_reads r | _ => 0 end.

(** The alarm was seen: some read found the flag cleared. *)
Definition alarm_seen (reads : list bool) : bool := existsb negb reads.

Lemma set_reads_nonneg reads : 0 <= set_reads reads.
Proof. induction reads as [|[] r IH]; cbn; lia. Qed.

Lemma counter_loop_value reads n :
  alarm_seen reads = true -> set_reads reads < n -> n <= ULONG_MAX ->
  counter_loop reads n = Some (n - set_reads reads).
Proof.
  revert n. induction reads as [|[] r IH]; intros n Ha Hn Hm; [done| |].
  - cbn in *. pose proof (set_reads_nonneg r). rewrite u64_id by clia.
    case_if; [lia|]. rewrite IH by (done || lia). f_equal. lia.
  - cbn. f_equal. lia.
Qed.

Lemma run_or_error_ok {W} (h : handler W) msg w : run h (or_error 0 msg) w = (Done tt, w).
Proof. done. Qed.

(** ** Theorems *)

(** [do_hog] terminates for every argument of type [long], zero and
    negative delays included, does exactly [max 1 n] turns and returns 0;
    [n] turns of fuel are enough. *)
Theorem do_hog_terminates (n : Z) (H : in_s64 n) (fuel : nat) (Hf : Z.max 1 n <= Z.of_nat fuel) :
  do_hog fuel n = Some (Z.max 1 n, 0).
Proof.
  unfold do_hog. case_if.
  - rewrite hog_loop_turns by clia. do 2 f_equal. lia.
  - rewrite hog_loop_turns by clia. do 2 f_equal. lia.
Qed.

Theorem do_hog_terminates_witness : do_hog 100 (-5) = Some (1, 0) /\ do_hog 100 42 = Some (42, 0).
Proof.
  split.
  - refine (do_hog_terminates (-5) _ 100 _); [vm_compute; intuition discriminate|lia].
  - refine (do_hog_terminates 42 _ 100 _); [vm_compute; intuition discriminate|lia].
Defined.

(** An environment in which the signal set-up succeeds and the timer goes off
    in every [counter] loop before it has counted [bound] turns. *)
Record alarm_env {W} (h : handler W) (bound : Z) : Prop := AlarmEnv {
  alarm_sigemptyset : forall w, (h _ Sigemptyset w).1 = 0;
  alarm_sigaction : forall s w, (h _ (Sigaction s) w).1 = 0;
  alarm_setitimer : forall i v w, (h _ (Setitimer_real i v) w).1 = 0;
  alarm_fires : forall w, alarm_seen (h _ Run_reads w).1 = true;
  alarm_bound : forall w, set_reads (h _ Run_reads w).1 <= bound
}.

(** The turns of the interrupted [counter] loops of a trace, in order. *)
Definition counter_turns (tr : list ev) : list Z :=
  omap (fun e => match e with
    | Ev e x =>
        match e in sys X return X -> option Z with
        | Run_reads => fun reads => Some (set_reads reads)
        | _ => fun _ => None
        end x
    end) tr.

Lemma counter_turns_app tr1 tr2 :
  counter_turns (tr1 ++ tr2) = counter_turns tr1 ++ counter_turns tr2.
Proof. unfold counter_turns. by rewrite omap_app. Qed.

Lemma run_counter {W} (h : handler W) bound w tr :
  alarm_env h bound -> bound < ULONG_MAX ->
  exists w' reads,
    run (traced h) (counter ULONG_MAX) (w, tr)
    = (Done (ULONG_MAX - set_reads reads), (w', tr ++ [Ev Run_reads reads]))
    /\ 0 <= set_reads reads <= bound.
Proof.
  intros He Hb. unfold counter. step_run.
  pose proof (alarm_bound _ _ He w). pose proof (alarm_fires _ _ He w).
  rewrite counter_loop_value by (done || lia).
  eexists _, _. split; [done|]. pose proof (set_reads_nonneg (h _ Run_reads w).1). lia.
Qed.

(** (C6) [calibrate] returns the average count: when the timer interrupts
    every loop within [bound] turns, [10 * bound < 2^64], the result is the
    floor of the mean of the turns of the ten measured loops, the warm-up loop
    being left out, and so it is at most [bound]. *)
Theorem calibrate_average {W} (h : handler W) (bound usec : Z) (w : W)
    (Henv : alarm_env h bound) (Hb : HIST * bound <= ULONG_MAX) :
  exists w' tr warm turns,
    run (traced h) (calibrate usec) (w, []) = (Done (zsum turns / HIST), (w', tr))
    /\ counter_turns tr = warm :: turns
    /\ length turns = Z.to_nat HIST
    /\ 0 <= zsum turns / HIST <= bound.
Proof.
  unfold calibrate. step_run. rewrite (alarm_sigemptyset _ _ Henv), run_or_error_ok. step_run.
  rewrite (alarm_sigaction _ _ Henv), run_or_error_ok. step_run.
  rewrite (alarm_setitimer _ _ Henv), run_or_error_ok. cbn [and_then].
  rewrite run_bind.
  match goal with |- context [run _ (counter _) (?w0, ?tr0)] =>
    destruct (run_counter h bound w0 tr0 Henv ltac:(unfold HIST in *; clia))
      as (w1 & warm & -> & Hwarm)
  end.
  cbn [and_then]. rewrite run_bind.
  edestruct (run_for_invariant (traced h)
    (fun i result '(w, tr) => exists turns, counter_turns tr = set_reads warm :: turns
       /\ length turns = Z.to_nat i /\ result = zsum turns
       /\ 0 <= zsum turns <= i * bound))
    as (result & [w2 tr2] & -> & turns & Ht & Hl & -> & Hz).
  - intros j result [w3 tr3] Hj (turns & Ht & Hl & -> & Hz). rewrite run_bind.
    destruct (run_counter h bound w3 tr3 Henv ltac:(unfold HIST in *; clia))
      as (w4 & reads & -> & Hr).
    cbn [and_then]. rewrite run_ret. eexists _, (_, _). split; [done|].
    exists (turns ++ [set_reads reads]).
    rewrite counter_turns_app, Ht. split; [done|].
    split; [rewrite length_app; cbn; lia|].
    rewrite zsum_app. cbn [zsum foldr].
    assert (set_reads reads <= ULONG_MAX) by (unfold HIST in *; clia).
    assert ((j + 1) * bound <= HIST * bound) by (unfold HIST in *; nia).
    rewrite (u64_id (ULONG_MAX - _)) by clia.
    rewrite u64_id by (unfold in_u64; lia). split; lia.
  - exists []. rewrite !counter_turns_app. cbn. split; [done|]. lia.
  - cbn [and_then]. step_run. rewrite (alarm_setitimer _ _ Henv), run_or_error_ok.
    cbn [and_then]. do 4 eexists. split; [reflexivity|].
    rewrite counter_turns_app, Ht. split; [cbn; by rewrite app_nil_r|].
    split; [done|]. unfold HIST in *. split; [apply Z.div_pos; lia|].
    apply Z.div_le_upper_bound; lia.
Qed.

(** A machine that counts to 3 in every interval. *)
Definition alarm_after_3 : handler unit :=
  fun X e w => (match e in sys X return X with
                | Run_reads => [true; true; true; false]
                | e => default_answer e
                end, w).

Theorem calibrate_average_witness :
  exists w' tr, run (traced alarm_after_3) (calibrate 10000) (tt, []) = (Done 3, (w', tr)).
Proof.
  destruct (calibrate_average alarm_after_3 3 10000 tt) as (w' & tr & warm & turns & Hrun & _).
  - split; intros; vm_compute; try reflexivity; intuition discriminate.
  - vm_compute. intuition discriminate.
  - exists w', tr. rewrite Hrun. remember (zsum turns / HIST) as z eqn:Hz. clear Hz.
    vm_compute in Hrun. by injection Hrun as <- _ _.
Defined.
