(* ===== verification/Pincpu.v ===== *)
(** * src/pincpu.c

    The parser of CPU lists ("0,2,3") and the pinning of the calling thread. *)

From S2P Require Import Prelude CInt CString Libc CFloat Utils.

Local Open Scope string_scope.
Local Open Scope list_scope.
Local Open Scope Z_scope.

Record pincpu := Pincpu { cpus : list Z; nrcpus : Z }.

Section parse.
(** [const char sep = ','; strtok(str, &sep)]: the separators are the comma
    and whatever bytes follow the variable [sep] in memory, up to a NUL;
    [junk] are these bytes. *)
Variable junk : string.

Definition sep : string := String "," junk.

(** The counting loop: the number of tokens. *)
Fixpoint count_tokens (fuel : nat) (pos : string) (n : Z) : option Z :=
  match fuel with
  | O => None
  | S fuel =>
      match strtok sep pos with
      | None => Some n
      | Some (_, pos) => count_tokens fuel pos (s32 (n + 1))
      end
  end.

(** [cpuset->cpus[i++] = cpu] in the block that [calloc] returned. *)
Definition store_cpu (l : list Z) (i : Z) (cpu : Z) : prog (list Z) :=
  if (0 <=? i) && (i <? Z.of_nat (length l))
  then Ret (<[Z.to_nat i := cpu]> l)
  else Undef "write outside cpus".

(** The parsing loop: the result code and the array. *)
Fixpoint parse_tokens (fuel : nat) (online nr : Z) (pos : string) (i : Z) (l : list Z)
  : prog (Z * list Z) :=
  match fuel with
  | O => Fuel
  | S fuel =>
      match strtok sep pos with
      | None => Ret (0, l)
      | Some (tok, pos) =>
          let '(v, rest) := strtol tok in
          let cpu := s32 v in
          if online <=? cpu then
            call (Printf ("Error: CPU %d is greater or equal to max online cpus %d" +:+ NL)
                    [PInt cpu; PInt nr]);;
            Ret (-1, l)
          else if negb (String.eqb rest "") then
            call (Printf ("Error: invalid CPU %s" +:+ NL) [PStr (Some tok)]);;
            Ret (-1, l)
          else
            l ← store_cpu l i cpu;
            parse_tokens fuel online nr pos (i + 1) l
      end
  end.

Definition pincpu_parse (cpuset : pincpu) (input : string) : prog (Z * pincpu) :=
  online ← call Nprocessors_onln;
  let online := s32 online in
  let fuel := S (String.length input) in
  match count_tokens fuel input (nrcpus cpuset) with
  | None => Fuel
  | Some nr =>
      (* calloc of a size_t count: the entries are zero *)
      p ← call (Calloc (u64 nr) 4);
      match p with
      | None => Undef "write through NULL"
      | Some _ =>
          '(ret, l) ← parse_tokens fuel online nr input 0 (replicate (Z.to_nat nr) 0);
          Ret (ret, Pincpu l nr)
      end
  end.
End parse.

Definition dump_cpuset (cpuset : pincpu) : prog unit :=
  call (Printf "cpuset: [" []);;
  for_ (Z.to_nat (nrcpus cpuset)) 0 (fun i _ =>
    match cpus cpuset !! Z.to_nat i with
    | None => Undef "read outside cpus"
    | Some c =>
        call (Printf "%d" [PInt c]);;
        if negb (i =? s32 (nrcpus cpuset - 1)) then call (Printf "," []) else Ret tt
    end) tt;;
  call (Printf ("]" +:+ NL) []).

(** [CPU_SET] ignores a number outside the 1024 of a [cpu_set_t]. *)
Definition CPU_SETSIZE : Z := 1024.
Definition cpu_set (cpu : Z) : list Z :=
  if (0 <=? cpu) && (cpu <? CPU_SETSIZE) then [cpu] else [].

Definition pincpu_do_pin (cpu : Z) : prog Z :=
  let set := cpu_set cpu in
  tid ← gettid;
  call (Sched_setaffinity tid set);;
  now ← call Sched_getcpu;
  if negb (cpu =? now) then Ret (-1) else Ret 0.

(** ** Lemmas *)

(** The tokens of a string, as iterated [strtok] gives them. *)
Fixpoint tokens (fuel : nat) (delims pos : string) : list string :=
  match fuel with
  | O => []
  | S fuel =>
      match strtok delims pos with
      | None => []
      | Some (tok, pos) => tok :: tokens fuel delims pos
      end
  end.

Lemma count_tokens_length junk fuel pos n :
  (String.length pos < fuel)%nat ->
  0 <= n -> n + Z.of_nat (length (tokens fuel (sep junk) pos)) <= INT_MAX ->
  count_tokens junk fuel pos n = Some (n + Z.of_nat (length (tokens fuel (sep junk) pos))).
Proof.
  revert pos n. induction fuel as [|fuel IH]; intros pos n Hf Hn Hmax; [lia|].
  cbn [count_tokens tokens] in *. destruct (strtok (sep junk) pos) as [[tok pos']|] eqn:E.
  - pose proof (strtok_shrinks _ _ _ _ E). cbn [length] in *.
    rewrite s32_id by clia. rewrite IH by lia. f_equal. lia.
  - f_equal. cbn. lia.
Qed.

(** What the parser accepts: a CPU token is an optionally signed number,
    whole, whose value is below the number of CPUs. *)
Definition cpu_of (tok : string) : Z := s32 (strtol tok).1.
Definition tok_ok (online : Z) (tok : string) : bool :=
  (cpu_of tok <? online) && String.eqb (strtol tok).2 "".

(** The leading tokens that are accepted. *)
Fixpoint accepted (online : Z) (toks : list string) : list Z :=
  match toks with
  | t :: ts => if tok_ok online t then cpu_of t :: accepted online ts else []
  | [] => []
  end.

(** Overwrite a list from index [i]. *)
Definition overlay (l : list Z) (i : nat) (xs : list Z) : list Z :=
  take i l ++ xs ++ drop (i + length xs) l.

Lemma overlay_0 l xs : overlay l 0 xs = xs ++ drop (length xs) l.
Proof. reflexivity. Qed.

Lemma overlay_nil l i : overlay l i [] = l.
Proof. unfold overlay. cbn. rewrite Nat.add_0_r. apply take_drop. Qed.

Lemma overlay_cons l i x xs :
  (i < length l)%nat -> overlay (<[i := x]> l) (S i) xs = overlay l i (x :: xs).
Proof.
  intros H. unfold overlay. cbn [length].
  rewrite drop_insert_lt by lia. rewrite <- plus_n_Sm. cbn [Nat.add].
  rewrite (take_S_r _ i x) by (by apply list_lookup_insert_eq).
  rewrite take_insert_ge by lia. by rewrite <- app_assoc.
Qed.

Lemma run_parse_tokens {W} (h : handler W) junk online nr fuel pos i l w :
  (String.length pos < fuel)%nat ->
  (i + length (tokens fuel (sep junk) pos) <= length l)%nat ->
  let toks := tokens fuel (sep junk) pos in
  exists w',
    run h (parse_tokens junk fuel online nr pos (Z.of_nat i) l) w
    = (Done ((if forallb (tok_ok online) toks then 0 else -1),
             overlay l i (accepted online toks)), w').
Proof.
  revert pos i l w. induction fuel as [|fuel IH]; intros pos i l w Hf Hl; [lia|].
  cbn [parse_tokens tokens] in *. destruct (strtok (sep junk) pos) as [[tok pos']|] eqn:E.
  2:{ cbn. rewrite overlay_nil. eauto. }
  pose proof (strtok_shrinks _ _ _ _ E). cbn [length] in Hl.
  cbn [forallb accepted]. unfold tok_ok, cpu_of. fold (tok_ok online).
  destruct (strtol tok) as [v rest] eqn:Et. cbn [fst snd].
  case_if.
  { step_run. replace (s32 v <? online) with false by lia. cbn. rewrite overlay_nil. eauto. }
  replace (s32 v <? online) with true by lia. cbn [andb].
  destruct (String.eqb rest "") eqn:Er; cbn [negb].
  2:{ step_run. cbn. rewrite overlay_nil. eauto. }
  unfold store_cpu at 1. replace (_ && _) with true.
  2:{ symmetry. apply andb_true_iff. rewrite Z.leb_le, Z.ltb_lt. lia. }
  cbn [mbind prog_bind]. rewrite Nat2Z.id.
  replace (Z.of_nat i + 1) with (Z.of_nat (S i)) by lia.
  destruct (IH pos' (S i) (<[i := s32 v]> l) w) as [w' Hw']; [lia|rewrite length_insert; lia|].
  cbv zeta in Hw'. rewrite Hw', overlay_cons by lia. cbn. eauto.
Qed.

(** The list of CPUs as text. *)
Fixpoint cpu_list (l : list Z) : string :=
  match l with
  | [] => ""
  | [c] => render c
  | c :: l => render c +:+ String "," (cpu_list l)
  end.

Definition numeral (c : ascii) : bool := isdigit c || (code c =? 45).

Lemma numeral_not_comma c : numeral c = true -> strchr "," c = false.
Proof.
  intros H. cbn [strchr]. rewrite orb_false_r.
  destruct (Ascii.eqb_spec "," c) as [<-|]; [|done]. discriminate H.
Qed.

Lemma tok_split_numeral s r :
  all_chars numeral s = true -> tok_split "," (s +:+ String "," r) = (s, r).
Proof.
  induction s as [|c s IH]; intros H; [done|]. cbn [all_chars] in H. bool_to_prop.
  rewrite string_app_cons. cbn [tok_split]. rewrite numeral_not_comma, IH by done. reflexivity.
Qed.

Lemma tok_split_numeral_end s : all_chars numeral s = true -> tok_split "," s = (s, "").
Proof.
  induction s as [|c s IH]; intros H; [done|]. cbn [all_chars] in H. bool_to_prop.
  cbn [tok_split]. rewrite numeral_not_comma, IH by done. reflexivity.
Qed.

Lemma render_cons n : exists c r, render n = String c r /\ numeral c = true.
Proof.
  pose proof (render_chars n : all_chars numeral (render n) = true) as H. unfold render in *.
  destruct (n <? 0) eqn:E; [by do 2 eexists|]. destruct (render_nat_cons n) as (c & r & Hr).
  rewrite Hr in *. cbn [all_chars] in H. bool_to_prop. eauto.
Qed.

Lemma skip_delims_render n s : skip_delims "," (render n +:+ s) = render n +:+ s.
Proof.
  destruct (render_cons n) as (c & r & -> & Hc). rewrite string_app_cons; cbn [skip_delims].
  by rewrite numeral_not_comma.
Qed.

Lemma strtok_render_more n s :
  strtok "," (render n +:+ String "," s) = Some (render n, s).
Proof.
  unfold strtok. rewrite skip_delims_render.
  pose proof (tok_split_numeral (render n) s (render_chars n)) as H.
  destruct (render_cons n) as (c & r & Hr & _). rewrite Hr in *. rewrite ?string_app_cons in *. by rewrite H.
Qed.


Lemma strtok_render_last n : strtok "," (render n) = Some (render n, "").
Proof.
  unfold strtok. pose proof (skip_delims_render n "") as H. rewrite string_app_nil in H. rewrite H.
  pose proof (tok_split_numeral_end (render n) (render_chars n)) as H'.
  destruct (render_cons n) as (c & r & Hr & _). rewrite Hr in *. by rewrite H'.
Qed.

Lemma tokens_cpu_list l fuel :
  l <> [] -> (String.length (cpu_list l) < fuel)%nat -> tokens fuel "," (cpu_list l) = map render l.
Proof.
  revert fuel. induction l as [|c l IH]; intros fuel Hl Hf; [done|].
  destruct fuel as [|fuel]; [lia|]. destruct l as [|c' l].
  - cbn [cpu_list tokens map]. rewrite strtok_render_last. by destruct fuel.
  - change (cpu_list (c :: c' :: l)) with (render c +:+ String "," (cpu_list (c' :: l))) in *.
    cbn [tokens]. pose proof (strtok_render_more c (cpu_list (c' :: l))) as E.
    pose proof (strtok_shrinks _ _ _ _ E). rewrite E.
    rewrite IH by (done || lia). done.
Qed.

Lemma tok_ok_render online c : in_s32 c -> tok_ok online (render c) = (c <? online).
Proof.
  intros H. unfold tok_ok, cpu_of. rewrite strtol_render by clia. cbn.
  rewrite s32_id by done. apply andb_true_r.
Qed.

Lemma accepted_render online l :
  Forall (fun c => 0 <= c < online) l -> online <= INT_MAX ->
  forallb (tok_ok online) (map render l) = true /\ accepted online (map render l) = l.
Proof.
  intros H Ho. induction H as [|c l Hc H [IH1 IH2]]; [done|]. cbn.
  assert (in_s32 c) by clia. rewrite tok_ok_render by done.
  replace (c <? online) with true by lia. rewrite IH1, IH2. split; [done|]. f_equal.
  unfold cpu_of. rewrite strtol_render by clia. by apply s32_id.
Qed.

(** The parser in terms of the tokens of its input. *)
Lemma run_pincpu_parse {W} (h : handler W) junk (cpuset : pincpu) input w online :
  let toks := tokens (S (String.length input)) (sep junk) input in
  (forall w, (h _ Nprocessors_onln w).1 = online) -> in_s32 online ->
  (forall n w, exists p, (h _ (Calloc n 4) w).1 = Some p) ->
  0 <= nrcpus cpuset -> nrcpus cpuset + Z.of_nat (length toks) <= INT_MAX ->
  exists w',
    run h (pincpu_parse junk cpuset input) w
    = (Done ((if forallb (tok_ok online) toks then 0 else -1),
             Pincpu (overlay (replicate (Z.to_nat (nrcpus cpuset) + length toks) 0) 0
                       (accepted online toks))
                    (nrcpus cpuset + Z.of_nat (length toks))), w').
Proof.
  intros toks Ho Hin Hc Hn Hmax. unfold pincpu_parse. step_run. rewrite Ho, (s32_id online) by done.
  rewrite count_tokens_length by (done || lia). fold toks.
  step_run. rewrite u64_id by clia.
  match goal with |- context [h _ (Calloc ?n 4) ?w0] => destruct (Hc n w0) as [p ->] end.
  step_run. replace (Z.to_nat (nrcpus cpuset + Z.of_nat (length toks)))
    with (Z.to_nat (nrcpus cpuset) + length toks)%nat by lia.
  match goal with |- context [run _ (parse_tokens _ ?f ?o ?nr ?pos 0 ?l) ?w0] =>
    destruct (run_parse_tokens h junk o nr f pos 0%nat l w0) as [w' Hw']
  end.
  { lia. }
  { rewrite length_replicate. fold toks. lia. }
  cbv zeta in Hw'. change (Z.of_nat 0) with 0 in Hw'. fold toks in Hw'. rewrite Hw'.
  cbn [and_then]. rewrite run_ret. eauto.
Qed.

(** An environment with [online] processors that grants memory. *)
Record cpu_env {W} (h : handler W) (online : Z) : Prop := CpuEnv {
  cpu_online : forall w, (h _ Nprocessors_onln w).1 = online;
  cpu_online_int : in_s32 online;
  cpu_calloc : forall n w, exists p, (h _ (Calloc n 4) w).1 = Some p
}.

(** Parsing the text of a list into a fresh [struct pincpu]. *)
Lemma run_pincpu_parse_list {W} (h : handler W) (online : Z) (w : W) (l : list Z) :
  cpu_env h online -> l <> [] -> Forall (fun c => 0 <= c < online) l ->
  Z.of_nat (length l) <= INT_MAX ->
  exists w', run h (pincpu_parse "" (Pincpu [] 0) (cpu_list l)) w
             = (Done (0, Pincpu l (Z.of_nat (length l))), w').
Proof.
  intros [Ho Hin Hc] Hne Hl Hlen.
  destruct (accepted_render online l Hl ltac:(clia)) as [Hall Hacc].
  pose proof (tokens_cpu_list l (S (String.length (cpu_list l))) Hne ltac:(lia)) as Ht.
  edestruct (run_pincpu_parse h "" (Pincpu [] 0) (cpu_list l) w online) as [w' Hrun]; [done..| |].
  { unfold sep. rewrite Ht, length_map. done. }
  unfold sep in Hrun. rewrite Ht, length_map, Hall, Hacc in Hrun. rewrite Hrun.
  cbn [nrcpus]. exists w'. do 4 f_equal. rewrite overlay_0.
  rewrite drop_ge, app_nil_r; [done|]. rewrite length_replicate. lia.
Qed.

(** The dump of a list that is as long as it says. *)
Lemma run_dump_cpuset {W} (h : handler W) (c : pincpu) w :
  nrcpus c = Z.of_nat (length (cpus c)) ->
  exists w', run h (dump_cpuset c) w = (Done tt, w').
Proof.
  intros Hn. unfold dump_cpuset. step_run.
  match goal with |- context [run _ (for_ ?n 0 ?b tt) ?w0] =>
    destruct (run_for_invariant h (fun _ (_ : unit) _ => True) b n 0 tt w0) as ([] & w' & Hr & _) end.
  - intros j [] w1 Hj _. assert (exists x, cpus c !! Z.to_nat j = Some x) as [x ->].
    { apply lookup_lt_is_Some_2. lia. }
    step_run. case_if; step_run; eauto.
  - done.
  - rewrite Hr. step_run. eauto.
Qed.

(** (C8) Round trip: when the separator string is well terminated, parsing the
    text of a non-empty list of online CPUs into a fresh [struct pincpu]
    succeeds and gives back that list and its length. *)
Theorem pincpu_parse_roundtrip {W} (h : handler W) (online : Z) (w : W) (l : list Z)
    (Henv : cpu_env h online) (Hne : l <> [])
    (Hl : Forall (fun c => 0 <= c < online) l) (Hlen : Z.of_nat (length l) <= INT_MAX) :
  (run h (pincpu_parse "" (Pincpu [] 0) (cpu_list l)) w).1
  = Done (0, Pincpu l (Z.of_nat (length l))).
Proof.
  destruct (run_pincpu_parse_list h online w l Henv Hne Hl Hlen) as [w' ->]. reflexivity.
Qed.

Lemma default_cpu_env : cpu_env (fun X (e : sys X) (w : unit) =>
    (match e in sys X return X with Nprocessors_onln => 8 | e => default_answer e end, w)) 8.
Proof. split; [reflexivity|vm_compute; intuition discriminate|intros n w; by exists 1]. Qed.

(** The test is on the value cut to an [int], and only from above: on eight
    CPUs [4294967296] is taken for CPU 0, and [-1] for itself. *)
Lemma pincpu_parse_cut :
  (run (fun X (e : sys X) (w : unit) =>
    (match e in sys X return X with Nprocessors_onln => 8 | e => default_answer e end, w))
    (pincpu_parse "" (Pincpu [] 0) "4294967296,-1") tt).1 = Done (0, Pincpu [0; -1] 2).
Proof. vm_compute. reflexivity. Qed.

Theorem pincpu_parse_roundtrip_witness :
  (run (fun X (e : sys X) (w : unit) =>
    (match e in sys X return X with Nprocessors_onln => 8 | e => default_answer e end, w))
    (pincpu_parse "" (Pincpu [] 0) "0,7,3") tt).1 = Done (0, Pincpu [0; 7; 3] 3).
Proof.
  refine (pincpu_parse_roundtrip _ 8 tt [0; 7; 3] default_cpu_env _ _ _).
  - discriminate.
  - repeat constructor; lia.
  - vm_compute. discriminate.
Defined.

(** (C7) Error handling and memory safety, for every input and every set of
    bytes after the separator: the parser terminates without writing outside
    the array it allocated; it succeeds exactly when every token is read to
    its end by [strtol] and its value, cut to an [int], is below the number of
    CPUs (a negative number is, and 2^32, which is cut to 0: see
    [pincpu_parse_cut]); [nrcpus] grows by the number of tokens, and the
    entries written are those of the tokens before the first bad one, each
    below the number of CPUs. *)
Theorem pincpu_parse_safe {W} (h : handler W) (online : Z) (w : W) (junk : string)
    (cpuset : pincpu) (input : string)
    (Henv : cpu_env h online) (Hn : 0 <= nrcpus cpuset)
    (Hmax : nrcpus cpuset + Z.of_nat (String.length input) <= INT_MAX) :
  let toks := tokens (S (String.length input)) (sep junk) input in
  exists ret l,
    (run h (pincpu_parse junk cpuset input) w).1
      = Done (ret, Pincpu l (nrcpus cpuset + Z.of_nat (length toks)))
    /\ (ret = 0 <-> Forall (fun t => cpu_of t < online /\ (strtol t).2 = "") toks)
    /\ (ret = 0 \/ ret = -1)
    /\ Z.of_nat (length l) = nrcpus cpuset + Z.of_nat (length toks)
    /\ take (length (accepted online toks)) l = accepted online toks
    /\ Forall (fun c => c < online) (accepted online toks).
Proof.
  intros toks. destruct Henv as [Ho Hin Hc].
  assert (forall fuel pos, (length (tokens fuel (sep junk) pos) <= String.length pos)%nat) as Htl.
  { intros fuel. induction fuel as [|fuel IH]; intros pos; cbn [tokens]; [cbn; lia|].
    destruct (strtok (sep junk) pos) as [[t p]|] eqn:E; [|cbn; lia].
    pose proof (strtok_shrinks _ _ _ _ E). specialize (IH p). cbn [length]. lia. }
  assert (forall ts, (length (accepted online ts) <= length ts)%nat) as Hal.
  { induction ts as [|t ts IH]; [done|]. cbn. destruct (tok_ok online t); cbn; lia. }
  destruct (run_pincpu_parse h junk cpuset input w online Ho Hin Hc Hn) as [w' Hrun].
  { specialize (Htl (S (String.length input)) input). lia. }
  fold toks in Hrun. rewrite Hrun. do 2 eexists. split; [reflexivity|].
  specialize (Hal toks). clearbody toks. clear Hrun.
  split_and!.
  - assert (Forall (fun t => cpu_of t < online /\ (strtol t).2 = "") toks
            <-> forallb (tok_ok online) toks = true) as ->; [|by case_if].
    rewrite forallb_forall, Forall_forall. unfold tok_ok.
    setoid_rewrite list_elem_of_In. setoid_rewrite andb_true_iff.
    setoid_rewrite Z.ltb_lt. setoid_rewrite String.eqb_eq. done.
  - case_if; auto.
  - rewrite overlay_0, length_app, length_drop, length_replicate. lia.
  - by rewrite overlay_0, take_app_length.
  - clear. induction toks as [|t ts IH]; cbn; [constructor|].
    destruct (tok_ok online t) eqn:E; constructor; [|done].
    unfold tok_ok in E. bool_to_prop. done.
Qed.

Theorem pincpu_parse_safe_witness :
  exists l, (run (fun X (e : sys X) (w : unit) =>
    (match e in sys X return X with Nprocessors_onln => 8 | e => default_answer e end, w))
    (pincpu_parse "" (Pincpu [] 0) "1,9") tt).1 = Done (-1, Pincpu l 2).
Proof.
  destruct (pincpu_parse_safe _ 8 tt "" (Pincpu [] 0) "1,9" default_cpu_env)
    as (ret & l & Hrun & _).
  - vm_compute. discriminate.
  - vm_compute. discriminate.
  - exists l. rewrite Hrun. remember (Pincpu l _) as c eqn:Hc in Hrun |- *.
    vm_compute in Hrun. injection Hrun as <- <-. rewrite Hc. reflexivity.
Defined.
