(* ===== verification/Sched.v ===== *)
(** * Interleavings of threads

    The concurrent programs of the kit are state machines: a shared state, a
    set of threads, and for each thread the partial function [exec] that
    performs its next atomic step ([None] when it is blocked or finished).
    This file holds what they share: reachability, schedules, invariants,
    termination and freedom from deadlock. *)

From S2P Require Import Prelude.
From stdpp Require Export relations.

(** A system of threads [T] over states [S]. *)
Class System (S T : Type) := {
  exec : T -> S -> option S;
  initial : S -> Prop
}.

Section system.
Context {S T : Type} `{!System S T}.
Implicit Types (s : S) (t : T).

Definition step s s' : Prop := exists t, exec t s = Some s'.

Inductive reach (s0 : S) : S -> Prop :=
  | reach_refl : reach s0 s0
  | reach_step s s' : reach s0 s -> step s s' -> reach s0 s'.

(** The states some run of the program visits. *)
Definition reachable s : Prop := exists s0, initial s0 /\ reach s0 s.

(** No thread can move. *)
Definition stuck s : Prop := forall t, exec t s = None.

(** A schedule: the thread chosen at every step. *)
Fixpoint run_schedule (ts : list T) s : option S :=
  match ts with
  | [] => Some s
  | t :: ts => match exec t s with Some s' => run_schedule ts s' | None => None end
  end.

Lemma reach_trans s0 s1 s2 : reach s0 s1 -> reach s1 s2 -> reach s0 s2.
Proof. intros H1 H2. induction H2; [done|]. eapply reach_step; eauto. Qed.

Lemma reach_one s s' : step s s' -> reach s s'.
Proof. intros. eapply reach_step; [constructor|done]. Qed.

Lemma run_schedule_reach ts s s' : run_schedule ts s = Some s' -> reach s s'.
Proof.
  revert s. induction ts as [|t ts IH]; intros s H; cbn in H.
  - injection H as <-. constructor.
  - destruct (exec t s) as [s1|] eqn:E; [|done].
    eapply reach_trans; [eapply reach_one; by exists t|by apply IH].
Qed.

Lemma reach_run_schedule s s' : reach s s' -> exists ts, run_schedule ts s = Some s'.
Proof.
  induction 1 as [|s1 s2 H (ts & IH) [t Ht]]; [by exists []|].
  exists (ts ++ [t]). clear H. revert s IH. induction ts as [|u ts IHts]; intros s IH; cbn in *.
  - injection IH as <-. by rewrite Ht.
  - destruct (exec u s); [|done]. by apply IHts.
Qed.

(** Rule induction: what holds initially and is kept by every step of every
    thread holds of the reachable states. *)
Lemma invariant_reachable (Inv : S -> Prop) :
  (forall s, initial s -> Inv s) ->
  (forall t s s', Inv s -> exec t s = Some s' -> Inv s') ->
  forall s, reachable s -> Inv s.
Proof.
  intros Hi Hs s (s0 & H0 & Hr). induction Hr as [|s1 s2 _ IH [t Ht]]; eauto.
Qed.

Lemma reachable_step t s s' : reachable s -> exec t s = Some s' -> reachable s'.
Proof.
  intros (s0 & H0 & Hr) He. exists s0. split; [done|]. eapply reach_step; [done|]. by exists t.
Qed.

(** A measure that every step decreases bounds the length of every
    schedule, so every execution is finite. *)
Lemma schedule_bound (Inv : S -> Prop) (m : S -> nat) :
  (forall t s s', Inv s -> exec t s = Some s' -> Inv s') ->
  (forall t s s', Inv s -> exec t s = Some s' -> (m s' < m s)%nat) ->
  forall ts s s', Inv s -> run_schedule ts s = Some s' -> (length ts + m s' <= m s)%nat.
Proof.
  intros Hi Hm ts. induction ts as [|t ts IH]; intros s s' Hs Hr; cbn in Hr.
  - injection Hr as <-. cbn. lia.
  - destruct (exec t s) as [s1|] eqn:E; [|done].
    pose proof (Hm _ _ _ Hs E). specialize (IH s1 s' (Hi _ _ _ Hs E) Hr). cbn. lia.
Qed.

(** With a decreasing measure and a step available outside the final
    states, every run can be, and every maximal run is, completed to a final
    state. *)
Lemma runs_to_final (Inv Final : S -> Prop) (m : S -> nat) :
  (forall t s s', Inv s -> exec t s = Some s' -> Inv s') ->
  (forall t s s', Inv s -> exec t s = Some s' -> (m s' < m s)%nat) ->
  (forall s, Inv s -> Final s \/ exists t s', exec t s = Some s') ->
  forall s, Inv s -> exists s', reach s s' /\ Final s'.
Proof.
  intros Hi Hm Hp s. remember (m s) as n eqn:Hn. revert s Hn.
  induction n as [n IH] using lt_wf_ind; intros s -> Hs.
  destruct (Hp s Hs) as [Hf|(t & s' & He)]; [exists s; split; [constructor|done]|].
  destruct (IH (m s') (Hm _ _ _ Hs He) s' eq_refl (Hi _ _ _ Hs He)) as (s2 & Hr & Hf).
  exists s2. split; [|done]. eapply reach_trans; [|done]. apply reach_one. by exists t.
Qed.

(** Threads may also busy-wait: take steps that change nothing.  [changing]
    are the other steps. *)
Definition changing s s' : Prop := step s s' /\ s' <> s.

Lemma changing_bound (Inv : S -> Prop) (m : S -> nat) :
  (forall t s s', Inv s -> exec t s = Some s' -> Inv s') ->
  (forall t s s', Inv s -> exec t s = Some s' -> s' = s \/ (m s' < m s)%nat) ->
  forall k s s', Inv s -> nsteps changing k s s' -> (k + m s' <= m s)%nat.
Proof.
  intros Hi Hm k s s' Hs Hk. induction Hk as [s|k s1 s2 s3 [[t Ht] Hne] _ IH]; [lia|].
  destruct (Hm _ _ _ Hs Ht) as [|Hlt]; [done|]. specialize (IH (Hi _ _ _ Hs Ht)). lia.
Qed.

(** If some thread can always make progress, the final states stay in reach,
    whatever the scheduler did before. *)
Lemma progress_to_final (Inv Final : S -> Prop) (m : S -> nat) :
  (forall t s s', Inv s -> exec t s = Some s' -> Inv s') ->
  (forall s, Inv s -> Final s \/ exists t s', exec t s = Some s' /\ (m s' < m s)%nat) ->
  forall s, Inv s -> exists s', reach s s' /\ Final s'.
Proof.
  intros Hi Hp s. remember (m s) as n eqn:Hn. revert s Hn.
  induction n as [n IH] using lt_wf_ind; intros s -> Hs.
  destruct (Hp s Hs) as [Hf|(t & s' & He & Hlt)]; [exists s; split; [constructor|done]|].
  destruct (IH (m s') Hlt s' eq_refl (Hi _ _ _ Hs He)) as (s2 & Hr & Hf).
  exists s2. split; [|done]. eapply reach_trans; [|done]. apply reach_one. by exists t.
Qed.
End system.

(** ** Exploration

    A finite system is checked by computation: a list of states that holds
    the initial ones and is closed under the steps holds all the reachable
    ones. *)
Section explore.
Context {S T : Type} `{!System S T, !EqDecision S}.
Variable threads : list T.
Hypothesis all_threads : forall t, t ∈ threads.
Implicit Types (s : S) (l : list S).

Definition successors s : list S := omap (fun t => exec t s) threads.

(** The states within reach of [todo], by depth-first search. *)
Fixpoint explore (fuel : nat) (todo seen : list S) : list S :=
  match fuel, todo with
  | O, _ | _, [] => seen
  | Datatypes.S fuel, s :: todo =>
      if decide (s ∈ seen) then explore fuel todo seen
      else explore fuel (successors s ++ todo) (s :: seen)
  end.

(** Every step from a state of [l] satisfies [R]. *)
Definition all_steps (R : S -> S -> bool) l : bool :=
  forallb (fun s => forallb (R s) (successors s)) l.

Lemma all_steps_spec R l s t s' :
  all_steps R l = true -> s ∈ l -> exec t s = Some s' -> R s s' = true.
Proof using All.
  intros H Hs He. unfold all_steps in H. rewrite forallb_forall in H.
  specialize (H s (proj1 (list_elem_of_In _ _) Hs)). rewrite forallb_forall in H. apply H.
  apply list_elem_of_In. unfold successors. rewrite list_elem_of_omap. by exists t.
Qed.

Lemma reachable_explored l :
  (forall s, initial s -> s ∈ l) ->
  all_steps (fun _ s' => bool_decide (s' ∈ l)) l = true ->
  forall s, reachable s -> s ∈ l.
Proof using All.
  intros Hi Hl. apply (invariant_reachable (fun s => s ∈ l)); [done|].
  intros t s s' Hs He. by apply (all_steps_spec _ _ _ _ _ Hl Hs), bool_decide_eq_true in He.
Qed.

Lemma explored_forall (P : S -> bool) l s : forallb P l = true -> s ∈ l -> P s = true.
Proof. intros H Hs. rewrite forallb_forall in H. by apply H, list_elem_of_In. Qed.

Definition stuckb s : bool := match successors s with [] => true | _ => false end.

Lemma stuckb_spec s : stuckb s = true <-> stuck s.
Proof using All.
  unfold stuckb, stuck. split.
  - intros H t. destruct (exec t s) as [s'|] eqn:E; [|done].
    assert (s' ∈ successors s) as Hin by (unfold successors; rewrite list_elem_of_omap; by exists t).
    destruct (successors s); [by apply not_elem_of_nil in Hin|done].
  - intros H. destruct (successors s) as [|s' l] eqn:E; [done|]. exfalso.
    assert (s' ∈ successors s) as Hin by (rewrite E; apply list_elem_of_here).
    unfold successors in Hin. rewrite list_elem_of_omap in Hin. destruct Hin as (t & _ & Ht).
    by rewrite H in Ht.
Qed.

(** A measure that decreases on the explored states bounds the runs. *)
Lemma explored_bound l (m : S -> nat) :
  all_steps (fun _ s' => bool_decide (s' ∈ l)) l = true ->
  all_steps (fun s s' => (m s' <? m s)%nat) l = true ->
  forall ts s s', s ∈ l -> run_schedule ts s = Some s' -> (length ts + m s' <= m s)%nat.
Proof using All.
  intros Hl Hm. apply (schedule_bound (fun s => s ∈ l) m).
  - intros t s s' Hs He. by apply (all_steps_spec _ _ _ _ _ Hl Hs), bool_decide_eq_true in He.
  - intros t s s' Hs He. by apply (all_steps_spec _ _ _ _ _ Hm Hs), Nat.ltb_lt in He.
Qed.
End explore.

(** ** Mutexes

    [pthread_mutex_t]: the thread that holds it.  Locking blocks while it is
    held, by the caller too (a default mutex). *)
Definition mutex (T : Type) := option T.
Definition mutex_lock {T} (t : T) (m : mutex T) : option (mutex T) :=
  match m with None => Some (Some t) | Some _ => None end.
Definition mutex_unlock {T} (m : mutex T) : mutex T := None.

(** ** Semaphores

    [sem_t] is its value; [sem_wait] is blocked at 0. *)
Definition sem_wait (v : nat) : option nat := match v with O => None | Datatypes.S v => Some v end.
Definition sem_post (v : nat) : nat := Datatypes.S v.

Lemma sem_wait_Some v v' : sem_wait v = Some v' -> v = Datatypes.S v'.
Proof. destruct v; [done|]. by intros [= ->]. Qed.

Lemma sem_wait_None v : sem_wait v = None -> v = O.
Proof. by destruct v. Qed.

(** ** Simulation

    A system refines another when every step is matched by steps of the
    other. *)
Section simulation.
Context {S1 T1 S2 T2 : Type} `{!System S1 T1, !System S2 T2}.
Variable R : S1 -> S2 -> Prop.

Lemma simulation_reachable :
  (forall s1, initial s1 -> exists s2, initial s2 /\ R s1 s2) ->
  (forall t s1 s1' s2, reachable s1 -> R s1 s2 -> exec t s1 = Some s1' ->
     exists s2', reach s2 s2' /\ R s1' s2') ->
  forall s1, reachable s1 -> exists s2, reachable s2 /\ R s1 s2.
Proof.
  intros Hi Hs s1 (s0 & H0 & Hr).
  assert (reachable s1 /\ exists s2, reachable s2 /\ R s1 s2) as [_ H]; [|done].
  induction Hr as [|s s' Hr [Hrs (s2 & (s20 & Hi2 & Hr2) & HR)] [t Ht]].
  - split; [exists s0; split; [done|constructor]|].
    destruct (Hi s0 H0) as (s2 & Hi2 & HR). exists s2. split; [|done].
    exists s2. split; [done|constructor].
  - split; [by eapply reachable_step|].
    destruct (Hs t s s' s2 Hrs HR Ht) as (s2' & Hr' & HR'). exists s2'. split; [|done].
    exists s20. split; [done|]. by eapply reach_trans.
Qed.
End simulation.
