(* ===== verification/Spin.v ===== *)
(** * libwk: src/spin.c

    A pool of [n] threads that burn the CPU together until a timer expires.
    The client calls [spin_init], [spin_run] any number of times and
    [spin_exit]; the workers and the client synchronise with one pair of
    semaphores per worker, and the SIGALRM handler ends the burning.  A step
    is one statement of the source that touches shared state. *)

From S2P Require Import Prelude CInt Sched.

Local Open Scope Z_scope.

(** ** Program points *)

Inductive wpc := | W_new | W_init | W_wait | W_test | W_spin | W_post | W_exit | W_done.

(** The client is inside [spin_init] ([Init_]), between two calls after [k]
    runs ([Client k]), inside its [k]-th [spin_run] ([Run_]), or inside
    [spin_exit] ([Exit_]).  [Failed]: the process ended in [error]. *)
Inductive mpc :=
  | Init_enter | Init_alloc | Init_cont | Init_signal | Init_sem (i : nat) | Init_create (i : nat)
  | Client (k : nat)
  | Run_enter (k : nat) | Run_flag (k : nat) | Run_timer (k : nat)
  | Run_post (k i : nat) | Run_wait (k i : nat)
  | Exit_enter | Exit_flag | Exit_post (i : nat) | Exit_join (i : nat) | Exit_destroy (i : nat)
  | Exit_free | Returned | Failed.

#[export] Instance wpc_eq_dec : EqDecision wpc. Proof. solve_decision. Defined.
#[export] Instance mpc_eq_dec : EqDecision mpc. Proof. solve_decision. Defined.

(** ** State

    What belongs to worker [i]: its program point, [sem_start[i]],
    [sem_done[i]], and how often it finished a run and called the client's
    [init] and [done]. *)
Record cell := Cell {
  pc : wpc; sem_start : nat; sem_done : nat;
  rounds : nat; init_calls : nat; done_calls : nat
}.

(** [armed]: the interval timer runs.  [memory]: the four [calloc] of
    [spin_init] succeed.  [freed]: their blocks are released. *)
Record state := State {
  run : bool; cont : bool; armed : bool; memory : bool; freed : bool;
  cells : list cell; main : mpc
}.

Definition set_pc c p := Cell p (sem_start c) (sem_done c) (rounds c) (init_calls c) (done_calls c).
Definition set_start c v := Cell (pc c) v (sem_done c) (rounds c) (init_calls c) (done_calls c).
Definition set_done c v := Cell (pc c) (sem_start c) v (rounds c) (init_calls c) (done_calls c).

Definition set_main s m := State (run s) (cont s) (armed s) (memory s) (freed s) (cells s) m.
Definition set_cells s l := State (run s) (cont s) (armed s) (memory s) (freed s) l (main s).
Definition set_run s b := State b (cont s) (armed s) (memory s) (freed s) (cells s) (main s).
Definition set_cont s b := State (run s) b (armed s) (memory s) (freed s) (cells s) (main s).
Definition set_armed s b := State (run s) (cont s) b (memory s) (freed s) (cells s) (main s).
Definition set_freed s b := State (run s) (cont s) (armed s) (memory s) b (cells s) (main s).

Definition set_cell s (i : nat) (c : cell) : state := set_cells s (<[i := c]> (cells s)).

Inductive tid := | Client_thread | Worker (i : nat) | Timer.

Section spin.
(** [spin->n], whether [spin->init] and [spin->done] are given, how many
    times the client calls [spin_run], and with which argument. *)
Context (n : nat) (has_init has_done : bool) (runs : nat) (usec : Z).

(** ** The SIGALRM handler, when the timer expires *)
Definition signalhandler (s : state) : option state :=
  if armed s then Some (set_run (set_armed s false) false) else None.

(** ** worker *)
Definition worker (i : nat) (s : state) : option state :=
  c ← cells s !! i;
  match pc c with
  | W_new | W_done => None
  | W_init =>
      Some (set_cell s i (Cell W_wait (sem_start c) (sem_done c) (rounds c)
        (if has_init then S (init_calls c) else init_calls c) (done_calls c)))
  | W_wait =>
      v ← sem_wait (sem_start c); Some (set_cell s i (set_pc (set_start c v) W_test))
  | W_test => Some (set_cell s i (set_pc c (if cont s then W_spin else W_exit)))
  | W_spin => if run s then Some s else Some (set_cell s i (set_pc c W_post))
  | W_post =>
      Some (set_cell s i (Cell W_wait (sem_start c) (sem_post (sem_done c)) (S (rounds c))
        (init_calls c) (done_calls c)))
  | W_exit =>
      Some (set_cell s i (Cell W_done (sem_start c) (sem_done c) (rounds c)
        (init_calls c) (if has_done then S (done_calls c) else done_calls c)))
  end.

(** ** spin_init *)
Definition spin_init (s : state) : option state :=
  match main s with
  | Init_enter => Some (set_main s (if cont s then Client 0 else Init_alloc))
  | Init_alloc => Some (set_main s (if memory s then Init_cont else Client 0))
  | Init_cont => Some (set_main (set_cont s true) Init_signal)
  | Init_signal => Some (set_main s (Init_sem 0))
  | Init_sem i =>
      if (i <? n)%nat then
        c ← cells s !! i;
        Some (set_main (set_cell s i (set_done (set_start c 0) 0)) (Init_sem (S i)))
      else Some (set_main s (Init_create 0))
  | Init_create i =>
      if (i <? n)%nat then
        c ← cells s !! i;
        Some (set_main (set_cell s i (set_pc c W_init)) (Init_create (S i)))
      else Some (set_main s (Client 0))
  | _ => None
  end.

(** ** spin_run

    [setitimer] refuses a number of microseconds outside a second, and zero
    disarms the timer. *)
Definition timer_valid : bool := (0 <=? usec) && (usec <? 1000000).

Definition spin_run (s : state) : option state :=
  match main s with
  | Run_enter k => Some (set_main s (if cont s then Run_flag k else Client (S k)))
  | Run_flag k => Some (set_main (set_run s true) (Run_timer k))
  | Run_timer k =>
      if timer_valid then Some (set_main (set_armed s (negb (usec =? 0))) (Run_post k 0))
      else Some (set_main s Failed)
  | Run_post k i =>
      if (i <? n)%nat then
        c ← cells s !! i;
        Some (set_main (set_cell s i (set_start c (sem_post (sem_start c)))) (Run_post k (S i)))
      else Some (set_main s (Run_wait k 0))
  | Run_wait k i =>
      if (i <? n)%nat then
        c ← cells s !! i;
        v ← sem_wait (sem_done c);
        Some (set_main (set_cell s i (set_done c v)) (Run_wait k (S i)))
      else Some (set_main s (Client (S k)))
  | _ => None
  end.

(** ** spin_exit *)
Definition spin_exit (s : state) : option state :=
  match main s with
  | Exit_enter => Some (set_main s (if cont s then Exit_flag else Returned))
  | Exit_flag => Some (set_main (set_cont s false) (Exit_post 0))
  | Exit_post i =>
      if (i <? n)%nat then
        c ← cells s !! i;
        Some (set_main (set_cell s i (set_start c (sem_post (sem_start c)))) (Exit_post (S i)))
      else Some (set_main s (Exit_join 0))
  | Exit_join i =>
      if (i <? n)%nat then
        c ← cells s !! i;
        if decide (pc c = W_done) then Some (set_main s (Exit_join (S i))) else None
      else Some (set_main s (Exit_destroy 0))
  | Exit_destroy i =>
      if (i <? n)%nat then Some (set_main s (Exit_destroy (S i)))
      else Some (set_main s Exit_free)
  | Exit_free => Some (set_main (set_freed s true) Returned)
  | _ => None
  end.

(** The client: [spin_init]; [runs] times [spin_run]; [spin_exit]. *)
Definition client (s : state) : option state :=
  match main s with
  | Init_enter | Init_alloc | Init_cont | Init_signal | Init_sem _ | Init_create _ => spin_init s
  | Client k => Some (set_main s (if (k <? runs)%nat then Run_enter k else Exit_enter))
  | Run_enter _ | Run_flag _ | Run_timer _ | Run_post _ _ | Run_wait _ _ => spin_run s
  | Returned | Failed => None
  | _ => spin_exit s
  end.

Definition new_cell : cell := Cell W_new 0 0 0 0 0.
Definition init (mem : bool) : state :=
  State false false false mem false (replicate n new_cell) Init_enter.

(** The end of the process ends every thread. *)
#[export] Instance spin : System state tid := {
  exec t s :=
    if decide (main s = Failed) then None else
    match t with
    | Client_thread => client s
    | Worker i => worker i s
    | Timer => signalhandler s
    end;
  initial s := exists mem, s = init mem
}.
End spin.

(** ** What the client has done to worker [i] *)

(** Posts of [sem_start[i]], waits of [sem_done[i]], creation. *)
Definition posted (runs : nat) (m : mpc) (i : nat) : nat :=
  match m with
  | Client k | Run_enter k | Run_flag k | Run_timer k => k
  | Run_post k j => if (i <? j)%nat then S k else k
  | Run_wait k _ => S k
  | Exit_enter | Exit_flag => runs
  | Exit_post j => if (i <? j)%nat then S runs else runs
  | Exit_join _ | Exit_destroy _ | Exit_free | Returned => S runs
  | _ => 0
  end.

Definition waited (runs : nat) (m : mpc) (i : nat) : nat :=
  match m with
  | Client k | Run_enter k | Run_flag k | Run_timer k | Run_post k _ => k
  | Run_wait k j => if (i <? j)%nat then S k else k
  | Exit_enter | Exit_flag | Exit_post _ | Exit_join _ | Exit_destroy _ | Exit_free | Returned =>
      runs
  | _ => 0
  end.

Definition created (m : mpc) (i : nat) : bool :=
  match m with
  | Init_enter | Init_alloc | Init_cont | Init_signal | Init_sem _ | Failed => false
  | Init_create j => (i <? j)%nat
  | _ => true
  end.

(** [cont], as the client's position determines it. *)
Definition open_ (m : mpc) : bool :=
  match m with
  | Init_enter | Init_alloc | Init_cont | Exit_post _ | Exit_join _ | Exit_destroy _
  | Exit_free | Returned | Failed => false
  | _ => true
  end.

Definition joined (m : mpc) (i : nat) : bool :=
  match m with
  | Exit_join j => (i <? j)%nat
  | Exit_destroy _ | Exit_free | Returned => true
  | _ => false
  end.

(** The indices of the client's loops are in range. *)
Definition pc_range (n runs : nat) (m : mpc) : Prop :=
  match m with
  | Init_sem i | Init_create i | Exit_post i | Exit_join i | Exit_destroy i => (i <= n)%nat
  | Client k => (k <= runs)%nat
  | Run_enter k | Run_flag k | Run_timer k => (k < runs)%nat
  | Run_post k i | Run_wait k i => (k < runs)%nat /\ (i <= n)%nat
  | _ => True
  end.

(** ** Invariant *)

(** The worker has taken its start signal and not yet finished the round. *)
Definition in_round (p : wpc) : nat :=
  match p with W_test | W_spin | W_post | W_exit | W_done => 1 | _ => 0 end.
Definition working (p : wpc) : bool := match p with W_spin | W_post => true | _ => false end.
Definition leaving (p : wpc) : bool := match p with W_exit | W_done => true | _ => false end.
Definition started (p : wpc) : bool := match p with W_new => false | _ => true end.
Definition initialised (p : wpc) : bool := match p with W_new | W_init => false | _ => true end.
Definition finished (p : wpc) : bool := match p with W_done => true | _ => false end.
Definition once (flag b : bool) : nat := if flag && b then 1 else 0.

Record cell_inv (has_init has_done : bool) (runs : nat) (m : mpc) (i : nat) (c : cell) : Prop := {
  ci_start : posted runs m i = (sem_start c + rounds c + in_round (pc c))%nat;
  ci_done : rounds c = (waited runs m i + sem_done c)%nat;
  ci_created : started (pc c) = created m i;
  ci_leaving : leaving (pc c) = true -> open_ m = false /\ rounds c = runs;
  ci_rounds : (rounds c <= runs)%nat;
  ci_working : working (pc c) = true -> (rounds c < runs)%nat;
  ci_joined : joined m i = true -> pc c = W_done;
  ci_init : init_calls c = once has_init (initialised (pc c));
  ci_finished : done_calls c = once has_done (finished (pc c))
}.

(** While a run is in progress and the flag is up, the timer is armed. *)
Definition timer_inv (usec : Z) (s : state) : Prop :=
  run s = true -> match main s with
                  | Run_timer _ => True
                  | _ => armed s = true \/ usec = 0
                  end.

Record inv (n : nat) (has_init has_done : bool) (runs : nat) (usec : Z) (s : state) : Prop := {
  i_length : length (cells s) = n;
  i_cells : forall i c, cells s !! i = Some c -> cell_inv has_init has_done runs (main s) i c;
  i_cont : cont s = open_ (main s);
  i_range : pc_range n runs (main s);
  i_freed : freed s = true <-> main s = Returned;
  i_timer : timer_inv usec s
}.

(** Without memory nothing starts. *)
Definition idle_pc (m : mpc) : bool :=
  match m with
  | Init_enter | Init_alloc | Client _ | Run_enter _ | Exit_enter | Returned => true | _ => false
  end.
Definition idle (n runs : nat) (s : state) : Prop :=
  cells s = replicate n new_cell /\ cont s = false /\ idle_pc (main s) = true
  /\ pc_range n runs (main s) /\ armed s = false.

Definition Inv n has_init has_done runs usec s : Prop :=
  if memory s then main s = Failed \/ inv n has_init has_done runs usec s
  else idle n runs s.

Lemma cell_update (P Q : nat -> cell -> Prop) (l : list cell) i c :
  (forall j d, l !! j = Some d -> P j d) ->
  (forall j d, j <> i -> P j d -> Q j d) ->
  Q i c ->
  forall j d, <[i := c]> l !! j = Some d -> Q j d.
Proof.
  intros HP HQ Hi j d Hj. apply list_lookup_insert_Some in Hj as [(<- & -> & _)|[Hne Hj]]; [done|].
  apply HQ; auto.
Qed.

Section proofs.
Context (n : nat) (has_init has_done : bool) (runs : nat) (usec : Z).
#[local] Existing Instance spin.
#[local] Arguments Nat.ltb : simpl never.
#[local] Notation cinv := (cell_inv has_init has_done runs).
#[local] Notation INV := (inv n has_init has_done runs usec).

(** A step of worker [i] that replaces its cell. *)
Lemma worker_cell_inv i (s : state) c s' :
  cinv (main s) i c -> cont s = open_ (main s) -> pc_range n runs (main s) ->
  cells s !! i = Some c -> worker has_init has_done i s = Some s' ->
  s' = s /\ working (pc c) = true
  \/ exists c', s' = set_cell s i c' /\ cinv (main s) i c'.
Proof.
  intros [Hst Hdo Hcr Hle Hru Hwo Hjo Hin Hfi] Hc Hra Hl Hw.
  unfold worker in Hw. rewrite Hl in Hw. cbn in Hw.
  destruct c as [p ss sd r ic dc]. cbn in *.
  assert (p <> W_done -> joined (main s) i = false) as Hj.
  { intros Hp. destruct (joined (main s) i); [|done]. by specialize (Hjo eq_refl). }
  destruct p; cbn in *; try discriminate Hw.
  - injection Hw as <-. right. eexists. split; [done|].
    specialize (Hj ltac:(done)).
    split; cbn; try done; try congruence. unfold once in *. rewrite andb_false_r in Hin.
    rewrite andb_true_r. destruct has_init; lia.
  - destruct ss as [|v]; [done|]. cbn in Hw. injection Hw as <-. right. eexists. split; [done|].
    specialize (Hj ltac:(done)). split; cbn; try done; try congruence; lia.
  - injection Hw as <-. right. eexists. split; [done|]. specialize (Hj ltac:(done)).
    rewrite Hc. destruct (open_ (main s)) eqn:Eo; cbn;
      split; cbn; try done; try congruence; intros _;
      destruct (main s); cbn in *; try discriminate Eo; try discriminate Hcr;
      repeat case_if_in Hst; split_and?; try done; try lia.
  - destruct (run s); injection Hw as <-; [by left|]. right. eexists. split; [done|].
    specialize (Hj ltac:(done)). split; cbn; try done; try congruence; lia.
  - injection Hw as <-. right. eexists. split; [done|]. specialize (Hj ltac:(done)).
    split; cbn; try done; try congruence; unfold sem_post; lia.
  - injection Hw as <-. right. eexists. split; [done|]. specialize (Hj ltac:(done)).
    split; cbn; try done; try congruence. unfold once in *. rewrite andb_false_r in Hfi.
    rewrite andb_true_r. destruct has_done; lia.
Qed.

(** A step of the client that leaves the cells alone keeps their invariant
    when it leaves what they depend on alone. *)
Lemma cell_inv_main m m' i c :
  cinv m i c ->
  posted runs m' i = posted runs m i -> waited runs m' i = waited runs m i ->
  created m' i = created m i -> (leaving (pc c) = true -> open_ m = false -> open_ m' = false) ->
  (joined m' i = true -> pc c = W_done) ->
  cinv m' i c.
Proof.
  intros [] Hp Hw Hc Ho Hj. split; rewrite ?Hp, ?Hw, ?Hc; try done.
  intros Hl. destruct (ci_leaving0 Hl) as [Ho' Hr]. auto.
Qed.

Ltac cell_arith :=
  cbn; repeat match goal with
              | |- context [Nat.ltb ?a ?b] => destruct (Nat.ltb_spec a b)
              end; congruence || lia.

(** The invariant of the cells after a step that does not touch them. *)
Ltac same_cells Hcells :=
  let i := fresh "i'" in let c := fresh "c'" in let Hi := fresh "Hi" in
  intros i c Hi; pose proof (lookup_lt_Some _ _ _ Hi);
  pose proof (Hcells _ _ Hi) as Hc; eapply cell_inv_main;
  [exact Hc|cell_arith..| |];
  [intros Hlv; (done || (destruct (ci_leaving _ _ _ _ _ _ Hc Hlv) as [? _]; done))
  |cbn; intros Hj; (done || (apply (ci_joined _ _ _ _ _ _ Hc); cbn in *; bool_to_prop; cell_arith))].

(** The others keep their invariant when the cell of [i] changes. *)
Ltac other_cells Hcells Hl :=
  pose proof (Hcells _ _ Hl) as Hc; eapply cell_update; [exact Hcells| |];
  [ let Hi := fresh "Hi" in intros ? ? ? Hi; eapply cell_inv_main;
    [exact Hi|cell_arith..|done|done]
  | destruct Hc; split; cbn in *; try done; try (cell_arith) ].

Lemma client_inv s s' :
  main s <> Failed -> memory s = true ->
  INV s -> client n runs usec s = Some s' -> memory s' = true /\ (main s' = Failed \/ INV s').
Proof.
  intros Hnf Hm [Hlen Hcells Hcont Hran Hfr Htm] Hs.
  unfold client, spin_init, spin_run, spin_exit in Hs.
  destruct s as [ru co ar me fr cs m]. cbn [run cont armed memory freed cells main] in *.
  subst me. unfold timer_inv in Htm. cbn [run armed main] in Htm.
  assert (freed_false : m <> Returned -> fr = false).
  { intros H. destruct fr; [|done]. exfalso. by apply H, Hfr. }
  destruct m; cbn [open_] in *; try discriminate Hs; subst co; cbn in Hs.
  all: try specialize (freed_false ltac:(done)); try subst fr.
  all: repeat case_if_in Hs; try (destruct (cs !! _) as [c|] eqn:Hl; [|discriminate Hs]); cbn in Hs.
  all: try (destruct (sem_wait _) as [v|] eqn:Ev; [apply sem_wait_Some in Ev|discriminate Hs]; cbn in Hs).
  all: try (destruct (decide _) as [Hd|]; [|discriminate Hs]).
  all: injection Hs as <-; split; [done|].
  all: try (left; done).
  all: right; split; cbn in *; rewrite ?length_insert; try done; try lia; try (by split).
  all: try (split; [|split]; lia || done).
  all: try (intros _; cbn; destruct (Z.eqb_spec usec 0); [by right|by left]).
  all: try (same_cells Hcells; fail).
  all: try (other_cells Hcells Hl).
  - intros i c Hi. pose proof (Hcells _ _ Hi) as Hc. eapply cell_inv_main; [exact Hc|done..| |done].
    intros Hl. pose proof (ci_created _ _ _ _ _ _ Hc) as Hcr. cbn in Hcr. by destruct (pc c).
  - rewrite ci_init0, (Nat.ltb_irrefl i) in *. by destruct (pc c).
  - rewrite ci_finished0, (Nat.ltb_irrefl i) in *. by destruct (pc c).
  - rewrite (Nat.ltb_irrefl i) in *. case_if; lia.
  - rewrite (Nat.ltb_irrefl i) in *. case_if; lia.
  - rewrite (Nat.ltb_irrefl i) in *. case_if; lia.
  - intros i' c' Hi. pose proof (Hcells _ _ Hi) as Hc. eapply cell_inv_main; [exact Hc|done..|].
    cbn. intros Hj. bool_to_prop. destruct (decide (i' = i)) as [->|].
    + congruence.
    + apply (ci_joined _ _ _ _ _ _ Hc). cbn. apply Nat.ltb_lt. lia.
Qed.

#[local] Notation SYS := (spin n has_init has_done runs usec).

Lemma idle_step t s s' :
  memory s = false -> idle n runs s -> @exec _ _ SYS t s = Some s' ->
  memory s' = false /\ idle n runs s'.
Proof.
  intros Hm (Hc & Hco & Hp & Hr & Ha) He. cbn in He.
  destruct (decide _) as [|Hnf]; [done|].
  destruct t as [|i|].
  - unfold client, spin_init, spin_run, spin_exit in He.
    destruct (main s) eqn:Em; try discriminate Hp;
      rewrite ?Hco, ?Hm in He; try discriminate He; injection He as <-; (split; [done|]); unfold idle; cbn in *;
      split_and?; try done; repeat case_if; cbn; try done; try lia.
  - unfold worker in He. rewrite Hc in He.
    destruct (replicate n new_cell !! i) as [c|] eqn:Ec; [|done].
    apply lookup_replicate in Ec as [-> _]. discriminate He.
  - unfold signalhandler in He. by rewrite Ha in He.
Qed.

Lemma Inv_step t s s' :
  Inv n has_init has_done runs usec s -> @exec _ _ SYS t s = Some s' ->
  Inv n has_init has_done runs usec s'.
Proof.
  unfold Inv. destruct (memory s) eqn:Hm; intros Hi He.
  - pose proof He as He'. cbn in He. destruct (decide _) as [|Hnf]; [done|].
    destruct Hi as [|Hi]; [done|]. destruct t as [|i|].
    + destruct (client_inv s s' Hnf Hm Hi He) as [-> ?]. done.
    + destruct (cells s !! i) as [c|] eqn:Hl; [|unfold worker in He; by rewrite Hl in He].
      destruct (worker_cell_inv i s c s' (i_cells _ _ _ _ _ _ Hi _ _ Hl) (i_cont _ _ _ _ _ _ Hi)
                  (i_range _ _ _ _ _ _ Hi) Hl He) as [[-> _]|(c' & -> & Hc')].
      * rewrite Hm. by right.
      * cbn [memory set_cell set_cells]. rewrite Hm. right.
        destruct Hi as [Hlen Hcells Hcont Hran Hfr Htm]. split; cbn; try done.
        { by rewrite length_insert. }
        eapply cell_update; [exact Hcells|done|done].
    + unfold signalhandler in He. destruct (armed s); [|done]. injection He as <-.
      cbn [memory set_run set_armed]. rewrite Hm. right.
      destruct Hi as [Hlen Hcells Hcont Hran Hfr Htm]. by split.
  - destruct (idle_step t s s' Hm Hi He) as [-> ?]. done.
Qed.

Lemma Inv_init s : @initial _ _ SYS s -> Inv n has_init has_done runs usec s.
Proof.
  intros [[] ->]; unfold Inv; cbn; [|by split_and?].
  right. split; cbn; try done.
  - by rewrite length_replicate.
  - intros i c Hi. apply lookup_replicate in Hi as [-> _]. split; cbn; try done; try lia; by destruct has_init, has_done.
Qed.

Lemma Inv_reachable s : @reachable _ _ SYS s -> Inv n has_init has_done runs usec s.
Proof. apply (invariant_reachable (Inv n has_init has_done runs usec)); [apply Inv_init|apply Inv_step]. Qed.
End proofs.

(** ** Progress *)

(** How many changing steps are left, at most. *)
Definition cell_left (runs : nat) (c : cell) : nat :=
  (6 * (runs + 1 - rounds c) +
   match pc c with
   | W_new => 7 | W_init => 6 | W_wait => 5 | W_test => 4
   | W_spin => 3 | W_post => 2 | W_exit => 1 | W_done => 0
   end)%nat.

Definition client_left (n runs : nat) (m : mpc) : nat :=
  (let rest k := (runs - k) * (2 * n + 8) + 3 * n + 10 in
   match m with
   | Init_enter => rest O + 9 * n + 10
   | Init_alloc => rest O + 9 * n + 9
   | Init_cont => rest O + 9 * n + 8
   | Init_signal => rest O + 9 * n + 7
   | Init_sem i => rest O + (n - i) + 8 * n + 5
   | Init_create i => rest O + 8 * (n - i) + 3
   | Client k => rest k + 1
   | Run_enter k => rest (S k) + 2 * n + 7
   | Run_flag k => rest (S k) + 2 * n + 6
   | Run_timer k => rest (S k) + 2 * n + 5
   | Run_post k i => rest (S k) + (n - i) + n + 3
   | Run_wait k i => rest (S k) + (n - i) + 2
   | Exit_enter => 3 * n + 10
   | Exit_flag => 3 * n + 9
   | Exit_post i => (n - i) + 2 * n + 6
   | Exit_join i => (n - i) + n + 5
   | Exit_destroy i => (n - i) + 4
   | Exit_free => 3
   | Returned | Failed => 0
   end)%nat.

Definition steps_left (n runs : nat) (s : state) : nat :=
  (sum_list_with (cell_left runs) (cells s) + client_left n runs (main s)
   + if armed s then 1 else 0)%nat.

Section progress.
Context (n : nat) (has_init has_done : bool) (runs : nat) (usec : Z).
#[local] Notation SYS := (spin n has_init has_done runs usec).
#[local] Notation INV := (Inv n has_init has_done runs usec).
#[local] Arguments Nat.ltb : simpl never.

Lemma rest_S k : (k < runs)%nat ->
  ((runs - k) * (2 * n + 8) = (runs - S k) * (2 * n + 8) + (2 * n + 8))%nat.
Proof. intros H. replace (runs - k)%nat with (S (runs - S k)) by lia. lia. Qed.

Lemma client_decreases s s' :
  pc_range n runs (main s) -> main s <> Failed -> client n runs usec s = Some s' ->
  (steps_left n runs s' < steps_left n runs s)%nat.
Proof.
  intros Hran Hnf Hs. unfold client, spin_init, spin_run, spin_exit in Hs. unfold steps_left.
  destruct s as [ru co ar me fr cs m]. cbn [run cont armed memory freed cells main] in *.
  destruct m; try discriminate Hs; cbn in Hs;
  repeat case_if_in Hs; try (destruct (cs !! _) as [c|] eqn:Hl; [|discriminate Hs]); cbn in Hs;
  try (destruct (sem_wait _) as [v|] eqn:Ev; [|discriminate Hs]; cbn in Hs);
  try (destruct (decide _) as [Hd|]; [|discriminate Hs]);
  injection Hs as <-; cbn -[Nat.mul Nat.sub] in *;
  try (match goal with
       | |- context [sum_list_with ?f (<[?i := ?y]> ?l)] =>
           pose proof (sum_list_insert f l i _ y Hl); unfold cell_left in *; cbn in *
       end);
  try match goal with k : nat |- _ => pose proof (rest_S k) end;
  repeat case_if; lia.
Qed.

Lemma client_not_failed s s' :
  timer_valid usec = true -> client n runs usec s = Some s' -> main s' <> Failed.
Proof.
  intros Htv Hs. unfold client, spin_init, spin_run, spin_exit in Hs. rewrite Htv in Hs.
  destruct s as [ru co ar me fr cs m]. cbn [run cont armed memory freed cells main] in *.
  destruct m; try discriminate Hs; cbn in Hs;
  repeat case_if_in Hs; try (destruct (cs !! _) as [c|] eqn:Hl; [|discriminate Hs]); cbn in Hs;
  try (destruct (sem_wait _) as [v|] eqn:Ev; [|discriminate Hs]; cbn in Hs);
  try (destruct (decide _) as [Hd|]; [|discriminate Hs]);
  injection Hs as <-; cbn; repeat case_if; discriminate.
Qed.

Lemma worker_main i s s' : worker has_init has_done i s = Some s' -> main s' = main s.
Proof.
  unfold worker. destruct (cells s !! i) as [c|]; [|done]. cbn. intros Hw.
  destruct (pc c); try discriminate Hw; try (destruct (sem_wait _); [|discriminate Hw]);
    try (destruct (run s)); by injection Hw as <-.
Qed.

Lemma worker_decreases i s s' :
  INV s -> memory s = true -> main s <> Failed -> worker has_init has_done i s = Some s' ->
  s' = s \/ (steps_left n runs s' < steps_left n runs s)%nat.
Proof.
  unfold Inv. intros Hi Hm Hnf Hw. rewrite Hm in Hi. destruct Hi as [|Hi]; [done|].
  destruct (cells s !! i) as [c|] eqn:Hl; [|unfold worker in Hw; by rewrite Hl in Hw].
  pose proof (ci_working _ _ _ _ _ _ (i_cells _ _ _ _ _ _ Hi _ _ Hl)) as Hwo.
  unfold worker in Hw. rewrite Hl in Hw. cbn in Hw.
  assert (forall c', s' = set_cell s i c' -> (cell_left runs c' < cell_left runs c)%nat ->
            (steps_left n runs s' < steps_left n runs s)%nat) as Hdec.
  { intros c' -> Hc. unfold steps_left. cbn.
    pose proof (sum_list_insert (cell_left runs) (cells s) i c c' Hl). lia. }
  destruct c as [p ss sd r ic dc]. cbn in *.
  destruct p; try discriminate Hw;
    try (destruct ss as [|v]; [discriminate Hw|]; cbn in Hw);
    try (destruct (run s); injection Hw as <-; [by left|]); try injection Hw as <-;
    right; (eapply Hdec; [reflexivity|]); unfold cell_left; cbn -[Nat.mul Nat.sub];
    try specialize (Hwo eq_refl); try (destruct (cont s)); lia.
Qed.

Lemma step_decreases t s s' :
  INV s -> @exec _ _ SYS t s = Some s' ->
  s' = s \/ (steps_left n runs s' < steps_left n runs s)%nat.
Proof.
  intros Hi He. pose proof He as He'. cbn in He. destruct (decide _) as [|Hnf]; [done|].
  destruct t as [|i|].
  - right. eapply client_decreases; [|done..].
    unfold Inv in Hi. destruct (memory s); [destruct Hi as [|[]]; done|apply Hi].
  - destruct (memory s) eqn:Hm.
    + eapply worker_decreases; done.
    + unfold Inv in Hi. rewrite Hm in Hi. destruct Hi as (Hc & _).
      unfold worker in He. rewrite Hc in He.
      destruct (replicate n new_cell !! i) as [c|] eqn:Ec; [|done].
      apply lookup_replicate in Ec as [-> _]. discriminate He.
  - unfold signalhandler in He. destruct (armed s) eqn:Ea; [|done]. injection He as <-.
    right. unfold steps_left. cbn. rewrite Ea. lia.
Qed.

(** A worker that has something to do, or burns, is not waited for forever. *)
Lemma busy_cell_moves i s c :
  inv n has_init has_done runs usec s -> main s <> Failed -> 0 < usec ->
  cells s !! i = Some c -> started (pc c) = true ->
  match main s with Run_timer _ => False | _ => True end ->
  (pc c = W_wait -> sem_start c <> O) -> pc c <> W_done ->
  exists t s', @exec _ _ SYS t s = Some s' /\ s' <> s.
Proof.
  intros Hi Hnf Hu Hl Hst Hti Hw Hnd.
  assert (forall c', pc c' <> pc c -> set_cell s i c' <> s) as Hne.
  { intros c' Hp Heq. apply (f_equal (fun s => cells s !! i)) in Heq. cbn in Heq.
    rewrite list_lookup_insert_eq in Heq by (by eapply lookup_lt_Some).
    rewrite Hl in Heq. injection Heq as Heq. apply (f_equal pc) in Heq. done. }
  assert (forall c', worker has_init has_done i s = Some (set_cell s i c') -> pc c' <> pc c ->
            exists t s', @exec _ _ SYS t s = Some s' /\ s' <> s) as Hstep.
  { intros c' Hw' Hc'. exists (Worker i), (set_cell s i c'). split; [|by apply Hne].
    cbn. by rewrite decide_False. }
  unfold worker in Hstep. rewrite Hl in Hstep. cbn in Hstep.
  destruct (pc c) eqn:Ep; try done.
  - by eapply Hstep.
  - destruct (sem_start c); [by destruct Hw|]. by eapply Hstep.
  - eapply Hstep; [done|]. cbn. by destruct (cont s).
  - destruct (run s) eqn:Er; [|by eapply Hstep].
    pose proof (i_timer _ _ _ _ _ _ Hi Er) as Ha.
    assert (armed s = true) as Ha' by (destruct (main s); try done; destruct Ha; (done || lia)).
    exists Timer, (set_run (set_armed s false) false). split.
    + cbn. rewrite decide_False by done. unfold signalhandler. by rewrite Ha'.
    + intros Heq. apply (f_equal armed) in Heq. cbn in Heq. congruence.
  - by eapply Hstep.
  - by eapply Hstep.
Qed.

(** Outside the final states some thread makes progress. *)
Lemma some_thread_moves s :
  INV s -> 0 < usec < 1000000 -> main s <> Returned -> main s <> Failed ->
  exists t s', @exec _ _ SYS t s = Some s' /\ s' <> s.
Proof.
  intros Hi Hu Hnr Hnf.
  assert (forall s', client n runs usec s = Some s' ->
            exists t s', @exec _ _ SYS t s = Some s' /\ s' <> s) as Hcl.
  { intros s' Hs. exists Client_thread, s'. split; [cbn; by rewrite decide_False|].
    assert (pc_range n runs (main s)) as Hr.
    { unfold Inv in Hi. destruct (memory s); [destruct Hi as [|[]]; done|apply Hi]. }
    pose proof (client_decreases s s' Hr Hnf Hs). intros ->. lia. }
  unfold Inv in Hi. destruct (memory s) eqn:Hm.
  - destruct Hi as [|Hi]; [done|].
    pose proof (i_length _ _ _ _ _ _ Hi) as Hlen. pose proof (i_cells _ _ _ _ _ _ Hi) as Hcells.
    assert (forall i, (i < n)%nat -> exists c, cells s !! i = Some c) as Hcell.
    { intros i Hlt. apply lookup_lt_is_Some_2. lia. }
    assert (timer_valid usec = true) as Htv.
    { unfold timer_valid. rewrite andb_true_iff, Z.leb_le, Z.ltb_lt. lia. }
    unfold client, spin_init, spin_run, spin_exit in Hcl.
    destruct (main s) eqn:Em; try done; try (by eapply Hcl);
      try (rewrite Htv in Hcl; by eapply Hcl);
      try (destruct (Nat.ltb_spec i n) as [Hlt|]; [|by eapply Hcl];
           destruct (Hcell i Hlt) as [c Hl]; rewrite Hl in Hcl; cbn in Hcl; try (by eapply Hcl)).
    + destruct (sem_done c) as [|v] eqn:Es; [|by eapply Hcl].
      pose proof (Hcells _ _ Hl) as [Hst Hdo Hcr Hle Hru _ _ _ _]. rewrite Em in *.
      cbn in *. rewrite Nat.ltb_irrefl in Hdo.
      eapply (busy_cell_moves i s c); try done; try lia; rewrite ?Em; try done.
      * intros Hw. rewrite Hw in *. cbn in Hst. lia.
      * intros Hw. rewrite Hw in *. by destruct (Hle eq_refl).
    + destruct (decide (pc c = W_done)) as [|Hnd]; [by eapply Hcl|].
      pose proof (Hcells _ _ Hl) as [Hst Hdo Hcr Hle Hru _ _ _ _]. rewrite Em in *.
      cbn in *. eapply (busy_cell_moves i s c); try done; try lia; rewrite ?Em; try done.
      intros Hw. rewrite Hw in *. cbn in Hst. lia.
    + destruct (i <? n)%nat; by eapply Hcl.
  - destruct Hi as (Hc & Hco & Hp & Hr & Ha). unfold client, spin_init, spin_run, spin_exit in Hcl.
    rewrite Hco, Hm in Hcl. destruct (main s); try done; by eapply Hcl.
Qed.

Lemma init_not_failed s : @initial _ _ SYS s -> main s <> Failed.
Proof. intros [? ->]. discriminate. Qed.

(** With a valid delay the process never fails. *)
Lemma running_step t s s' :
  0 < usec < 1000000 -> INV s /\ main s <> Failed -> @exec _ _ SYS t s = Some s' ->
  INV s' /\ main s' <> Failed.
Proof.
  intros Hu [Hi Hnf] He. split; [by eapply Inv_step|]. cbn in He.
  rewrite decide_False in He by done. destruct t as [|j|].
  - eapply client_not_failed; [|done]. unfold timer_valid.
    rewrite andb_true_iff, Z.leb_le, Z.ltb_lt. lia.
  - apply worker_main in He. by rewrite He.
  - unfold signalhandler in He. destruct (armed s); [|done]. by simplify_eq/=.
Qed.
End progress.

(** ** Theorems *)

Section theorems.
Context (n : nat) (has_init has_done : bool) (runs : nat) (usec : Z).
#[local] Arguments Nat.ltb : simpl never.
#[local] Existing Instance spin.
#[local] Notation SYS := (spin n has_init has_done runs usec).

(** (C9) [spin_run] is a barrier: whenever the client stands between two
    calls, after [k] runs, every worker has burnt exactly [k] times, none is
    burning or about to, and no semaphore holds a left-over signal. *)
Theorem spin_run_barrier (s : state) (k i : nat) (c : cell)
    (Hr : @reachable _ _ SYS s) (Hmem : memory s = true) (Hk : main s = Client k)
    (Hc : cells s !! i = Some c) :
  rounds c = k /\ sem_start c = O /\ sem_done c = O
  /\ (pc c = W_init \/ pc c = W_wait).
Proof.
  apply Inv_reachable in Hr. unfold Inv in Hr. rewrite Hmem, Hk in Hr.
  destruct Hr as [|Hi]; [done|].
  destruct (i_cells _ _ _ _ _ _ Hi _ _ Hc) as [Hst Hdo Hcr Hle Hru Hwo Hjo _ _].
  rewrite Hk in *. cbn in *. destruct (pc c); cbn in *; try discriminate Hcr; try lia;
  split_and?; try lia; auto.
Qed.

(** (C10) [spin_exit] reclaims everything: when it has returned the four
    blocks are released, every worker has returned before that, after exactly
    [runs] rounds, one call of [init] and one of [done] (when the client gave
    them), so nothing can use a released semaphore. *)
Theorem spin_exit_joins (s : state) (i : nat) (c : cell)
    (Hr : @reachable _ _ SYS s) (Hmem : memory s = true) (Hret : main s = Returned)
    (Hc : cells s !! i = Some c) :
  freed s = true /\ pc c = W_done /\ rounds c = runs
  /\ init_calls c = (if has_init then 1 else 0)%nat
  /\ done_calls c = (if has_done then 1 else 0)%nat
  /\ forall j, worker has_init has_done j s = None.
Proof.
  apply Inv_reachable in Hr. unfold Inv in Hr. rewrite Hmem in Hr.
  destruct Hr as [Hf|Hi]; [congruence|].
  pose proof (i_cells _ _ _ _ _ _ Hi) as Hcells.
  destruct (Hcells _ _ Hc) as [Hst Hdo Hcr Hle Hru Hwo Hjo Hin Hfi].
  rewrite Hret in *. cbn in *. specialize (Hjo eq_refl). rewrite Hjo in *. cbn in *.
  split; [by apply (i_freed _ _ _ _ _ _ Hi)|]. split; [done|].
  split; [by destruct (Hle eq_refl)|]. unfold once in *. rewrite andb_true_r in *.
  split_and?; try done. intros j. unfold worker.
  destruct (cells s !! j) as [d|] eqn:Hj; [|done]. cbn.
  pose proof (ci_joined _ _ _ _ _ _ (Hcells _ _ Hj)) as Hd. by rewrite Hd.
Qed.

(** (C11) With a delay of one microsecond up to a second the pool never
    deadlocks and never hangs: whatever happened before, the client can still
    return; and an execution makes a bounded number of steps besides the
    turns of the busy loops. *)
Theorem spin_terminates (s : state) (Hu : 0 < usec < 1000000) (Hr : @reachable _ _ SYS s) :
  (exists s', @reach _ _ SYS s s' /\ main s' = Returned)
  /\ forall k s', nsteps (@changing _ _ SYS) k s s' -> (k <= steps_left n runs s)%nat.
Proof.
  assert (Inv n has_init has_done runs usec s /\ main s <> Failed) as Hs.
  { revert Hr. apply (@invariant_reachable _ _ SYS
      (fun s => Inv n has_init has_done runs usec s /\ main s <> Failed)).
    - intros s0 H0. split; [by eapply Inv_init|]. by eapply init_not_failed.
    - intros. by eapply running_step. }
  split.
  - destruct (@progress_to_final _ _ SYS
      (fun s => Inv n has_init has_done runs usec s /\ main s <> Failed)
      (fun s => main s = Returned) (steps_left n runs)) with (s := s) as (s' & ? & ?); [| |done|by exists s'].
    + intros t s0 s1 H0 He. by eapply running_step.
    + intros s0 [Hi Hnf]. destruct (decide (main s0 = Returned)); [by left|]. right.
      destruct (some_thread_moves n has_init has_done runs usec s0) as (t & s1 & He & Hne); try done.
      exists t, s1. split; [done|]. by destruct (step_decreases _ _ _ _ _ t s0 s1 Hi He).
  - intros k s' Hk.
    pose proof (@changing_bound _ _ SYS (Inv n has_init has_done runs usec) (steps_left n runs)
      (Inv_step _ _ _ _ _) (step_decreases _ _ _ _ _) k s s' (proj1 Hs) Hk). lia.
Qed.

(** The states a pool with a zero delay can visit. *)
Definition before_wait (m : mpc) : bool :=
  match m with
  | Init_enter | Init_alloc | Init_cont | Init_signal | Init_sem _ | Init_create _
  | Client O | Run_enter O | Run_flag O | Run_timer O | Run_post O _ | Run_wait O O => true
  | _ => false
  end.
Definition flag_up (m : mpc) : bool :=
  match m with Run_timer _ | Run_post _ _ | Run_wait _ _ => true | _ => false end.

Definition burning_forever (s : state) : Prop :=
  memory s = true -> armed s = false /\ before_wait (main s) = true
  /\ (flag_up (main s) = true -> run s = true)
  /\ (forall c, cells s !! O = Some c -> pc c <> W_post /\ rounds c = O).

Lemma step_memory t s s' : @exec _ _ SYS t s = Some s' -> memory s' = memory s.
Proof.
  cbn. destruct (decide _); [done|]. intros Hs. destruct t as [|i|].
  - unfold client, spin_init, spin_run, spin_exit in Hs.
    destruct (main s); try discriminate Hs; cbn in Hs;
    repeat case_if_in Hs; try (destruct (cells s !! _) as [c|] eqn:Hl; [|discriminate Hs]); cbn in Hs;
    try (destruct (sem_wait _) as [v|] eqn:Ev; [|discriminate Hs]; cbn in Hs);
    try (destruct (decide _) as [Hd|]; [|discriminate Hs]);
    injection Hs as <-; done.
  - unfold worker in Hs. destruct (cells s !! i) as [c|]; [|done]. cbn in Hs.
    destruct (pc c); try discriminate Hs; try (destruct (sem_wait _); [|discriminate Hs]);
    try (destruct (run s)); by injection Hs as <-.
  - unfold signalhandler in Hs. destruct (armed s); [|done]. by injection Hs as <-.
Qed.

Lemma insert_first (l : list cell) i c c' :
  l !! i = Some c -> (pc c' = W_post -> pc c = W_post) -> rounds c' = rounds c ->
  (forall d, l !! O = Some d -> pc d <> W_post /\ rounds d = O) ->
  forall d, <[i := c']> l !! O = Some d -> pc d <> W_post /\ rounds d = O.
Proof.
  intros Hl Hp Hr H d Hd. apply list_lookup_insert_Some in Hd as [(-> & -> & _)|[_ Hd]].
  - destruct (H c Hl) as [H1 H0]. split; [auto|congruence].
  - by apply H.
Qed.

(** Main goes on towards the join that never comes. *)
Lemma burning_client s s' :
  (0 < n)%nat -> (0 < runs)%nat -> usec = 0 -> memory s = true ->
  inv n has_init has_done runs usec s -> burning_forever s ->
  client n runs usec s = Some s' ->
  armed s' = false /\ before_wait (main s') = true /\ (flag_up (main s') = true -> run s' = true)
  /\ (forall c, cells s' !! O = Some c -> pc c <> W_post /\ rounds c = O).
Proof.
  intros Hn Hru Hu Hm Hinv Hb He. destruct (Hb Hm) as (Ha & Hp & Hf & Hc).
  pose proof (i_cont _ _ _ _ _ _ Hinv) as Hcont. pose proof (i_cells _ _ _ _ _ _ Hinv) as Hcells. clear Hb.
  destruct s as [ru co ar me fr cs m]. cbn [run cont armed memory freed cells main] in *. subst.
  unfold client, spin_init, spin_run, spin_exit in He. cbn in Hp.
  destruct m as [| | | |i|i|[|k]|[|k]|[|k]|[|k]|[|k] i|[|k] [|i]| | | | | | | |];
    try discriminate Hp; cbn in He; rewrite ?Hm in He;
    try rewrite (proj2 (Nat.ltb_lt 0 runs)) in He by done;
    try rewrite (proj2 (Nat.ltb_lt 0 n)) in He by done; repeat case_if_in He;
    try match type of He with context [cs !! ?j] =>
          destruct (cs !! j) as [c|] eqn:Hl; [|discriminate He] end; cbn in He.
  all: try (injection He as <-; cbn in *; (split; [done|]); split; [done|];
            split; [first [done|intros _; by apply Hf]|];
            first [exact Hc|by eapply insert_first]).
  pose proof (ci_done _ _ _ _ _ _ (Hcells _ _ Hl)) as Hd. destruct (Hc _ eq_refl) as [_ H0].
  cbn in Hd. destruct (sem_done c); [done|lia].
Qed.

(** The first worker spins: nothing lowers its flag. *)
Lemma burning_worker i s s' :
  memory s = true -> inv n has_init has_done runs usec s -> burning_forever s ->
  worker has_init has_done i s = Some s' ->
  armed s' = false /\ before_wait (main s') = true /\ (flag_up (main s') = true -> run s' = true)
  /\ (forall c, cells s' !! O = Some c -> pc c <> W_post /\ rounds c = O).
Proof.
  intros Hm Hinv Hb He. destruct (Hb Hm) as (Ha & Hp & Hf & Hc).
  unfold worker in He. destruct (cells s !! i) as [c|] eqn:Hl; [|done]. cbn in He.
  assert (pc c = W_wait \/ i <> O \/ pc c <> W_post) as Hnp.
  { destruct (decide (i = O)) as [->|]; [|auto]. right; right. by destruct (Hc _ Hl). }
  assert (pc c = W_spin -> i = O -> run s = true) as Hrun.
  { intros Hp' ->. apply Hf. destruct (i_cells _ _ _ _ _ _ Hinv _ _ Hl) as [Hst _ _ _ _ _ _ _ _].
    rewrite Hp' in Hst. cbn in Hst. unfold before_wait in Hp.
    destruct (main s) as [| | | | | | [|k]|[|k]|[|k]|[|k]|[|k] j|[|k] [|j]| | | | | | | | ];
      try discriminate Hp; cbn in Hst; done || lia. }
  assert (forall c', s' = set_cell s i c' -> (i = O -> pc c' <> W_post /\ rounds c' = O) ->
            armed s' = false /\ before_wait (main s') = true
            /\ (flag_up (main s') = true -> run s' = true)
            /\ (forall c, cells s' !! O = Some c -> pc c <> W_post /\ rounds c = O)) as Hset.
  { intros c' -> Hc'. cbn. split_and?; try done. intros d Hd.
    apply list_lookup_insert_Some in Hd as [(-> & -> & _)|[_ Hd]]; auto. }
  destruct (pc c) eqn:Ep; try discriminate He.
  - injection He as <-. eapply Hset; [done|]. intros ->. by destruct (Hc _ Hl).
  - destruct (sem_wait _); [|done]. injection He as <-. eapply Hset; [done|]. intros ->. by destruct (Hc _ Hl).
  - injection He as <-. eapply Hset; [done|]. intros ->. destruct (Hc _ Hl). by destruct (cont s).
  - destruct (run s) eqn:Er; injection He as <-; [done|]. eapply Hset; [done|].
    intros ->. by specialize (Hrun eq_refl eq_refl).
  - injection He as <-. eapply Hset; [done|]. intros ->. by destruct Hnp as [|[]].
  - injection He as <-. eapply Hset; [done|]. intros ->. by destruct (Hc _ Hl).
Qed.

Lemma burning_step t s s' :
  (0 < n)%nat -> (0 < runs)%nat -> usec = 0 ->
  Inv n has_init has_done runs usec s -> burning_forever s ->
  @exec _ _ SYS t s = Some s' -> burning_forever s'.
Proof.
  intros Hn Hru Hu Hinv Hb He. unfold burning_forever at 1. rewrite (step_memory t s s' He). intros Hm.
  unfold Inv in Hinv. rewrite Hm in Hinv. cbn in He. destruct (decide _) as [|Hnf]; [done|].
  destruct Hinv as [|Hinv]; [done|]. destruct t as [|i|].
  - by eapply burning_client.
  - by eapply burning_worker.
  - unfold signalhandler in He. destruct (Hb Hm) as (Ha & _). by rewrite Ha in He.
Qed.

(** A delay of zero disarms the timer instead of expiring at once: the
    flag stays up, the workers burn for ever, and neither the first
    [spin_run] nor the client ever returns. *)
Theorem spin_run_zero_hangs (s : state) (Hn : (0 < n)%nat) (Hruns : (0 < runs)%nat)
    (Hu : usec = 0) (Hr : @reachable _ _ SYS s) (Hmem : memory s = true) :
  main s <> Returned /\ (forall k, main s <> Client (S k))
  /\ forall c, cells s !! O = Some c -> rounds c = O.
Proof.
  assert (Inv n has_init has_done runs usec s /\ burning_forever s) as [_ Hs].
  { revert Hr. apply (@invariant_reachable _ _ SYS
      (fun s => Inv n has_init has_done runs usec s /\ burning_forever s)).
    - intros s0 H0. split; [by eapply Inv_init|]. destruct H0 as [mem ->].
      intros _. cbn. split_and?; try done. intros c Hc.
      by apply lookup_replicate in Hc as [-> _].
    - intros t s0 s1 [Hi Hb] He. split; [by eapply Inv_step|by eapply burning_step]. }
  destruct (Hs Hmem) as (_ & Hp & _ & Hc). split_and?.
  - intros E. by rewrite E in Hp.
  - intros k E. by rewrite E in Hp.
  - intros c Hl. by destruct (Hc c Hl).
Qed.
End theorems.

(** ** Witnesses

    One worker, one run, both callbacks. *)

Definition demo_start : list tid :=
  replicate 10 Client_thread ++ [Worker 0] ++ replicate 4 Client_thread
  ++ [Worker 0; Worker 0; Worker 0; Timer; Worker 0; Worker 0] ++ replicate 2 Client_thread.
Definition demo_end : list tid :=
  replicate 3 Client_thread ++ replicate 2 Client_thread ++ [Worker 0; Worker 0; Worker 0]
  ++ replicate 5 Client_thread.

Definition demo (ts : list tid) : state :=
  default (init 1 true) (@run_schedule _ _ (spin 1 true true 1 100) ts (init 1 true)).

Lemma demo_reachable ts :
  match @run_schedule _ _ (spin 1 true true 1 100) ts (init 1 true) with Some _ => true | None => false end
  = true -> @reachable _ _ (spin 1 true true 1 100) (demo ts).
Proof.
  unfold demo. destruct (run_schedule _ _) as [s|] eqn:E; [|done]. intros _.
  exists (init 1 true). split; [by exists true|]. by apply run_schedule_reach in E.
Qed.

Lemma demo_runs : main (demo demo_start) = Client 1 /\ main (demo (demo_start ++ demo_end)) = Returned.
Proof. split; vm_compute; reflexivity. Qed.

Theorem spin_run_barrier_witness :
  exists c, cells (demo demo_start) !! O = Some c /\ rounds c = 1%nat.
Proof.
  eexists. split; [vm_compute; reflexivity|].
  eapply (spin_run_barrier 1 true true 1 100 (demo demo_start) 1 O).
  - apply demo_reachable. vm_compute. reflexivity.
  - vm_compute. reflexivity.
  - vm_compute. reflexivity.
  - vm_compute. reflexivity.
Defined.

Theorem spin_exit_joins_witness :
  exists c, cells (demo (demo_start ++ demo_end)) !! O = Some c /\ pc c = W_done.
Proof.
  eexists. split; [vm_compute; reflexivity|].
  eapply (spin_exit_joins 1 true true 1 100 (demo (demo_start ++ demo_end)) O).
  - apply demo_reachable. vm_compute. reflexivity.
  - vm_compute. reflexivity.
  - vm_compute. reflexivity.
  - vm_compute. reflexivity.
Defined.

Theorem spin_terminates_witness :
  exists s', @reach _ _ (spin 1 true true 1 100) (demo demo_start) s' /\ main s' = Returned.
Proof.
  apply (spin_terminates 1 true true 1 100 (demo demo_start)).
  - lia.
  - apply demo_reachable. vm_compute. reflexivity.
Defined.

Theorem spin_run_zero_hangs_witness : main (init 2 true) <> Returned.
Proof.
  apply (spin_run_zero_hangs 2 true true 3 0 (init 2 true)); [lia|lia|done| |done].
  exists (init 2 true). split; [by exists true|constructor].
Defined.
