(* ===== verification/Pulse.v ===== *)
(** * src/pulse.c

    [wk-pulse]: bursts of CPU on a pool of pinned threads, synchronised on
    the wall clock: a burst starts at a multiple of the period, unless the
    sleep up to it is refused. *)

From S2P Require Import Prelude CInt CString Libc CFloat Utils Getopt Pincpu.

Local Open Scope string_scope.
Local Open Scope list_scope.
Local Open Scope Z_scope.

Definition DEFAULT_SPIN : Z := 100000.
Definition DEFAULT_DURATION : Z := 1000000.
Definition DEFAULT_THREAD : Z := 2.
Definition DEFAULT_FREQ : Z := 4.
Definition USEC_PER_SEC : Z := 1000000.
Definition progname : string := "wk-pulse".

Record experiment := Experiment {
  nr_thread : Z; spin : Z; verbose : Z; freq : Z; duration : Z; pin : Z; cpuset : pincpu
}.

Definition set_nr_thread e v := Experiment v (spin e) (verbose e) (freq e) (duration e) (pin e) (cpuset e).
Definition set_spin e v := Experiment (nr_thread e) v (verbose e) (freq e) (duration e) (pin e) (cpuset e).
Definition set_freq e v := Experiment (nr_thread e) (spin e) (verbose e) v (duration e) (pin e) (cpuset e).
Definition set_duration e v := Experiment (nr_thread e) (spin e) (verbose e) (freq e) v (pin e) (cpuset e).
Definition set_cpuset e v := Experiment (nr_thread e) (spin e) (verbose e) (freq e) (duration e) 1 v.

(** ** Command line *)

Definition usage {A} : prog A := usage_text
  [("Usage: %s [OPTIONS]" +:+ NL, [PStr (Some progname)]);
   (NL +:+ "Options:" +:+ NL +:+ NL, []);
   ("--spin S         spin duration in microseconds (default = 100 000 us)" +:+ NL, []);
   ("--thread N       number of threads to be spawned (default = 2)" +:+ NL, []);
   ("--frequency      frequency in HZ of the CPU bursts per thread (default = 4)" +:+ NL, []);
   ("--cpuset         pin threads to these CPUs (round-robin, comma separated cpu id)" +:+ NL, []);
   ("--duration       duration in microseconds of the experiment (default = 1 000 000 us" +:+ NL, []);
   ("--verbose        be verbose" +:+ NL, []);
   ("--help           print this message and exit" +:+ NL, []);
   (NL, [])].

Definition optstring : string := "hd:t:f:s:c:v".
Definition options : list option_ :=
  [Option_ "help" false "h"; Option_ "duration" true "d"; Option_ "thread" true "t";
   Option_ "frequency" true "f"; Option_ "spin" true "s"; Option_ "cpuset" true "c";
   Option_ "verbose" false "v"].

Section pulse.
(** The bytes after the separator in [pincpu_parse]. *)
Variable junk : string.

(** The [switch]; [v] has no case of its own. *)
Definition parse_opt (f : found) (e : experiment) : prog experiment :=
  match opt f with
  | "d"%char => with_arg f (fun a => Ret (set_duration e (atol a)))
  | "t"%char => with_arg f (fun a => Ret (set_nr_thread e (atoi a)))
  | "f"%char => with_arg f (fun a => Ret (set_freq e (atoi a)))
  | "s"%char => with_arg f (fun a => Ret (set_spin e (atoi a)))
  | "c"%char => with_arg f (fun a =>
      '(r, c) ← pincpu_parse junk (cpuset e) a;
      (if r <? 0 then call (Printf ("Error parsing cpuset" +:+ NL) []);; usage else Ret tt);;
      dump_cpuset c;;
      Ret (set_cpuset e c))
  | _ => usage
  end.

Definition parse_opts (argv : list string) (e : experiment) : prog experiment :=
  let e := Experiment DEFAULT_THREAD DEFAULT_SPIN (verbose e) DEFAULT_FREQ DEFAULT_DURATION 0
             (cpuset e) in
  e ← opt_loop parse_opt (getopt_long optstring options None argv) e;
  (if 900000 <? s64 (spin e * freq e)
   then call (Printf ("Warning: Spin duration is too long for requested frequency."
                      +:+ "CPU may spin all the time." +:+ NL) [])
   else Ret tt);;
  (if nrcpus (cpuset e) =? 0
   then call (Printf ("Error: cpuset empty" +:+ NL) []);; dump_cpuset (cpuset e);; usage
   else Ret tt);;
  Ret e.

(** ** pulse_pincpu, run by every worker of the pool *)
Definition pulse_pincpu (e : experiment) (id : Z) : prog unit :=
  if nrcpus (cpuset e) =? 0 then Undef "division by zero" else
  let k := crem id (nrcpus (cpuset e)) in
  match (if k <? 0 then None else cpus (cpuset e) !! Z.to_nat k) with
  | None => Undef "read outside cpus"
  | Some cpu =>
      call (Printf ("pinning thread %d to cpu %d" +:+ NL) [PInt id; PInt cpu]);;
      r ← pincpu_do_pin cpu;
      if r <? 0
      then call (Printf ("Error pinning thread %d to cpu %d" +:+ NL) [PInt id; PInt cpu])
      else Ret tt
  end.

(** ** main

    [nr_iter = (duration / USEC_PER_SEC) * freq]. *)
Definition nr_iter (e : experiment) : Z :=
  s32 (s64 (cdiv (duration e) USEC_PER_SEC * freq e)).

(** The delay up to the next multiple of the period. *)
Definition period (e : experiment) : Z := cdiv USEC_PER_SEC (freq e).
Definition sync (e : experiment) (usec : Z) : Z := period e - crem usec (period e).

Definition pulse_iter (e : experiment) (i : Z) : prog unit :=
  '(sec, usec) ← call Gettimeofday;
  if (freq e =? 0) || (period e =? 0) then Undef "division by zero" else
  let sync := sync e usec in
  call (Printf ("%ld %06ld period=%06ld sync=%06ld next=%06ld" +:+ NL)
          [PInt sec; PInt usec; PInt (period e); PInt sync; PInt (usec + sync + period e)]);;
  call (Nanosleep (Timespec 0 (sync * 1000)));;
  call (Printf ("before_spin=%d" +:+ NL) [PInt i]);;
  call (Spin_run (spin e));;
  call (Printf ("after_spin=%d" +:+ NL) [PInt i]).

Definition pulse_run (e : experiment) : prog Z :=
  call (Spin_init (nr_thread e));;
  for_ (Z.to_nat (nr_iter e)) 0 (fun i _ => pulse_iter e i) tt;;
  call Spin_exit;;
  Ret 0.

Definition main (argv : list string) : prog Z :=
  (* calloc: every member is zero *)
  p ← call (Calloc 1 64);
  match p with
  | None => Undef "write through NULL"
  | Some _ =>
      e ← parse_opts argv (Experiment 0 0 0 0 0 0 (Pincpu [] 0));
      pulse_run e
  end.
End pulse.

(** ** The schedule of the bursts: lemmas *)

(** The calls of one iteration that read the clock [(sec, usec)]. *)
Definition iter_trace (e : experiment) (i : Z) (tv : Z * Z) (r : Z) : list ev :=
  [Ev Gettimeofday tv;
   Ev (Printf ("%ld %06ld period=%06ld sync=%06ld next=%06ld" +:+ NL)
         [PInt tv.1; PInt tv.2; PInt (period e); PInt (sync e tv.2);
          PInt (tv.2 + sync e tv.2 + period e)]) tt;
   Ev (Nanosleep (Timespec 0 (sync e tv.2 * 1000))) r;
   Ev (Printf ("before_spin=%d" +:+ NL) [PInt i]) tt;
   Ev (Spin_run (spin e)) tt;
   Ev (Printf ("after_spin=%d" +:+ NL) [PInt i]) tt].

Fixpoint iters_trace (e : experiment) (i : Z) (l : list ((Z * Z) * Z)) : list ev :=
  match l with
  | [] => []
  | (tv, r) :: l => iter_trace e i tv r ++ iters_trace e (i + 1) l
  end.

Lemma iters_trace_app e i l1 l2 :
  iters_trace e i (l1 ++ l2)
  = iters_trace e i l1 ++ iters_trace e (i + Z.of_nat (length l1)) l2.
Proof.
  revert i. induction l1 as [|[tv r] l1 IH]; intros i; cbn [iters_trace app length].
  - f_equal. lia.
  - rewrite IH, <- app_assoc. do 3 f_equal. lia.
Qed.

Lemma period_pos e : 1 <= freq e <= USEC_PER_SEC -> 1 <= period e <= USEC_PER_SEC.
Proof.
  intros H. unfold period, cdiv. rewrite Z.quot_div_nonneg by (unfold USEC_PER_SEC in *; lia).
  unfold USEC_PER_SEC in *. split.
  - apply Z.div_le_lower_bound; lia.
  - apply Z.div_le_upper_bound; lia.
Qed.

Lemma sync_spec e usec :
  1 <= freq e <= USEC_PER_SEC -> 0 <= usec ->
  0 < sync e usec <= period e /\ (usec + sync e usec) mod period e = 0.
Proof.
  intros Hf Hu. pose proof (period_pos e Hf) as Hp. unfold sync, crem.
  rewrite Z.rem_mod_nonneg by lia. pose proof (Z.mod_pos_bound usec (period e) ltac:(lia)).
  split; [lia|]. replace (usec + (period e - usec mod period e))
    with ((usec - usec mod period e) + 1 * period e) by lia.
  rewrite Z_mod_plus_full, Zminus_mod_idemp_r. by rewrite Z.sub_diag.
Qed.

(** ** Time

    [now] is the real-time clock in nanoseconds; every call but the sleep and
    the burst takes at most [latency], and the sleep lasts at most that much
    longer than asked.  [nanosleep] refuses a [tv_nsec] of 10^9. *)
Definition NSEC_PER_SEC : Z := 1000000000.

Record wall_clock {W} (h : handler W) (now : W -> Z) (latency : Z) : Prop := Wall_clock {
  wc_read : forall w, let '(tv, w') := h _ Gettimeofday w in
    tv = (now w / NSEC_PER_SEC, now w mod NSEC_PER_SEC / 1000) /\ now w <= now w' <= now w + latency;
  wc_print : forall f a w, let '(_, w') := h _ (Printf f a) w in now w <= now w' <= now w + latency;
  wc_sleep : forall ns w, 0 <= ns < NSEC_PER_SEC ->
    let '(r, w') := h _ (Nanosleep (Timespec 0 ns)) w in
    r = 0 /\ now w + ns <= now w' <= now w + ns + latency;
  wc_refused : forall ns w, NSEC_PER_SEC <= ns ->
    let '(r, w') := h _ (Nanosleep (Timespec 0 ns)) w in
    r = -1 /\ now w <= now w' <= now w + latency
}.

(** The calls with the instants they were made at, and the instants of the
    bursts. *)
Definition stamped {W} (now : W -> Z) (h : handler W) : handler (W * list (Z * ev)) :=
  fun X e wl => let '(x, w') := h X e wl.1 in (x, (w', wl.2 ++ [(now wl.1, Ev e x)])).

Definition burst (te : Z * ev) : option Z :=
  match te with (t, Ev (Spin_run _) _) => Some t | _ => None end.

Lemma run_stamped {W X} (now : W -> Z) (h : handler W) (e : sys X) w tr :
  run (stamped now h) (call e) (w, tr) = (Done (h X e w).1, ((h X e w).2, tr ++ [(now w, Ev e (h X e w).1)])).
Proof. cbn. unfold stamped. cbn. by destruct (h X e w). Qed.

(** Where the burst that follows a reading [tv] and the answer [r] of
    [nanosleep] starts: at the next multiple of the period from the second, up
    to the microsecond that the reading drops and the latency of the four
    calls in between; or, when the delay is a whole second, which the call
    refuses, at once. *)
Definition on_time (e : experiment) (latency : Z) (tv : Z * Z) (r start : Z) : Prop :=
  let at_ := (tv.1 * USEC_PER_SEC + tv.2 + (if r =? 0 then sync e tv.2 else 0)) * 1000 in
  0 < sync e tv.2 <= period e
  /\ (tv.2 + sync e tv.2) mod period e = 0
  /\ at_ <= start <= at_ + 999 + 4 * latency
  /\ (r = 0 \/ r = -1)
  /\ (r = -1 <-> freq e = 1 /\ tv.2 = 0).

(** The delay is a whole second only at one burst a second, on a clock that
    stands at a whole second. *)
Lemma whole_second e usec :
  1 <= freq e <= USEC_PER_SEC -> 0 <= usec < USEC_PER_SEC ->
  NSEC_PER_SEC <= sync e usec * 1000 <-> freq e = 1 /\ usec = 0.
Proof.
  intros Hf Hu. pose proof (sync_spec e usec Hf ltac:(lia)) as [Hs _].
  pose proof (period_pos e Hf) as Hp. unfold NSEC_PER_SEC, USEC_PER_SEC in *. split.
  - intros Hn. assert (period e = 1000000) as Hpe by lia.
    assert (freq e = 1) as Hf1.
    { revert Hpe. unfold period, cdiv, USEC_PER_SEC. rewrite Z.quot_div_nonneg by lia. intros Hpe.
      destruct (decide (freq e = 1)) as [|Hne]; [done|].
      assert (1000000 / freq e <= 1000000 / 2) by (apply Z.div_le_compat_l; lia).
      change (1000000 / 2) with 500000 in *. lia. }
    split; [done|]. unfold sync, crem in Hn. rewrite Hpe, Z.rem_small in Hn by lia. lia.
  - intros [H1 ->]. unfold sync, period, USEC_PER_SEC. by rewrite H1.
Qed.

Ltac timed_print H w2 :=
  rewrite run_bind, run_stamped;
  match goal with
  | Hclk : wall_clock ?h _ _ |- context [?h _ (Printf ?f ?a) ?w0] =>
      pose proof (wc_print _ _ _ Hclk f a w0) as H; destruct (h _ (Printf f a) w0) as [[] w2]
  end; cbn [and_then fst snd].

Section timed.
Context {W : Type} (h : handler W) (now : W -> Z) (latency : Z) (Hclk : wall_clock h now latency).

Lemma run_pulse_iter e i w tr :
  1 <= freq e <= USEC_PER_SEC ->
  exists w' tv r start S, run (stamped now h) (pulse_iter e i) (w, tr) = (Done tt, (w', tr ++ S))
    /\ map snd S = iter_trace e i tv r /\ omap burst S = [start] /\ on_time e latency tv r start.
Proof using Hclk.
  intros Hf. unfold pulse_iter. rewrite run_bind, run_stamped.
  pose proof (wc_read _ _ _ Hclk w) as Hr.
  destruct (h _ Gettimeofday w) as [[sec usec] w1]. destruct Hr as [[= -> ->] Ht1]. cbn [and_then fst snd].
  set (usec := now w mod NSEC_PER_SEC / 1000). set (sec := now w / NSEC_PER_SEC).
  assert (0 <= usec < USEC_PER_SEC /\ (sec * USEC_PER_SEC + usec) * 1000 <= now w
          <= (sec * USEC_PER_SEC + usec) * 1000 + 999) as [Hu Hnow].
  { unfold usec, sec, USEC_PER_SEC, NSEC_PER_SEC. pose proof (Z.mod_pos_bound (now w) 1000000000).
    pose proof (Z.div_mod (now w) 1000000000). pose proof (Z.div_mod (now w mod 1000000000) 1000).
    pose proof (Z.mod_pos_bound (now w mod 1000000000) 1000). lia. }
  pose proof (period_pos e Hf) as Hp.
  pose proof (sync_spec e usec Hf ltac:(lia)) as [Hs Hm].
  pose proof (whole_second e usec Hf Hu) as Hw.
  replace ((freq e =? 0) || (period e =? 0)) with false by lia.
  timed_print Ht2 w2. rewrite run_bind, run_stamped.
  match goal with |- context [h _ (Nanosleep ?ts) ?w0] =>
    pose proof (wc_sleep _ _ _ Hclk (tv_nsec ts) w0) as Ht3;
    pose proof (wc_refused _ _ _ Hclk (tv_nsec ts) w0) as Ht4; cbn [tv_nsec] in Ht3, Ht4;
    destruct (h _ (Nanosleep ts) w0) as [r w3]
  end. cbn [and_then fst snd].
  timed_print Ht5 w4. rewrite run_bind, run_stamped. cbn [and_then fst snd]. rewrite run_stamped.
  destruct (h _ (Spin_run (spin e)) w4) as [[] w5]. cbn [fst snd].
  destruct (h _ (Printf ("after_spin=%d" +:+ NL) [PInt i]) w5) as [[] w6]. cbn [fst snd].
  exists w6, (sec, usec), r, (now w4). eexists. rewrite <- !app_assoc. split; [reflexivity|].
  split; [reflexivity|]. split; [reflexivity|]. unfold on_time. cbn [fst snd].
  split; [done|]. split; [done|].
  destruct (decide (NSEC_PER_SEC <= sync e usec * 1000)) as [Hl|Hl].
  - destruct (Ht4 Hl) as [-> ?]. change (-1 =? 0) with false. cbv iota. split; [lia|]. tauto.
  - destruct (Ht3 ltac:(lia)) as [-> ?]. change (0 =? 0) with true. cbv iota. split; [lia|].
    split; [by left|]. rewrite <- Hw. lia.
Qed.

(** The whole run, in the order of the code. *)
Lemma run_pulse_turns e n i w tr :
  1 <= freq e <= USEC_PER_SEC ->
  exists w' l S, run (stamped now h) (for_ n i (fun i _ => pulse_iter e i) tt) (w, tr)
      = (Done tt, (w', tr ++ S))
    /\ length l = n /\ map snd S = iters_trace e i (map fst l) /\ omap burst S = map snd l
    /\ Forall (fun '((tv, r), start) => on_time e latency tv r start) l.
Proof using Hclk.
  intros Hf. revert i w tr. induction n as [|n IH]; intros i w tr.
  { exists w, [], []. split_and!; try done. cbn. by rewrite app_nil_r. }
  rewrite run_for_S. destruct (run_pulse_iter e i w tr Hf) as (w1 & tv & r & start & S1 & -> & Hm1 & Hb1 & Ho1).
  cbn [and_then]. destruct (IH (i + 1) w1 (tr ++ S1)) as (w2 & l & S2 & -> & Hl & Hm2 & Hb2 & Ho2).
  exists w2, ((tv, r, start) :: l), (S1 ++ S2). rewrite <- app_assoc. split_and!; try done.
  - cbn. by rewrite Hl.
  - rewrite map_app, Hm1, Hm2. reflexivity.
  - rewrite omap_app, Hb1, Hb2. reflexivity.
  - by constructor.
Qed.
End timed.

(** ** Theorems *)

(** (C12) The bursts are synchronised.  With a frequency of 1 Hz to 1 MHz, on a
    wall clock on which [nanosleep] sleeps for the delay it accepts and every
    other call takes at most [latency], the run takes [duration] (in whole
    seconds) times [freq] turns.  Each reads the clock once, sleeps once and
    runs the pool once for the requested time, in this order, and prints these
    values; the sleep is of at most a period, and the burst starts on the next
    multiple of the period, counted from the start of the second that was read:
    not before it, and at most four latencies and the fraction of a microsecond
    that [tv_usec] drops after it.
    The sleep is refused, and the burst starts at once, only at 1 Hz and
    when the clock is read at a whole second, where [tv_nsec] is 10^9.  The pool
    is created before and destroyed after, and the result is 0. *)
Theorem pulse_run_synchronised {W} (h : handler W) (now : W -> Z) (latency : Z) (e : experiment) (w : W)
    (Hclk : wall_clock h now latency)
    (Hf : 1 <= freq e <= USEC_PER_SEC) (Hd : 0 <= duration e <= LONG_MAX)
    (Hn : duration e / USEC_PER_SEC * freq e <= INT_MAX) :
  exists w' l S,
    run (stamped now h) (pulse_run e) (w, []) = (Done 0, (w', S))
    /\ map snd S = [Ev (Spin_init (nr_thread e)) tt] ++ iters_trace e 0 (map fst l) ++ [Ev Spin_exit tt]
    /\ Z.of_nat (length l) = duration e / USEC_PER_SEC * freq e
    /\ omap burst S = map snd l
    /\ Forall (fun '((tv, r), start) => on_time e latency tv r start) l.
Proof.
  assert (nr_iter e = duration e / USEC_PER_SEC * freq e /\ 0 <= nr_iter e) as [Hni Hni0].
  { unfold nr_iter, cdiv. rewrite Z.quot_div_nonneg by (unfold USEC_PER_SEC in *; lia).
    assert (0 <= duration e / USEC_PER_SEC) by (apply Z.div_pos; unfold USEC_PER_SEC in *; lia).
    rewrite s64_id, s32_id by (unfold USEC_PER_SEC in *; clia). nia. }
  unfold pulse_run. rewrite run_bind, run_stamped. cbn [and_then]. rewrite run_bind.
  destruct (h _ (Spin_init (nr_thread e)) w) as [[] w1]. cbn [fst snd].
  match goal with |- context [run _ (for_ ?n _ _ _) (_, ?tr)] =>
    destruct (run_pulse_turns h now latency Hclk e n 0 w1 tr Hf) as (w2 & l & S & -> & Hl & Hm & Hb & Ho)
  end. cbn [and_then]. rewrite run_bind, run_stamped. cbn [and_then]. rewrite run_ret.
  destruct (h _ Spin_exit w2) as [[] w3]. cbn [fst snd].
  exists w3, l. eexists. split; [reflexivity|]. rewrite !map_app, !omap_app, Hm, Hb. cbn.
  rewrite app_nil_r. split_and!; try done. lia.
Qed.

(** A clock of which only the sleep and the bursts take time. *)
Definition ticking : handler Z := fun X e t =>
  match e in sys X return X * Z with
  | Gettimeofday => ((t / NSEC_PER_SEC, t mod NSEC_PER_SEC / 1000), t)
  | Nanosleep ts => if tv_nsec ts <? NSEC_PER_SEC then (0, t + tv_nsec ts) else (-1, t)
  | Spin_run usec => (tt, t + usec * 1000)
  | e => (default_answer e, t)
  end.

Lemma ticking_clock : wall_clock ticking (fun t => t) 0.
Proof.
  split; intros; cbn [ticking tv_nsec]; try case_if; cbn; split_and!; (done || lia).
Qed.

Theorem pulse_run_synchronised_witness :
  let e := Experiment 2 100 0 4 2500000 0 (Pincpu [0] 1) in
  exists w' l S,
    run (stamped (fun t => t) ticking) (pulse_run e) (1300000000, []) = (Done 0, (w', S))
    /\ length l = 8%nat
    /\ omap burst S = map (fun k => 1500000000 + k * 250000000) [0; 1; 2; 3; 4; 5; 6; 7]
    /\ Forall (fun '((tv, r), start) => on_time e 0 tv r start) l.
Proof.
  intros e.
  destruct (pulse_run_synchronised ticking (fun t => t) 0 e 1300000000 ticking_clock)
    as (w' & l & S & Hrun & _ & Hl & _ & Ho); [vm_compute; intuition discriminate..|].
  exists w', l, S. split; [done|]. cbn [e duration freq] in Hl.
  change (2500000 / USEC_PER_SEC * 4) with 8 in Hl. split; [lia|]. split; [|done].
  assert (snd (snd (run (stamped (fun t => t) ticking) (pulse_run e) (1300000000, []))) = S) as <-
    by (by rewrite Hrun).
  vm_compute. reflexivity.
Defined.

(** ** The command line: theorem *)

Definition settings (e : experiment) : list (option_ * option string) :=
  [(Option_ "duration" true "d", Some (render (duration e)));
   (Option_ "thread" true "t", Some (render (nr_thread e)));
   (Option_ "frequency" true "f", Some (render (freq e)));
   (Option_ "spin" true "s", Some (render (spin e)));
   (Option_ "cpuset" true "c", Some (cpu_list (cpus (cpuset e))))].

(** (C13) The command line round trip: an experiment over a non-empty list of
    online CPUs, written as long options, is parsed back exactly. *)
Theorem pulse_parse_opts_roundtrip {W} (h : handler W) (online : Z) (w : W) (e : experiment)
    (Henv : cpu_env h online)
    (Hd : in_s64 (duration e)) (Ht : in_s32 (nr_thread e)) (Hf : in_s32 (freq e))
    (Hs : in_s32 (spin e)) (Hne : cpus (cpuset e) <> [])
    (Hc : Forall (fun c => 0 <= c < online) (cpus (cpuset e)))
    (Hlen : nrcpus (cpuset e) = Z.of_nat (length (cpus (cpuset e))))
    (Hmax : nrcpus (cpuset e) <= INT_MAX) (Hpin : pin e = 1) :
  (run h (parse_opts "" (words (settings e)) (Experiment 0 0 (verbose e) 0 0 0 (Pincpu [] 0))) w).1
  = Done e.
Proof.
  unfold parse_opts. rewrite getopt_long_words by reflexivity.
  destruct e as [t s v f d p [l n]].
  cbn [duration nr_thread freq spin cpuset cpus nrcpus verbose pin settings map found_of fst snd val] in *.
  subst n p. destruct (run_pincpu_parse_list h online w l Henv Hne Hc Hmax) as [w1 Hp].
  destruct (run_dump_cpuset h (Pincpu l (Z.of_nat (length l))) w1 eq_refl) as [w2 Hdump].
  unfold found_of, parse_opt. cbn [opt_loop opt with_arg optarg fst snd val]. step_run.
  cbn [set_spin set_freq set_nr_thread set_duration duration nr_thread freq spin cpuset verbose pin].
  unfold atol. rewrite strtol_render, !atoi_render by done. cbn [fst].
  rewrite Hp. step_run. change (0 <? 0) with false. step_run. rewrite Hdump. step_run.
  cbn [set_cpuset duration nr_thread freq spin cpuset verbose pin nrcpus].
  assert (Z.of_nat (length l) =? 0 = false) as -> by (apply Z.eqb_neq; destruct l; [done|cbn [length]; lia]).
  case_if; step_run; reflexivity.
Qed.

Theorem pulse_parse_opts_roundtrip_witness :
  (run (fun X (e : sys X) (w : unit) =>
    (match e in sys X return X with Nprocessors_onln => 8 | e => default_answer e end, w))
    (parse_opts "" (words (settings (Experiment 3 5000 0 10 7000000 1 (Pincpu [2; 5] 2))))
      (Experiment 0 0 0 0 0 0 (Pincpu [] 0))) tt).1
  = Done (Experiment 3 5000 0 10 7000000 1 (Pincpu [2; 5] 2)).
Proof.
  refine (pulse_parse_opts_roundtrip _ 8 tt (Experiment 3 5000 0 10 7000000 1 (Pincpu [2; 5] 2))
            default_cpu_env _ _ _ _ _ _ _ _ _); try reflexivity;
    try (vm_compute; intuition discriminate).
  repeat constructor; lia.
Defined.

(** At one burst a second, a clock that stands at a whole second makes the
    delay a full second: [tv_nsec] is then 10^9, which [nanosleep] refuses,
    and the burst starts at once instead of a second later. *)
Lemma pulse_second_boundary :
  let e := Experiment 2 100 0 1 2000000 0 (Pincpu [0] 1) in
  let S := (run (stamped (fun t => t) ticking) (pulse_run e) (5000000000, [])).2.2 in
  sync e 0 * 1000 = NSEC_PER_SEC /\ omap burst S = [5000000000; 6000000000].
Proof. vm_compute. split; reflexivity. Qed.
