(* ===== verification/Pipeline.v ===== *)
(** * src/pipeline.c

    Three threads connected by two bounded queues of four slots, each guarded
    by a pair of semaphores.  A step of a thread is one semaphore operation,
    one access to shared memory, or one local statement of the source. *)

From S2P Require Import Prelude CInt Sched.

Local Open Scope string_scope.
Local Open Scope list_scope.
Local Open Scope Z_scope.

Definition PIPELINE_DEPTH : Z := 3.
Definition QUEUE_LENGTH : Z := 4.
Definition MAX_ITEMS : Z := 10.

(** ** Data *)

Record queue := Queue {
  data : list Z;
  sem_free : nat;
  sem_busy : nat;
  ip : Z;
  ic : Z
}.

Definition set_data q d := Queue d (sem_free q) (sem_busy q) (ip q) (ic q).
Definition set_free q v := Queue (data q) v (sem_busy q) (ip q) (ic q).
Definition set_busy q v := Queue (data q) (sem_free q) v (ip q) (ic q).
Definition set_ip q v := Queue (data q) (sem_free q) (sem_busy q) v (ic q).
Definition set_ic q v := Queue (data q) (sem_free q) (sem_busy q) (ip q) v.

(** [data[i]] and [data[i] = c]; outside the array the machine is stuck. *)
Definition load q (i : Z) : option Z := if i <? 0 then None else data q !! Z.to_nat i.
Definition store q (i c : Z) : option queue :=
  if (0 <=? i) && (i <? Z.of_nat (length (data q)))
  then Some (set_data q (<[Z.to_nat i := c]> (data q))) else None.

(** [(i + 1) % QUEUE_LENGTH]. *)
Definition next_slot (i : Z) : Z := crem (i + 1) QUEUE_LENGTH.

(** ** Program points

    [..._new]: not created yet; [..._done]: returned. *)
Inductive pc1 :=
  | W1_new | W1_wait_free | W1_test | W1_store_end | W1_post_end
  | W1_action | W1_store | W1_advance | W1_post_busy | W1_next | W1_done.
Inductive pc2 :=
  | W2_new | W2_wait_busy | W2_wait_free | W2_load | W2_test | W2_store_end | W2_post_end
  | W2_action | W2_store | W2_advance_ic | W2_advance_ip | W2_post_free | W2_post_busy | W2_done.
Inductive pc3 :=
  | W3_new | W3_wait_busy | W3_load | W3_test | W3_action | W3_advance | W3_post_free | W3_done.
Inductive pcm :=
  | M_create (i : Z) | M_join (i : Z) | M_exit | M_returned.

#[export] Instance pc1_eq_dec : EqDecision pc1. Proof. solve_decision. Defined.
#[export] Instance pc2_eq_dec : EqDecision pc2. Proof. solve_decision. Defined.
#[export] Instance pc3_eq_dec : EqDecision pc3. Proof. solve_decision. Defined.
#[export] Instance pcm_eq_dec : EqDecision pcm. Proof. solve_decision. Defined.

(** [out] is what [do_action] printed: the character and the name. *)
Record state := State {
  q0 : queue; q1 : queue;
  w1 : pc1; c1 : Z; processed : Z;
  w2 : pc2; c2 : Z;
  w3 : pc3; c3 : Z;
  main : pcm;
  out : list (Z * string)
}.

Inductive tid := Main | Worker1 | Worker2 | Worker3.

(** ** do_action

    The line printed and the new character ([char] is signed). *)
Definition do_action (c : Z) (name : string) : (Z * string) * Z := ((c, name), s8 (c + 1)).

(** ** The threads *)

Definition worker_1 (s : state) : option state :=
  let go q pc c p o := Some (State q (q1 s) pc c p (w2 s) (c2 s) (w3 s) (c3 s) (main s) o) in
  let '(q, c, p, o) := (q0 s, c1 s, processed s, out s) in
  match w1 s with
  | W1_new | W1_done => None
  | W1_wait_free =>
      v ← sem_wait (sem_free q); go (set_free q v) W1_test c p o
  | W1_test => go q (if MAX_ITEMS <=? p then W1_store_end else W1_action) c p o
  | W1_store_end => q' ← store q (ip q) (-1); go q' W1_post_end c p o
  | W1_post_end => go (set_busy q (sem_post (sem_busy q))) W1_done c p o
  | W1_action =>
      let '(line, c') := do_action c "worker_1" in go q W1_store c' p (o ++ [line])
  | W1_store => q' ← store q (ip q) c; go q' W1_advance c p o
  | W1_advance => go (set_ip q (next_slot (ip q))) W1_post_busy c p o
  | W1_post_busy => go (set_busy q (sem_post (sem_busy q))) W1_next c p o
  | W1_next => go q W1_wait_free 0 (s32 (p + 1)) o
  end.

Definition worker_2 (s : state) : option state :=
  let go qa qb pc c o :=
    Some (State qa qb (w1 s) (c1 s) (processed s) pc c (w3 s) (c3 s) (main s) o) in
  let '(qa, qb, c, o) := (q0 s, q1 s, c2 s, out s) in
  match w2 s with
  | W2_new | W2_done => None
  | W2_wait_busy => v ← sem_wait (sem_busy qa); go (set_busy qa v) qb W2_wait_free c o
  | W2_wait_free => v ← sem_wait (sem_free qb); go qa (set_free qb v) W2_load c o
  | W2_load => c' ← load qa (ic qa); go qa qb W2_test c' o
  | W2_test => go qa qb (if c <? 0 then W2_store_end else W2_action) c o
  | W2_store_end => qb' ← store qb (ip qb) c; go qa qb' W2_post_end c o
  | W2_post_end => go qa (set_busy qb (sem_post (sem_busy qb))) W2_done c o
  | W2_action =>
      let '(line, c') := do_action c "worker_2" in go qa qb W2_store c' (o ++ [line])
  | W2_store => qb' ← store qb (ip qb) c; go qa qb' W2_advance_ic c o
  | W2_advance_ic => go (set_ic qa (next_slot (ic qa))) qb W2_advance_ip c o
  | W2_advance_ip => go qa (set_ip qb (next_slot (ip qb))) W2_post_free c o
  | W2_post_free => go (set_free qa (sem_post (sem_free qa))) qb W2_post_busy c o
  | W2_post_busy => go qa (set_busy qb (sem_post (sem_busy qb))) W2_wait_busy c o
  end.

Definition worker_3 (s : state) : option state :=
  let go q pc c o :=
    Some (State (q0 s) q (w1 s) (c1 s) (processed s) (w2 s) (c2 s) pc c (main s) o) in
  let '(q, c, o) := (q1 s, c3 s, out s) in
  match w3 s with
  | W3_new | W3_done => None
  | W3_wait_busy => v ← sem_wait (sem_busy q); go (set_busy q v) W3_load c o
  | W3_load => c' ← load q (ic q); go q W3_test c' o
  | W3_test => go q (if c <? 0 then W3_done else W3_action) c o
  | W3_action =>
      let '(line, c') := do_action c "worker_3" in go q W3_advance c' (o ++ [line])
  | W3_advance => go (set_ic q (next_slot (ic q))) W3_post_free c o
  | W3_post_free => go (set_free q (sem_post (sem_free q))) W3_wait_busy c o
  end.

(** [main]: create the three threads, join them in order, print, return. *)
Definition main_thread (s : state) : option state :=
  let go a b c m :=
    Some (State (q0 s) (q1 s) a (c1 s) (processed s) b (c2 s) c (c3 s) m (out s)) in
  let stay m := go (w1 s) (w2 s) (w3 s) m in
  match main s with
  | M_create i =>
      if i =? 0 then go W1_wait_free (w2 s) (w3 s) (M_create 1)
      else if i =? 1 then go (w1 s) W2_wait_busy (w3 s) (M_create 2)
      else go (w1 s) (w2 s) W3_wait_busy (M_join 0)
  | M_join i =>
      if i =? 0 then if decide (w1 s = W1_done) then stay (M_join 1) else None
      else if i =? 1 then if decide (w2 s = W2_done) then stay (M_join 2) else None
      else if decide (w3 s = W3_done) then stay M_exit else None
  | M_exit => stay M_returned
  | M_returned => None
  end.

(** [memset] to zero, [sem_init(&sem_free, 0, QUEUE_LENGTH)],
    [sem_init(&sem_busy, 0, 0)]. *)
Definition queue_init : queue :=
  Queue (replicate (Z.to_nat QUEUE_LENGTH) 0) (Z.to_nat QUEUE_LENGTH) 0 0 0.

Definition init : state :=
  State queue_init queue_init W1_new 0 0 W2_new 0 W3_new 0 (M_create 0) [].

#[export] Instance pipeline : System state tid := {
  exec t s :=
    match t with
    | Main => main_thread s
    | Worker1 => worker_1 s
    | Worker2 => worker_2 s
    | Worker3 => worker_3 s
    end;
  initial s := s = init
}.

(** ** Progress of each thread inside an iteration

    Each function is 1 from the point where the thread has done the named
    action of its current iteration on, and 0 before. *)

Definition w1_waited (p : pc1) : Z :=
  match p with W1_new | W1_wait_free => 0 | _ => 1 end.
Definition w1_stored (p : pc1) : Z :=
  match p with W1_advance | W1_post_busy | W1_next | W1_post_end | W1_done => 1 | _ => 0 end.
Definition w1_advanced (p : pc1) : Z :=
  match p with W1_post_busy | W1_next => 1 | _ => 0 end.
Definition w1_posted (p : pc1) : Z :=
  match p with W1_next | W1_done => 1 | _ => 0 end.
Definition w1_acted (p : pc1) : Z :=
  match p with W1_store | W1_advance | W1_post_busy | W1_next => 1 | _ => 0 end.
Definition w1_ending (p : pc1) : bool :=
  match p with W1_store_end | W1_post_end | W1_done => true | _ => false end.
Definition w1_working (p : pc1) : bool :=
  match p with
  | W1_action | W1_store | W1_advance | W1_post_busy | W1_next => true | _ => false end.

Definition w2_taken (p : pc2) : Z :=
  match p with W2_new | W2_wait_busy => 0 | _ => 1 end.
Definition w2_reserved (p : pc2) : Z :=
  match p with W2_new | W2_wait_busy | W2_wait_free => 0 | _ => 1 end.
Definition w2_loaded (p : pc2) : Z :=
  match p with W2_new | W2_wait_busy | W2_wait_free | W2_load => 0 | _ => 1 end.
Definition w2_acted (p : pc2) : Z :=
  match p with
  | W2_store | W2_advance_ic | W2_advance_ip | W2_post_free | W2_post_busy => 1 | _ => 0 end.
Definition w2_stored (p : pc2) : Z :=
  match p with
  | W2_advance_ic | W2_advance_ip | W2_post_free | W2_post_busy | W2_post_end | W2_done => 1
  | _ => 0 end.
Definition w2_advanced_ic (p : pc2) : Z :=
  match p with W2_advance_ip | W2_post_free | W2_post_busy => 1 | _ => 0 end.
Definition w2_advanced_ip (p : pc2) : Z :=
  match p with W2_post_free | W2_post_busy => 1 | _ => 0 end.
Definition w2_freed (p : pc2) : Z := match p with W2_post_busy => 1 | _ => 0 end.
Definition w2_posted (p : pc2) : Z := match p with W2_done => 1 | _ => 0 end.
Definition w2_ending (p : pc2) : bool :=
  match p with W2_store_end | W2_post_end | W2_done => true | _ => false end.
Definition w2_working (p : pc2) : bool :=
  match p with
  | W2_action | W2_store | W2_advance_ic | W2_advance_ip | W2_post_free | W2_post_busy => true
  | _ => false end.

Definition w3_taken (p : pc3) : Z :=
  match p with W3_new | W3_wait_busy => 0 | _ => 1 end.
Definition w3_loaded (p : pc3) : Z :=
  match p with W3_new | W3_wait_busy | W3_load => 0 | _ => 1 end.
Definition w3_acted (p : pc3) : Z :=
  match p with W3_advance | W3_post_free => 1 | _ => 0 end.
Definition w3_advanced (p : pc3) : Z := match p with W3_post_free => 1 | _ => 0 end.
Definition w3_working (p : pc3) : bool :=
  match p with W3_action | W3_advance | W3_post_free => true | _ => false end.

(** What the [j]th entry of each queue holds: an item, or the end mark. *)
Definition entry (v j : Z) : Z := if j <? MAX_ITEMS then v else -1.

(** The slots of the entries [lo <= j < hi] hold them. *)
Definition holds (d : list Z) (v lo hi : Z) : Prop :=
  length d = Z.to_nat QUEUE_LENGTH
  /\ forall j, lo <= j < hi -> d !! Z.to_nat (j mod QUEUE_LENGTH) = Some (entry v j).

(** The lines a worker has printed. *)
Definition lines_of (name : string) (o : list (Z * string)) : list Z :=
  omap (fun '(c, n) => if String.eqb n name then Some c else None) o.

Definition started (m : pcm) (i : Z) : Prop :=
  match m with M_create j => if i <? j then True else False | _ => True end.
Definition joined (m : pcm) (i : Z) : Prop :=
  match m with M_create _ => False | M_join j => if i <? j then True else False | _ => True end.

(** The invariant, for [k1], [k2], [k3] complete iterations of the workers. *)
Record inv (k1 k2 k3 : Z) (s : state) : Prop := Inv {
  inv_processed : processed s = k1 /\ 0 <= k1 <= MAX_ITEMS;
  inv_k2 : 0 <= k2 <= MAX_ITEMS;
  inv_k3 : 0 <= k3 <= MAX_ITEMS;
  inv_free0 : Z.of_nat (sem_free (q0 s)) + (k1 + w1_waited (w1 s)) = QUEUE_LENGTH + (k2 + w2_freed (w2 s));
  inv_busy0 : Z.of_nat (sem_busy (q0 s)) + (k2 + w2_taken (w2 s)) = k1 + w1_posted (w1 s);
  inv_free1 : Z.of_nat (sem_free (q1 s)) + (k2 + w2_reserved (w2 s)) = QUEUE_LENGTH + k3;
  inv_busy1 : Z.of_nat (sem_busy (q1 s)) + (k3 + w3_taken (w3 s)) = k2 + w2_posted (w2 s);
  inv_ip0 : ip (q0 s) = (k1 + w1_advanced (w1 s)) mod QUEUE_LENGTH;
  inv_ic0 : ic (q0 s) = (k2 + w2_advanced_ic (w2 s)) mod QUEUE_LENGTH;
  inv_ip1 : ip (q1 s) = (k2 + w2_advanced_ip (w2 s)) mod QUEUE_LENGTH;
  inv_ic1 : ic (q1 s) = (k3 + w3_advanced (w3 s)) mod QUEUE_LENGTH;
  inv_data0 : holds (data (q0 s)) 1 (k2 + w2_loaded (w2 s)) (k1 + w1_stored (w1 s));
  inv_data1 : holds (data (q1 s)) 2 (k3 + w3_loaded (w3 s)) (k2 + w2_stored (w2 s));
  inv_w1 : (w1_ending (w1 s) = true -> k1 = MAX_ITEMS) /\ (w1_working (w1 s) = true -> k1 < MAX_ITEMS)
           /\ (w1 s = W1_new -> k1 = 0);
  inv_w2 : (w2_ending (w2 s) = true -> k2 = MAX_ITEMS) /\ (w2_working (w2 s) = true -> k2 < MAX_ITEMS)
           /\ (w2 s = W2_new -> k2 = 0);
  inv_w3 : (w3 s = W3_done -> k3 = MAX_ITEMS) /\ (w3_working (w3 s) = true -> k3 < MAX_ITEMS)
           /\ (w3 s = W3_new -> k3 = 0);
  inv_c1 : c1 s = w1_acted (w1 s);
  inv_c2 : (w2 s = W2_test \/ w2 s = W2_store_end -> c2 s = entry 1 k2)
           /\ (w2 s = W2_action -> c2 s = 1) /\ (w2_acted (w2 s) = 1 -> c2 s = 2);
  inv_c3 : (w3 s = W3_test -> c3 s = entry 2 k3) /\ (w3 s = W3_action -> c3 s = 2);
  inv_out1 : lines_of "worker_1" (out s) = replicate (Z.to_nat (k1 + w1_acted (w1 s))) 0;
  inv_out2 : lines_of "worker_2" (out s) = replicate (Z.to_nat (k2 + w2_acted (w2 s))) 1;
  inv_out3 : lines_of "worker_3" (out s) = replicate (Z.to_nat (k3 + w3_acted (w3 s))) 2;
  inv_main : (w1 s <> W1_new <-> started (main s) 0) /\ (w2 s <> W2_new <-> started (main s) 1)
             /\ (w3 s <> W3_new <-> started (main s) 2)
             /\ (joined (main s) 0 -> w1 s = W1_done) /\ (joined (main s) 1 -> w2 s = W2_done)
             /\ (joined (main s) 2 -> w3 s = W3_done);
  inv_main_range : match main s with M_create i | M_join i => 0 <= i <= 2 | _ => True end
}.

(** ** Lemmas *)

Lemma next_slot_mod k : 0 <= k -> next_slot (k mod QUEUE_LENGTH) = (k + 1) mod QUEUE_LENGTH.
Proof.
  intros H. unfold next_slot, crem, QUEUE_LENGTH. pose proof (Z.mod_pos_bound k 4 ltac:(lia)).
  rewrite Z.rem_mod_nonneg by lia. by rewrite Zplus_mod_idemp_l.
Qed.

Lemma holds_weaken d v lo hi lo' hi' :
  holds d v lo hi -> lo <= lo' -> hi' <= hi -> holds d v lo' hi'.
Proof. intros [Hl H] H1 H2. split; [done|]. intros j Hj. apply H. lia. Qed.

Lemma holds_load q v lo hi :
  holds (data q) v lo hi -> lo < hi -> 0 <= lo -> load q (lo mod QUEUE_LENGTH) = Some (entry v lo).
Proof.
  intros [_ H] H1 H0. unfold load. pose proof (Z.mod_pos_bound lo QUEUE_LENGTH ltac:(done)).
  replace (_ <? 0) with false by lia. apply H. lia.
Qed.

Lemma mod_ne_window j k : j < k < j + QUEUE_LENGTH -> j mod QUEUE_LENGTH <> k mod QUEUE_LENGTH.
Proof.
  unfold QUEUE_LENGTH. intros H E.
  pose proof (Z_div_mod_eq_full j 4). pose proof (Z_div_mod_eq_full k 4). lia.
Qed.

(** Storing the next entry in the slot the producer points to. *)
Lemma holds_store q v lo hi c :
  holds (data q) v lo hi -> 0 <= lo -> 0 <= hi -> hi < lo + QUEUE_LENGTH -> c = entry v hi ->
  exists d, store q (hi mod QUEUE_LENGTH) c = Some (set_data q d) /\ holds d v lo (hi + 1).
Proof.
  intros [Hl H] H0 Hhi Hw ->. unfold store.
  pose proof (Z.mod_pos_bound hi QUEUE_LENGTH ltac:(done)).
  replace (_ && _) with true.
  2:{ symmetry. rewrite andb_true_iff, Z.leb_le, Z.ltb_lt, Hl. unfold QUEUE_LENGTH in *. lia. }
  eexists. split; [reflexivity|]. split; [by rewrite length_insert|].
  intros j Hj. destruct (decide (j = hi)) as [->|].
  - apply list_lookup_insert_eq. rewrite Hl. unfold QUEUE_LENGTH in *. lia.
  - rewrite list_lookup_insert_ne; [apply H; lia|].
    pose proof (mod_ne_window j hi ltac:(lia)).
    pose proof (Z.mod_pos_bound j QUEUE_LENGTH ltac:(done)). lia.
Qed.

Lemma lines_of_snoc name o c n :
  lines_of name (o ++ [(c, n)]) = lines_of name o ++ (if String.eqb n name then [c] else []).
Proof. unfold lines_of. rewrite omap_app. cbn. by destruct (String.eqb n name). Qed.

Lemma replicate_snoc {A} n (x : A) : replicate n x ++ [x] = replicate (S n) x.
Proof. by rewrite <- replicate_cons_app. Qed.

(** ** Steps left

    At most how many steps each thread still has to make. *)

Definition w1_left (p : pc1) : Z :=
  match p with
  | W1_new => 5 | W1_wait_free => 4 | W1_test => 3 | W1_store_end => 2 | W1_post_end => 1
  | W1_done => 0 | W1_action => 2 | W1_store => 1 | W1_advance => 0 | W1_post_busy => -1
  | W1_next => -2 end.
Definition w2_left (p : pc2) : Z :=
  match p with
  | W2_new => 7 | W2_wait_busy => 6 | W2_wait_free => 5 | W2_load => 4 | W2_test => 3
  | W2_store_end => 2 | W2_post_end => 1 | W2_done => 0 | W2_action => 2 | W2_store => 1
  | W2_advance_ic => 0 | W2_advance_ip => -1 | W2_post_free => -2 | W2_post_busy => -3 end.
Definition w3_left (p : pc3) : Z :=
  match p with
  | W3_new => 4 | W3_wait_busy => 3 | W3_load => 2 | W3_test => 1 | W3_done => 0
  | W3_action => 0 | W3_advance => -1 | W3_post_free => -2 end.
Definition main_left (m : pcm) : Z :=
  match m with M_create i => 7 - i | M_join i => 4 - i | M_exit => 1 | M_returned => 0 end.

Definition remaining (k1 k2 k3 : Z) (s : state) : Z :=
  7 * (MAX_ITEMS - k1) + w1_left (w1 s) + (10 * (MAX_ITEMS - k2) + w2_left (w2 s))
  + (6 * (MAX_ITEMS - k3) + w3_left (w3 s)) + main_left (main s).

(** The order of the actions inside an iteration. *)
Lemma w1_order p :
  0 <= w1_advanced p <= w1_stored p /\ w1_stored p <= w1_waited p <= 1
  /\ 0 <= w1_posted p <= w1_stored p /\ 0 <= w1_acted p <= 1.
Proof. destruct p; cbn; lia. Qed.

Lemma w2_order p :
  0 <= w2_freed p <= w2_advanced_ip p /\ w2_advanced_ip p <= w2_advanced_ic p
  /\ w2_advanced_ic p <= w2_stored p /\ w2_stored p <= w2_loaded p
  /\ w2_loaded p <= w2_reserved p /\ w2_reserved p <= w2_taken p <= 1
  /\ 0 <= w2_posted p <= w2_stored p /\ 0 <= w2_acted p <= w2_loaded p.
Proof. destruct p; cbn; lia. Qed.

Lemma w3_order p :
  0 <= w3_advanced p <= w3_acted p /\ w3_acted p <= w3_loaded p /\ w3_loaded p <= w3_taken p <= 1.
Proof. destruct p; cbn; lia. Qed.

Ltac unfold_progress :=
  cbn [w1_waited w1_stored w1_advanced w1_posted w1_acted w1_ending w1_working
       w2_taken w2_reserved w2_loaded w2_acted w2_stored w2_advanced_ic w2_advanced_ip
       w2_freed w2_posted w2_ending w2_working
       w3_taken w3_loaded w3_acted w3_advanced w3_working
       q0 q1 w1 c1 processed w2 c2 w3 c3 main out
       set_data set_free set_busy set_ip set_ic data sem_free sem_busy ip ic
       started joined] in *;
  unfold sem_post in *; rewrite ?Z.add_0_r in *.

Lemma lines_of_more name o c k :
  lines_of name o = replicate (Z.to_nat k) c -> 0 <= k ->
  lines_of name (o ++ [(c, name)]) = replicate (Z.to_nat (k + 1)) c.
Proof.
  intros H Hk. rewrite lines_of_snoc, H, String.eqb_refl, replicate_snoc. f_equal. lia.
Qed.

(** Close one field of the invariant of the next state. *)
Ltac pipe_field :=
  unfold_progress;
  first
    [ assumption
    | lia
    | eapply holds_weaken; [eassumption|lia|lia]
    | match goal with
      | E : ?i = _ mod QUEUE_LENGTH |- next_slot ?i = _ =>
          rewrite E, next_slot_mod by lia; f_equal; lia
      end
    | rewrite lines_of_snoc; cbn; rewrite app_nil_r; assumption
    | apply lines_of_more; [assumption|lia]
    | cbn; intuition (first [discriminate|congruence|lia])
    | idtac ].

(** Open the invariant of a state given by its fields. *)
Ltac pipe_open I s :=
  pose proof I as [];
  destruct s as [qa qb p1 x1 n p2 x2 p3 x3 m o];
  unfold_progress;
  pose proof (w1_order p1); pose proof (w2_order p2); pose proof (w3_order p3).

(** The next state, after the result of the step has been computed. *)
Ltac pipe_next H :=
  injection H as <-; split; [constructor; pipe_field|unfold remaining; cbn; lia].

Lemma entry_cases v k :
  (k < MAX_ITEMS /\ entry v k = v /\ (entry v k <? 0) = (v <? 0))
  \/ (MAX_ITEMS <= k /\ entry v k = -1 /\ (entry v k <? 0) = true).
Proof. unfold entry. case_if; [left|right]; done. Qed.

Lemma inv_worker_1 k1 k2 k3 s s' :
  inv k1 k2 k3 s -> worker_1 s = Some s' ->
  exists k1', inv k1' k2 k3 s' /\ remaining k1' k2 k3 s' < remaining k1 k2 k3 s.
Proof.
  intros I H. unfold worker_1 in H. pipe_open I s.
  destruct p1; unfold_progress; try discriminate.
  - destruct (sem_wait (sem_free qa)) as [v|] eqn:E; [|done]. apply sem_wait_Some in E.
    exists k1. pipe_next H.
  - exists k1. destruct (MAX_ITEMS <=? n) eqn:E; bool_to_prop; pipe_next H.
  - destruct (holds_store qa 1 (k2 + w2_loaded p2) k1 (-1)) as (d & Hd & Hh);
      [pipe_field..| |].
    { unfold entry. case_if; [|done]. pipe_field. }
    rewrite inv_ip2, Hd in H. exists k1. pipe_next H.
  - exists k1. pipe_next H.
  - exists k1. subst x1. pipe_next H.
  - destruct (holds_store qa 1 (k2 + w2_loaded p2) k1 x1) as (d & Hd & Hh);
      [pipe_field..| |].
    { unfold entry. case_if; [|pipe_field]. pipe_field. }
    rewrite inv_ip2, Hd in H. exists k1. pipe_next H.
  - exists k1. pipe_next H.
  - exists k1. pipe_next H.
  - exists (k1 + 1). rewrite s32_id in H by (unfold MAX_ITEMS in *; clia). pipe_next H.
Qed.

Lemma inv_worker_2 k1 k2 k3 s s' :
  inv k1 k2 k3 s -> worker_2 s = Some s' ->
  exists k2', inv k1 k2' k3 s' /\ remaining k1 k2' k3 s' < remaining k1 k2 k3 s.
Proof.
  intros I H. unfold worker_2 in H. pipe_open I s.
  destruct p2; unfold_progress; try discriminate.
  - destruct (sem_wait (sem_busy qa)) as [v|] eqn:E; [|done]. apply sem_wait_Some in E.
    exists k2. pipe_next H.
  - destruct (sem_wait (sem_free qb)) as [v|] eqn:E; [|done]. apply sem_wait_Some in E.
    exists k2. pipe_next H.
  - rewrite inv_ic2 in H. erewrite holds_load in H by (eassumption || lia).
    exists k2. pipe_next H.
  - assert (x2 = entry 1 k2) as Hx by (apply inv_c5; auto). exists k2.
    destruct (entry_cases 1 k2) as [(Hk & He & Hb)|(Hk & He & Hb)]; rewrite <- Hx in *;
      rewrite Hb in H; pipe_next H.
  - destruct inv_w5 as (He & _ & _). specialize (He eq_refl).
    destruct (holds_store qb 2 (k3 + w3_loaded p3) k2 x2) as (d & Hd & Hh); [pipe_field..| |].
    { destruct inv_c5 as (Hc & _ & _). rewrite Hc by auto. unfold entry. by case_if; [lia|]. }
    rewrite inv_ip3, Hd in H. exists k2. pipe_next H.
  - exists k2. pipe_next H.
  - destruct inv_c5 as (_ & Hc & _). specialize (Hc eq_refl). subst x2. exists k2. pipe_next H.
  - destruct inv_w5 as (_ & Hw & _). specialize (Hw eq_refl).
    destruct (holds_store qb 2 (k3 + w3_loaded p3) k2 x2) as (d & Hd & Hh); [pipe_field..| |].
    { destruct inv_c5 as (_ & _ & Hc). rewrite Hc by auto. unfold entry. by case_if; [|lia]. }
    rewrite inv_ip3, Hd in H. exists k2. pipe_next H.
  - exists k2. pipe_next H.
  - exists k2. pipe_next H.
  - exists k2. pipe_next H.
  - exists (k2 + 1). pipe_next H.
Qed.

Lemma inv_worker_3 k1 k2 k3 s s' :
  inv k1 k2 k3 s -> worker_3 s = Some s' ->
  exists k3', inv k1 k2 k3' s' /\ remaining k1 k2 k3' s' < remaining k1 k2 k3 s.
Proof.
  intros I H. unfold worker_3 in H. pipe_open I s.
  destruct p3; unfold_progress; try discriminate.
  - destruct (sem_wait (sem_busy qb)) as [v|] eqn:E; [|done]. apply sem_wait_Some in E.
    exists k3. pipe_next H.
  - rewrite inv_ic3 in H. erewrite holds_load in H by (eassumption || lia).
    exists k3. pipe_next H.
  - assert (x3 = entry 2 k3) as Hx by (apply inv_c6; auto). exists k3.
    destruct (entry_cases 2 k3) as [(Hk & He & Hb)|(Hk & He & Hb)]; rewrite <- Hx in *;
      rewrite Hb in H; pipe_next H.
  - destruct inv_c6 as (_ & Hc). specialize (Hc eq_refl). subst x3. exists k3. pipe_next H.
  - exists k3. pipe_next H.
  - exists (k3 + 1). pipe_next H.
Qed.

Lemma inv_main_thread k1 k2 k3 s s' :
  inv k1 k2 k3 s -> main_thread s = Some s' ->
  inv k1 k2 k3 s' /\ remaining k1 k2 k3 s' < remaining k1 k2 k3 s.
Proof.
  intros I H. unfold main_thread in H. pipe_open I s.
  destruct m as [i|i| |]; try discriminate.
  - assert (i = 0 \/ i = 1 \/ i = 2) as [->|[->| ->]] by lia; cbn in H, inv_main0.
    + assert (p1 = W1_new) as -> by (destruct (decide (p1 = W1_new)); intuition).
      pipe_next H.
    + assert (p2 = W2_new) as -> by (destruct (decide (p2 = W2_new)); intuition).
      pipe_next H.
    + assert (p3 = W3_new) as -> by (destruct (decide (p3 = W3_new)); intuition).
      pipe_next H.
  - assert (i = 0 \/ i = 1 \/ i = 2) as [->|[->| ->]] by lia; cbn in H, inv_main0;
      case_decide; try done; pipe_next H.
  - pipe_next H.
Qed.

Lemma inv_init : inv 0 0 0 init.
Proof.
  constructor; try (vm_compute; intuition (congruence || lia)).
  all: split; [done|cbn; intros; lia].
Qed.

Definition invariant (s : state) : Prop := exists k1 k2 k3, inv k1 k2 k3 s.

Lemma invariant_step t s s' k1 k2 k3 :
  inv k1 k2 k3 s -> exec t s = Some s' ->
  exists k1' k2' k3', inv k1' k2' k3' s' /\ remaining k1' k2' k3' s' < remaining k1 k2 k3 s.
Proof.
  intros I H. destruct t; cbn in H.
  - exists k1, k2, k3. by apply inv_main_thread.
  - destruct (inv_worker_1 _ _ _ _ _ I H) as [k Hk]. by exists k, k2, k3.
  - destruct (inv_worker_2 _ _ _ _ _ I H) as [k Hk]. by exists k1, k, k3.
  - destruct (inv_worker_3 _ _ _ _ _ I H) as [k Hk]. by exists k1, k2, k.
Qed.

Lemma invariant_exec t s s' : invariant s -> exec t s = Some s' -> invariant s'.
Proof.
  intros (k1 & k2 & k3 & I) H.
  destruct (invariant_step _ _ _ _ _ _ I H) as (a & b & c & I' & _). by exists a, b, c.
Qed.

Lemma reachable_inv s : reachable s -> invariant s.
Proof.
  apply (invariant_reachable invariant).
  - intros ? ->. exists 0, 0, 0. apply inv_init.
  - apply invariant_exec.
Qed.

(** The lines printed by a worker. *)
Definition printed (name : string) (s : state) : Z := Z.of_nat (length (lines_of name (out s))).

(** The steps left, at most. *)
Definition steps_left (s : state) : nat :=
  Z.to_nat (7 * (MAX_ITEMS - processed s) + w1_left (w1 s)
    + (10 * (MAX_ITEMS - (printed "worker_2" s - w2_acted (w2 s))) + w2_left (w2 s))
    + (6 * (MAX_ITEMS - (printed "worker_3" s - w3_acted (w3 s))) + w3_left (w3 s))
    + main_left (main s)).

Lemma remaining_nonneg k1 k2 k3 s : inv k1 k2 k3 s -> 0 <= remaining k1 k2 k3 s.
Proof.
  intros I. pose proof I as []. unfold remaining.
  assert (0 <= 7 * (MAX_ITEMS - k1) + w1_left (w1 s)).
  { destruct inv_w4 as (_ & Hw & _). destruct (w1 s); cbn in *; try specialize (Hw eq_refl); lia. }
  assert (0 <= 10 * (MAX_ITEMS - k2) + w2_left (w2 s)).
  { destruct inv_w5 as (_ & Hw & _). destruct (w2 s); cbn in *; try specialize (Hw eq_refl); lia. }
  assert (0 <= 6 * (MAX_ITEMS - k3) + w3_left (w3 s)).
  { destruct inv_w6 as (_ & Hw & _). destruct (w3 s); cbn in *; try specialize (Hw eq_refl); lia. }
  assert (0 <= main_left (main s)) by (destruct (main s); cbn in *; lia).
  lia.
Qed.

Lemma printed_2 k1 k2 k3 s : inv k1 k2 k3 s -> printed "worker_2" s = k2 + w2_acted (w2 s).
Proof.
  intros []. pose proof (w2_order (w2 s)).
  unfold printed. rewrite inv_out5, length_replicate, Z2Nat.id by lia. done.
Qed.

Lemma printed_3 k1 k2 k3 s : inv k1 k2 k3 s -> printed "worker_3" s = k3 + w3_acted (w3 s).
Proof.
  intros []. pose proof (w3_order (w3 s)).
  unfold printed. rewrite inv_out6, length_replicate, Z2Nat.id by lia. done.
Qed.

Lemma printed_1 k1 k2 k3 s : inv k1 k2 k3 s -> printed "worker_1" s = k1 + w1_acted (w1 s).
Proof.
  intros []. pose proof (w1_order (w1 s)).
  unfold printed. rewrite inv_out4, length_replicate, Z2Nat.id by lia. done.
Qed.

Lemma steps_left_inv k1 k2 k3 s :
  inv k1 k2 k3 s -> steps_left s = Z.to_nat (remaining k1 k2 k3 s).
Proof.
  intros I. unfold steps_left, remaining. rewrite (printed_2 _ _ _ _ I), (printed_3 _ _ _ _ I).
  destruct (inv_processed _ _ _ _ I) as [-> _]. f_equal. lia.
Qed.

Lemma steps_left_decrease t s s' :
  invariant s -> exec t s = Some s' -> (steps_left s' < steps_left s)%nat.
Proof.
  intros (k1 & k2 & k3 & I) H.
  destruct (invariant_step _ _ _ _ _ _ I H) as (a & b & c & I' & Hlt).
  rewrite (steps_left_inv _ _ _ _ I), (steps_left_inv _ _ _ _ I').
  pose proof (remaining_nonneg _ _ _ _ I'). lia.
Qed.

(** ** Progress *)

Lemma sem_wait_pos v : (0 < v)%nat -> exists v', sem_wait v = Some v'.
Proof. destruct v; [lia|]. eauto. Qed.

(** A store through the producer's index stays inside the array. *)
Lemma store_in_range q v lo hi k c :
  holds (data q) v lo hi -> exists q', store q (k mod QUEUE_LENGTH) c = Some q'.
Proof.
  intros [Hl _]. unfold store. pose proof (Z.mod_pos_bound k QUEUE_LENGTH ltac:(done)).
  replace (_ && _) with true; [eauto|].
  symmetry. rewrite andb_true_iff, Z.leb_le, Z.ltb_lt, Hl. unfold QUEUE_LENGTH in *. lia.
Qed.

(** A created, unfinished worker is blocked only by an empty semaphore. *)
Lemma worker_1_moves k1 k2 k3 s :
  inv k1 k2 k3 s -> w1 s <> W1_new -> w1 s <> W1_done ->
  (w1 s = W1_wait_free -> (0 < sem_free (q0 s))%nat) -> exists s', worker_1 s = Some s'.
Proof.
  intros [] Hn Hd Hw. unfold worker_1.
  destruct (w1 s) eqn:E; try done; try (eexists; reflexivity).
  - destruct (sem_wait_pos _ (Hw eq_refl)) as [v ->]. eexists; reflexivity.
  - rewrite inv_ip2. destruct (store_in_range _ _ _ _ (k1 + w1_advanced W1_store_end) (-1) inv_data2)
      as [q' ->]. eexists; reflexivity.
  - rewrite inv_ip2. destruct (store_in_range _ _ _ _ (k1 + w1_advanced W1_store) (c1 s) inv_data2)
      as [q' ->]. eexists; reflexivity.
Qed.

Lemma worker_2_moves k1 k2 k3 s :
  inv k1 k2 k3 s -> w2 s <> W2_new -> w2 s <> W2_done ->
  (w2 s = W2_wait_busy -> (0 < sem_busy (q0 s))%nat) ->
  (w2 s = W2_wait_free -> (0 < sem_free (q1 s))%nat) -> exists s', worker_2 s = Some s'.
Proof.
  intros [] Hn Hd Hw Hw'. unfold worker_2.
  destruct (w2 s) eqn:E; try done; try (eexists; reflexivity).
  - destruct (sem_wait_pos _ (Hw eq_refl)) as [v ->]. eexists; reflexivity.
  - destruct (sem_wait_pos _ (Hw' eq_refl)) as [v ->]. eexists; reflexivity.
  - rewrite inv_ic2. cbn [w2_advanced_ic w2_loaded w2_taken] in *. rewrite Z.add_0_r in *.
    pose proof (w1_order (w1 s)).
    erewrite holds_load by (eassumption || lia). eexists; reflexivity.
  - rewrite inv_ip3.
    destruct (store_in_range _ _ _ _ (k2 + w2_advanced_ip W2_store_end) (c2 s) inv_data3)
      as [q' ->]. eexists; reflexivity.
  - rewrite inv_ip3.
    destruct (store_in_range _ _ _ _ (k2 + w2_advanced_ip W2_store) (c2 s) inv_data3)
      as [q' ->]. eexists; reflexivity.
Qed.

Lemma worker_3_moves k1 k2 k3 s :
  inv k1 k2 k3 s -> w3 s <> W3_new -> w3 s <> W3_done ->
  (w3 s = W3_wait_busy -> (0 < sem_busy (q1 s))%nat) -> exists s', worker_3 s = Some s'.
Proof.
  intros [] Hn Hd Hw. unfold worker_3.
  destruct (w3 s) eqn:E; try done; try (eexists; reflexivity).
  - destruct (sem_wait_pos _ (Hw eq_refl)) as [v ->]. eexists; reflexivity.
  - rewrite inv_ic3. cbn [w3_advanced w3_loaded w3_taken] in *. rewrite Z.add_0_r in *.
    pose proof (w2_order (w2 s)).
    erewrite holds_load by (eassumption || lia). eexists; reflexivity.
Qed.

(** Once the second worker is not starved, it or the third one moves. *)
Lemma tail_moves k1 k2 k3 s :
  inv k1 k2 k3 s -> w2 s <> W2_new -> w3 s <> W3_new -> w2 s <> W2_done ->
  (w2 s = W2_wait_busy -> (0 < sem_busy (q0 s))%nat) ->
  exists t s', exec t s = Some s'.
Proof.
  intros I N2 N3 D2 Hb. pose proof I as [].
  destruct (decide (w2 s = W2_wait_free /\ sem_free (q1 s) = O)) as [[E2 Z2]|E2].
  - exists Worker3. apply (worker_3_moves k1 k2 k3); [done..| |].
    + intros D3. rewrite D3, E2, Z2 in *. cbn in *. destruct inv_w6 as (H & _).
      specialize (H eq_refl). unfold QUEUE_LENGTH, MAX_ITEMS in *. lia.
    + intros E3. rewrite E2, E3, Z2 in *. cbn in *. unfold QUEUE_LENGTH in *. lia.
  - exists Worker2. apply (worker_2_moves k1 k2 k3); [done..|].
    intros E. destruct (sem_free (q1 s)); [by destruct E2|lia].
Qed.

(** Between the creation of the workers and the end of the joins. *)
Lemma progress_running k1 k2 k3 s i :
  inv k1 k2 k3 s -> main s = M_join i -> exists t s', exec t s = Some s'.
Proof.
  intros I Em. pose proof I as [].
  destruct inv_main0 as (M1 & M2 & M3 & _). rewrite Em in *. cbn in M1, M2, M3.
  destruct (decide (w1 s = W1_done)) as [D1|D1].
  - destruct (decide (w2 s = W2_done)) as [D2|D2].
    + destruct (decide (w3 s = W3_done)) as [D3|D3].
      * exists Main. cbn. unfold main_thread. rewrite Em, D1, D2, D3.
        destruct (i =? 0); [|destruct (i =? 1)]; eexists; reflexivity.
      * exists Worker3. apply (worker_3_moves k1 k2 k3); [done|by apply M3|done|].
        intros E. rewrite D2, E in *. cbn in *. destruct inv_w5 as (H & _).
        specialize (H eq_refl). lia.
    + eapply tail_moves; [done|by apply M2|by apply M3|done|].
      intros E. rewrite D1, E in *. cbn in *. destruct inv_w4 as (H & _).
      specialize (H eq_refl). lia.
  - destruct (decide (w1 s = W1_wait_free /\ sem_free (q0 s) = O)) as [[E1 Z1]|E1].
    + eapply tail_moves; [done|by apply M2|by apply M3| |].
      * intros D2. rewrite D2, E1, Z1 in *. cbn in *. destruct inv_w5 as (H & _).
        specialize (H eq_refl). unfold QUEUE_LENGTH, MAX_ITEMS in *. lia.
      * intros E. rewrite E1, Z1, E in *. cbn in *. unfold QUEUE_LENGTH in *. lia.
    + exists Worker1. apply (worker_1_moves k1 k2 k3); [done|by apply M1|done|].
      intros E. destruct (sem_free (q0 s)); [by destruct E1|lia].
Qed.

Lemma progress s : invariant s -> main s = M_returned \/ exists t s', exec t s = Some s'.
Proof.
  intros (k1 & k2 & k3 & I).
  destruct (main s) as [i|i| |] eqn:Em; [| | |by left]; right.
  - exists Main. cbn. unfold main_thread. rewrite Em.
    destruct (i =? 0); [|destruct (i =? 1)]; eexists; reflexivity.
  - by eapply progress_running.
  - exists Main. cbn. unfold main_thread. rewrite Em. eexists; reflexivity.
Qed.

(** The counters of the three stages, in terms of the lines printed. *)
Lemma stage_bounds k1 k2 k3 s :
  inv k1 k2 k3 s ->
  k3 + w3_acted (w3 s) <= k2 + w2_acted (w2 s) <= k1 + w1_acted (w1 s)
  /\ k1 + w1_acted (w1 s) <= MAX_ITEMS
  /\ k1 + w1_acted (w1 s) <= k2 + w2_acted (w2 s) + QUEUE_LENGTH
  /\ k2 + w2_acted (w2 s) <= k3 + w3_acted (w3 s) + QUEUE_LENGTH.
Proof.
  intros []. pose proof (w1_order (w1 s)). pose proof (w2_order (w2 s)).
  pose proof (w3_order (w3 s)).
  assert (w1_acted (w1 s) = 0 \/ k1 < MAX_ITEMS) as A1.
  { destruct inv_w4 as (_ & U & _). destruct (w1 s); auto. }
  assert (w2_acted (w2 s) = 0 \/ k2 < MAX_ITEMS) as A2.
  { destruct inv_w5 as (_ & U & _). destruct (w2 s); auto. }
  assert (w3_acted (w3 s) = 0 \/ k3 < MAX_ITEMS) as A3.
  { destruct inv_w6 as (_ & U & _). destruct (w3 s); auto. }
  assert (w1_posted (w1 s) <= w1_acted (w1 s) \/ k1 = MAX_ITEMS) as P1.
  { destruct inv_w4 as (U & _). destruct (w1 s); cbn; auto; lia. }
  assert (w2_posted (w2 s) = 0 \/ k2 = MAX_ITEMS) as P2.
  { destruct inv_w5 as (U & _). destruct (w2 s); auto. }
  assert (w2_freed (w2 s) <= w2_acted (w2 s)) by (destruct (w2 s); cbn; lia).
  assert (w1_acted (w1 s) <= w1_waited (w1 s)) by (destruct (w1 s); cbn; lia).
  lia.
Qed.

(** ** Theorems *)

(** (C2) Safety of the pipeline, in every state of every interleaving: the
    queues never hold more than their four slots, every line a worker prints
    carries the value of its stage (0, 1 and 2), no stage overtakes the one
    before it, and none runs more than four items ahead of the next. *)
Theorem pipeline_safe (s : state) (Hr : reachable s) :
  (sem_free (q0 s) + sem_busy (q0 s) <= Z.to_nat QUEUE_LENGTH)%nat
  /\ (sem_free (q1 s) + sem_busy (q1 s) <= Z.to_nat QUEUE_LENGTH)%nat
  /\ Forall (eq 0) (lines_of "worker_1" (out s))
  /\ Forall (eq 1) (lines_of "worker_2" (out s))
  /\ Forall (eq 2) (lines_of "worker_3" (out s))
  /\ printed "worker_3" s <= printed "worker_2" s <= printed "worker_1" s
  /\ printed "worker_1" s <= MAX_ITEMS
  /\ printed "worker_1" s <= printed "worker_2" s + QUEUE_LENGTH
  /\ printed "worker_2" s <= printed "worker_3" s + QUEUE_LENGTH.
Proof.
  destruct (reachable_inv s Hr) as (k1 & k2 & k3 & I).
  rewrite (printed_1 _ _ _ _ I), (printed_2 _ _ _ _ I), (printed_3 _ _ _ _ I).
  pose proof (stage_bounds _ _ _ _ I).
  destruct I. pose proof (w1_order (w1 s)). pose proof (w2_order (w2 s)).
  pose proof (w3_order (w3 s)).
  rewrite inv_out4, inv_out5, inv_out6.
  split_and!; try (apply Forall_replicate; done); try lia.
Qed.


(** A schedule that runs the program to the end: threads in the order of the
    pipeline, each as far as it goes. *)
Fixpoint run_greedy (fuel : nat) (s : state) : list tid :=
  match fuel with
  | O => []
  | S fuel =>
      match exec Worker3 s, exec Worker2 s, exec Worker1 s, exec Main s with
      | Some s', _, _, _ => Worker3 :: run_greedy fuel s'
      | None, Some s', _, _ => Worker2 :: run_greedy fuel s'
      | None, None, Some s', _ => Worker1 :: run_greedy fuel s'
      | None, None, None, Some s' => Main :: run_greedy fuel s'
      | None, None, None, None => []
      end
  end.

Definition state_after (ts : list tid) : state := default init (run_schedule ts init).

Lemma reachable_after ts s : run_schedule ts init = Some s -> reachable s.
Proof. intros H. exists init. split; [done|]. by eapply run_schedule_reach. Qed.

Theorem pipeline_safe_witness :
  printed "worker_3" (state_after (run_greedy 120 init))
  <= printed "worker_1" (state_after (run_greedy 120 init)).
Proof.
  destruct (pipeline_safe (state_after (run_greedy 120 init))) as (_ & _ & _ & _ & _ & H & _).
  - apply (reachable_after (run_greedy 120 init)). vm_compute. reflexivity.
  - lia.
Defined.

(** (C3) Freedom from data races: the semaphores alone keep the producer and
    the consumer of a queue off the same slot.  Whenever the producer is about
    to write its slot while the consumer is about to read its own, the two
    slots differ, for both queues. *)
Theorem pipeline_race_free (s : state) (Hr : reachable s) :
  ((w1 s = W1_store \/ w1 s = W1_store_end) -> w2 s = W2_load -> ip (q0 s) <> ic (q0 s))
  /\ ((w2 s = W2_store \/ w2 s = W2_store_end) -> w3 s = W3_load -> ip (q1 s) <> ic (q1 s)).
Proof.
  destruct (reachable_inv s Hr) as (k1 & k2 & k3 & []).
  rewrite inv_ip2, inv_ic2, inv_ip3, inv_ic3.
  split; intros Hp Hc; rewrite Hc in *.
  - assert (w1_waited (w1 s) = 1 /\ w1_advanced (w1 s) = 0 /\ w1_posted (w1 s) = 0) as (Ha & -> & Hb)
      by (destruct Hp as [-> | ->]; done).
    cbn in *. apply not_eq_sym, mod_ne_window. unfold QUEUE_LENGTH in *. lia.
  - assert (w2_reserved (w2 s) = 1 /\ w2_advanced_ip (w2 s) = 0 /\ w2_posted (w2 s) = 0) as (Ha & -> & Hb)
      by (destruct Hp as [-> | ->]; done).
    cbn in *. apply not_eq_sym, mod_ne_window. unfold QUEUE_LENGTH in *. lia.
Qed.

(** Worker 1 reaches its second store while worker 2 is at its first load. *)
Definition race_schedule : list tid :=
  [Main; Main; Main] ++ replicate 7 Worker1 ++ [Worker2; Worker2] ++ replicate 3 Worker1.

Theorem pipeline_race_free_witness :
  w1 (state_after race_schedule) = W1_store /\ w2 (state_after race_schedule) = W2_load
  /\ ip (q0 (state_after race_schedule)) <> ic (q0 (state_after race_schedule)).
Proof.
  split; [vm_compute; reflexivity|]. split; [vm_compute; reflexivity|].
  apply (pipeline_race_free (state_after race_schedule)).
  - apply (reachable_after race_schedule). vm_compute. reflexivity.
  - left. vm_compute. reflexivity.
  - vm_compute. reflexivity.
Defined.

(** (C1) Termination and result: no interleaving deadlocks or runs for ever.
    Every schedule has at most 253 steps; in every reachable state [main] has
    returned or some thread can move; and when [main] has returned, the three
    workers have each printed their line for all [MAX_ITEMS] items. *)
Theorem pipeline_terminates :
  (forall ts s, run_schedule ts init = Some s -> (length ts <= 253)%nat)
  /\ (forall s, reachable s -> main s = M_returned \/ exists t s', exec t s = Some s')
  /\ (forall s, reachable s -> main s = M_returned ->
        w1 s = W1_done /\ w2 s = W2_done /\ w3 s = W3_done
        /\ lines_of "worker_1" (out s) = replicate (Z.to_nat MAX_ITEMS) 0
        /\ lines_of "worker_2" (out s) = replicate (Z.to_nat MAX_ITEMS) 1
        /\ lines_of "worker_3" (out s) = replicate (Z.to_nat MAX_ITEMS) 2).
Proof.
  split_and!.
  - intros ts s H.
    pose proof (schedule_bound invariant steps_left invariant_exec steps_left_decrease ts init s) as Hb.
    specialize (Hb ltac:(exists 0, 0, 0; apply inv_init) H).
    change (steps_left init) with 253%nat in Hb. lia.
  - intros s Hr. by apply progress, reachable_inv.
  - intros s Hr Hm. destruct (reachable_inv s Hr) as (k1 & k2 & k3 & []).
    rewrite Hm in *. destruct inv_main0 as (_ & _ & _ & J1 & J2 & J3). cbn in J1, J2, J3.
    specialize (J1 I). specialize (J2 I). specialize (J3 I). rewrite J1, J2, J3 in *. cbn in *.
    destruct inv_w4 as (E1 & _), inv_w5 as (E2 & _), inv_w6 as (E3 & _).
    rewrite E1, E2, E3 in * by done. rewrite Z.add_0_r in *. done.
Qed.

(** The greedy schedule is a complete run: 253 steps, ten lines per stage. *)
Theorem pipeline_terminates_witness :
  (length (run_greedy 300 init) <= 253)%nat
  /\ lines_of "worker_3" (out (state_after (run_greedy 300 init))) = replicate 10 2.
Proof.
  destruct pipeline_terminates as (Hb & _ & Hf). split.
  - apply (Hb _ (state_after (run_greedy 300 init))). vm_compute. reflexivity.
  - apply (Hf (state_after (run_greedy 300 init))).
    + apply (reachable_after (run_greedy 300 init)). vm_compute. reflexivity.
    + vm_compute. reflexivity.
Defined.
