(* ===== verification/Schedfreq.v ===== *)
(** * src/schedfreq.c

    [wk-schedfreq]: force a high rate of context switches.  With the library
    [sems] the threads pass a token around a ring of semaphores; with
    [nanosleep] each thread sleeps for no time.  The ring is a state machine;
    the command line and the sleeping worker are programs. *)

From S2P Require Import Prelude CInt CString Libc CFloat Utils Getopt Sched.

Local Open Scope string_scope.
Local Open Scope list_scope.
Local Open Scope Z_scope.

Definition DEFAULT_THREAD : Z := 2.
Definition DEFAULT_REPEAT : Z := 1000000.
Definition DEFAULT_LIB : string := "sems".
Definition progname : string := "wk-schedfreq".

(** ** Libraries and the command line *)

Inductive lib_def := | Sems | Nanosleep_lib.

Definition libs : list (string * lib_def) := [("sems", Sems); ("nanosleep", Nanosleep_lib)].

Definition get_lib (name : string) : option lib_def :=
  match List.find (fun l => String.eqb name l.1) libs with Some l => Some l.2 | None => None end.

Record experiment := Experiment { lib : option lib_def; n : Z; repeat : Z }.

Definition usage {A} : prog A := usage_text
  [("Usage: %s [OPTIONS] [COMMAND]" +:+ NL, [PStr (Some progname)]);
   (NL +:+ "Options:" +:+ NL +:+ NL, []);
   ("--thread N       number of threads to be spawned (default = 2)" +:+ NL, []);
   ("--repeat         number of repetitions" +:+ NL, []);
   ("--lib            library to use [ sems | nanosleep ]" +:+ NL, []);
   ("--verbose        be verbose" +:+ NL, []);
   ("--help           print this message and exit" +:+ NL, []);
   (NL, [])].

Definition optstring : string := "hvr:t:l:".
Definition options : list option_ :=
  [Option_ "help" false "h"; Option_ "repeat" true "r"; Option_ "thread" true "t";
   Option_ "lib" true "l"; Option_ "verbose" false "v"].

Definition parse_opt (f : found) (e : experiment) : prog experiment :=
  match opt f with
  | "r"%char => with_arg f (fun a => Ret (Experiment (lib e) (n e) (atoi a)))
  | "t"%char => with_arg f (fun a => Ret (Experiment (lib e) (atoi a) (repeat e)))
  | "l"%char => with_arg f (fun a => Ret (Experiment (get_lib a) (n e) (repeat e)))
  | _ => usage
  end.

Definition parse_opts (argv : list string) : prog experiment :=
  let e := Experiment (get_lib DEFAULT_LIB) DEFAULT_THREAD DEFAULT_REPEAT in
  e ← opt_loop parse_opt (getopt_long optstring options None argv) e;
  match lib e with None => usage | Some _ => Ret e end.

(** ** The worker that sleeps *)
Definition ns_wrk (repeat : Z) : prog unit :=
  for_ (Z.to_nat repeat) 0 (fun _ _ => call (Nanosleep (Timespec 0 0));; Ret tt) tt.

(** ** The ring of semaphores

    [repeat] iterations of [n] threads; a thread is not created yet, about to
    wait in its [i]-th iteration, between [sem_wait] and [sem_post], or
    returned. *)
Inductive wpc := | W_new | W_wait (i : nat) | W_post (i : nat) | W_done.
Inductive mpc := | M_init | M_create (i : nat) | M_join (i : nat) | M_done | M_returned.

#[export] Instance wpc_eq_dec : EqDecision wpc. Proof. solve_decision. Defined.

(** [turns]: the rank of every thread that passed [sem_wait], in order. *)
Record state := State {
  sems : list nat; workers : list wpc; main : mpc; freed : bool; turns : list nat
}.

Inductive tid := | Main | Worker (rank : nat).

Section ring.
Context (n repeat : nat).

(** The head of the loop of iteration [i]. *)
Definition loop_head (i : nat) : wpc := if (i <? repeat)%nat then W_wait i else W_done.

Definition sems_wrk (rank : nat) (s : state) : option state :=
  p ← workers s !! rank;
  match p with
  | W_new | W_done => None
  | W_wait i =>
      v ← sems s !! rank;
      v ← sem_wait v;
      Some (State (<[rank := v]> (sems s)) (<[rank := W_post i]> (workers s)) (main s) (freed s)
              (turns s ++ [rank]))
  | W_post i =>
      let next := ((rank + 1) mod n)%nat in
      v ← sems s !! next;
      Some (State (<[next := sem_post v]> (sems s)) (<[rank := loop_head (S i)]> (workers s))
              (main s) (freed s) (turns s))
  end.

(** [calloc], [sem_init(&sems[0], 0, 1)], and 0 for the others. *)
Definition sems_init : list nat := 1%nat :: replicate (n - 1) O.

Definition main_thread (s : state) : option state :=
  match main s with
  | M_init => Some (State sems_init (workers s) (M_create 0) (freed s) (turns s))
  | M_create i =>
      if (i <? n)%nat
      then Some (State (sems s) (<[i := loop_head 0]> (workers s)) (M_create (S i)) (freed s) (turns s))
      else Some (State (sems s) (workers s) (M_join 0) (freed s) (turns s))
  | M_join i =>
      if (i <? n)%nat then
        p ← workers s !! i;
        if decide (p = W_done)
        then Some (State (sems s) (workers s) (M_join (S i)) (freed s) (turns s)) else None
      else Some (State (sems s) (workers s) M_done (freed s) (turns s))
  | M_done => (* sems_done *) Some (State (sems s) (workers s) M_returned true (turns s))
  | M_returned => None
  end.

Definition init : state := State [] (replicate n W_new) M_init false [].

#[export] Instance ring : System state tid := {
  exec t s := match t with Main => main_thread s | Worker r => sems_wrk r s end;
  initial s := s = init
}.
End ring.

(** ** Invariant

    After [q] full laps and [r] more turns, thread [r] is next; [held]: it has
    taken the token and not yet passed it on. *)

Definition created (m : mpc) (j : nat) : bool :=
  match m with M_init => false | M_create i => (j <? i)%nat | _ => true end.
Definition joined (m : mpc) (j : nat) : bool :=
  match m with M_join i => (j <? i)%nat | M_done | M_returned => true | _ => false end.
Definition in_range (n : nat) (m : mpc) : Prop :=
  match m with M_create i | M_join i => (i <= n)%nat | _ => True end.

(** The ranks in the order of a fair round robin. *)
Definition round_robin (n t : nat) : list nat := map (fun k => k mod n)%nat (seq 0 t).

Lemma round_robin_S n t : round_robin n (S t) = round_robin n t ++ [(t mod n)%nat].
Proof. unfold round_robin. by rewrite seq_S, map_app. Qed.

(** The token is in the semaphore of [r], or in the hands of [r]. *)
Definition token (n r : nat) (held : bool) : list nat :=
  if held then replicate n O else <[r := 1%nat]> (replicate n O).

(** Iterations thread [j] has begun after [q] laps and [r] turns. *)
Definition begun (q r j : nat) : nat := (q + if (j <? r)%nat then 1 else 0)%nat.

Record inv (n repeat : nat) (s : state) (q r : nat) (held : bool) : Prop := {
  i_started : main s <> M_init;
  i_r : (r < n)%nat;
  i_q : (q < repeat)%nat \/ (q = repeat /\ r = O /\ held = false);
  i_sems : sems s = token n r held;
  i_length : length (workers s) = n;
  i_workers : forall j p, workers s !! j = Some p ->
    p = if created (main s) j
        then if held && (j =? r)%nat then W_post q else loop_head repeat (begun q r j)
        else W_new;
  i_new : forall j, (j < n)%nat -> created (main s) j = false ->
    q = O /\ (r <= j)%nat /\ (held = true -> j <> r);
  i_turns : turns s = round_robin n (n * q + r + if held then 1 else 0);
  i_range : in_range n (main s);
  i_joined : forall j p, workers s !! j = Some p -> joined (main s) j = true -> p = W_done;
  i_freed : freed s = true <-> main s = M_returned
}.

Definition Inv n repeat s : Prop := s = init n \/ exists q r held, inv n repeat s q r held.

Lemma token_lookup n r held j :
  (j < n)%nat -> token n r held !! j = Some (if negb held && (j =? r)%nat then 1 else 0)%nat.
Proof.
  intros Hj. unfold token. destruct held; cbn.
  - by apply lookup_replicate_2.
  - destruct (Nat.eqb_spec j r) as [->|].
    + apply list_lookup_insert_eq. by rewrite length_replicate.
    + rewrite list_lookup_insert_ne by done. by apply lookup_replicate_2.
Qed.

Section proofs.
Context (n repeat : nat).
#[local] Arguments Nat.ltb : simpl never.
#[local] Arguments Nat.modulo : simpl never.
#[local] Notation SYS := (ring n repeat).

(** A thread that waits takes the token. *)
Lemma worker_takes rank i s s' q r held :
  inv n repeat s q r held -> workers s !! rank = Some (W_wait i) -> sems_wrk n repeat rank s = Some s' ->
  inv n repeat s' q r true.
Proof.
  intros [Hst Hr Hq Hse Hl Hw Hn Ht Hra Hj Hf] Hp Hs. unfold sems_wrk in Hs. rewrite Hp in Hs. cbn in Hs.
  pose proof (lookup_lt_Some _ _ _ Hp) as Hlt. rewrite Hl in Hlt. pose proof (Hw _ _ Hp) as Hpe.
  rewrite Hse, token_lookup in Hs by done. cbn in Hs.
  destruct (negb held && (rank =? r)%nat) eqn:E; [|done]. cbn in Hs. injection Hs as <-.
  bool_to_prop. subst rank held.
  destruct (created (main s) r) eqn:Ec; [|done]. cbn [andb] in Hpe.
  unfold begun, loop_head in Hpe. rewrite Nat.ltb_irrefl, Nat.add_0_r in Hpe.
  destruct (Nat.ltb_spec q repeat) as [Hqr|]; [|done]. injection Hpe as ->.
  split; cbn; try done.
  - by left.
  - unfold token. rewrite list_insert_insert_eq. apply list_insert_id. by apply lookup_replicate_2.
  - by rewrite length_insert.
  - intros j p Hjp. apply list_lookup_insert_Some in Hjp as [(<- & <- & _)|[Hne Hjp]].
    + by rewrite Ec, Nat.eqb_refl.
    + rewrite (Hw _ _ Hjp). destruct (Nat.eqb_spec j r); [done|]. by rewrite andb_false_r.
  - intros j Hjn Hjc. destruct (Hn j Hjn Hjc) as (-> & ? & _). split_and!; try done.
    intros _ ->. congruence.
  - rewrite Ht, <- plus_n_O, Nat.add_1_r, round_robin_S. f_equal. f_equal.
    by rewrite Nat.mul_comm, Nat.add_comm, Nat.Div0.mod_add, Nat.mod_small.
  - intros j p Hjp Hjj. apply list_lookup_insert_Some in Hjp as [(<- & <- & _)|[Hne Hjp]].
    + by pose proof (Hj _ _ Hp Hjj).
    + by eapply Hj.
Qed.

(** The iterations begun when thread [r] has had its turn. *)
Lemma begun_next q r j :
  (r < n)%nat -> (j < n)%nat ->
  begun (if (r + 1 =? n)%nat then S q else q) ((r + 1) mod n) j = if (j =? r)%nat then S q else begun q r j.
Proof.
  intros Hr Hj. unfold begun. destruct (Nat.eqb_spec (r + 1) n) as [E|].
  - rewrite E, Nat.Div0.mod_same. destruct (Nat.eqb_spec j r), (Nat.ltb_spec j r), (Nat.ltb_spec j 0); lia.
  - rewrite Nat.mod_small by lia. destruct (Nat.eqb_spec j r), (Nat.ltb_spec j r), (Nat.ltb_spec j (r + 1)); lia.
Qed.

(** A thread that has the token passes it on. *)
Lemma worker_passes rank i s s' q r held :
  inv n repeat s q r held -> workers s !! rank = Some (W_post i) -> sems_wrk n repeat rank s = Some s' ->
  inv n repeat s' (if (r + 1 =? n)%nat then S q else q) ((r + 1) mod n) false.
Proof.
  intros [Hst Hr Hq Hse Hl Hw Hn Ht Hra Hj Hf] Hp Hs. unfold sems_wrk in Hs. rewrite Hp in Hs. cbn in Hs.
  pose proof (lookup_lt_Some _ _ _ Hp) as Hlt. rewrite Hl in Hlt. pose proof (Hw _ _ Hp) as Hpe.
  destruct (created (main s) rank) eqn:Ec; [|done].
  destruct (held && (rank =? r)%nat) eqn:E; [|unfold loop_head in Hpe; by case_if_in Hpe].
  bool_to_prop. subst rank held. injection Hpe as ->. destruct Hq as [Hq|(? & ? & ?)]; [|done].
  assert ((r + 1) mod n < n)%nat as Hnx by (apply Nat.mod_upper_bound; lia).
  rewrite Hse, token_lookup in Hs by done. cbn in Hs. injection Hs as <-.
  split; cbn; try done.
  - destruct (Nat.eqb_spec (r + 1) n) as [E|]; [|by left].
    rewrite E, Nat.Div0.mod_same. destruct (decide (S q = repeat)); [by right|left; lia].
  - by rewrite length_insert.
  - intros j p Hjp. pose proof (lookup_lt_Some _ _ _ Hjp) as Hjl. rewrite length_insert, Hl in Hjl.
    rewrite begun_next by done. apply list_lookup_insert_Some in Hjp as [(<- & <- & _)|[Hne Hjp]].
    + by rewrite Ec, Nat.eqb_refl.
    + rewrite (Hw _ _ Hjp). by destruct (Nat.eqb_spec j r).
  - intros j Hjn Hjc. destruct (Hn j Hjn Hjc) as (-> & ? & Hne). specialize (Hne eq_refl).
    destruct (Nat.eqb_spec (r + 1) n); [lia|]. rewrite Nat.mod_small by lia. split_and!; done || lia.
  - rewrite Ht. f_equal. destruct (Nat.eqb_spec (r + 1) n) as [E|].
    + rewrite E, Nat.Div0.mod_same. nia.
    + rewrite Nat.mod_small by lia. lia.
  - intros j p Hjp Hjj. apply list_lookup_insert_Some in Hjp as [(<- & <- & _)|[Hne Hjp]].
    + by pose proof (Hj _ _ Hp Hjj).
    + by eapply Hj.
Qed.

Lemma worker_inv rank s s' q r held :
  inv n repeat s q r held -> sems_wrk n repeat rank s = Some s' ->
  exists q' r' held', inv n repeat s' q' r' held'.
Proof.
  intros Hi Hs. destruct (workers s !! rank) as [[|i|i|]|] eqn:Hp;
    try (unfold sems_wrk in Hs; rewrite Hp in Hs; discriminate Hs).
  - exists q, r, true. by eapply worker_takes.
  - eexists _, _, false. by eapply worker_passes.
Qed.

Lemma main_inv s s' :
  (0 < n)%nat -> Inv n repeat s -> main_thread n repeat s = Some s' ->
  exists q r held, inv n repeat s' q r held.
Proof.
  intros Hn0 [->|(q & r & held & Hi)] Hs.
  - cbn in Hs. injection Hs as <-. exists O, O, false. split; cbn; try done.
    + destruct repeat; [by right|left; lia].
    + unfold sems_init, token. destruct n as [|m]; [lia|]. cbn. by rewrite Nat.sub_0_r.
    + apply length_replicate.
    + intros j p Hjp. apply lookup_replicate in Hjp as [-> _]. done.
    + intros j Hj _. split_and!; done || lia.
    + unfold round_robin. by rewrite Nat.mul_0_r.
    + lia.
  - destruct Hi as [Hst Hr Hq Hse Hl Hw Hn Ht Hra Hj Hf].
    destruct s as [se wo m fr tu]. cbn [sems workers main freed turns] in *.
    assert (m <> M_returned -> fr = false) as Hfr.
    { intros H. destruct fr; [|done]. exfalso. by apply H, Hf. }
    unfold main_thread in Hs. cbn [sems workers main freed turns] in *.
    exists q, r, held.
    destruct m as [|i|i| |]; try done; cbn in *; try specialize (Hfr ltac:(done)); try subst fr.
    + destruct (Nat.ltb_spec i n); injection Hs as <-; split; cbn; try done.
      * by rewrite length_insert.
      * intros j p Hjp. apply list_lookup_insert_Some in Hjp as [(<- & <- & _)|[Hne Hjp]].
        -- destruct (Hn i) as (-> & ? & Hh); [done|by apply Nat.ltb_irrefl|].
           destruct (Nat.ltb_spec i (S i)); [|lia].
           assert (held && (i =? r)%nat = false) as ->.
           { destruct held; [|done]. cbn. apply Nat.eqb_neq. auto. }
           unfold begun. destruct (Nat.ltb_spec i r); [lia|done].
        -- rewrite (Hw _ _ Hjp).
           destruct (Nat.ltb_spec j i), (Nat.ltb_spec j (S i)); done || lia.
      * intros j Hjn Hjc. apply Hn; [done|]. apply Nat.ltb_ge in Hjc. apply Nat.ltb_ge. lia.
      * intros j p Hjp. pose proof (lookup_lt_Some _ _ _ Hjp).
        rewrite (Hw _ _ Hjp). destruct (Nat.ltb_spec j i); done || lia.
      * lia.
    + destruct (Nat.ltb_spec i n).
      * destruct (wo !! i) as [p|] eqn:Hp; [|done]. cbn in Hs.
        destruct (decide (p = W_done)) as [->|]; [|done]. injection Hs as <-. split; cbn; try done.
        intros j p Hjp Hjj. destruct (decide (j = i)) as [->|]; [congruence|].
        eapply Hj; [done|]. apply Nat.ltb_lt in Hjj. apply Nat.ltb_lt. lia.
      * injection Hs as <-. split; cbn; try done. intros j p Hjp _. eapply Hj; [done|].
        pose proof (lookup_lt_Some _ _ _ Hjp). apply Nat.ltb_lt. lia.
    + injection Hs as <-. by split.
Qed.

Lemma Ring_Inv_step t s s' :
  (0 < n)%nat -> Inv n repeat s -> @exec _ _ SYS t s = Some s' -> Inv n repeat s'.
Proof.
  intros Hn Hi He. right. destruct t as [|rank]; cbn in He.
  - by eapply main_inv.
  - destruct Hi as [->|(q & r & held & Hi)]; [|by eapply worker_inv].
    unfold sems_wrk in He. cbn in He. destruct (replicate n W_new !! rank) as [p|] eqn:E; [|done].
    apply lookup_replicate in E as [-> _]. done.
Qed.

Lemma Ring_Inv_reachable s : (0 < n)%nat -> @reachable _ _ SYS s -> Inv n repeat s.
Proof.
  intros Hn. apply (@invariant_reachable _ _ SYS (Inv n repeat)).
  - intros s0 ->. by left.
  - intros t s0 s1. by apply Ring_Inv_step.
Qed.

(** ** Termination *)

Definition worker_left (p : wpc) : nat :=
  match p with
  | W_new => 2 * repeat + 2
  | W_wait i => 2 * (repeat - i) + 1
  | W_post i => 2 * (repeat - i)
  | W_done => 0
  end.
Definition main_left (m : mpc) : nat :=
  match m with
  | M_init => 2 * n + 5
  | M_create i => (n - i) + n + 4
  | M_join i => (n - i) + 2
  | M_done => 1
  | M_returned => 0
  end.
Definition steps_left (s : state) : nat :=
  (sum_list_with worker_left (workers s) + main_left (main s))%nat.

Lemma loop_head_left i : (worker_left (loop_head repeat i) <= 2 * (repeat - i) + 1)%nat.
Proof. unfold loop_head. case_if; cbn; lia. Qed.

Lemma ring_step_decreases t s s' :
  (0 < n)%nat -> Inv n repeat s -> @exec _ _ SYS t s = Some s' ->
  (steps_left s' < steps_left s)%nat.
Proof.
  intros Hn Hi He. unfold steps_left. destruct t as [|rank]; cbn in He.
  - destruct Hi as [->|(q & r & held & Hi)].
    + cbn in He. injection He as <-. cbn. lia.
    + pose proof (i_range _ _ _ _ _ _ Hi) as Hra. unfold main_thread in He.
      destruct (main s) as [|i|i| |] eqn:Em; cbn in Hra; [by destruct (i_started _ _ _ _ _ _ Hi)|..].
      * destruct (Nat.ltb_spec i n); injection He as <-; cbn; [|lia].
        destruct (lookup_lt_is_Some_2 (workers s) i) as [p Hp]; [by rewrite (i_length _ _ _ _ _ _ Hi)|].
        pose proof (sum_list_insert worker_left _ _ _ (loop_head repeat 0) Hp) as Hsum.
        rewrite (i_workers _ _ _ _ _ _ Hi _ _ Hp), Em in Hsum. cbn in Hsum.
        rewrite Nat.ltb_irrefl in Hsum. cbn in Hsum. pose proof (loop_head_left 0). lia.
      * destruct (Nat.ltb_spec i n); [|injection He as <-; cbn; lia].
        destruct (workers s !! i) as [p|]; [|done]. cbn in He.
        destruct (decide _); [|done]. injection He as <-. cbn. lia.
      * injection He as <-. cbn. lia.
      * done.
  - destruct Hi as [->|(q & r & held & Hi)].
    { unfold sems_wrk in He. cbn in He. destruct (replicate n W_new !! rank) as [p|] eqn:E; [|done].
      apply lookup_replicate in E as [-> _]. done. }
    pose proof (i_workers _ _ _ _ _ _ Hi) as Hw. pose proof (i_q _ _ _ _ _ _ Hi) as Hq.
    unfold sems_wrk in He. destruct (workers s !! rank) as [p|] eqn:Hp; [|done]. cbn in He.
    specialize (Hw _ _ Hp).
    destruct p as [|i|i|]; try done.
    + destruct (sems s !! rank) as [v|]; [|done]. cbn in He.
      destruct (sem_wait v); [|done]. injection He as <-. cbn.
      pose proof (sum_list_insert worker_left _ _ _ (W_post i) Hp) as Hsum. cbn in Hsum. lia.
    + destruct (sems s !! _) as [v|]; [|done]. injection He as <-. cbn -[loop_head].
      pose proof (sum_list_insert worker_left _ _ _ (loop_head repeat (S i)) Hp) as Hsum.
      cbn -[loop_head] in Hsum. pose proof (loop_head_left (S i)).
      assert (i < repeat)%nat.
      { destruct (created (main s) rank); [|done].
        destruct (held && (rank =? r)%nat) eqn:E; [|unfold loop_head in Hw; by case_if_in Hw].
        injection Hw as ->. apply andb_true_iff in E as [-> _].
        destruct Hq as [|(_ & _ & ?)]; done. }
      unfold loop_head in *. case_if; cbn in *; lia.
Qed.

Lemma loop_head_not_post i j : loop_head repeat i <> W_post j.
Proof. unfold loop_head. by case_if. Qed.

(** Until [main] returns some thread can move. *)
Lemma ring_some_thread_moves s :
  (0 < n)%nat -> Inv n repeat s -> main s <> M_returned -> exists t s', @exec _ _ SYS t s = Some s'.
Proof.
  intros Hn [->|(q & r & held & Hi)] Hm; [by exists Main, (State (sems_init n) (replicate n W_new) (M_create 0) false [])|].
  destruct Hi as [Hst Hr Hq Hse Hl Hw Hnw Ht Hra Hj Hf].
  assert (forall s', main_thread n repeat s = Some s' -> exists t s', @exec _ _ SYS t s = Some s') as Hmain.
  { intros s' Hs. by exists Main, s'. }
  unfold main_thread in Hmain.
  destruct (main s) as [|i|i| |] eqn:Em; try done.
  - destruct (i <? n)%nat; by eapply Hmain.
  - destruct (Nat.ltb_spec i n) as [Hlt|]; [|by eapply Hmain].
    destruct (lookup_lt_is_Some_2 (workers s) i) as [p Hp]; [lia|].
    rewrite Hp in Hmain. cbn in Hmain.
    destruct (decide (p = W_done)) as [|Hnd]; [by eapply Hmain|]. clear Hmain.
    destruct (lookup_lt_is_Some_2 (workers s) r) as [pr Hpr]; [lia|].
    pose proof (Hw _ _ Hpr) as Hwr. cbn in Hwr. rewrite Nat.eqb_refl, andb_true_r in Hwr.
    destruct held.
    + (* the holder posts *)
      assert ((r + 1) mod n < n)%nat as Hnx by (apply Nat.mod_upper_bound; lia).
      exists (Worker r). eexists. cbn. unfold sems_wrk. rewrite Hpr. cbn. rewrite Hwr.
      rewrite Hse, token_lookup by done. cbn. reflexivity.
    + unfold begun in Hwr. rewrite Nat.ltb_irrefl, Nat.add_0_r in Hwr. unfold loop_head in Hwr.
      destruct (Nat.ltb_spec q repeat).
      * exists (Worker r). eexists. cbn. unfold sems_wrk. rewrite Hpr. cbn. rewrite Hwr.
        rewrite Hse, token_lookup by done. cbn. rewrite Nat.eqb_refl. cbn. reflexivity.
      * destruct Hq as [|(-> & -> & _)]; [lia|]. pose proof (Hw _ _ Hp) as Hwi.
        cbn in Hwi. unfold begun, loop_head in Hwi. cbn in Hwi.
        rewrite Nat.add_0_r, Nat.ltb_irrefl in Hwi. done.
  - by eapply Hmain.
Qed.
End proofs.

(** ** Theorems *)

(** Threads between [sem_wait] and [sem_post]. *)
Definition holding (p : wpc) : nat := match p with W_post _ => 1 | _ => 0 end.

Lemma sum_replicate {A} (f : A -> nat) k x :
  f x = O -> sum_list_with f (replicate k x) = O.
Proof. intros H. induction k as [|k IH]; cbn; [done|]. by rewrite H. Qed.

Lemma sum_zero {A} (f : A -> nat) (l : list A) :
  (forall j x, l !! j = Some x -> f x = O) -> sum_list_with f l = O.
Proof.
  induction l as [|x l IH]; intros H; [done|]. cbn. rewrite (H O x) by done.
  rewrite IH; [done|]. intros j. apply (H (S j)).
Qed.

(** Exactly one element of the list counts. *)
Lemma sum_one {A} (f : A -> nat) (l : list A) i x :
  l !! i = Some x -> f x = 1%nat -> (forall j y, j <> i -> l !! j = Some y -> f y = O) ->
  sum_list_with f l = 1%nat.
Proof.
  revert i. induction l as [|z l IH]; intros [|i] Hi Hf H; try done; cbn.
  - injection Hi as ->. rewrite Hf, sum_zero; [done|]. intros j y. by apply (H (S j)).
  - rewrite (H O z), (IH i) by (try done; intros j y Hj; apply (H (S j)); lia). done.
Qed.

Lemma one_token n repeat s q r held :
  inv n repeat s q r held ->
  (sum_list_with (fun v => v) (sems s) + sum_list_with holding (workers s) = 1)%nat.
Proof.
  intros [Hst Hr Hq Hse Hl Hw Hn Ht Hra Hj Hf].
  assert (forall j p, j <> r -> workers s !! j = Some p -> holding p = O) as Hother.
  { intros j p Hne Hp. rewrite (Hw _ _ Hp). destruct (created _ _); [|done].
    destruct (Nat.eqb_spec j r); [done|]. rewrite andb_false_r. unfold loop_head. by case_if. }
  destruct (lookup_lt_is_Some_2 (workers s) r) as [p Hp]; [lia|].
  rewrite Hse. unfold token. destruct held.
  - rewrite sum_replicate by done. cbn. eapply sum_one; [exact Hp| |done].
    rewrite (Hw _ _ Hp), Nat.eqb_refl. destruct (created (main s) r) eqn:E; [done|].
    destruct (Hn r Hr E) as (_ & _ & Hh). by destruct (Hh eq_refl).
  - assert (sum_list_with holding (workers s) = O) as ->.
    { apply sum_zero. intros j y Hy. destruct (decide (j = r)) as [->|]; [|by eapply Hother].
      rewrite (Hw _ _ Hy). destruct (created _ _); [|done]. cbn. unfold loop_head. by case_if. }
    rewrite Nat.add_0_r. eapply (sum_one _ _ r 1%nat); [|done|].
    + apply list_lookup_insert_eq. by rewrite length_replicate.
    + intros j y Hne Hy. rewrite list_lookup_insert_ne in Hy by done.
      by apply lookup_replicate in Hy as [-> _].
Qed.

(** (C14) The ring is a fair round robin under mutual exclusion: in every
    reachable state of the running program there is exactly one token (a
    semaphore of value one, or a thread between its wait and its post), and
    the threads have taken their turns in the order 0, 1, ..., n-1, 0, 1,
    ..., at most [repeat] times each. *)
Theorem schedfreq_round_robin (n repeat : nat) (s : state) (Hn : (0 < n)%nat)
    (Hr : @reachable _ _ (ring n repeat) s) (Hs : main s <> M_init) :
  (sum_list_with (fun v => v) (sems s) + sum_list_with holding (workers s) = 1)%nat
  /\ exists t, (t <= n * repeat)%nat /\ turns s = round_robin n t.
Proof.
  apply Ring_Inv_reachable in Hr; [|done]. destruct Hr as [->|(q & r & held & Hi)]; [done|].
  split; [by eapply one_token|]. exists (n * q + r + if held then 1 else 0)%nat.
  destruct Hi as [_ Hr Hq _ _ _ _ Ht _ _ _]. split; [|done].
  destruct Hq as [Hq|(-> & -> & ->)]; [|lia]. destruct held; nia.
Qed.

(** (C15) The program terminates under every scheduler: no execution is longer
    than a fixed bound, no reachable state deadlocks, and when nothing can
    move [main] has joined all the threads and released the semaphores, after
    exactly [n * repeat] turns. *)
Theorem schedfreq_terminates (n repeat : nat) (ts : list tid) (s : state) (Hn : (0 < n)%nat)
    (Hrun : @run_schedule _ _ (ring n repeat) ts (init n) = Some s) :
  (length ts <= n * (2 * repeat + 2) + 2 * n + 5)%nat
  /\ (@stuck _ _ (ring n repeat) s ->
      main s = M_returned /\ freed s = true /\ Forall (eq W_done) (workers s)
      /\ turns s = round_robin n (n * repeat)).
Proof.
  split.
  - pose proof (@schedule_bound _ _ (ring n repeat) (Inv n repeat) (steps_left n repeat)
      (fun t s s' => Ring_Inv_step n repeat t s s' Hn) (fun t s s' => ring_step_decreases n repeat t s s' Hn)
      ts (init n) s (or_introl eq_refl) Hrun) as Hb.
    unfold steps_left in Hb. cbn in Hb.
    assert (sum_list_with (worker_left repeat) (replicate n W_new) = n * (2 * repeat + 2))%nat as Hsum.
    { clear. induction n as [|m IH]; [done|]. cbn. cbn in IH. lia. }
    cbn in Hsum. lia.
  - intros Hstuck.
    assert (Inv n repeat s) as Hi.
    { apply Ring_Inv_reachable; [done|]. exists (init n). split; [done|].
      by apply (@run_schedule_reach _ _ (ring n repeat)) in Hrun. }
    assert (main s = M_returned) as Hm.
    { destruct (main s) eqn:Em; try done;
      (destruct (ring_some_thread_moves n repeat s Hn Hi ltac:(congruence)) as (t & s' & He);
       by rewrite (Hstuck t) in He). }
    split; [done|]. destruct Hi as [->|(q & r & held & [_ Hr Hq _ Hl Hw _ Ht _ Hj Hf])]; [done|].
    split; [by apply Hf|].
    assert (forall j p, workers s !! j = Some p -> p = W_done) as Hdone.
    { intros j p Hp. eapply Hj; [done|]. by rewrite Hm. }
    split.
    { apply Forall_lookup. intros j p Hp. symmetry. by eapply Hdone. }
    destruct (lookup_lt_is_Some_2 (workers s) r) as [p Hp]; [lia|].
    pose proof (Hdone _ _ Hp). pose proof (Hw _ _ Hp) as Hwr. subst p. rewrite Hm in Hwr. cbn in Hwr.
    rewrite Nat.eqb_refl, andb_true_r in Hwr. destruct held; [done|].
    unfold begun, loop_head in Hwr. rewrite Nat.ltb_irrefl, Nat.add_0_r in Hwr.
    destruct (Nat.ltb_spec q repeat); [done|]. destruct Hq as [|(-> & -> & _)]; [lia|].
    rewrite Ht. f_equal. lia.
Qed.

(** Two threads, two laps, in a lazy order. *)
Definition demo : list tid :=
  [Main; Main; Worker 0; Worker 0; Main; Worker 1; Worker 1; Worker 0; Main; Worker 0;
   Worker 1; Worker 1; Main; Main; Main; Main].

Theorem schedfreq_round_robin_witness :
  exists s, @run_schedule _ _ (ring 2 2) (firstn 7 demo) (init 2) = Some s
            /\ exists t, (t <= 4)%nat /\ turns s = round_robin 2 t.
Proof.
  eexists. split; [vm_compute; reflexivity|].
  refine (proj2 (schedfreq_round_robin 2 2 _ _ _ _)).
  - lia.
  - exists (init 2). split; [done|]. apply (@run_schedule_reach _ _ (ring 2 2) (firstn 7 demo)).
    vm_compute. reflexivity.
  - vm_compute. discriminate.
Defined.

Theorem schedfreq_terminates_witness :
  exists s, @run_schedule _ _ (ring 2 2) demo (init 2) = Some s
            /\ turns s = [0; 1; 0; 1]%nat /\ main s = M_returned.
Proof.
  eexists. split; [vm_compute; reflexivity|].
  destruct (schedfreq_terminates 2 2 demo _ ltac:(lia) ltac:(vm_compute; reflexivity)) as [_ H].
  destruct H as (Hm & _ & _ & Ht).
  - intros [|[|[|r]]]; reflexivity.
  - split; [rewrite Ht; reflexivity|exact Hm].
Defined.
