(* ===== verification/Pipette.v ===== *)
(** * src/pipette.c

    [wk-pipette]: a producer and a consumer process at the two ends of a
    pipe.  The producer fills each block with its number, the consumer sums
    the bytes it gets. *)

From S2P Require Import Prelude CInt CString Libc CFloat Utils Getopt.

Local Open Scope string_scope.
Local Open Scope list_scope.
Local Open Scope Z_scope.

Definition progname : string := "wk-pipette".
Definition DEFAULT_BLOCK_SIZE : Z := 4096.
Definition PAGE_SIZE : Z := 4096.
Definition DEFAULT_BLOCK_COUNT : Z := 1.
Definition READ : Z := 0.
Definition WRITE : Z := 1.

(** [struct vars] and the global [verbose]; [fd] is filled by [main]. *)
Record vars := Vars {
  delay_prod : Z; delay_cons : Z; size : Z; count : Z; rrobin : Z; verbose : Z
}.

(** ** usage, msg *)

Definition usage {A} : prog A := usage_text
  [("Usage: %s [OPTIONS] [COMMAND]" +:+ NL, [PStr (Some progname)]);
   (NL +:+ "Options:" +:+ NL +:+ NL, []);
   ("  --size		 set size of blocs in bytes" +:+ NL, []);
   ("  --count		set number of blocs" +:+ NL, []);
   ("  --delay-prod   delay to produce each block" +:+ NL, []);
   ("  --delay-cons   delay to consume each block" +:+ NL, []);
   ("  --round-robin  cycle the delay between producer and consumer" +:+ NL, []);
   ("  --verbose	  verbose mode" +:+ NL, [])].

Definition msg (verbose : Z) (format : string) (args : list parg) : prog unit :=
  if negb (verbose =? 0) then
    str ← call (Vasprintf format args);
    match str with
    | None => Ret tt
    | Some (p, s) => call (Printf ("%s" +:+ NL) [PStr (Some s)]);; call (Free (Some p))
    end
  else Ret tt.

(** [ARG_CHECK(cond, fmt)] of utils.h. *)
Definition ARG_CHECK (verbose : Z) (cond : bool) (format : string) : prog unit :=
  if cond then msg verbose format [];; usage else Ret tt.

(** ** parse_opts *)

Definition optstring : string := "hvrs:n:p:c:".
Definition options : list option_ :=
  [Option_ "help" false "h"; Option_ "size" true "s"; Option_ "count" true "n";
   Option_ "delay-prod" true "p"; Option_ "delay-cons" true "c";
   Option_ "round-robin" false "r"; Option_ "verbose" false "v"].

Definition parse_opt (f : found) (v : vars) : prog vars :=
  let '(Vars p c s n r b) := v in
  match opt f with
  | "s"%char => with_arg f (fun a => Ret (Vars p c (atoi a) n r b))
  | "n"%char => with_arg f (fun a => Ret (Vars p c s (atoi a) r b))
  | "p"%char => with_arg f (fun a => Ret (Vars (atoi a) c s n r b))
  | "c"%char => with_arg f (fun a => Ret (Vars p (atoi a) s n r b))
  | "r"%char => Ret (Vars p c s n 1 b)
  | "v"%char => Ret (Vars p c s n r 1)
  | _ => usage
  end.

Definition set_size v x := Vars (delay_prod v) (delay_cons v) x (count v) (rrobin v) (verbose v).
Definition set_count v x := Vars (delay_prod v) (delay_cons v) (size v) x (rrobin v) (verbose v).

(** [size * count] is a product of [int]s. *)
Definition total (v : vars) : Z := s32 (size v * count v).

Definition parse_opts (argv : list string) (v : vars) : prog vars :=
  v ← opt_loop parse_opt (getopt_long optstring options None argv) v;
  v ← (if size v =? 0 then
         let v := set_size v DEFAULT_BLOCK_SIZE in
         call (Printf ("using default block size %d" +:+ NL) [PInt (size v)]);; Ret v
       else Ret v);
  v ← (if count v =? 0 then
         let v := set_count v DEFAULT_BLOCK_COUNT in
         call (Printf ("using default count %d" +:+ NL) [PInt (count v)]);; Ret v
       else Ret v);
  ARG_CHECK (verbose v) (delay_prod v <? 0) "DELAY_PROD must be positive";;
  ARG_CHECK (verbose v) (delay_cons v <? 0) "DELAY_CONS must be positive";;
  ARG_CHECK (verbose v) (size v <? 0) "SIZE must be positive";;
  ARG_CHECK (verbose v) (count v <? 0) "COUNT must be positive";;
  ARG_CHECK (verbose v) (INT_MAX <? total v) "Total transfer overflows INT_MAX";;
  Ret v.

(** ** Transfers *)

Definition do_sleep_rrobin (id turn rrobin delay : Z) : prog unit :=
  if negb (rrobin =? 0) then
    if negb (crem (s32 (turn + id)) 2 =? 0) then do_sleep delay;; Ret tt else Ret tt
  else do_sleep delay;; Ret tt.

(** [f(fd, buf + len, chunk)]: [f] gets the bytes it may access and gives its
    result with what it leaves there.  [write] leaves them alone; [read]
    overwrites a prefix. *)
Definition exch : Type := Z -> list Z -> prog (Z * list Z).

Definition write_ : exch := fun fd b => r ← call (Write fd b); Ret (r, b).
Definition read_ : exch := fun fd b =>
  '(r, d) ← call (Read fd (Z.of_nat (length b)));
  Ret (r, if r <? 0 then b else firstn (length b) d ++ drop (length d) b).

(** [buf[off .. off + n - 1]], and its replacement. *)
Definition slice (b : list Z) (off n : Z) : list Z := firstn (Z.to_nat n) (drop (Z.to_nat off) b).
Definition patch (b : list Z) (off : Z) (p : list Z) : list Z :=
  firstn (Z.to_nat off) b ++ p ++ drop (Z.to_nat off + length p) b.

(** The loop makes no progress when [f] gives 0; [fuel] counts its turns.
    The result is [len] and the buffer. *)
Fixpoint do_transfer (fuel : nat) (f : exch) (fd : Z) (buf : list Z) (size len : Z)
  : prog (Z * list Z) :=
  if len <? size then
    match fuel with
    | O => Fuel
    | S fuel =>
        let chunk := if s32 (size - len) <? PAGE_SIZE then s32 (size - len) else PAGE_SIZE in
        '(ret, part) ← f fd (slice buf len chunk);
        let buf := patch buf len part in
        if ret <? 0 then Ret (-1, buf)
        else do_transfer fuel f fd buf size (s32 (len + ret))
    end
  else Ret (len, buf).

Definition transfer (f : exch) (fd : Z) (buf : list Z) (size : Z) : prog (Z * list Z) :=
  do_transfer (Z.to_nat size) f fd buf size 0.

(** [for (i = i0; i < count; i++) { ... return -1; ... }]: the body gives
    [None] to go on and [Some r] to return. *)
Fixpoint for_ret {S} (n : nat) (i : Z) (body : Z -> S -> prog (S * option Z)) (s : S)
  : prog (S * option Z) :=
  match n with
  | O => Ret (s, None)
  | Datatypes.S n =>
      '(s, r) ← body i s;
      match r with Some r => Ret (s, Some r) | None => for_ret n (i + 1) body s end
  end.

(** [memset(buf, i, size)]: every byte is the low byte of [i]. *)
Definition memset (i size : Z) : list Z := replicate (Z.to_nat size) (u8 i).

Definition producer (verbose fd size count delay rrobin : Z) : prog Z :=
  p ← call (Calloc 1 (u64 size));
  match p with
  | None => Ret (-1)
  | Some _ =>
      msg verbose "producer start" [];;
      '(_, r) ← for_ret (Z.to_nat count) 0 (fun i buf =>
        let buf := memset i size in
        do_sleep_rrobin WRITE i rrobin delay;;
        '(r, buf) ← transfer write_ fd buf size;
        if r <? 0 then Ret (buf, Some (-1))
        else msg verbose "producer %d" [PInt i];; Ret (buf, None))
        (replicate (Z.to_nat size) 0);
      match r with
      | Some r => Ret r
      | None => msg verbose "producer exit" [];; Ret 0
      end
  end.

(** [sum += buf[j]] over signed [char]s. *)
Definition checksum (buf : list Z) : Z := foldl (fun sum b => s32 (sum + s8 b)) 0 buf.

Definition consumer (verbose fd size count delay rrobin : Z) : prog Z :=
  p ← call (Calloc 1 (u64 size));
  match p with
  | None => Ret (-1)
  | Some _ =>
      msg verbose "consumer start" [];;
      '(_, r) ← for_ret (Z.to_nat count) 0 (fun i buf =>
        do_sleep_rrobin READ i rrobin delay;;
        '(r, buf) ← transfer read_ fd buf size;
        if r <? 0 then Ret (buf, Some (-1))
        else
          msg verbose "consumer %d exp=%d act=%d"
            [PInt i; PInt (s32 (i * size)); PInt (checksum buf)];;
          Ret (buf, None))
        (replicate (Z.to_nat size) 0);
      match r with
      | Some r => Ret r
      | None => msg verbose "consumer exit" [];; Ret 0
      end
  end.

(** ** main

    The answer of [fork] tells the copies of the process apart; the result is
    the exit status of the copy. *)
Definition main (argv : list string) : prog Z :=
  p ← call (Calloc 1 28);
  match p with
  | None => Undef "write through NULL"
  | Some _ =>
      v ← parse_opts argv (Vars 0 0 0 0 0 0);
      '(ret, (rfd, wfd)) ← call Pipe;
      if ret <? 0 then call (Perror (Some "pipe failed"));; Ret EXIT_FAILURE
      else
        pid ← call Fork;
        if pid =? 0 then
          call (Close rfd);;
          producer (verbose v) wfd (size v) (count v) (delay_prod v) (rrobin v)
        else
          pid ← call Fork;
          if pid =? 0 then
            call (Close wfd);;
            consumer (verbose v) rfd (size v) (count v) (delay_cons v) (rrobin v)
          else
            for_ 2 0 (fun _ _ => call Wait;; Ret tt) tt;;
            Ret EXIT_SUCCESS
  end.

(** ** The pipe

    What the two ends promise, as the kernel documents them: a [write] of a
    non-empty buffer takes a non-empty prefix of it, a [read] gives a
    non-empty prefix of what is left in the pipe, in order, and no other call
    touches the pipe.  How much each call transfers is up to the kernel. *)

Definition is_read (fd : Z) {X} (e : sys X) : bool :=
  match e with Read fd' _ => fd' =? fd | _ => false end.
Definition is_write (fd : Z) {X} (e : sys X) : bool :=
  match e with Write fd' _ => fd' =? fd | _ => false end.

Class ReadsFrom {W} (h : handler W) (fd : Z) (stream : W -> list Z) : Prop := {
  rf_read n w : 0 < n -> stream w <> [] ->
    exists d w', h _ (Read fd n) w = ((Z.of_nat (length d), d), w')
                 /\ d <> [] /\ Z.of_nat (length d) <= n /\ stream w = d ++ stream w';
  rf_other X (e : sys X) w : is_read fd e = false -> stream (h _ e w).2 = stream w
}.

Class WritesTo {W} (h : handler W) (fd : Z) (sink : W -> list Z) : Prop := {
  wt_write b w : b <> [] ->
    exists r w', h _ (Write fd b) w = (Z.of_nat r, w')
                 /\ (0 < r <= length b)%nat /\ sink w' = sink w ++ firstn r b;
  wt_other X (e : sys X) w : is_write fd e = false -> sink (h _ e w).2 = sink w
}.

#[export] Instance traced_reads {W} (h : handler W) fd stream `{!ReadsFrom h fd stream} :
  ReadsFrom (traced h) fd (fun wt => stream wt.1).
Proof.
  split.
  - intros n [w tr] Hn Hs. destruct (rf_read n w Hn Hs) as (d & w' & Hr & Hd).
    exists d, (w', tr ++ [Ev (Read fd n) (Z.of_nat (length d), d)]).
    split; [|exact Hd]. unfold traced. cbn [fst snd]. by rewrite Hr.
  - intros X e [w tr] He. unfold traced. cbn [fst snd].
    pose proof (rf_other X e w He) as Ho. destruct (h X e w). exact Ho.
Qed.

#[export] Instance traced_writes {W} (h : handler W) fd sink `{!WritesTo h fd sink} :
  WritesTo (traced h) fd (fun wt => sink wt.1).
Proof.
  split.
  - intros b [w tr] Hb. destruct (wt_write b w Hb) as (r & w' & Hr & Hd).
    exists r, (w', tr ++ [Ev (Write fd b) (Z.of_nat r)]).
    split; [|exact Hd]. unfold traced. cbn [fst snd]. by rewrite Hr.
  - intros X e [w tr] He. unfold traced. cbn [fst snd].
    pose proof (wt_other X e w He) as Ho. destruct (h X e w). exact Ho.
Qed.

(** ** do_transfer *)

Lemma slice_length b off n :
  0 <= off -> 0 <= n -> off + n <= Z.of_nat (length b) -> length (slice b off n) = Z.to_nat n.
Proof. intros. unfold slice. rewrite length_take, length_drop. lia. Qed.

(** The chunk of a turn of the loop. *)
Definition chunk_of (size len : Z) : Z := Z.min (size - len) PAGE_SIZE.

Lemma chunk_value size len :
  0 <= len -> len < size -> size <= INT_MAX ->
  (if s32 (size - len) <? PAGE_SIZE then s32 (size - len) else PAGE_SIZE) = chunk_of size len
  /\ 0 < chunk_of size len /\ len + chunk_of size len <= size.
Proof.
  intros. unfold chunk_of, PAGE_SIZE. rewrite s32_id by clia. case_if; lia.
Qed.

(** Bytes that fill the front of a slice fill the buffer from there on. *)
Lemma patch_front buf len n d :
  0 <= len -> len + n <= Z.of_nat (length buf) -> Z.of_nat (length d) <= n ->
  patch buf len (d ++ drop (length d) (slice buf len n))
  = firstn (Z.to_nat len) buf ++ d ++ drop (Z.to_nat len + length d) buf.
Proof.
  intros Hl Hn Hd. unfold patch. f_equal. rewrite <- app_assoc. f_equal.
  rewrite length_app, length_drop, slice_length by lia.
  unfold slice. rewrite skipn_firstn_comm, drop_drop.
  etrans; [|apply (take_drop (Z.to_nat n - length d))].
  f_equal. rewrite drop_drop. f_equal. lia.
Qed.

Lemma drop_advance {A} (l : list A) (n r : nat) (x : list A) (m : nat) :
  (r <= m)%nat -> x = firstn m (drop n l) -> firstn r x ++ drop (n + r) l = drop n l.
Proof.
  intros Hr ->. rewrite take_take, Nat.min_l by done. rewrite <- drop_drop. apply take_drop.
Qed.

Lemma run_write_ {W} (h : handler W) fd b w :
  run h (write_ fd b) w = (Done ((h _ (Write fd b) w).1, b), (h _ (Write fd b) w).2).
Proof. unfold write_. by step_run. Qed.

Lemma run_read_ {W} (h : handler W) fd b w :
  run h (read_ fd b) w
  = (let '((r, d), w') := h _ (Read fd (Z.of_nat (length b))) w in
     (Done (r, if r <? 0 then b else firstn (length b) d ++ drop (length d) b), w')).
Proof. unfold read_. step_run. by destruct (h _ _ w) as [[r d] w']. Qed.

Lemma run_transfer_write {W} (h : handler W) fd sink `{!WritesTo h fd sink} fuel buf size len w :
  Z.of_nat (length buf) = size -> 0 <= len <= size -> size <= INT_MAX ->
  size - len <= Z.of_nat fuel ->
  exists w', run h (do_transfer fuel write_ fd buf size len) w = (Done (size, buf), w')
             /\ sink w' = sink w ++ drop (Z.to_nat len) buf.
Proof.
  revert len w. induction fuel as [|fuel IH]; intros len w Hb Hl Hs Hf.
  { assert (len = size) as -> by lia. cbn [do_transfer]. rewrite Z.ltb_irrefl. exists w.
    split; [done|]. by rewrite drop_ge, app_nil_r by lia. }
  cbn [do_transfer]. case_if; cycle 1.
  { assert (len = size) as -> by lia. exists w. split; [done|]. by rewrite drop_ge, app_nil_r by lia. }
  destruct (chunk_value size len) as (-> & Hc & Hlc); [lia..|].
  cbv zeta. step_run. rewrite run_write_.
  pose proof (slice_length buf len (chunk_of size len) ltac:(lia) ltac:(lia) ltac:(lia)) as Hsl.
  destruct (wt_write (slice buf len (chunk_of size len)) w) as (r & w1 & Hw & Hr & Hsink).
  { intros E0. rewrite E0 in Hsl. cbn in Hsl. lia. }
  rewrite Hw. cbn [fst snd and_then]. case_if; [lia|].
  assert (patch buf len (slice buf len (chunk_of size len)) = buf) as ->.
  { unfold patch. rewrite Hsl. unfold slice.
    rewrite <- (drop_drop buf _ (Z.to_nat len)). rewrite take_drop. apply take_drop. }
  rewrite s32_id by clia.
  destruct (IH (len + Z.of_nat r) w1) as (w' & -> & Hsink'); [lia..|].
  exists w'. split; [done|]. rewrite Hsink', Hsink, <- app_assoc. f_equal.
  replace (Z.to_nat (len + Z.of_nat r)) with (Z.to_nat len + r)%nat by lia.
  eapply drop_advance; [|reflexivity]. lia.
Qed.

Lemma run_transfer_read {W} (h : handler W) fd stream `{!ReadsFrom h fd stream} fuel buf size len w :
  Z.of_nat (length buf) = size -> 0 <= len <= size -> size <= INT_MAX ->
  size - len <= Z.of_nat fuel -> size - len <= Z.of_nat (length (stream w)) ->
  exists w', run h (do_transfer fuel read_ fd buf size len) w
             = (Done (size, firstn (Z.to_nat len) buf ++ firstn (Z.to_nat (size - len)) (stream w)), w')
             /\ stream w' = drop (Z.to_nat (size - len)) (stream w)
             /\ forall A (obs : W -> A),
                  (forall n w, obs (h _ (Read fd n) w).2 = obs w) -> obs w' = obs w.
Proof.
  revert buf len w. induction fuel as [|fuel IH]; intros buf len w Hb Hl Hs Hf Hst.
  { assert (len = size) as -> by lia. cbn [do_transfer]. rewrite Z.ltb_irrefl, Z.sub_diag. exists w.
    split; [|done]. rewrite take_ge by lia. cbn. by rewrite app_nil_r. }
  cbn [do_transfer]. case_if; cycle 1.
  { assert (len = size) as -> by lia. rewrite Z.sub_diag. exists w.
    split; [|done]. rewrite take_ge by lia. cbn. by rewrite app_nil_r. }
  destruct (chunk_value size len) as (-> & Hc & Hlc); [lia..|].
  cbv zeta. step_run. rewrite run_read_.
  pose proof (slice_length buf len (chunk_of size len) ltac:(lia) ltac:(lia) ltac:(lia)) as Hsl.
  rewrite Hsl, Z2Nat.id by lia.
  destruct (rf_read (chunk_of size len) w) as (d & w1 & Hr & Hd & Hdl & Hstr); [lia| |].
  { intros E0. rewrite E0 in Hst. cbn in Hst. lia. }
  assert (0 < length d)%nat as Hd0 by (destruct d; [done|cbn; lia]).
  rewrite Hr. cbn [fst snd and_then]. replace (Z.of_nat (length d) <? 0) with false by lia.
  rewrite (take_ge d) by lia.
  rewrite patch_front, s32_id by (lia || clia).
  destruct (IH (firstn (Z.to_nat len) buf ++ d ++ drop (Z.to_nat len + length d) buf)
              (len + Z.of_nat (length d)) w1) as (w' & -> & Hs' & Hobs).
  { rewrite !length_app, length_take, length_drop. lia. }
  { lia. } { lia. } { lia. }
  { rewrite Hstr in Hst. rewrite length_app in Hst. lia. }
  exists w'. rewrite Hstr in *. split_and!.
  - do 3 f_equal. rewrite app_assoc.
    replace (Z.to_nat (len + Z.of_nat (length d)))
      with (length (firstn (Z.to_nat len) buf ++ d)) by (rewrite length_app, length_take; lia).
    rewrite take_app_length, <- app_assoc. f_equal.
    replace (Z.to_nat (size - len)) with (length d + Z.to_nat (size - (len + Z.of_nat (length d))))%nat by lia.
    by rewrite take_app_add.
  - rewrite Hs'.
    replace (Z.to_nat (size - len)) with (length d + Z.to_nat (size - (len + Z.of_nat (length d))))%nat by lia.
    by rewrite drop_app_add.
  - intros A obs Ho. rewrite (Hobs A obs Ho). rewrite <- (Ho (chunk_of size len) w). by rewrite Hr.
Qed.

(** ** Sleeping and printing leave the pipe alone *)

Definition is_data {X} (e : sys X) : bool :=
  match e with Read _ _ | Write _ _ | Vasprintf _ _ => true | _ => false end.

Lemma run_do_sleep_rrobin {W A} (h : handler W) (obs : W -> A) id turn rr delay w :
  (forall X (e : sys X) w, is_data e = false -> obs (h _ e w).2 = obs w) ->
  exists w', run h (do_sleep_rrobin id turn rr delay) w = (Done tt, w') /\ obs w' = obs w.
Proof.
  intros Ho.
  assert (forall d, exists r w', run h (do_sleep d) w = (Done r, w') /\ obs w' = obs w) as Hs.
  { intros d. unfold do_sleep. case_if; [by do 2 eexists|]. step_run.
    case_if; step_run; do 2 eexists; (split; [reflexivity|]); by rewrite !Ho by done. }
  unfold do_sleep_rrobin. destruct (Hs delay) as (r & w' & Hr & Hw).
  repeat case_if; step_run; rewrite ?Hr; step_run; eauto.
Qed.

Lemma run_msg {W A} (h : handler W) (obs : W -> A) v f args w :
  (forall X (e : sys X) w, is_data e = false -> obs (h _ e w).2 = obs w) ->
  (forall w, obs (h _ (Vasprintf f args) w).2 = obs w) ->
  exists w', run h (msg v f args) w = (Done tt, w') /\ obs w' = obs w.
Proof.
  intros Ho Hv. unfold msg. case_if; [|by exists w]. step_run.
  destruct (h _ (Vasprintf f args) w).1 as [[p s]|]; step_run; eexists; (split; [reflexivity|]);
    by rewrite ?Ho by done.
Qed.

(** What the consumer reports: block, expected sum, actual sum. *)
Definition report (e : ev) : option (Z * Z * Z) :=
  match e with
  | Ev (Vasprintf f [PInt i; PInt x; PInt y]) _ =>
      if String.eqb f "consumer %d exp=%d act=%d" then Some (i, x, y) else None
  | _ => None
  end.
Definition reports (tr : list ev) : list (Z * Z * Z) := omap report tr.

Lemma reports_app tr1 tr2 : reports (tr1 ++ tr2) = reports tr1 ++ reports tr2.
Proof. unfold reports. by rewrite omap_app. Qed.

Lemma reports_cons e tr : reports (e :: tr) = option_list (report e) ++ reports tr.
Proof. unfold reports. cbn. by destruct (report e). Qed.

Lemma report_quiet {X} (e : sys X) x : is_data e = false -> report (Ev e x) = None.
Proof. by destruct e. Qed.

Lemma run_msg_report {W} (h : handler W) (obs : W -> list Z) v f args w tr :
  (forall X (e : sys X) w, is_data e = false -> obs (h _ e w).2 = obs w) ->
  (forall w, obs (h _ (Vasprintf f args) w).2 = obs w) ->
  v <> 0 ->
  exists w' tr', run (traced h) (msg v f args) (w, tr) = (Done tt, (w', tr ++ tr'))
    /\ obs w' = obs w /\ reports tr' = option_list (report (Ev (Vasprintf f args) None)).
Proof.
  intros Ho Hv Hne. unfold msg. destruct (Z.eqb_spec v 0); [done|]. cbn [negb]. step_run.
  assert (forall x, report (Ev (Vasprintf f args) x) = report (Ev (Vasprintf f args) None)) as Hx by done.
  pose proof (Hv w) as Hv'.
  destruct (h _ (Vasprintf f args) w).1 as [[p s]|] eqn:E; step_run; do 2 eexists;
    (split; [rewrite <- ?app_assoc; reflexivity|]); (split; [by rewrite ?Ho by done|]).
  - cbn [app]. rewrite !reports_cons, Hx. apply app_nil_r.
  - rewrite !reports_cons. apply app_nil_r.
Qed.

(** A loop that never returns early. *)
Lemma run_for_ret {W S} (h : handler W) (Inv : Z -> S -> W -> Prop) body n i s w :
  (forall j s w, i <= j < i + Z.of_nat n -> Inv j s w ->
     exists s' w', run h (body j s) w = (Done (s', None), w') /\ Inv (j + 1) s' w') ->
  Inv i s w ->
  exists s' w', run h (for_ret n i body s) w = (Done (s', None), w') /\ Inv (i + Z.of_nat n) s' w'.
Proof.
  revert i s w. induction n as [|n IH]; intros i s w Hbody Hinv.
  { exists s, w. split; [done|]. by replace (i + Z.of_nat 0) with i by lia. }
  cbn [for_ret]. step_run.
  destruct (Hbody i s w ltac:(lia) Hinv) as (s' & w' & -> & Hinv'). cbn [and_then].
  destruct (IH (i + 1) s' w') as (s'' & w'' & -> & Hinv''); [|done|].
  { intros j s0 w0 Hj. apply Hbody. lia. }
  exists s'', w''. split; [done|].
  by replace (i + Z.of_nat (Datatypes.S n)) with (i + 1 + Z.of_nat n) by lia.
Qed.

(** ** The two processes *)

(** The stream of [n] blocks from block [i] on. *)
Fixpoint blocks (i : Z) (n : nat) (size : Z) : list Z :=
  match n with O => [] | S n => memset i size ++ blocks (i + 1) n size end.

Lemma blocks_S i n size :
  blocks i (S n) size = blocks i n size ++ memset (i + Z.of_nat n) size.
Proof.
  revert i. induction n as [|n IH]; intros i.
  - cbn [blocks]. rewrite app_nil_r. cbn. by rewrite Z.add_0_r.
  - change (blocks i (S (S n)) size) with (memset i size ++ blocks (i + 1) (S n) size).
    rewrite IH. cbn [blocks]. rewrite <- app_assoc. do 3 f_equal. lia.
Qed.

Lemma length_memset i size : length (memset i size) = Z.to_nat size.
Proof. apply length_replicate. Qed.

Lemma run_producer {W} (h : handler W) fd sink `{!WritesTo h fd sink} v size count delay rr w :
  (forall n m w, (h _ (Calloc n m) w).1 <> None) ->
  0 <= size <= INT_MAX -> 0 <= count <= INT_MAX ->
  exists w', run h (producer v fd size count delay rr) w = (Done 0, w')
             /\ sink w' = sink w ++ blocks 0 (Z.to_nat count) size.
Proof.
  intros Hcal Hs Hc. unfold producer. step_run.
  assert (forall X (e : sys X) w, is_data e = false -> sink (h _ e w).2 = sink w) as Ho.
  { intros X e w0 He. apply wt_other. by destruct e. }
  assert (forall f a w, sink (h _ (Vasprintf f a) w).2 = sink w) as Hv.
  { intros. by apply wt_other. }
  destruct (h _ (Calloc 1 (u64 size)) w).1 as [p|] eqn:Ep; [|by apply Hcal in Ep]. step_run.
  destruct (run_msg h sink v "producer start" [] (h _ (Calloc 1 (u64 size)) w).2) as (w1 & -> & H1);
    [done|apply Hv|]. cbn [and_then]. step_run. rewrite Ho in H1 by done.
  match goal with |- context [run _ (for_ret ?n 0 ?b ?s0) w1] =>
    destruct (run_for_ret h (fun i buf w' => sink w' = sink w ++ blocks 0 (Z.to_nat i) size) b n 0 s0 w1)
      as (s' & w2 & -> & H2)
  end.
  - intros i buf w2 Hi Hinv. step_run.
    destruct (run_do_sleep_rrobin h sink WRITE i rr delay w2) as (w3 & -> & H3); [done|]. step_run.
    destruct (run_transfer_write h fd sink (Z.to_nat size) (memset i size) size 0 w3) as (w4 & Hr & H4);
      [rewrite length_memset; lia|lia..|]. unfold transfer. rewrite Hr. cbn [and_then].
    replace (size <? 0) with false by lia. step_run.
    destruct (run_msg h sink v "producer %d" [PInt i] w4) as (w5 & -> & H5); [done|apply Hv|]. step_run.
    do 2 eexists. split; [reflexivity|]. rewrite H5, H4, H3, Hinv.
    replace (Z.to_nat (i + 1)) with (S (Z.to_nat i)) by lia.
    rewrite blocks_S, app_assoc. f_equal. change (drop (Z.to_nat 0) (memset i size)) with (memset i size).
    by replace (0 + Z.of_nat (Z.to_nat i)) with i by lia.
  - cbn. by rewrite app_nil_r.
  - cbn [and_then]. step_run.
    destruct (run_msg h sink v "producer exit" [] w2) as (w3 & -> & H3); [done|apply Hv|]. step_run.
    exists w3. split; [done|]. rewrite H3, H2.
    by replace (0 + Z.of_nat (Z.to_nat count)) with count by lia.
Qed.

(** The sum of a block: [size] times the signed value of its byte. *)
Lemma checksum_block i size :
  0 <= size <= INT_MAX / 128 -> checksum (memset i size) = size * s8 i.
Proof.
  intros Hs. unfold checksum, memset.
  assert (-128 <= s8 i <= 127) as Hi by (pose proof (swrap_range 8 i); unfold s8; simpl in *; lia).
  change (INT_MAX / 128) with 16777215 in Hs.
  assert (forall n acc, -2147483520 <= acc <= 2147483520 ->
    -2147483520 <= acc + Z.of_nat n * s8 i <= 2147483520 ->
    foldl (fun sum b => s32 (sum + s8 b)) acc (replicate n (u8 i)) = acc + Z.of_nat n * s8 i) as H.
  { induction n as [|n IH]; intros acc Ha Hn; cbn [replicate foldl].
    - lia.
    - assert (s8 (u8 i) = s8 i) as -> by apply swrap_mod.
      rewrite s32_id by clia. rewrite IH by nia. lia. }
  rewrite H by nia. rewrite Z2Nat.id by lia. lia.
Qed.

(** The report of block [i] of the producer's stream. *)
Definition expected (size : Z) (i : Z) : Z * Z * Z := (i, i * size, size * s8 i).

(** What a call that moves no data leaves alone. *)
Lemma quiet_observed {W} (h : handler W) (stream : W -> list Z) :
  (forall X (e : sys X) w, is_data e = false -> stream (h _ e w).2 = stream w) ->
  forall X (e : sys X) (w : W * list ev), is_data e = false ->
    (stream (traced h X e w).2.1, reports (traced h X e w).2.2) = (stream w.1, reports w.2).
Proof.
  intros Ho X e [w0 tr] He. unfold traced. cbn [fst snd]. pose proof (Ho X e w0 He) as Ho'.
  destruct (h X e w0) as [x w1]. cbn [fst snd] in *. rewrite Ho'. f_equal.
  rewrite reports_app, reports_cons, report_quiet by done. apply app_nil_r.
Qed.

(** One turn of the consumer takes one block and reports it. *)
Lemma run_consume_block {W} (h : handler W) fd stream `{!ReadsFrom h fd stream} v size delay rr i buf rest w tr :
  v <> 0 -> 0 <= size <= INT_MAX / 128 -> 0 <= i -> i * size <= INT_MAX -> Z.of_nat (length buf) = size ->
  stream w = memset i size ++ rest ->
  exists buf' w' tr', run (traced h)
      (do_sleep_rrobin READ i rr delay;;
       '(r, buf) ← transfer read_ fd buf size;
       if r <? 0 then Ret (buf, Some (-1))
       else msg v "consumer %d exp=%d act=%d" [PInt i; PInt (s32 (i * size)); PInt (checksum buf)];;
            Ret (buf, None)) (w, tr) = (Done (buf', None), (w', tr'))
    /\ Z.of_nat (length buf') = size /\ stream w' = rest /\ reports tr' = reports tr ++ [expected size i].
Proof.
  intros Hv0 Hs Hi His Hb Hstr. step_run.
  assert (forall X (e : sys X) w, is_data e = false -> stream (h _ e w).2 = stream w) as Ho.
  { intros X e w0 He. apply rf_other. by destruct e. }
  destruct (run_do_sleep_rrobin (traced h) (fun w => (stream w.1, reports w.2)) READ i rr delay
    (w, tr)) as ([w3 tr3] & -> & H3); [by apply quiet_observed|]. step_run. cbn [fst snd] in H3. injection H3 as H3 H3r.
  destruct (run_transfer_read (traced h) fd (fun wt => stream wt.1) (Z.to_nat size) buf size 0 (w3, tr3))
    as ([w4 tr4] & Hr & H4 & H4o); [done|lia| |lia| |].
  { change (INT_MAX / 128) with 16777215 in Hs. clia. }
  { cbn [fst]. rewrite H3, Hstr, length_app, length_memset. lia. }
  cbn [fst snd] in *. rewrite Hstr in H3. rewrite H3, Z.sub_0_r in Hr, H4.
  rewrite <- (length_memset i size), take_app_length in Hr. rewrite <- (length_memset i size), drop_app_length in H4.
  cbn [Z.to_nat firstn app] in Hr. unfold transfer. rewrite length_memset in Hr. rewrite Hr. cbn [and_then].
  replace (size <? 0) with false by lia. step_run.
  change (firstn (Z.to_nat 0) buf ++ memset i size) with (memset i size).
  assert (reports tr4 = reports tr3) as H4r.
  { refine (H4o _ (fun wt => reports wt.2) _). intros n [w5 tr5]. unfold traced. cbn [fst snd].
    destruct (h _ (Read fd n) w5). cbn [fst snd]. rewrite reports_app. apply app_nil_r. }
  destruct (run_msg_report h stream v "consumer %d exp=%d act=%d"
    [PInt i; PInt (s32 (i * size)); PInt (checksum (memset i size))] w4 tr4)
    as (w5 & tr5 & -> & H5 & H5r); [done|intros; by apply rf_other|done|]. step_run.
  do 3 eexists. split; [reflexivity|]. split_and!.
  - rewrite length_memset. lia.
  - by rewrite H5, H4.
  - rewrite reports_app, H4r, H3r, H5r. cbn. unfold expected.
    assert (0 <= i * size) by nia. rewrite checksum_block, s32_id by (done || clia). done.
Qed.

Lemma run_consumer {W} (h : handler W) fd stream `{!ReadsFrom h fd stream} v size count delay rr w :
  (forall n m w, (h _ (Calloc n m) w).1 <> None) -> v <> 0 ->
  0 <= size <= INT_MAX / 128 -> 0 <= count -> count * size <= INT_MAX -> count <= INT_MAX ->
  stream w = blocks 0 (Z.to_nat count) size ->
  exists w' tr, run (traced h) (consumer v fd size count delay rr) (w, []) = (Done 0, (w', tr))
    /\ stream w' = [] /\ reports tr = map (expected size) (seqZ 0 count).
Proof.
  intros Hcal Hv0 Hs Hc Hsc Hcm Hst. unfold consumer. step_run.
  assert (forall X (e : sys X) w, is_data e = false -> stream (h _ e w).2 = stream w) as Ho.
  { intros X e w0 He. apply rf_other. by destruct e. }
  assert (forall f a w, stream (h _ (Vasprintf f a) w).2 = stream w) as Hv by (intros; by apply rf_other).
  destruct (h _ (Calloc 1 (u64 size)) w).1 as [p|] eqn:Ep; [|by apply Hcal in Ep]. step_run.
  destruct (run_msg_report h stream v "consumer start" [] (h _ (Calloc 1 (u64 size)) w).2
              ([] ++ [Ev (Calloc 1 (u64 size)) (Some p)])) as (w1 & tr1 & -> & H1 & R1); [done|apply Hv|done|].
  cbn [and_then]. step_run. rewrite Ho in H1 by done.
  match goal with |- context [run _ (for_ret ?n 0 ?b ?s0) ?w1] =>
    destruct (run_for_ret (traced h) (fun i buf wt => Z.of_nat (length buf) = size
      /\ stream wt.1 = blocks i (Z.to_nat (count - i)) size
      /\ reports wt.2 = map (expected size) (seqZ 0 i)) b n 0 s0 w1)
      as (s' & [w2 tr2] & -> & H2 & H2s & H2r)
  end.
  - intros i buf [w2 tr2] Hi (Hb & Hstr & Hrep). cbn [fst snd] in *.
    replace (Z.to_nat (count - i)) with (S (Z.to_nat (count - (i + 1)))) in Hstr by lia. cbn [blocks] in Hstr.
    destruct (run_consume_block h fd stream v size delay rr i buf _ w2 tr2 Hv0 Hs ltac:(lia) ltac:(nia) Hb Hstr)
      as (buf' & w3 & tr3 & Hr & H3 & H3s & H3r).
    do 2 eexists. split; [exact Hr|]. cbn [fst snd]. split_and!; [done..|].
    rewrite H3r, Hrep. replace (i + 1) with (Z.of_nat (S (Z.to_nat i))) by lia.
    by rewrite seqZ_S, map_app, Z2Nat.id by lia.
  - cbn [fst snd]. rewrite length_replicate, Z.sub_0_r, H1. split_and!; [lia|done|].
    cbn [app]. rewrite reports_cons, R1. done.
  - cbn [fst snd and_then] in *. step_run.
    destruct (run_msg_report h stream v "consumer exit" [] w2 tr2) as (w3 & tr3 & -> & H3 & R3);
      [done|apply Hv|done|]. step_run.
    do 2 eexists. split; [reflexivity|]. rewrite reports_app, R3, H3, H2s, H2r. split.
    + by replace (count - (0 + Z.of_nat (Z.to_nat count))) with 0 by lia.
    + rewrite app_nil_r. do 2 f_equal. lia.
Qed.

(** ** The command line: lemmas *)

Lemma run_ARG_CHECK {W} (h : handler W) v cond f w :
  exists w', run h (ARG_CHECK v cond f) w = (if cond then Exited EXIT_FAILURE else Done tt, w').
Proof.
  unfold ARG_CHECK. destruct cond; [|by exists w]. step_run.
  destruct (run_msg h (fun _ => tt) v f [] w) as (w1 & -> & _); [done..|]. cbn [and_then].
  unfold usage, usage_text. cbn [eprint_all]. step_run. cbn. eauto.
Qed.

(** The options of a configuration. *)
Definition settings (v : vars) : list (option_ * option string) :=
  [(Option_ "size" true "s", Some (render (size v)));
   (Option_ "count" true "n", Some (render (count v)));
   (Option_ "delay-prod" true "p", Some (render (delay_prod v)));
   (Option_ "delay-cons" true "c", Some (render (delay_cons v)))]
  ++ (if rrobin v =? 1 then [(Option_ "round-robin" false "r", None)] else [])
  ++ (if verbose v =? 1 then [(Option_ "verbose" false "v", None)] else []).

Definition in_range (v : vars) : Prop :=
  in_s32 (delay_prod v) /\ in_s32 (delay_cons v) /\ in_s32 (size v) /\ in_s32 (count v)
  /\ 0 <= rrobin v <= 1 /\ 0 <= verbose v <= 1.

Definition negative (v : vars) : bool :=
  (delay_prod v <? 0) || (delay_cons v <? 0) || (size v <? 0) || (count v <? 0).

Definition with_defaults (v : vars) : vars :=
  let v := if size v =? 0 then set_size v DEFAULT_BLOCK_SIZE else v in
  if count v =? 0 then set_count v DEFAULT_BLOCK_COUNT else v.

Lemma read_options v :
  in_range v ->
  opt_loop parse_opt (getopt_long optstring options None (words (settings v))) (Vars 0 0 0 0 0 0) = Ret v.
Proof.
  destruct v as [p c s n r b]. intros (Hp & Hc & Hs & Hn & Hr & Hb).
  cbn [delay_prod delay_cons size count rrobin verbose] in *.
  rewrite getopt_long_words.
  2:{ unfold settings. cbn [rrobin verbose size count delay_prod delay_cons].
      destruct (r =? 1), (b =? 1); reflexivity. }
  unfold settings. cbn [delay_prod delay_cons size count rrobin verbose].
  assert (forall x : Z, 0 <= x <= 1 -> x = 0 \/ x = 1) as H01 by lia.
  destruct (H01 r Hr) as [-> | ->], (H01 b Hb) as [-> | ->];
    cbn [Z.eqb Pos.eqb app map]; unfold found_of, parse_opt;
    cbn [opt_loop opt with_arg optarg fst snd val]; rewrite ?atoi_render by done; reflexivity.
Qed.

Lemma negative_defaults v : negative (with_defaults v) = negative v.
Proof.
  destruct v as [p c s n r b]. unfold negative, with_defaults. cbn [size count].
  destruct (Z.eqb_spec s 0) as [->|]; cbn [size count set_size];
    destruct (Z.eqb_spec n 0) as [->|]; reflexivity.
Qed.

(** The sums that a report compares agree exactly for the blocks below 128. *)
Lemma expected_agree size n i x y :
  0 <= size -> (i, x, y) ∈ map (expected size) (seqZ 0 n) -> x = y <-> size = 0 \/ i < 128.
Proof.
  intros Hs Hin. apply list_elem_of_fmap in Hin as (j & Hj & Hin). unfold expected in Hj. injection Hj as -> -> ->.
  apply elem_of_seqZ in Hin. destruct (decide (j < 128)).
  - rewrite s8_id by lia. lia.
  - pose proof (swrap_range 8 j). unfold s8. simpl in *. nia.
Qed.

(** ** Theorems *)

(** End to end: over a pipe that delivers in order, whatever chunks the
    kernel chooses for the single [write]s and [read]s and whatever the
    delays, both processes finish with status 0, the producer writes exactly
    its blocks, the consumer drains the pipe and reports each block once, in
    order, with the sum of its signed bytes; the reported sums agree exactly
    for the blocks below 128. *)
Theorem pipette_end_to_end {W1 W2} (h1 : handler W1) (h2 : handler W2)
    (sink : W1 -> list Z) (stream : W2 -> list Z) (rfd wfd v size count dp dc rr : Z)
    (w1 : W1) (w2 : W2) `{!WritesTo h1 wfd sink} `{!ReadsFrom h2 rfd stream}
    (Hc1 : forall n m w, (h1 _ (Calloc n m) w).1 <> None)
    (Hc2 : forall n m w, (h2 _ (Calloc n m) w).1 <> None) (Hv : v <> 0)
    (Hs : 0 <= size <= INT_MAX / 128) (Hn : 0 <= count <= INT_MAX)
    (Htot : count * size <= INT_MAX) :
  exists w1', run h1 (producer v wfd size count dp rr) w1 = (Done 0, w1')
  /\ sink w1' = sink w1 ++ blocks 0 (Z.to_nat count) size
  /\ (stream w2 = blocks 0 (Z.to_nat count) size ->
      exists w2' tr, run (traced h2) (consumer v rfd size count dc rr) (w2, []) = (Done 0, (w2', tr))
        /\ stream w2' = []
        /\ reports tr = map (fun i => (i, i * size, size * s8 i)) (seqZ 0 count)
        /\ forall i x y, (i, x, y) ∈ reports tr -> (x = y <-> size = 0 \/ i < 128)).
Proof.
  assert (size <= INT_MAX) by (change (INT_MAX / 128) with 16777215 in Hs; clia).
  destruct (run_producer h1 wfd sink v size count dp rr w1) as (w1' & Hr1 & Hsink); [done|lia..|].
  exists w1'. split; [done|]. split; [done|]. intros Hst.
  destruct (run_consumer h2 rfd stream v size count dc rr w2) as (w2' & tr & Hr2 & He & Hrep);
    [done|done|lia|lia|lia|lia|done|].
  exists w2', tr. split_and!; [done..|]. intros i x y Hin. rewrite Hrep in Hin.
  apply (expected_agree _ count); [lia|exact Hin].
Qed.

(** The two ends of a pipe that transfers one byte at a time. *)
Definition byte_sink (fd : Z) : handler (list Z) := fun X e w =>
  match e in sys X return X * list Z with
  | Write fd' b =>
      match b with
      | b :: _ => if fd' =? fd then (1, w ++ [b]) else (1, w)
      | [] => (0, w)
      end
  | e => (default_answer e, w)
  end.

Definition byte_source (fd : Z) : handler (list Z) := fun X e w =>
  match e in sys X return X * list Z with
  | Read fd' n =>
      match w with
      | b :: w' => if fd' =? fd then ((1, [b]), w') else ((0, []), w)
      | [] => ((0, []), [])
      end
  | e => (default_answer e, w)
  end.

#[export] Instance byte_sink_writes fd : WritesTo (byte_sink fd) fd (fun w => w).
Proof.
  split.
  - intros [|b l] w H; [done|]. exists 1%nat, (w ++ [b]). cbn. rewrite Z.eqb_refl.
    split; [done|]. split; [lia|done].
  - intros X e w He. destruct e; try done. cbn in *. destruct bytes; [done|]. by rewrite He.
Qed.

#[export] Instance byte_source_reads fd : ReadsFrom (byte_source fd) fd (fun w => w).
Proof.
  split.
  - intros n [|b w] Hn H; [done|]. exists [b], w. cbn. rewrite Z.eqb_refl.
    split; [done|]. split; [done|]. split; [lia|done].
  - intros X e w He. destruct e; try done. cbn in *. destruct w; [done|]. by rewrite He.
Qed.

Theorem pipette_end_to_end_witness :
  exists w' tr, run (traced (byte_source 3)) (consumer 1 3 2 130 0 0) (blocks 0 130 2, [])
                = (Done 0, (w', tr)) /\ w' = []
    /\ reports tr = map (fun i => (i, i * 2, 2 * s8 i)) (seqZ 0 130).
Proof.
  destruct (pipette_end_to_end (byte_sink 4) (byte_source 3) (fun w => w) (fun w => w) 3 4 1 2 130 0 0 0
    [] (blocks 0 130 2)) as (w1' & _ & _ & H).
  - discriminate.
  - discriminate.
  - discriminate.
  - vm_compute. intuition discriminate.
  - vm_compute. intuition discriminate.
  - vm_compute. discriminate.
  - destruct (H eq_refl) as (w2' & tr & Hr & He & Hrep & _).
    exists w2', tr. exact (conj Hr (conj He Hrep)).
Defined.

(** The command line: a configuration written as options is read back
    exactly, with the documented defaults in place of zeros, and is refused
    with exit status 1 exactly when a member is negative.  The size of the
    whole transfer is not checked: the product of two [int]s never exceeds
    INT_MAX. *)
Theorem pipette_parse_opts_correct {W} (h : handler W) (v : vars) (w : W) (Hv : in_range v) :
  (run h (parse_opts (words (settings v)) (Vars 0 0 0 0 0 0)) w).1
  = if negative v then Exited EXIT_FAILURE else Done (with_defaults v).
Proof.
  unfold parse_opts. step_run. rewrite read_options, run_ret by done. cbn [and_then]. step_run.
  match goal with |- context [run h (if size v =? 0 then ?a else ?b) w] =>
    assert (exists w1, run h (if size v =? 0 then a else b) w
              = (Done (if size v =? 0 then set_size v DEFAULT_BLOCK_SIZE else v), w1))
    as [w1 ->] by (case_if; cbv zeta; step_run; eauto) end.
  set (v1 := if size v =? 0 then _ else _). cbn [and_then]. step_run.
  match goal with |- context [run h (if count v1 =? 0 then ?a else ?b) w1] =>
    assert (exists w2, run h (if count v1 =? 0 then a else b) w1
              = (Done (if count v1 =? 0 then set_count v1 DEFAULT_BLOCK_COUNT else v1), w2))
    as [w2 ->] by (case_if; cbv zeta; step_run; eauto) end.
  set (v2 := if count v1 =? 0 then _ else _). cbn [and_then]. step_run.
  assert (with_defaults v = v2) as -> by (unfold with_defaults; fold v1; reflexivity).
  assert (negative v2 = negative v) as <- by apply (negative_defaults v).
  assert (INT_MAX <? total v2 = false) as ->.
  { apply Z.ltb_ge. unfold total. pose proof (s32_range (size v2 * count v2)). clia. }
  clearbody v2. unfold negative.
  destruct (run_ARG_CHECK h (verbose v2) (delay_prod v2 <? 0) "DELAY_PROD must be positive" w2) as [w3 ->].
  destruct (delay_prod v2 <? 0); [done|]. cbn [and_then]. step_run.
  destruct (run_ARG_CHECK h (verbose v2) (delay_cons v2 <? 0) "DELAY_CONS must be positive" w3) as [w4 ->].
  destruct (delay_cons v2 <? 0); [done|]. cbn [and_then]. step_run.
  destruct (run_ARG_CHECK h (verbose v2) (size v2 <? 0) "SIZE must be positive" w4) as [w5 ->].
  destruct (size v2 <? 0); [done|]. cbn [and_then]. step_run.
  destruct (run_ARG_CHECK h (verbose v2) (count v2 <? 0) "COUNT must be positive" w5) as [w6 ->].
  destruct (count v2 <? 0); [done|]. reflexivity.
Qed.

Theorem pipette_parse_opts_correct_witness :
  (run default_handler (parse_opts (words (settings (Vars 0 5 0 3 1 0))) (Vars 0 0 0 0 0 0)) tt).1
  = Done (Vars 0 5 4096 3 1 0).
Proof.
  rewrite (pipette_parse_opts_correct default_handler (Vars 0 5 0 3 1 0) tt).
  - reflexivity.
  - vm_compute. intuition discriminate.
Defined.
