(* ===== verification/Rpc.v ===== *)
(** * src/rpc.h, src/rpc-client.c, src/rpc-server.c

    A remote procedure call benchmark over TCP: fixed messages of four
    [int]s, a server that performs the requested work and answers, a client
    that times a series of calls. *)

From S2P Require Import Prelude CInt CString Libc CFloat Utils Getopt Calibrate.

Local Open Scope string_scope.
Local Open Scope list_scope.
Local Open Scope Z_scope.

(** ** Messages *)

Definition RPC_HOG : Z := 0.
Definition RPC_SLEEP : Z := 1.
Definition RPC_PING : Z := 2.

Record message := Message { cmd : Z; arg : Z; cnt : Z; ret : Z }.

Definition sizeof_message : Z := 16.
Definition zero_message : message := Message 0 0 0 0.
Definition set_ret m r := Message (cmd m) (arg m) (cnt m) r.

(** The bytes of an integer of [n] bytes in memory (little endian). *)
Fixpoint le_bytes (n : nat) (x : Z) : list Z :=
  match n with O => [] | S n => x mod 256 :: le_bytes n (x / 256) end.
Fixpoint le_value (l : list Z) : Z :=
  match l with [] => 0 | b :: l => b + 256 * le_value l end.

Definition int_bytes (x : Z) : list Z := le_bytes 4 (u32 x).
Definition int_of (l : list Z) : Z := s32 (le_value l).

(** The memory of a [struct message], which the programs write and read as it
    is: four [int]s without padding, of which these two functions are the view
    as a record; no code converts. *)
Definition encode (m : message) : list Z :=
  int_bytes (cmd m) ++ int_bytes (arg m) ++ int_bytes (cnt m) ++ int_bytes (ret m).

Definition decode (l : list Z) : message :=
  Message (int_of (firstn 4 l)) (int_of (firstn 4 (drop 4 l)))
          (int_of (firstn 4 (drop 8 l))) (int_of (firstn 4 (drop 12 l))).

(** A [read] into a message whose old memory is [old]: the bytes that came
    replace a prefix. *)
Definition read_into (old : message) (bytes : list Z) : message :=
  decode (bytes ++ drop (length bytes) (encode old)).

(** ** rpc-server.c *)

(** The work a message asks for; [msg.arg * count] is unsigned. *)
Definition serve (count : Z) (m : message) : prog unit :=
  if cmd m =? RPC_HOG then hog (s64 (u64 (arg m * count)))
  else if cmd m =? RPC_SLEEP then do_sleep (arg m);; Ret tt
  else Ret tt.

(** [do { ... } while (msg.cnt > 0)]; [fuel] bounds the messages. *)
Fixpoint session (fuel : nat) (count fd : Z) : prog unit :=
  match fuel with
  | O => Fuel
  | S fuel =>
      '(r, bytes) ← call (Read fd sizeof_message);
      (if r <? 0 then throw (Some "ERROR reading from socket") else Ret tt);;
      let msg := read_into zero_message bytes in
      serve count msg;;
      let msg := set_ret msg 42 in
      r ← call (Write fd (encode msg));
      (if r <? 0 then throw (Some "ERROR writing to socket") else Ret tt);;
      if 0 <? cnt msg then session fuel count fd else Ret tt
  end.

(** [while (1) { accept ... close }]: [clients] sessions, then the model stops. *)
Fixpoint accept_loop (clients fuel : nat) (count sockfd : Z) : prog unit :=
  match clients with
  | O => Fuel
  | S clients =>
      fd ← call (Accept sockfd);
      (if fd <? 0 then throw (Some "ERROR on accept") else Ret tt);;
      session fuel count fd;;
      call (Close fd);;
      accept_loop clients fuel count sockfd
  end.

(** [htons]: a port has 16 bits. *)
Definition htons (p : Z) : Z := uwrap 16 p.

Definition server_main (clients fuel : nat) (argv : list string) : prog unit :=
  match argv with
  | addr :: port :: _ =>
      call (Printf ("server starting" +:+ NL) []);;
      c ← calibrate 10000;
      let count := c / 10 in
      sockfd ← call Socket;
      (if sockfd <? 0 then throw (Some "ERROR opening socket") else Ret tt);;
      r ← call (Setsockopt_reuse sockfd);
      (if r <? 0 then throw (Some "ERROR while setting socket option") else Ret tt);;
      server ← call (Gethostbyname addr);
      match server with
      | None => call (Eprintf ("ERROR, no such host" +:+ NL) []);; Exit 0
      | Some h_addr =>
          r ← call (Bind sockfd h_addr (htons (atoi port)));
          (if r <? 0 then throw (Some "ERROR on binding") else Ret tt);;
          call (Printf ("server waiting cmd" +:+ NL) []);;
          call (Listen sockfd 5);;
          accept_loop clients fuel count sockfd
      end
  | _ =>
      call (Eprintf ("ERROR, no bind address and/or port provided" +:+ NL) []);; Exit 1
  end.

(** ** rpc-client.c *)

Definition progname : string := "wk-rpc-client".
Definition DEFAULT_ASYNC : Z := 0.
Definition DEFAULT_DELAY : Z := 10.
Definition DEFAULT_PORT : Z := 9876.

Record opts := Opts {
  async : Z; delay : Z; ocmd : Z; count : Z; server : option string;
  port : Z; poll : Z; repeat : Z; verbose : Z
}.

Definition usage {A} : prog A := usage_text
  [("Usage: %s [OPTIONS] [COMMAND]" +:+ NL, [PStr (Some progname)]);
   (NL +:+ "Options:" +:+ NL +:+ NL, []);
   ("--server         server address" +:+ NL, []);
   ("--port           port (default 9876)" +:+ NL, []);
   ("--delay          server side operation delay (ms)" +:+ NL, []);
   ("--async          amount of asynchronous processing (ms)" +:+ NL, []);
   ("--command        command to execute on the server [ hog, sleep ]" +:+ NL, []);
   ("--verbose        be more verbose" +:+ NL, []);
   ("--help           print this message and exit" +:+ NL, []);
   (NL, [])].

Definition optstring : string := "hva:d:c:s:p:x:".
Definition options : list option_ :=
  [Option_ "help" false "h"; Option_ "server" true "s"; Option_ "port" true "p";
   Option_ "async" true "a"; Option_ "delay" true "d"; Option_ "command" true "c";
   Option_ "poll" true "x"; Option_ "repeat" true "r"; Option_ "verbose" false "v"].

(** The command named by an argument; any other name keeps the old one. *)
Definition command (old : Z) (a : string) : Z :=
  if String.eqb a "hog" then RPC_HOG
  else if String.eqb a "sleep" then RPC_SLEEP
  else if String.eqb a "ping" then RPC_PING else old.

Definition parse_opt (f : found) (o : opts) : prog opts :=
  let '(Opts a d c n s p x r v) := o in
  match opt f with
  | "c"%char => with_arg f (fun t => Ret (Opts a d (command c t) n s p x r v))
  | "a"%char => with_arg f (fun t => Ret (Opts (atoi t) d c n s p x r v))
  | "d"%char => with_arg f (fun t => Ret (Opts a (atoi t) c n s p x r v))
  | "s"%char => with_arg f (fun t => Ret (Opts a d c n (Some t) p x r v))
  | "p"%char => with_arg f (fun t => Ret (Opts a d c n s (atoi t) x r v))
  | "x"%char => with_arg f (fun t => Ret (Opts a d c n s p (atoi t) r v))
  | "r"%char => with_arg f (fun t => Ret (Opts a d c n s p x (atoi t) v))
  | "v"%char => Ret (Opts a d c n s p x r 1)
  | _ => usage
  end.

(** [count] is not assigned. *)
Definition parse_opts (argv : list string) (n : Z) : prog opts :=
  let o := Opts DEFAULT_ASYNC DEFAULT_DELAY RPC_HOG n None DEFAULT_PORT 0 1 0 in
  o ← opt_loop parse_opt (getopt_long optstring options None argv) o;
  match server o with
  | None => call (Printf ("error: server address must be specified" +:+ NL) []);; usage
  | Some _ => Ret o
  end.

(** The result code and [sockfd]. *)
Definition rpc_connect (o : opts) : prog (Z * Z) :=
  sockfd ← call Socket;
  if sockfd <? 0 then call (Printf ("socket() failed" +:+ NL) []);; Ret (-1, sockfd) else
  match server o with
  | None => Undef "gethostbyname of NULL"
  | Some name =>
      h ← call (Gethostbyname name);
      match h with
      | None => call (Printf ("gethostbyname() failed" +:+ NL) []);; Ret (-1, sockfd)
      | Some h_addr =>
          r ← call (Connect sockfd (firstn 4 h_addr) (htons (port o)));
          if r <? 0 then call (Printf ("connect() failed" +:+ NL) []);; Ret (-1, sockfd)
          else Ret (0, sockfd)
      end
  end.

(** [do ret = poll(...) while (ret == 0)]. *)
Fixpoint poll_loop (fuel : nat) (fd timeout : Z) : prog unit :=
  match fuel with
  | O => Fuel
  | S fuel =>
      r ← call (Poll_in fd timeout);
      if r =? 0 then poll_loop fuel fd timeout else Ret tt
  end.

(** The result code and [*ans]. *)
Definition rpc_command (fuel : nat) (o : opts) (sockfd : Z) (msg ans : message)
  : prog (Z * message) :=
  r ← call (Write sockfd (encode msg));
  if r <? 0 then call (Printf ("write() failed" +:+ NL) []);; Ret (s32 r, ans) else
  (if negb (async o =? 0) then hog (s64 (u64 (async o * count o))) else Ret tt);;
  (if negb (poll o =? 0) then poll_loop fuel sockfd (poll o) else Ret tt);;
  '(r, bytes) ← call (Read sockfd sizeof_message);
  if r <? 0 then call (Printf ("read() failed" +:+ NL) []);; Ret (s32 r, ans) else
  let ans := read_into ans bytes in
  (if negb (verbose o =? 0) then call (Printf ("status: %d" +:+ NL) [PInt (ret ans)]) else Ret tt);;
  Ret (s32 r, ans).

Definition rpc_terminate (sockfd : Z) : prog Z := call (Close sockfd);; Ret 0.

(** The saved measure, or a new one; an [unsigned long] returned as [int]. *)
Definition rpc_calibrate : prog Z :=
  home ← call (Getenv "HOME");
  let path := default "(null)" home +:+ "/.wk-calibrate" in
  call (Printf ("path=%s" +:+ NL) [PStr (Some path)]);;
  reg ← call (Stat_isreg path);
  if (reg : bool) then
    f ← call (Fopen path "r");
    match f with
    | None => Undef "fread from a NULL stream"
    | Some f =>
        bytes ← call (Fread f 8);
        call (Fclose f);;
        Ret (s32 (le_value bytes))
    end
  else
    c ← calibrate 10000;
    let count := c / 10 in
    f ← call (Fopen path "w");
    match f with
    | None => Undef "fwrite to a NULL stream"
    | Some f =>
        call (Fwrite f (le_bytes 8 count));;
        call (Fclose f);;
        Ret (s32 count)
    end.

(** The array of [repeat] zeroed instants. *)
Definition alloc_data (repeat : Z) : prog tsbuf :=
  let size := u64 (u64 repeat * sizeof_timespec) in
  p ← call (Malloc size);
  match p with
  | Some a =>
      call (Memset a 0 size);;
      Ret (BArr a (replicate (Z.to_nat (size / sizeof_timespec)) (Timespec 0 0)))
  | None => if size =? 0 then Ret BNull else Undef "memset of NULL"
  end.

(** The [i]-th message. *)
Definition request (o : opts) (i : Z) : message :=
  Message (ocmd o) (delay o) (s32 (repeat o - i)) 0.

Definition rpc_experiment (fuel : nat) (o : opts) (sockfd : Z) : prog Z :=
  data ← alloc_data (repeat o);
  data ← for_ (Z.to_nat (repeat o)) 0 (fun i data =>
    t ← call (Clock_gettime CLOCK_MONOTONIC);
    data ← store_ts data i t;
    rpc_command fuel o sockfd (request o i) zero_message;;
    Ret data) data;
  (if 1 <? repeat o then
     out ← call (Fopen "rpc-stats.out" "w+");
     match out with
     | None => Undef "fprintf to a NULL stream"
     | Some out =>
         for_ (Z.to_nat (s32 (repeat o - 1))) 0 (fun i _ =>
           t1 ← load_ts data (i + 1);
           t0 ← load_ts data i;
           let ts := time_sub t1 t0 in
           call (Fprintf out ("%d,%ld.%09ld" +:+ NL)
                   [PInt i; PInt (tv_sec ts); PInt (tv_nsec ts)])) tt;;
         call (Fclose out)
     end
   else Ret tt);;
  Ret 0.

Definition client_main (fuel : nat) (argv : list string) : prog Z :=
  o ← parse_opts argv 0;
  c ← rpc_calibrate;
  let o := Opts (async o) (delay o) (ocmd o) (u64 c) (server o) (port o) (poll o)
             (repeat o) (verbose o) in
  call (Printf ("count=%ld" +:+ NL) [PInt (s64 (count o))]);;
  '(r, sockfd) ← rpc_connect o;
  if r <? 0 then Ret (-1) else
  rpc_experiment fuel o sockfd;;
  rpc_terminate sockfd;;
  Ret 0.

(** ** Messages: lemmas *)

Lemma length_le_bytes n x : length (le_bytes n x) = n.
Proof. revert x. induction n as [|n IH]; intros x; [done|]. cbn. by rewrite IH. Qed.

Lemma le_value_bytes n x : le_value (le_bytes n x) = x mod 256 ^ Z.of_nat n.
Proof.
  revert x. induction n as [|n IH]; intros x.
  - cbn. by rewrite Z.mod_1_r.
  - cbn [le_bytes le_value]. rewrite IH, Nat2Z.inj_succ, Z.pow_succ_r by lia.
    rewrite Z.rem_mul_r by lia. lia.
Qed.

Lemma le_bytes_value l :
  Forall (fun b => 0 <= b < 256) l -> le_bytes (length l) (le_value l) = l.
Proof.
  induction 1 as [|b l Hb Hl IH]; [done|]. cbn [length le_bytes le_value].
  rewrite Z.mul_comm, Z_mod_plus_full, Z.mod_small by lia.
  rewrite Z.div_add, (Z.div_small b), Z.add_0_l by lia. by rewrite IH.
Qed.

Lemma int_of_bytes x : in_s32 x -> int_of (int_bytes x) = x.
Proof.
  intros H. unfold int_of, int_bytes. rewrite le_value_bytes.
  change (256 ^ Z.of_nat 4) with (2 ^ 32). unfold u32, uwrap. rewrite Z.mod_mod by done.
  unfold s32. rewrite swrap_mod. by apply s32_id.
Qed.

Definition in_ints (m : message) : Prop :=
  in_s32 (cmd m) /\ in_s32 (arg m) /\ in_s32 (cnt m) /\ in_s32 (ret m).

Lemma length_encode m : length (encode m) = 16%nat.
Proof. unfold encode, int_bytes. by rewrite !length_app, !length_le_bytes. Qed.

Lemma decode_encode m : in_ints m -> decode (encode m) = m.
Proof.
  intros (Hc & Ha & Hn & Hr). destruct m as [c a n r]. cbn [cmd arg cnt ret] in *.
  change (decode (encode (Message c a n r)))
    with (Message (int_of (int_bytes c)) (int_of (int_bytes a))
                  (int_of (int_bytes n)) (int_of (int_bytes r))).
  by rewrite !int_of_bytes.
Qed.

Lemma le_value_range l :
  Forall (fun b => 0 <= b < 256) l -> 0 <= le_value l < 256 ^ Z.of_nat (length l).
Proof.
  induction 1 as [|b l Hb Hl IH]; [done|]. cbn [le_value length].
  rewrite Nat2Z.inj_succ, Z.pow_succ_r by lia. lia.
Qed.

Lemma int_bytes_of l :
  length l = 4%nat -> Forall (fun b => 0 <= b < 256) l -> int_bytes (int_of l) = l.
Proof.
  intros Hl Hb. unfold int_bytes, int_of. rewrite u32_s32.
  pose proof (le_value_range l Hb) as Hr. rewrite Hl in Hr.
  unfold u32, uwrap. rewrite Z.mod_small by (change (256 ^ Z.of_nat 4) with (2 ^ 32) in Hr; lia).
  rewrite <- Hl. by apply le_bytes_value.
Qed.

Lemma encode_decode l :
  length l = 16%nat -> Forall (fun b => 0 <= b < 256) l -> encode (decode l) = l.
Proof.
  intros Hl Hb. unfold encode, decode. cbn [cmd arg cnt ret].
  rewrite !int_bytes_of; try (rewrite ?length_take, ?length_drop; lia);
    try (by repeat first [apply Forall_take|apply Forall_drop]).
  clear Hb. do 16 (destruct l as [|? l]; [done|]). by destruct l.
Qed.

(** ** The server: lemmas *)

(** A connected socket, seen from the server: the requests that have not
    been read (each arrives whole, end of file after the last), and the
    answers written; no other call touches it. *)
Definition on_socket (fd : Z) {X} (e : sys X) : bool :=
  match e with Read fd' _ | Write fd' _ => fd' =? fd | _ => false end.

Class Connection {W} (h : handler W) (fd : Z) (inbox outbox : W -> list message) : Prop := {
  cn_read w : exists w',
    h _ (Read fd sizeof_message) w
      = (match inbox w with [] => (0, []) | m :: _ => (sizeof_message, encode m) end, w')
    /\ inbox w' = tail (inbox w) /\ outbox w' = outbox w;
  cn_write w m : in_ints m -> exists r w',
    h _ (Write fd (encode m)) w = (r, w') /\ 0 <= r
    /\ inbox w' = inbox w /\ outbox w' = outbox w ++ [m];
  cn_other X (e : sys X) w : on_socket fd e = false ->
    inbox (h _ e w).2 = inbox w /\ outbox (h _ e w).2 = outbox w
}.

(** The work of a trace: busy loops and sleeps. *)
Inductive work := | Hogged (turns : Z) | Slept (t : timespec).

Definition work_of (e : ev) : option work :=
  match e with
  | Ev (Busy n) _ => Some (Hogged n)
  | Ev (Nanosleep t) _ => Some (Slept t)
  | _ => None
  end.
Definition works (tr : list ev) : list work := omap work_of tr.

Lemma works_app tr1 tr2 : works (tr1 ++ tr2) = works tr1 ++ works tr2.
Proof. unfold works. by rewrite omap_app. Qed.

(** What a request costs. *)
Definition cost (count : Z) (m : message) : list work :=
  if cmd m =? RPC_HOG then [Hogged (Z.max 1 (s64 (u64 (arg m * count))))]
  else if cmd m =? RPC_SLEEP then
    if arg m =? 0 then []
    else [Slept (Timespec (cdiv (arg m) 1000) (s32 (crem (arg m) 1000 * 1000000)))]
  else [].

(** The requests of a session: up to the first whose [cnt] is not positive;
    when the connection ends before that, a message of zeros follows. *)
Fixpoint served (inbox : list message) : list message :=
  match inbox with
  | [] => [zero_message]
  | m :: inbox => m :: if 0 <? cnt m then served inbox else []
  end.

Definition answer (m : message) : message := set_ret m 42.

Lemma run_serve {W} (h : handler W) fd inbox outbox `{!Connection h fd inbox outbox} count m w tr :
  exists w' tr', run (traced h) (serve count m) (w, tr) = (Done tt, (w', tr ++ tr'))
    /\ works tr' = cost count m /\ inbox w' = inbox w /\ outbox w' = outbox w.
Proof.
  unfold serve, cost, do_sleep. cbv zeta. repeat case_if.
  - unfold hog. step_run. do 2 eexists. split; [reflexivity|]. split; [done|].
    by apply (cn_other (h := h) (fd := fd)).
  - step_run. exists w, []. by rewrite app_nil_r.
  - step_run.
    assert (forall X (e : sys X) w, on_socket fd e = false -> inbox (h X e w).2 = inbox w) as Hi
      by (intros; by apply cn_other).
    assert (forall X (e : sys X) w, on_socket fd e = false -> outbox (h X e w).2 = outbox w) as Ho
      by (intros; by apply cn_other).
    case_if; step_run; do 2 eexists; (split; [rewrite <- !app_assoc; reflexivity|]);
      (split; [done|]); by rewrite !Hi, !Ho by done.
  - exists w, []. by rewrite app_nil_r.
Qed.

Lemma read_into_nil : read_into zero_message [] = zero_message.
Proof. reflexivity. Qed.

Lemma read_into_message m : in_ints m -> read_into zero_message (encode m) = m.
Proof.
  intros H. unfold read_into. rewrite drop_ge by (by rewrite !length_encode).
  rewrite app_nil_r. by apply decode_encode.
Qed.

Lemma run_session {W} (h : handler W) fd inbox outbox `{!Connection h fd inbox outbox} count fuel w tr :
  Forall in_ints (inbox w) -> (length (inbox w) < fuel)%nat ->
  exists w' tr', run (traced h) (session fuel count fd) (w, tr) = (Done tt, (w', tr ++ tr'))
    /\ works tr' = concat (map (cost count) (served (inbox w)))
    /\ outbox w' = outbox w ++ map answer (served (inbox w)).
Proof.
  revert w tr. induction fuel as [|fuel IH]; intros w tr Hints Hf; [lia|].
  cbn [session]. step_run.
  destruct (cn_read (h := h) (fd := fd) w) as (w1 & Hr & Hi1 & Ho1). rewrite Hr. cbn [fst snd].
  set (m := match inbox w with [] => zero_message | m :: _ => m end).
  assert (in_ints m) as Hm by (subst m; destruct Hints; [by vm_compute; intuition discriminate|done]).
  assert (forall b, b = (match inbox w with [] => (0, []) | m :: _ => (sizeof_message, encode m) end) ->
            b.1 <? 0 = false /\ read_into zero_message b.2 = m) as Hb.
  { intros b ->. subst m. destruct Hints; (split; [done|]); [done|by apply read_into_message]. }
  destruct (match inbox w with [] => _ | _ => _ end) as [r bytes] eqn:Eb.
  destruct (Hb _ eq_refl) as [Hr0 Hread]. cbn [fst snd] in *. rewrite Hr0, Hread. step_run.
  destruct (run_serve h fd inbox outbox count m w1 (tr ++ [Ev (Read fd sizeof_message) (r, bytes)]))
    as (w2 & tr2 & -> & Hwk & Hi2 & Ho2). step_run.
  destruct (cn_write (h := h) (fd := fd) w2 (answer m)) as (r3 & w3 & Hw & Hr3 & Hi3 & Ho3).
  { destruct Hm as (? & ? & ? & ?). unfold answer, set_ret. split_and!; cbn; try done; clia. }
  fold (answer m). rewrite Hw. cbn [fst snd]. case_if; [lia|]. step_run.
  change (cnt (answer m)) with (cnt m).
  case_if.
  - assert (inbox w = m :: inbox w3) as Hib.
    { rewrite Hi3, Hi2, Hi1. subst m. destruct (inbox w); [done|done]. }
    destruct (IH w3 (((tr ++ [Ev (Read fd sizeof_message) (r, bytes)]) ++ tr2)
                      ++ [Ev (Write fd (encode (answer m))) r3])) as (w4 & tr4 & -> & Hwk4 & Ho4).
    { rewrite Hib in Hints. by inv Hints. }
    { rewrite Hib in Hf. cbn in Hf. lia. }
    do 2 eexists. split; [rewrite <- !app_assoc; reflexivity|]. rewrite Hib. cbn [served].
    replace (0 <? cnt m) with true by lia. split.
    + rewrite !works_app, Hwk, Hwk4. done.
    + rewrite Ho4, Ho3, Ho2, Ho1, <- app_assoc. done.
  - do 2 eexists. split; [rewrite <- !app_assoc; reflexivity|].
    assert (served (inbox w) = [m]) as ->.
    { subst m. destruct (inbox w) as [|m l]; [done|]. cbn. by replace (0 <? cnt m) with false by lia. }
    split.
    + rewrite !works_app, Hwk. cbn. by rewrite !app_nil_r.
    + by rewrite Ho3, Ho2, Ho1.
Qed.

(** ** The client: lemmas *)

(** What a trace sent on the socket, and the lines it wrote. *)
Definition sent_of (fd : Z) (e : ev) : option (list Z) :=
  match e with Ev (Write fd' b) _ => if fd' =? fd then Some b else None | _ => None end.
Definition sent (fd : Z) (tr : list ev) : list (list Z) := omap (sent_of fd) tr.

Definition line_of (f : Z) (e : ev) : option (list parg) :=
  match e with Ev (Fprintf f' _ args) _ => if f' =? f then Some args else None | _ => None end.
Definition lines (f : Z) (tr : list ev) : list (list parg) := omap (line_of f) tr.

Lemma sent_app fd tr1 tr2 : sent fd (tr1 ++ tr2) = sent fd tr1 ++ sent fd tr2.
Proof. unfold sent. by rewrite omap_app. Qed.
Lemma lines_app f tr1 tr2 : lines f (tr1 ++ tr2) = lines f tr1 ++ lines f tr2.
Proof. unfold lines. by rewrite omap_app. Qed.

(** The readings of the clock, the requests sent and the answers read, in the
    order of the trace. *)
Inductive moment := | Clocked (t : timespec) | Requested (bytes : list Z) | Answered.

Definition moment_of (fd : Z) (e : ev) : option moment :=
  match e with
  | Ev (Read fd' _) _ => if fd' =? fd then Some Answered else None
  | Ev (Write fd' b) _ => if fd' =? fd then Some (Requested b) else None
  | e => Clocked <$> clock_reading e
  end.
Definition moments (fd : Z) (tr : list ev) : list moment := omap (moment_of fd) tr.

Lemma moments_app fd tr1 tr2 : moments fd (tr1 ++ tr2) = moments fd tr1 ++ moments fd tr2.
Proof. unfold moments. by rewrite omap_app. Qed.

(** Each turn of the client: a reading, a request, its answer. *)
Definition turns (ts : list timespec) (ms : list message) : list moment :=
  concat (zip_with (fun t m => [Clocked t; Requested (encode m); Answered]) ts ms).

Lemma turns_app ts1 ts2 ms1 ms2 :
  length ts1 = length ms1 -> turns (ts1 ++ ts2) (ms1 ++ ms2) = turns ts1 ms1 ++ turns ts2 ms2.
Proof. intros Hl. unfold turns. by rewrite zip_with_app, concat_app. Qed.

(** The line of a gap. *)
Definition gap_line (ts : list timespec) (i : Z) : list parg :=
  let t := time_sub (nth (Z.to_nat (i + 1)) ts (Timespec 0 0)) (nth (Z.to_nat i) ts (Timespec 0 0)) in
  [PInt i; PInt (tv_sec t); PInt (tv_nsec t)].

(** An environment in which the calls of the client succeed, one after a
    single [poll]. *)
Record client_env {W} (h : handler W) (f : Z) : Prop := ClientEnv {
  ce_malloc : forall n w, exists p, (h _ (Malloc n) w).1 = Some p;
  ce_open : forall p m w, (h _ (Fopen p m) w).1 = Some f;
  ce_write : forall fd b w, 0 <= (h _ (Write fd b) w).1;
  ce_read : forall fd n w, 0 <= ((h _ (Read fd n) w).1).1;
  ce_poll : forall fd t w, (h _ (Poll_in fd t) w).1 <> 0
}.

(** A part of the client that sends, writes and times nothing. *)
Definition quiet (fd f : Z) (tr : list ev) : Prop :=
  sent fd tr = [] /\ lines f tr = [] /\ clock_readings tr = [] /\ moments fd tr = [].

Definition runs_quiet {W A} (h : handler W) (fd f : Z) (p : prog A) : Prop :=
  forall w tr, exists a w' tr', run (traced h) p (w, tr) = (Done a, (w', tr ++ tr')) /\ quiet fd f tr'.

Lemma quiet_ret {W A} (h : handler W) fd f (a : A) : runs_quiet h fd f (Ret a).
Proof. intros w tr. exists a, w, []. by rewrite app_nil_r. Qed.

Lemma quiet_printf {W} (h : handler W) fd f fmt args : runs_quiet h fd f (call (Printf fmt args)).
Proof. intros w tr. step_run. do 3 eexists. split; [reflexivity|done]. Qed.

Lemma quiet_hog {W} (h : handler W) fd f n : runs_quiet h fd f (hog n).
Proof. intros w tr. unfold hog. step_run. do 3 eexists. split; [reflexivity|done]. Qed.

Lemma quiet_poll {W} (h : handler W) fd f k x t :
  (forall fd t w, (h _ (Poll_in fd t) w).1 <> 0) -> runs_quiet h fd f (poll_loop (S k) x t).
Proof.
  intros Hp w tr. cbn [poll_loop]. step_run. case_if; [by apply Hp in E|]. step_run.
  do 3 eexists. split; [reflexivity|done].
Qed.

Lemma run_rpc_command {W} (h : handler W) f fuel o fd m ans w tr :
  client_env h f ->
  exists r w' tr', run (traced h) (rpc_command (S fuel) o fd m ans) (w, tr) = (Done r, (w', tr ++ tr'))
    /\ sent fd tr' = [encode m] /\ lines f tr' = [] /\ clock_readings tr' = []
    /\ moments fd tr' = [Requested (encode m); Answered].
Proof.
  intros [_ _ Hw Hr Hp]. unfold rpc_command. step_run.
  pose proof (Hw fd (encode m) w) as Hw0. set (rw := (h _ (Write fd (encode m)) w).1) in *.
  replace (rw <? 0) with false by lia. step_run.
  assert (runs_quiet h fd f (if negb (async o =? 0) then hog (s64 (u64 (async o * count o))) else Ret tt)) as Q1
    by (case_if; [apply quiet_hog|apply quiet_ret]).
  edestruct Q1 as ([] & w1 & tr1 & -> & S1 & L1 & C1 & M1). step_run.
  assert (runs_quiet h fd f (if negb (poll o =? 0) then poll_loop (S fuel) fd (poll o) else Ret tt)) as Q2
    by (case_if; [by apply quiet_poll|apply quiet_ret]).
  edestruct Q2 as ([] & w2 & tr2 & -> & S2 & L2 & C2 & M2). step_run.
  pose proof (Hr fd sizeof_message w2) as Hr0.
  destruct (h _ (Read fd sizeof_message) w2) as [[r bytes] w3]. cbn [fst snd] in *.
  replace (r <? 0) with false by lia. step_run.
  assert (runs_quiet h fd f (if negb (verbose o =? 0)
    then call (Printf ("status: %d" +:+ NL) [PInt (ret (read_into ans bytes))]) else Ret tt)) as Q3
    by (case_if; [apply quiet_printf|apply quiet_ret]).
  edestruct Q3 as ([] & w4 & tr4 & -> & S4 & L4 & C4 & M4). step_run.
  do 3 eexists. split; [rewrite <- !app_assoc; reflexivity|].
  rewrite !sent_app, !lines_app, !clock_readings_app, !moments_app, S1, S2, S4, L1, L2, L4, C1, C2, C4, M1, M2, M4.
  unfold sent, lines, moments. cbn. rewrite !Z.eqb_refl. done.
Qed.

(** The loop that writes the gaps. *)
Lemma run_gap_lines {W} (h : handler W) fd f p ts n w tr :
  Z.of_nat (length ts) = n + 1 -> 0 <= n ->
  exists w' tr',
    run (traced h) (for_ (Z.to_nat n) 0 (fun i _ =>
           t1 ← load_ts (BArr p ts) (i + 1);
           t0 ← load_ts (BArr p ts) i;
           call (Fprintf f ("%d,%ld.%09ld" +:+ NL)
                   [PInt i; PInt (tv_sec (time_sub t1 t0)); PInt (tv_nsec (time_sub t1 t0))])) tt) (w, tr)
    = (Done tt, (w', tr ++ tr'))
    /\ sent fd tr' = [] /\ clock_readings tr' = [] /\ moments fd tr' = []
    /\ lines f tr' = map (gap_line ts) (seqZ 0 n).
Proof.
  intros Hl Hn.
  match goal with |- context [run _ (for_ ?n 0 ?b tt) _] =>
    destruct (run_for_invariant (traced h) (fun i (_ : unit) '(w', tr1) => exists tr', tr1 = tr ++ tr'
      /\ sent fd tr' = [] /\ clock_readings tr' = [] /\ moments fd tr' = []
      /\ lines f tr' = map (gap_line ts) (seqZ 0 i))
      b n 0 tt (w, tr)) as ([] & [w' tr1] & -> & tr' & -> & S & C & M & L)
  end.
  - intros i [] [w1 tr1] Hi (tr' & -> & S & C & M & L).
    destruct (lookup_lt_is_Some_2 ts (Z.to_nat i)) as [t0 H0]; [lia|].
    destruct (lookup_lt_is_Some_2 ts (Z.to_nat (i + 1))) as [t1 H1]; [lia|].
    pose proof (run_load_ts (traced h) p ts _ t1 (w1, tr ++ tr') H1) as R1.
    rewrite Z2Nat.id in R1 by lia.
    pose proof (run_load_ts (traced h) p ts _ t0 (w1, tr ++ tr') H0) as R0.
    rewrite Z2Nat.id in R0 by lia.
    rewrite run_bind, R1. cbn [and_then]. rewrite run_bind, R0. cbn [and_then]. step_run.
    do 2 eexists. split; [reflexivity|]. eexists. rewrite <- app_assoc. split; [reflexivity|].
    rewrite sent_app, clock_readings_app, moments_app, lines_app, S, C, M, L. do 3 (split; [done|]).
    replace (i + 1) with (Z.of_nat (Datatypes.S (Z.to_nat i))) by lia.
    rewrite seqZ_S, map_app, Z2Nat.id by lia. f_equal. unfold lines. cbn [omap list_omap line_of].
    rewrite Z.eqb_refl. cbn. unfold gap_line.
    rewrite (nth_lookup_Some _ _ _ _ H0). rewrite (nth_lookup_Some _ _ _ _ H1). done.
  - exists []. by rewrite app_nil_r.
  - do 2 eexists. split; [reflexivity|]. rewrite Z.add_0_l, Z2Nat.id in L by lia. done.
Qed.

(** The calls of [rpc_experiment]. *)
Definition requests (o : opts) : list message := map (request o) (seqZ 0 (repeat o)).

Lemma run_experiment {W} (h : handler W) f fuel o fd w :
  client_env h f -> 0 <= repeat o <= INT_MAX ->
  exists w' tr, run (traced h) (rpc_experiment (S fuel) o fd) (w, []) = (Done 0, (w', tr))
    /\ sent fd tr = map encode (requests o)
    /\ Z.of_nat (length (clock_readings tr)) = repeat o
    /\ moments fd tr = turns (clock_readings tr) (requests o)
    /\ lines f tr = map (gap_line (clock_readings tr)) (seqZ 0 (repeat o - 1)).
Proof.
  intros Henv Hrep. pose proof Henv as [Hm Ho _ _ _]. unfold rpc_experiment, alloc_data. step_run.
  rewrite (u64_id (repeat o)) by clia. unfold sizeof_timespec. rewrite u64_id by clia.
  destruct (Hm (repeat o * 16) w) as [p ->]. step_run.
  rewrite Z.div_mul by done.
  match goal with |- context [run _ (for_ ?n 0 ?b (BArr p ?l)) (?w0, ?tr0)] =>
    destruct (run_for_invariant (traced h) (fun i d '(w, tr) => exists tr', tr = tr0 ++ tr'
      /\ d = BArr p (clock_readings tr' ++ drop (Z.to_nat i) l)
      /\ length (clock_readings tr') = Z.to_nat i
      /\ sent fd tr' = map encode (map (request o) (seqZ 0 i))
      /\ moments fd tr' = turns (clock_readings tr') (map (request o) (seqZ 0 i)) /\ lines f tr' = [])
      b n 0 (BArr p l) (w0, tr0)) as (d & [w1 tr1] & -> & tr' & -> & -> & Hl & Hsent & Hclk & Hlines)
  end.
  - intros j d [w1 tr1] Hj (tr' & -> & -> & Hl & Hsent & Hclk & Hlines). step_run.
    set (t := (h timespec _ w1).1). set (w2 := (h timespec _ w1).2).
    replace (store_ts _ j t) with (store_ts (BArr p (clock_readings tr' ++ drop (length (clock_readings tr'))
      (replicate (Z.to_nat (repeat o)) (Timespec 0 0)))) (Z.of_nat (length (clock_readings tr'))) t)
      by (rewrite Hl, Z2Nat.id by lia; done).
    rewrite store_ts_append by (rewrite length_replicate; lia). step_run.
    edestruct (run_rpc_command h f fuel o fd (request o j) zero_message w2) as (r & w3 & tr3 & -> & S3 & L3 & C3 & M3); [done|].
    step_run. do 2 eexists. split; [reflexivity|].
    eexists. rewrite <- !app_assoc. split; [reflexivity|].
    rewrite !clock_readings_app, !sent_app, !moments_app, !lines_app, C3, S3, L3, M3,
      Hsent, Hclk, Hlines, app_nil_r.
    replace (Z.to_nat (j + 1)) with (S (length (clock_readings tr'))) by lia.
    split; [by rewrite <- app_assoc|]. split; [rewrite length_app; cbn; lia|].
    replace (j + 1) with (Z.of_nat (S (Z.to_nat j))) by lia.
    rewrite seqZ_S, !map_app, Z2Nat.id by lia. split; [done|]. split; [|done].
    rewrite turns_app by (rewrite length_map, length_seqZ; lia). done.
  - exists []. by rewrite app_nil_r.
  - step_run. rewrite Z.add_0_l in *. rewrite Nat2Z.id in Hl.
    rewrite Z2Nat.id in * by lia.
    rewrite drop_ge by (rewrite length_replicate; lia). rewrite app_nil_r.
    case_if.
    + step_run. rewrite Ho. step_run. rewrite s32_id by clia.
      match goal with |- context [run _ (for_ _ 0 _ tt) (?w2, ?tr2)] =>
        destruct (run_gap_lines h fd f p (clock_readings tr') (repeat o - 1) w2 tr2)
          as (w3 & tr3 & Hr & S3 & C3 & M3 & L3); [lia|lia|] end.
      rewrite Hr. step_run. do 2 eexists. split; [reflexivity|].
      rewrite !sent_app, !moments_app, !clock_readings_app, !lines_app, 
        M3, Hsent, Hclk, Hlines, S3, C3, L3. cbn.
      rewrite !app_nil_r. split; [done|]. split; [lia|done].
    + step_run. do 2 eexists. split; [reflexivity|].
      rewrite !sent_app, !moments_app, !clock_readings_app, !lines_app, Hsent, Hclk, Hlines. cbn.
      split; [done|]. split; [lia|]. split; [done|]. by rewrite seqZ_nil by lia.
Qed.

(** ** Theorems *)

(** (C17) A session of the server: over a connection that delivers the
    requests whole and in order, the [do ... while] loop terminates (one turn
    of fuel per request and one more); every request is answered in order with
    [ret] set to 42 and nothing else changed, and the work done is exactly
    what the requests ask for, an unsigned product for [HOG] and a normalised
    delay for [SLEEP]; a connection that ends while [cnt] is still positive
    makes the server serve one message of zeros more. *)
Theorem rpc_session_correct {W} (h : handler W) (fd count : Z) (inbox outbox : W -> list message)
    (fuel : nat) (w : W) `{!Connection h fd inbox outbox} (Hints : Forall in_ints (inbox w))
    (Hf : (length (inbox w) < fuel)%nat) :
  exists w' tr, run (traced h) (session fuel count fd) (w, []) = (Done tt, (w', tr))
    /\ outbox w' = outbox w ++ map answer (served (inbox w))
    /\ works tr = concat (map (cost count) (served (inbox w))).
Proof.
  destruct (run_session h fd inbox outbox count fuel w [] Hints Hf) as (w' & tr & Hr & Hw & Ho).
  by exists w', tr.
Qed.

(** A socket whose world is the two queues. *)
Definition queue_socket (fd : Z) : handler (list message * list message) := fun X e w =>
  match e in sys X return X * (list message * list message) with
  | Read fd' n =>
      if fd' =? fd then
        match w.1 with [] => ((0, []), w) | m :: l => ((16, encode m), (l, w.2)) end
      else ((0, []), w)
  | Write fd' b => if fd' =? fd then (16, (w.1, w.2 ++ [decode b])) else (0, w)
  | e => (default_answer e, w)
  end.

#[export] Instance queue_socket_connection fd : Connection (queue_socket fd) fd fst snd.
Proof.
  split.
  - intros [i o]. cbn. rewrite Z.eqb_refl. destruct i as [|m i]; eexists; split; try reflexivity; done.
  - intros [i o] m Hm. cbn -[encode]. rewrite Z.eqb_refl, decode_encode by done.
    do 2 eexists. split; [reflexivity|]. done.
  - intros X e w He. destruct e; try done; cbn in *; by rewrite He.
Qed.

Theorem rpc_session_correct_witness :
  exists w' tr, run (traced (queue_socket 4)) (session 3 1000 4)
    (([Message RPC_HOG 2 2 0; Message RPC_PING 0 0 0], []), []) = (Done tt, (w', tr))
    /\ w'.2 = [Message RPC_HOG 2 2 42; Message RPC_PING 0 0 42] /\ works tr = [Hogged 2000].
Proof.
  destruct (rpc_session_correct (queue_socket 4) 4 1000 fst snd 3
    ([Message RPC_HOG 2 2 0; Message RPC_PING 0 0 0], [])) as (w' & tr & Hr & Ho & Hw).
  - repeat constructor; vm_compute; intuition discriminate.
  - vm_compute. lia.
  - exists w', tr. split; [exact Hr|]. split; [rewrite Ho; reflexivity|rewrite Hw; reflexivity].
Defined.

(** (C19) The client: when its calls succeed, [rpc_experiment] sends exactly
    [repeat] requests, in order, with [cnt] counting down from [repeat] to 1,
    in turns of a reading of the clock, a request and one read of the answer,
    in this order, so that each request is sent after its reading and before
    the next one.  It writes the [repeat - 1] gaps between consecutive
    readings, one line each, and returns 0. *)
Theorem rpc_experiment_correct {W} (h : handler W) (f fd : Z) (fuel : nat) (o : opts) (w : W)
    (Henv : client_env h f) (Hrep : 0 <= repeat o <= INT_MAX) :
  exists w' tr, run (traced h) (rpc_experiment (S fuel) o fd) (w, []) = (Done 0, (w', tr))
    /\ sent fd tr = map encode (requests o)
    /\ map cnt (requests o) = map (fun i => repeat o - i) (seqZ 0 (repeat o))
    /\ Z.of_nat (length (clock_readings tr)) = repeat o
    /\ moments fd tr = turns (clock_readings tr) (requests o)
    /\ lines f tr = map (gap_line (clock_readings tr)) (seqZ 0 (repeat o - 1)).
Proof.
  destruct (run_experiment h f fuel o fd w Henv Hrep) as (w' & tr & Hr & S & C & A & L).
  exists w', tr. split_and!; try done. unfold requests. rewrite map_map. apply map_ext_in.
  intros i Hi. apply list_elem_of_In, elem_of_seqZ in Hi. cbn. apply s32_id. clia.
Qed.

Theorem rpc_experiment_correct_witness :
  exists w' tr, run (traced default_handler)
    (rpc_experiment 1 (Opts 0 10 RPC_SLEEP 0 (Some "localhost") 9876 0 3 0) 5) (tt, [])
    = (Done 0, (w', tr)) /\ length (clock_readings tr) = 3%nat /\ length (moments 5 tr) = 9%nat.
Proof.
  destruct (rpc_experiment_correct default_handler 1 5 0
    (Opts 0 10 RPC_SLEEP 0 (Some "localhost") 9876 0 3 0) tt) as (w' & tr & Hr & _ & _ & C & A & _).
  - split; intros; try (by exists 1); try (vm_compute; discriminate); [reflexivity|].
    cbn. lia.
  - vm_compute. intuition discriminate.
  - exists w', tr. split; [exact Hr|]. cbn [repeat] in C. split; [lia|]. rewrite A.
    destruct (clock_readings tr) as [|? [|? [|? [|? ?]]]]; (done || cbn in C; lia).
Defined.

(** ** Reads that fall short *)

(** In half a message or less, [cnt] keeps its zero. *)
Lemma short_cnt m k : (k <= 8)%nat -> cnt (read_into zero_message (take k (encode m))) = 0.
Proof.
  intros Hk. unfold read_into, decode. cbn [cnt]. rewrite length_take, length_encode, Nat.min_l by lia.
  assert (length (take k (encode m)) = k) as Hl by (rewrite length_take, length_encode; lia).
  rewrite drop_app_ge, Hl, drop_drop by (rewrite Hl; lia). by replace (k + (8 - k))%nat with 8%nat by lia.
Qed.

Lemma run_serve_done {W} (h : handler W) count m w : exists w', run h (serve count m) w = (Done tt, w').
Proof.
  unfold serve, do_sleep. repeat case_if; try (by eexists).
  - unfold hog. rewrite run_call. destruct (h _ _ w).1. by eexists.
  - rewrite run_bind, run_bind, run_call. cbn [and_then]. rewrite run_bind, run_call. cbn [and_then].
    case_if; [by eexists|]. rewrite run_bind, run_call. by eexists.
Qed.

(** A [read] may give fewer bytes than it is asked for, and the server makes one
    only: with the first half of a request, or less, it answers a request with
    a [cnt] of 0 and leaves the client, however many were to come. *)
Theorem short_read_leaves {W} (h : handler W) (fd count : Z) (m : message) (k : nat) (w : W)
    (Hk : (k <= 8)%nat) (Hread : (h _ (Read fd sizeof_message) w).1 = (Z.of_nat k, take k (encode m)))
    (Hwrite : forall bytes w', 0 <= (h _ (Write fd bytes) w').1) :
  exists w', run h (session 1 count fd) w = (Done tt, w').
Proof.
  cbn [session]. rewrite run_bind, run_call, Hread. cbn [and_then].
  replace (Z.of_nat k <? 0) with false by lia. rewrite run_bind. cbn [and_then run].
  destruct (run_serve_done h count (read_into zero_message (take k (encode m))) (h _ (Read fd sizeof_message) w).2)
    as [w1 Hs]. rewrite run_bind, Hs. cbn [and_then].
  rewrite run_bind, run_call. cbn [and_then]. specialize (Hwrite (encode (set_ret (read_into zero_message (take k (encode m))) 42)) w1).
  rewrite (proj2 (Z.ltb_ge _ 0) Hwrite), run_bind. cbn [and_then run cnt set_ret]. rewrite short_cnt by done. by eexists.
Qed.

(** Half of the first of three requests. *)
Theorem short_read_leaves_witness :
  let h : handler unit := fun X e w =>
    match e in sys X return X * unit with
    | Read _ _ => ((8, take 8 (encode (Message RPC_PING 0 3 0))), w)
    | e => (default_answer e, w)
    end in
  exists w', run h (session 1 0 4) tt = (Done tt, w').
Proof.
  intros h. apply (short_read_leaves h 4 0 (Message RPC_PING 0 3 0) 8 tt); [lia|reflexivity|].
  intros bytes w'. cbn. lia.
Defined.

(** The requests of a client all have a positive [cnt], so the server serves
    the message of zeros after them: one turn of the busy loop and one answer
    nobody asked for. *)
Lemma served_requests o :
  0 <= repeat o <= INT_MAX -> served (requests o) = requests o ++ [zero_message].
Proof.
  intros Hr. unfold requests.
  assert (forall l, Forall (fun i => 0 <= i < repeat o) l ->
    served (map (request o) l) = map (request o) l ++ [zero_message]) as H.
  { induction 1 as [|i l Hi Hl IH]; [done|]. cbn [map served app].
    assert (0 <? cnt (request o i) = true) as ->.
    { cbn. rewrite s32_id by clia. lia. }
    by rewrite IH. }
  apply H. apply Forall_forall. intros i Hi. apply elem_of_seqZ in Hi. lia.
Qed.

(** Client and server together: fed with the requests of a client, a
    session answers them all in order and does their work, and then, since
    the last [cnt] of a client is 1, serves the end of file as a message of
    zeros: one turn of the busy loop and one answer nobody asked for. *)
Theorem rpc_client_server {W} (h : handler W) (fd count : Z) (inbox outbox : W -> list message)
    (o : opts) (w : W) `{!Connection h fd inbox outbox}
    (Hrep : 0 <= repeat o <= INT_MAX) (Hcmd : in_s32 (ocmd o)) (Hdelay : in_s32 (delay o))
    (Hin : inbox w = requests o) :
  exists w' tr, run (traced h) (session (S (S (Z.to_nat (repeat o)))) count fd) (w, [])
      = (Done tt, (w', tr))
    /\ outbox w' = outbox w ++ map answer (requests o) ++ [answer zero_message]
    /\ works tr = concat (map (cost count) (requests o)) ++ [Hogged 1].
Proof.
  destruct (run_session h fd inbox outbox count (S (S (Z.to_nat (repeat o)))) w [])
    as (w' & tr & Hr & Hw & Ho).
  - rewrite Hin. unfold requests. apply Forall_forall. intros m Hm.
    apply list_elem_of_fmap in Hm as (i & -> & Hi).
    unfold in_ints, request. cbn. split_and!; [done|done|apply s32_range|clia].
  - rewrite Hin. unfold requests. rewrite length_map, length_seqZ. lia.
  - rewrite Hin, served_requests in Hw, Ho by done. exists w', tr. split; [done|].
    rewrite map_app in Ho, Hw. rewrite concat_app in Hw. split; [done|]. rewrite Hw. done.
Qed.

Theorem rpc_client_server_witness :
  exists w' tr, run (traced (queue_socket 4)) (session 4 1000 4)
    ((requests (Opts 0 1 RPC_PING 0 None 0 0 2 0), []), []) = (Done tt, (w', tr))
    /\ works tr = [Hogged 1] /\ length (w'.2) = 3%nat.
Proof.
  destruct (rpc_client_server (queue_socket 4) 4 1000 fst snd (Opts 0 1 RPC_PING 0 None 0 0 2 0)
    (requests (Opts 0 1 RPC_PING 0 None 0 0 2 0), [])) as (w' & tr & Hr & Ho & Hw).
  - vm_compute. intuition discriminate.
  - vm_compute. intuition discriminate.
  - vm_compute. intuition discriminate.
  - reflexivity.
  - exists w', tr. split; [exact Hr|]. split; [rewrite Hw; reflexivity|rewrite Ho; reflexivity].
Defined.
