(* ===== verification/Perfuser.v ===== *)
(** * src/perfuser.c

    [wk-perfuser]: the overhead of performance counters that signal every
    [period] instructions, and of unwinding the stack.  A worker thread
    touches only its own [struct counter], so the model runs the body of
    thread [i] where [main] joins it; the signals that arrive during its busy
    loop are the environment's. *)

From S2P Require Import Prelude CInt CString Libc CFloat Notes Utils Getopt Calibrate.

Local Open Scope string_scope.
Local Open Scope list_scope.
Local Open Scope Z_scope.

(** ** Constants *)

Definition DISABLE_NONE : Z := 0.
Definition DISABLE_EARLY : Z := 1.
Definition DISABLE_LATE : Z := 2.
Definition DISABLE_LAST : Z := 3.

Definition UNW_TYPE_NONE : Z := 0.
Definition UNW_TYPE_OFFLINE : Z := 1.
Definition UNW_TYPE_OFFLINE_FAST : Z := 2.
Definition UNW_TYPE_BACKTRACE : Z := 3.
Definition UNW_TYPE_MEMCPY : Z := 4.
Definition UNW_TYPE_LAST : Z := 5.
Definition UNW_TYPE_ONLINE : Z := 6.

Definition MAX_DEPTH : Z := 100.
Definition DEFAULT_THREAD : Z := 1.
Definition DEFAULT_REPEAT : Z := 1.
Definition DEFAULT_DRYRUN : Z := 0.
Definition DEFAULT_UNWIND : Z := UNW_TYPE_ONLINE.
Definition DEFAULT_DEPTH : Z := 25.
Definition DEFAULT_ITER_MAIN : Z := 1000000.
Definition DEFAULT_ITER_OVERHEAD : Z := 1.
Definition DEFAULT_DISABLE : Z := DISABLE_EARLY.
Definition DEFAULT_PERIOD : Z := 10000.
Definition progname : string := "wk-perfuser".

(** ** Data *)

(** [struct exp] by its row in [exps]; all share [before_run] and
    [after_run]. *)
Inductive exp :=
  | Handler_work | Sampling_overhead | Unwind_all | Unwind_one | Perf_event_open_exp | Perf_ioctl.

Record counter := Counter { rank : Z; fd : Z; tid : Z; hits : Z }.

(** [done] is the static flag of [do_unwind_overhead_one]. *)
Record args := Args {
  nr_thread : Z; repeat : Z; exp_ : option exp; iter_overhead : Z; iter_main : Z;
  disable : Z; period : Z; dryrun : Z; unwind_type : Z; unwind_depth : Z;
  attr : perf_event_attr; out : Z; counters : list counter; t1 : timespec; t2 : timespec;
  iter_1ms : Z; done : Z
}.

Definition set_nr_thread a v := Args v (repeat a) (exp_ a) (iter_overhead a) (iter_main a) (disable a)
  (period a) (dryrun a) (unwind_type a) (unwind_depth a) (attr a) (out a) (counters a)
  (t1 a) (t2 a) (iter_1ms a) (done a).
Definition set_repeat a v := Args (nr_thread a) v (exp_ a) (iter_overhead a) (iter_main a) (disable a)
  (period a) (dryrun a) (unwind_type a) (unwind_depth a) (attr a) (out a) (counters a)
  (t1 a) (t2 a) (iter_1ms a) (done a).
Definition set_exp a v := Args (nr_thread a) (repeat a) v (iter_overhead a) (iter_main a) (disable a)
  (period a) (dryrun a) (unwind_type a) (unwind_depth a) (attr a) (out a) (counters a)
  (t1 a) (t2 a) (iter_1ms a) (done a).
Definition set_overhead a v := Args (nr_thread a) (repeat a) (exp_ a) v (iter_main a) (disable a)
  (period a) (dryrun a) (unwind_type a) (unwind_depth a) (attr a) (out a) (counters a)
  (t1 a) (t2 a) (iter_1ms a) (done a).
Definition set_main a v := Args (nr_thread a) (repeat a) (exp_ a) (iter_overhead a) v (disable a)
  (period a) (dryrun a) (unwind_type a) (unwind_depth a) (attr a) (out a) (counters a)
  (t1 a) (t2 a) (iter_1ms a) (done a).
Definition set_disable a v := Args (nr_thread a) (repeat a) (exp_ a) (iter_overhead a) (iter_main a) v
  (period a) (dryrun a) (unwind_type a) (unwind_depth a) (attr a) (out a) (counters a)
  (t1 a) (t2 a) (iter_1ms a) (done a).
Definition set_period a v := Args (nr_thread a) (repeat a) (exp_ a) (iter_overhead a) (iter_main a)
  (disable a) v (dryrun a) (unwind_type a) (unwind_depth a) (attr a) (out a) (counters a)
  (t1 a) (t2 a) (iter_1ms a) (done a).
Definition set_dryrun a v := Args (nr_thread a) (repeat a) (exp_ a) (iter_overhead a) (iter_main a)
  (disable a) (period a) v (unwind_type a) (unwind_depth a) (attr a) (out a) (counters a)
  (t1 a) (t2 a) (iter_1ms a) (done a).
Definition set_unwind a ty d := Args (nr_thread a) (repeat a) (exp_ a) (iter_overhead a) (iter_main a)
  (disable a) (period a) (dryrun a) ty d (attr a) (out a) (counters a)
  (t1 a) (t2 a) (iter_1ms a) (done a).
Definition set_attr a v := Args (nr_thread a) (repeat a) (exp_ a) (iter_overhead a) (iter_main a)
  (disable a) (period a) (dryrun a) (unwind_type a) (unwind_depth a) v (out a) (counters a)
  (t1 a) (t2 a) (iter_1ms a) (done a).
Definition set_out a v := Args (nr_thread a) (repeat a) (exp_ a) (iter_overhead a) (iter_main a)
  (disable a) (period a) (dryrun a) (unwind_type a) (unwind_depth a) (attr a) v (counters a)
  (t1 a) (t2 a) (iter_1ms a) (done a).
Definition set_run a cs x y := Args (nr_thread a) (repeat a) (exp_ a) (iter_overhead a) (iter_main a)
  (disable a) (period a) (dryrun a) (unwind_type a) (unwind_depth a) (attr a) (out a) cs
  x y (iter_1ms a) (done a).
Definition set_1ms a v := Args (nr_thread a) (repeat a) (exp_ a) (iter_overhead a) (iter_main a)
  (disable a) (period a) (dryrun a) (unwind_type a) (unwind_depth a) (attr a) (out a)
  (counters a) (t1 a) (t2 a) v (done a).
Definition set_done a v := Args (nr_thread a) (repeat a) (exp_ a) (iter_overhead a) (iter_main a)
  (disable a) (period a) (dryrun a) (unwind_type a) (unwind_depth a) (attr a) (out a)
  (counters a) (t1 a) (t2 a) (iter_1ms a) v.

(** [attr.sample_period = v], [attr.freq = v] *)
Definition set_sample a v := set_attr a (Perf_event_attr (pe_type (attr a)) (pe_config (attr a)) v (pe_freq (attr a))
  (pe_disabled (attr a)) (pe_watermark (attr a)) (pe_wakeup_events (attr a))).
Definition set_freq a v := set_attr a (Perf_event_attr (pe_type (attr a)) (pe_config (attr a)) (pe_sample (attr a)) v
  (pe_disabled (attr a)) (pe_watermark (attr a)) (pe_wakeup_events (attr a))).

Definition PERF_TYPE_HARDWARE : Z := 0.
Definition PERF_COUNT_HW_INSTRUCTIONS : Z := 1.

(** The size of the structure, which the call takes from it, is left out. *)
Definition def_attr : perf_event_attr := Perf_event_attr PERF_TYPE_HARDWARE PERF_COUNT_HW_INSTRUCTIONS 0 0 1 1 1.

Definition sys_perf_event_open (hw_event : perf_event_attr) (pid cpu group_fd flags : Z) : prog Z :=
  call (Perf_event_open hw_event pid cpu group_fd flags).

(** ** hog, the signal handler *)

(** [volatile int x = iter; while (x != 0) x--;]: the turns, or [None] when
    a negative [x] runs past [INT_MIN]. *)
Fixpoint hog_loop (fuel : nat) (x turns : Z) : option Z :=
  if x =? 0 then Some turns
  else match fuel with
       | O => None
       | S fuel => if x =? INT_MIN then None else hog_loop fuel (x - 1) (turns + 1)
       end.

(** The loop as one call; [perf_hog_turns] below relates the two. *)
Definition hog (iter : Z) : prog unit :=
  let x := s32 iter in
  if x <? 0 then Undef "signed overflow" else call (Busy x).

Definition IOC_DISABLE : string := "PERF_EVENT_IOC_DISABLE".
Definition IOC_ENABLE : string := "PERF_EVENT_IOC_ENABLE".
Definition IOC_REFRESH : string := "PERF_EVENT_IOC_REFRESH".

Definition signal_handler (a : args) (cnt : counter) : prog counter :=
  (if disable a =? DISABLE_LATE then call (Ioctl (fd cnt) IOC_DISABLE 0);; Ret tt else Ret tt);;
  let cnt := Counter (rank cnt) (fd cnt) (tid cnt) (s32 (hits cnt + 1)) in
  hog (iter_overhead a);;
  (if disable a =? DISABLE_EARLY then call (Ioctl (fd cnt) IOC_REFRESH 1);; Ret tt
   else if disable a =? DISABLE_LATE then call (Ioctl (fd cnt) IOC_ENABLE 0);; Ret tt
   else Ret tt);;
  Ret cnt.

Definition install_sighand : prog Z :=
  r ← call (Sigaction SIGIO);
  assert_ (r =? 0);;
  Ret 0.

(** ** Counters *)

Definition open_counter (a : args) (cnt : counter) : prog counter :=
  tid ← gettid;
  fd_ ← sys_perf_event_open (attr a) tid (-1) (-1) 0;
  let fd_ := s32 fd_ in
  assert_ (0 <? fd_);;
  r ← call (Fcntl_setown fd_ tid);
  assert_ (r =? 0);;
  flags ← call (Fcntl_getfl fd_);
  r ← call (Fcntl_setfl_async fd_ flags);
  assert_ (r =? 0);;
  let cnt := Counter (rank cnt) fd_ tid (hits cnt) in
  (if disable a =? DISABLE_EARLY then call (Ioctl (fd cnt) IOC_REFRESH 1);; Ret tt else Ret tt);;
  call (Ioctl (fd cnt) IOC_ENABLE 0);;
  Ret cnt.

Definition close_counter (cnt : counter) : prog unit := call (Close (fd cnt));; Ret tt.

(** The signals of a busy loop: as many runs of the handler. *)
Definition deliver (a : args) (cnt : counter) : prog counter :=
  k ← call Signals;
  for_ (Z.to_nat k) 0 (fun _ cnt => signal_handler a cnt) cnt.

(** Without a counter there are no signals. *)
Definition do_work (a : args) (cnt : counter) : prog counter :=
  cnt ← (if dryrun a =? 0 then open_counter a cnt else Ret cnt);
  call Barrier_wait;;
  hog (iter_main a);;
  cnt ← (if dryrun a =? 0 then deliver a cnt else Ret cnt);
  (if dryrun a =? 0 then close_counter cnt else Ret tt);;
  Ret cnt.

(** ** One run of all the threads *)

Definition before_run (a : args) : prog unit := Ret tt.

Definition print_status (a : args) : prog unit :=
  match counters a with
  | [] => Undef "read outside counters"
  | c :: _ =>
      call (Printf ("run disable=%d iter_overhead=%-7ld hits=%d" +:+ NL)
              [PInt (disable a); PInt (iter_overhead a); PInt (hits c)])
  end.

(** [hits += args->counters[i].hits]. *)
Definition total_hits (a : args) : Z := foldl (fun h c => s32 (h + hits c)) 0 (counters a).

Definition row (a : args) : list parg :=
  let ts := time_sub (t2 a) (t1 a) in
  let elapsed := timespec_to_double_ns ts in
  [PInt (nr_thread a); PInt (dryrun a); PInt (period a); PInt (iter_main a);
   PInt (iter_overhead a); PInt (disable a); PInt (total_hits a);
   PDouble (ddiv elapsed (double_of_Z 1000000000))].

Definition ROW : string := "%d;%d;%d;%ld;%ld;%d;%d;%.3f" +:+ NL.

Definition after_run (a : args) : prog unit :=
  call (Fprintf (out a) ROW (row a));;
  call (Fflush (out a));;
  print_status a.

Definition do_one (a : args) : prog args :=
  p ← call (Calloc (u64 (nr_thread a)) 320);
  let n := Z.to_nat (nr_thread a) in
  match p with
  | None => if 0 <? nr_thread a then Undef "write through NULL" else Undef "read outside counters"
  | Some p =>
      before_run a;;
      t1 ← call (Clock_gettime CLOCK_MONOTONIC_RAW);
      for_ n 0 (fun i _ => call (Pthread_create i);; Ret tt) tt;;
      cs ← for_ n 0 (fun i cs =>
        c ← do_work a (Counter i 0 0 0);
        call (Pthread_join i);;
        Ret (cs ++ [c])) [];
      t2 ← call (Clock_gettime CLOCK_MONOTONIC_RAW);
      let a := set_run a cs t1 t2 in
      after_run a;;
      call (Free (Some p));;
      Ret (set_run a [] t1 t2)
  end.

Definition stats_header (a : args) : prog unit :=
  call (Fprintf (out a) ("%s;%s;%s;%s;%s;%s;%s;%s;" +:+ NL)
    (map (fun s => PStr (Some s))
       ["threads"; "dryrun"; "period"; "iter_main"; "iter_overhead"; "disable"; "hits"; "elapsed"])).

Definition do_handler_work (a : args) : prog args :=
  for_ 10 0 (fun overhead a =>
    do_one (set_overhead (set_disable a DISABLE_EARLY) (overhead * 100000))) a.

(** ** Unwinding *)

(** [addr[depth] = ip] in the array of [MAX_DEPTH] addresses, of which the
    written prefix is kept. *)
Definition store_addr (addr : list Z) (depth ip : Z) : prog (list Z) :=
  if (0 <=? depth) && (depth <? MAX_DEPTH)
  then Ret (firstn (Z.to_nat depth) addr ++ [ip]) else Undef "write outside addr".

(** [while (depth < MAX_DEPTH && unw_step(&cursor) > 0) ...]: one turn of fuel
    per frame. *)
Fixpoint unwind_loop (fuel : nat) (addr : list Z) (depth : Z) : prog (list Z * Z) :=
  if depth <? MAX_DEPTH then
    r ← call Unw_step;
    if 0 <? r then
      match fuel with
      | O => Fuel
      | S fuel =>
          ip ← call Unw_get_ip;
          addr ← store_addr addr depth ip;
          unwind_loop fuel addr (depth + 1)
      end
    else Ret (addr, depth)
  else Ret (addr, depth).

Definition do_unwind_online : prog unit :=
  call Getcontext;;
  call Unw_init;;
  '(addr, depth) ← unwind_loop (Z.to_nat MAX_DEPTH) [] 0;
  call (Tracepoint "unwind" "online" (addr ++ [depth])).

Definition STACK_SIZE : Z := 4096 * 2.

Definition do_unwind_offline : prog unit :=
  uc ← call Getcontext;
  let sp := u64 (uc - STACK_SIZE) in
  call (Tracepoint "unwind" "offline" [sp; STACK_SIZE; uc]).

Definition do_unwind_offline_fast : prog unit :=
  uc ← call Getcontext;
  let sp := u64 (uc - STACK_SIZE) in
  call (Tracepoint "unwind" "offline_fast" [sp; uc]).

(** The two [memcpy] fill static buffers nothing reads. *)
Definition do_unwind_memcpy : prog unit := call Getcontext;; Ret tt.

Definition do_unwind_backtrace : prog unit :=
  '(depth, addr) ← call (Unw_backtrace MAX_DEPTH);
  assert_ (depth <=? MAX_DEPTH);;
  call (Tracepoint "unwind" "online" (addr ++ [depth])).

Definition do_unwind (type : Z) : prog unit :=
  if type =? UNW_TYPE_NONE then Ret tt
  else if type =? UNW_TYPE_ONLINE then do_unwind_online
  else if type =? UNW_TYPE_OFFLINE then do_unwind_offline
  else if type =? UNW_TYPE_OFFLINE_FAST then do_unwind_offline_fast
  else if type =? UNW_TYPE_BACKTRACE then do_unwind_backtrace
  else if type =? UNW_TYPE_MEMCPY then do_unwind_backtrace
  else Ret tt.

(** The mutual recursion that deepens the stack; [fuel] bounds the depth. *)
Fixpoint rec1 (fuel : nat) (depth type : Z) : prog Z :=
  match fuel with
  | O => Fuel
  | S fuel =>
      (if 0 <? depth then rec2 fuel (depth - 1) type;; Ret tt else do_unwind type);; Ret 0
  end
with rec2 (fuel : nat) (depth type : Z) : prog Z :=
  match fuel with
  | O => Fuel
  | S fuel =>
      (if 0 <? depth then rec1 fuel (depth - 1) type;; Ret tt else do_unwind type);; Ret 0
  end.

Definition rec (a : args) : prog (Z * args) :=
  rec1 (S (Z.to_nat (unwind_depth a))) (unwind_depth a) (unwind_type a);;
  Ret (0, a).

Definition unwind_profile (a : args) : profile args :=
  Profile _ (Some "unwind") rec a 10000 (double_of_Z 0) (double_of_Z 0) 0 BNull.

(** The data of the profile is not released. *)
Definition do_unwind_overhead_one (a : args) : prog args :=
  let prof := unwind_profile a in
  a ← (if done a =? 0 then call (Printf ("depth;type;mean;sd;" +:+ NL) []);; Ret (set_done a 1)
       else Ret a);
  let depth := unwind_depth a in
  prof ← profile_init (Utils.set_args prof a);
  prof ← profile_func prof;
  prof ← profile_stats prof;
  let a := Utils.args prof in
  call (Printf ("%d;%d;%.0f;%.0f" +:+ NL)
          [PInt depth; PInt (unwind_type a); PDouble (mean prof); PDouble (sd prof)]);;
  Ret a.

(** [for (depth = 0; depth < MAX_DEPTH; depth += 10)]: [depth = 10 * i]. *)
Definition do_unwind_overhead_all (a : args) : prog args :=
  for_ (Z.to_nat UNW_TYPE_LAST) 0 (fun type a =>
    for_ (Z.to_nat (MAX_DEPTH / 10)) 0 (fun i a =>
      do_unwind_overhead_one (set_unwind a type (10 * i))) a) a.

(** ** The other experiments *)

Definition periods : list Z := [10000; 100000; 1000000].

Definition do_sampling_overhead (a : args) : prog args :=
  let a := set_main a (s64 (iter_1ms a * 1000)) in
  let a := set_disable (set_overhead a 0) DISABLE_EARLY in
  for_ (length periods) 0 (fun i a =>
    match periods !! Z.to_nat i with
    | None => Undef "read outside period"
    | Some p =>
        for_ 2 0 (fun dryrun a =>
          do_one (set_sample (set_period (set_dryrun a dryrun) p) (u64 p))) a
    end) a.

Definition perf_event_open_benchmark (ac : args * counter) : prog (Z * (args * counter)) :=
  c ← open_counter ac.1 ac.2;
  close_counter c;;
  Ret (0, (ac.1, c)).

Definition STDOUT : Z := 1.

Definition do_perf_event_open_overhead (a : args) : prog args :=
  prof ← profile_combo (Profile _ (Some "perf_event_open") perf_event_open_benchmark
           (a, Counter 0 0 0 0) 1000 (double_of_Z 0) (double_of_Z 0) 0 BNull);
  profile_stats_print prof STDOUT;;
  Ret a.

Definition perf_ioctl_benchmark (fd : Z) : prog (Z * Z) :=
  call (Ioctl fd IOC_REFRESH 1);; Ret (0, fd).

Definition null_benchmark (fd : Z) : prog (Z * Z) := Ret (0, fd).

Definition do_perf_ioctl (a : args) : prog args :=
  tid ← gettid;
  fd ← sys_perf_event_open (attr a) tid (-1) (-1) 0;
  let fd := s32 fd in
  null ← profile_combo (Profile _ (Some "null_benchmark") null_benchmark fd 10000
           (double_of_Z 0) (double_of_Z 0) 0 BNull);
  profile_stats_print null STDOUT;;
  prof ← profile_combo (Profile _ (Some "perf_ioctl") perf_ioctl_benchmark fd 10000
           (double_of_Z 0) (double_of_Z 0) 0 BNull);
  profile_stats_print prof STDOUT;;
  call (Close fd);;
  Ret a.

(** ** exps, usage, parse_opts, main *)

Definition exps : list (string * exp) :=
  [("handler-work-vs-hits", Handler_work); ("sampling-overhead", Sampling_overhead);
   ("unwind_all", Unwind_all); ("unwind", Unwind_one);
   ("perf_event_open", Perf_event_open_exp); ("perf_ioctl", Perf_ioctl)].

Definition exp_func (e : exp) : args -> prog args :=
  match e with
  | Handler_work => do_handler_work
  | Sampling_overhead => do_sampling_overhead
  | Unwind_all => do_unwind_overhead_all
  | Unwind_one => do_unwind_overhead_one
  | Perf_event_open_exp => do_perf_event_open_overhead
  | Perf_ioctl => do_perf_ioctl
  end.

Definition find_exp (name : string) : option exp :=
  match List.find (fun e => String.eqb e.1 name) exps with Some e => Some e.2 | None => None end.

Definition usage {A} : prog A := usage_text
  ([("Usage: %s [OPTIONS] [COMMAND]" +:+ NL, [PStr (Some progname)]);
    (NL +:+ "Options:" +:+ NL +:+ NL, []);
    ("--thread N       number of threads to be spawned (default = 1)" +:+ NL, []);
    ("--repeat         number of repetitions" +:+ NL, []);
    ("--main           main work (iterations)" +:+ NL, []);
    ("--overhead       overhead work (iterations)" +:+ NL, []);
    ("--exp            experiment to run" +:+ NL, []);
    ("--unwind         unwind type [ online | offline ]" +:+ NL, []);
    ("--verbose        be verbose" +:+ NL, []);
    ("--help           print this message and exit" +:+ NL, []);
    (NL, []);
    ("available experiments" +:+ NL, [])]
   ++ map (fun e => ("%s" +:+ NL, [PStr (Some e.1)])) exps).

Definition optstring : string := "hvr:t:e:m:x:d:p:u:".
Definition options : list option_ :=
  [Option_ "help" false "h"; Option_ "repeat" true "r"; Option_ "thread" true "t";
   Option_ "main" true "m"; Option_ "overhead" true "x"; Option_ "disable" true "d";
   Option_ "period" true "p"; Option_ "exp" true "e"; Option_ "unwind" true "u";
   Option_ "verbose" false "v"].

(** The unwinding named by an argument; any other name keeps the old one. *)
Definition unwind_name (old : Z) (s : string) : Z :=
  if String.eqb "none" s then UNW_TYPE_NONE
  else if String.eqb "online" s then UNW_TYPE_ONLINE
  else if String.eqb "offline" s then UNW_TYPE_OFFLINE
  else if String.eqb "offline-fast" s then UNW_TYPE_OFFLINE_FAST
  else if String.eqb "backtrace" s then UNW_TYPE_BACKTRACE
  else if String.eqb "memcpy" s then UNW_TYPE_MEMCPY
  else old.

Definition parse_opt (f : found) (a : args) : prog args :=
  match opt f with
  | "r"%char => with_arg f (fun s => Ret (set_repeat a (atoi s)))
  | "t"%char => with_arg f (fun s => Ret (set_nr_thread a (atoi s)))
  | "e"%char => with_arg f (fun s =>
      Ret (match find_exp s with Some e => set_exp a (Some e) | None => a end))
  | "m"%char => with_arg f (fun s => Ret (set_main a (atol s)))
  | "x"%char => with_arg f (fun s => Ret (set_overhead a (atol s)))
  | "d"%char => with_arg f (fun s => Ret (set_disable a (atoi s)))
  | "p"%char => with_arg f (fun s => Ret (set_period a (atoi s)))
  | "u"%char => with_arg f (fun s => Ret (set_unwind a (unwind_name (unwind_type a) s) (unwind_depth a)))
  | _ => usage
  end.

Definition default_args : args :=
  Args DEFAULT_THREAD DEFAULT_REPEAT None DEFAULT_ITER_OVERHEAD DEFAULT_ITER_MAIN DEFAULT_DISABLE
    DEFAULT_PERIOD DEFAULT_DRYRUN DEFAULT_UNWIND DEFAULT_DEPTH def_attr 0 []
    (Timespec 0 0) (Timespec 0 0) 0 0.

Definition parse_opts (argv : list string) : prog args :=
  a ← opt_loop parse_opt (getopt_long optstring options None argv) default_args;
  match exp_ a with
  | None => usage
  | Some _ => Ret (set_freq (set_sample a (u64 (period a))) 0)
  end.

Definition exp_name (e : exp) : string :=
  match List.find (fun x => match x.2, e with
                            | Handler_work, Handler_work | Sampling_overhead, Sampling_overhead
                            | Unwind_all, Unwind_all | Unwind_one, Unwind_one
                            | Perf_event_open_exp, Perf_event_open_exp
                            | Perf_ioctl, Perf_ioctl => true
                            | _, _ => false end) exps with
  | Some x => x.1 | None => "" end.

(** The status is what [asprintf] returned: the length of the file name. *)
Definition main (argv : list string) : prog Z :=
  a ← parse_opts argv;
  call (Barrier_init (u32 (nr_thread a)));;
  install_sighand;;
  match exp_ a with
  | None => Undef "read through NULL"
  | Some e =>
      let fname := exp_name e +:+ ".csv" in
      let ret := Z.of_nat (String.length fname) in
      assert_ (0 <? ret);;
      out ← call (Fopen fname "w");
      match out with
      | None => assert_ false;; Ret 0
      | Some out =>
          let a := set_out a out in
          stats_header a;;
          c ← calibrate 1000;
          let a := set_1ms a (s64 c) in
          a ← for_ (Z.to_nat (repeat a)) 0 (fun _ a => exp_func e a) a;
          call (Fflush out);;
          call (Fclose out);;
          Ret ret
      end
  end.

(** ** The busy loop *)

Lemma perf_hog_turns fuel x turns :
  0 <= x -> x <= Z.of_nat fuel -> hog_loop fuel x turns = Some (turns + x).
Proof.
  revert x turns. induction fuel as [|fuel IH]; intros x turns Hx Hf; cbn [hog_loop].
  - case_if; [f_equal; lia|lia].
  - case_if; [f_equal; lia|]. unfold INT_MIN. case_if; [lia|]. rewrite IH by lia. f_equal. lia.
Qed.

(** ** Unwinding: lemmas *)

Lemma rec_unwinds {W} (h : handler W) fuel depth type w :
  0 <= depth < Z.of_nat fuel ->
  run h (rec1 fuel depth type) w = run h (do_unwind type;; Ret 0) w
  /\ run h (rec2 fuel depth type) w = run h (do_unwind type;; Ret 0) w.
Proof.
  revert depth w. induction fuel as [|fuel IH]; intros depth w Hd; [lia|].
  cbn [rec1 rec2]. case_if.
  - destruct (IH (depth - 1) w) as [H1 H2]; [lia|].
    rewrite !run_bind. rewrite H1, H2, !run_bind.
    destruct (run h (do_unwind type) w) as [[] w']; cbn [and_then]; rewrite ?run_ret; done.
  - done.
Qed.

(** The addresses a trace read from the unwinder. *)
Definition frame_of (e : ev) : option Z :=
  match e with
  | Ev e x => match e in sys X return X -> option Z with
              | Unw_get_ip => fun ip => Some ip | _ => fun _ => None end x
  end.
Definition frames (tr : list ev) : list Z := omap frame_of tr.

Lemma frames_app tr1 tr2 : frames (tr1 ++ tr2) = frames tr1 ++ frames tr2.
Proof. unfold frames. by rewrite omap_app. Qed.

Lemma run_unwind_loop {W} (h : handler W) fuel addr w tr :
  Z.of_nat (length addr) + Z.of_nat fuel = MAX_DEPTH ->
  exists w' tr' l,
    run (traced h) (unwind_loop fuel addr (Z.of_nat (length addr))) (w, tr)
    = (Done (addr ++ l, Z.of_nat (length (addr ++ l))), (w', tr ++ tr'))
    /\ frames tr' = l /\ Z.of_nat (length (addr ++ l)) <= MAX_DEPTH.
Proof.
  revert addr w tr. induction fuel as [|fuel IH]; intros addr w tr Hf; cbn [unwind_loop].
  - case_if; [lia|]. exists w, [], []. rewrite !app_nil_r. split; [done|]. split; [done|lia].
  - case_if; [|lia]. step_run. case_if.
    + step_run. unfold store_addr. replace (_ && _) with true.
      2:{ symmetry. apply andb_true_iff. rewrite Z.leb_le, Z.ltb_lt. lia. }
      step_run. rewrite Nat2Z.id, take_ge by lia.
      match goal with |- context [addr ++ [?x]] => set (ip := x) end.
      replace (Z.of_nat (length addr) + 1) with (Z.of_nat (length (addr ++ [ip])))
        by (rewrite length_app; cbn; lia).
      match goal with |- context [run _ _ (?w1, ?tr1)] =>
        destruct (IH (addr ++ [ip]) w1 tr1) as (w' & tr' & l & -> & Hl & Hm) end.
      { rewrite length_app. cbn. lia. }
      do 3 eexists. split.
      { rewrite <- !app_assoc. cbn [app]. reflexivity. }
      rewrite <- !app_assoc in Hm. split; [|exact Hm].
      rewrite <- Hl. unfold frames. cbn. done.
    + exists (h _ Unw_step w).2, [Ev Unw_step (h _ Unw_step w).1], []. rewrite !app_nil_r.
      split; [reflexivity|]. split; [done|lia].
Qed.

Lemma run_do_unwind_online {W} (h : handler W) w tr :
  exists w' tr',
    run (traced h) do_unwind_online (w, tr) = (Done tt, (w', tr ++ tr'))
    /\ Z.of_nat (length (frames tr')) <= MAX_DEPTH
    /\ exists tr0, tr' = tr0 ++ [Ev (Tracepoint "unwind" "online"
                                      (frames tr' ++ [Z.of_nat (length (frames tr'))])) tt].
Proof.
  unfold do_unwind_online. step_run.
  match goal with |- context [run _ (unwind_loop ?f [] 0) (?w1, ?tr1)] =>
    destruct (run_unwind_loop h f [] w1 tr1) as (w' & tr' & l & Hr & Hl & Hm); [done|] end.
  change (Z.of_nat (length [])) with 0 in Hr. rewrite Hr. cbn [app] in *. step_run.
  eexists _, ([_; _] ++ tr' ++ [_]). split; [rewrite <- !app_assoc; reflexivity|].
  rewrite !frames_app. cbn [frames omap list_omap frame_of app]. fold (frames tr').
  rewrite !app_nil_r, Hl. split; [done|]. by eexists (_ :: _ :: tr').
Qed.

(** ** Runs: lemmas *)

(** What a trace shows of a run: the signals of every busy loop, the rows
    written, the lines of the unwinding experiment. *)
Inductive note := | Sigs (k : Z) | Row (l : list parg) | Depth_type (d t : Z).

Definition note_of (e : ev) : option note :=
  match e with
  | Ev e x =>
      match e in sys X return X -> option note with
      | Signals => fun k => Some (Sigs k)
      | Fprintf _ f l => fun _ => if String.eqb f ROW then Some (Row l) else None
      | Printf f (PInt d :: PInt t :: _) =>
          fun _ => if String.eqb f ("%d;%d;%.0f;%.0f" +:+ NL) then Some (Depth_type d t) else None
      | _ => fun _ => None
      end x
  end.
#[local] Notation notes := (Notes.notes note_of).
#[local] Notation shows := (Notes.shows note_of).
#[local] Notation silent := (Notes.silent note_of).

(** A machine that grants memory and counters, and signals at most [INT_MAX]
    times. *)
Record perf_env {W} (h : handler W) : Prop := PerfEnv {
  pe_calloc : forall n m w, exists p, (h _ (Calloc n m) w).1 = Some p;
  pe_open : forall at_ p c g f w, 0 < (h _ (Perf_event_open at_ p c g f) w).1 <= INT_MAX;
  pe_setown : forall f t w, (h _ (Fcntl_setown f t) w).1 = 0;
  pe_setfl : forall f t w, (h _ (Fcntl_setfl_async f t) w).1 = 0;
  pe_signals : forall w, 0 <= (h _ Signals w).1 <= INT_MAX
}.

Lemma silent_hog {W} (h : handler W) n : 0 <= s32 n -> silent h (hog n).
Proof. intros H. unfold hog. cbv zeta. case_if; [lia|]. by apply silent_call. Qed.

Lemma signal_handler_shows {W} (h : handler W) a c :
  0 <= s32 (iter_overhead a) ->
  shows h (signal_handler a c)
    (fun c' l => l = [] /\ c' = Counter (rank c) (fd c) (tid c) (s32 (hits c + 1))).
Proof.
  intros Ho. unfold signal_handler.
  eapply silent_bind; [case_if; [eapply silent_bind; [by apply silent_call|]; intros|]; by apply silent_ret|].
  intros _. eapply silent_bind; [by apply silent_hog|]. intros _.
  eapply silent_bind.
  { repeat case_if; [eapply silent_bind; [by apply silent_call|]; intros; by apply silent_ret
                    |eapply silent_bind; [by apply silent_call|]; intros; by apply silent_ret
                    |by apply silent_ret]. }
  intros _. by apply shows_ret.
Qed.

Lemma deliver_shows {W} (h : handler W) a c :
  perf_env h -> 0 <= s32 (iter_overhead a) -> hits c = 0 ->
  shows h (deliver a c) (fun c' l => l = [Sigs (hits c')] /\ 0 <= hits c' <= INT_MAX /\ fd c' = fd c).
Proof.
  intros Henv Ho Hc. unfold deliver.
  eapply (shows_bind _ _ _ (fun k l => l = [Sigs k] /\ 0 <= k <= INT_MAX)).
  { apply shows_call. intros w. split; [done|apply (pe_signals h Henv)]. }
  intros k l [-> Hk]. eapply shows_weaken.
  - apply (shows_for h (fun j c' l => l = [] /\ hits c' = j /\ fd c' = fd c)); [done|].
    intros j c' l Hj (-> & Hh & Hfd). eapply shows_weaken; [by apply signal_handler_shows|].
    intros c2 l [-> ->]. cbn. split; [done|]. split; [|done]. rewrite Hh, s32_id by clia. done.
  - intros c' l (-> & Hh & Hfd). rewrite Hh. split; [|split; [clia|done]]. cbn. do 2 f_equal. lia.
Qed.

Lemma silent_assert {W} (h : handler W) : silent h (assert_ true).
Proof. by apply silent_ret. Qed.

Lemma open_counter_shows {W} (h : handler W) a c :
  perf_env h -> shows h (open_counter a c) (fun c' l => l = [] /\ hits c' = hits c).
Proof.
  intros [_ Ho Hs Hf _]. unfold open_counter, gettid.
  eapply silent_bind.
  { eapply silent_bind; [by apply silent_call|]. intros t. apply silent_ret. }
  intros t. eapply (shows_bind _ _ _ (fun f l => l = [] /\ 0 < f <= INT_MAX)).
  { apply shows_call. intros w. split; [done|apply Ho]. }
  intros f l [-> Hf0]. rewrite s32_id by clia. replace (0 <? f) with true by lia.
  eapply silent_bind; [apply silent_assert|]. intros _.
  eapply (shows_bind _ _ _ (fun r l => l = [] /\ r = 0)); [apply shows_call; intros; by rewrite Hs|].
  intros r l [-> ->]. eapply silent_bind; [apply silent_assert|]. intros _.
  eapply silent_bind; [by apply silent_call|]. intros fl.
  eapply (shows_bind _ _ _ (fun r l => l = [] /\ r = 0)); [apply shows_call; intros; by rewrite Hf|].
  intros r l [-> ->]. eapply silent_bind; [apply silent_assert|]. intros _.
  eapply silent_bind.
  { case_if; [eapply silent_bind; [by apply silent_call|]; intros|]; by apply silent_ret. }
  intros _. eapply silent_bind; [by apply silent_call|]. intros _. by apply shows_ret.
Qed.

(** A thread: without a counter no hits, with one as many as signals. *)
Lemma do_work_shows {W} (h : handler W) a i :
  perf_env h -> 0 <= s32 (iter_overhead a) -> 0 <= s32 (iter_main a) ->
  shows h (do_work a (Counter i 0 0 0))
    (fun c l => l = (if dryrun a =? 0 then [Sigs (hits c)] else []) /\ 0 <= hits c <= INT_MAX
                /\ (dryrun a <> 0 -> hits c = 0)).
Proof.
  intros Henv Ho Hm. unfold do_work.
  eapply (shows_bind _ _ _ (fun c l => l = [] /\ hits c = 0)).
  { case_if; [by apply open_counter_shows|by apply shows_ret]. }
  intros c l [-> Hc]. eapply silent_bind; [by apply silent_call|]. intros _.
  eapply silent_bind; [by apply silent_hog|]. intros _.
  case_if.
  - eapply shows_bind; [by apply deliver_shows|]. intros c' l (-> & Hh & Hfd).
    eapply silent_bind; [unfold close_counter; eapply silent_bind; [by apply silent_call|]; intros; apply silent_ret|].
    intros _. apply shows_ret. cbn. split; [done|]. split; [done|]. by intros.
  - eapply (shows_bind _ _ _ (fun c' l => c' = c /\ l = [])); [by apply shows_ret|].
    intros c' l [-> ->]. eapply silent_bind; [apply silent_ret|]. intros _.
    apply shows_ret. rewrite Hc. split; [done|]. split; [clia|done].
Qed.

(** The row a run writes when its threads ended as [cs]. *)
Definition run_row (a : args) (cs : list counter) (x y : timespec) : note := Row (row (set_run a cs x y)).

(** What a run shows: the signals of its threads, in order, and one row. *)
Definition run_shows (a a' : args) (l : list note) : Prop :=
  exists cs x y, a' = set_run a [] x y
    /\ Z.of_nat (length cs) = nr_thread a
    /\ l = (if dryrun a =? 0 then map (fun c => Sigs (hits c)) cs else []) ++ [run_row a cs x y]
    /\ Forall (fun c => 0 <= hits c <= INT_MAX /\ (dryrun a <> 0 -> hits c = 0)) cs.

Lemma do_one_shows {W} (h : handler W) a :
  perf_env h -> 0 < nr_thread a <= INT_MAX -> 0 <= s32 (iter_overhead a) -> 0 <= s32 (iter_main a) ->
  shows h (do_one a) (run_shows a).
Proof.
  intros Henv Hn Ho Hm. unfold do_one.
  eapply (shows_bind _ _ _ (fun p l => l = [] /\ exists x, p = Some x)).
  { apply shows_call. intros w. split; [done|]. apply (pe_calloc h Henv). }
  intros p l [-> [x ->]]. cbv zeta. eapply silent_bind; [apply silent_ret|]. intros _.
  eapply silent_bind; [by apply silent_call|]. intros t1.
  eapply silent_bind.
  { eapply shows_weaken; [apply (shows_for h (fun _ _ l => l = [])); [done|]|by intros].
    intros j s l _ ->. eapply silent_bind; [by apply silent_call|]. intros. by apply shows_ret. }
  intros _.
  eapply (shows_bind _ _ _ (fun cs l => Z.of_nat (length cs) = nr_thread a
    /\ l = (if dryrun a =? 0 then map (fun c => Sigs (hits c)) cs else [])
    /\ Forall (fun c => 0 <= hits c <= INT_MAX /\ (dryrun a <> 0 -> hits c = 0)) cs)).
  { eapply shows_weaken.
    - apply (shows_for h (fun j cs l => Z.of_nat (length cs) = j
        /\ l = (if dryrun a =? 0 then map (fun c => Sigs (hits c)) cs else [])
        /\ Forall (fun c => 0 <= hits c <= INT_MAX /\ (dryrun a <> 0 -> hits c = 0)) cs)).
      { split; [done|]. split; [by case_if|constructor]. }
      intros j cs l Hj (Hl & -> & Hf).
      eapply shows_bind; [by apply do_work_shows|]. intros c l (-> & Hc & Hd).
      eapply silent_bind; [by apply silent_call|]. intros _. apply shows_ret.
      rewrite app_nil_r, length_app. cbn [length]. split; [lia|]. split.
      + case_if; [by rewrite map_app|done].
      + apply Forall_app. split; [done|]. by constructor.
    - intros cs l (Hl & -> & Hf). split; [lia|done]. }
  intros cs l (Hl & -> & Hf). eapply silent_bind; [by apply silent_call|]. intros t2.
  eapply (shows_bind _ _ _ (fun _ l => l = [run_row a cs t1 t2])).
  { unfold after_run.
    eapply (shows_bind _ _ _ (fun _ l => l = [run_row a cs t1 t2])); [by apply shows_call|].
    intros _ l ->. eapply silent_bind; [by apply silent_call|]. intros _.
    unfold print_status. cbn [counters set_run]. destruct cs as [|c cs]; [cbn in Hl; lia|].
    apply shows_call. intros w. reflexivity. }
  intros _ l ->. eapply silent_bind; [by apply silent_call|]. intros _.
  apply shows_ret. exists cs, t1, t2. split; [done|]. split; [done|]. split; [|done].
  by rewrite app_nil_r.
Qed.

(** ** Experiments *)

(** What the rows of a list of notes say: threads, dry run, period, main and
    overhead work, mode, hits. *)
Definition row_config (n : note) : option (list Z * Z) :=
  match n with
  | Row [PInt t; PInt d; PInt p; PInt m; PInt o; PInt di; PInt h; _] => Some ([t; d; p; m; o; di], h)
  | _ => None
  end.
Definition configs (l : list note) : list (list Z) := omap (fun n => fst <$> row_config n) l.
(** The rows of dry runs, by their hits. *)
Definition dry_hits (l : list note) : list Z :=
  omap (fun n => match row_config n with Some ([_; 1; _; _; _; _], h) => Some h | _ => None end) l.

Definition config (a : args) : list Z :=
  [nr_thread a; dryrun a; period a; iter_main a; iter_overhead a; disable a].

Lemma total_hits_zero a cs x y :
  Forall (fun c => 0 <= hits c <= INT_MAX /\ (dryrun a <> 0 -> hits c = 0)) cs -> dryrun a <> 0 ->
  total_hits (set_run a cs x y) = 0.
Proof.
  intros Hf Hd. unfold total_hits. cbn [counters set_run].
  induction Hf as [|c cs [_ Hc] Hf IH]; [done|]. cbn [foldl]. by rewrite Hc.
Qed.

Lemma run_shows_configs a a' l :
  run_shows a a' l -> configs l = [config a] /\ (dryrun a = 1 -> dry_hits l = [0])
    /\ (dryrun a = 0 -> dry_hits l = []).
Proof.
  intros (cs & x & y & _ & Hl & -> & Hf). unfold configs, dry_hits. rewrite !omap_app.
  assert (forall cs : list counter, omap (fun n => fst <$> row_config n) (map (fun c => Sigs (hits c)) cs) = []) as H1.
  { induction cs0 as [|c cs0 IH]; [done|]. cbn. exact IH. }
  assert (forall cs : list counter, omap (fun n => match row_config n with Some ([_; 1; _; _; _; _], h) => Some h | _ => None end)
            (map (fun c => Sigs (hits c)) cs) = []) as H2.
  { induction cs0 as [|c cs0 IH]; [done|]. cbn. exact IH. }
  split_and!.
  - case_if; [rewrite H1|]; reflexivity.
  - intros Hd. case_if; [lia|]. unfold run_row, row. rewrite total_hits_zero by (done || lia).
    cbn. by rewrite Hd.
  - intros Hd. case_if; [|done]. rewrite H2. cbn [omap list_omap app run_row row row_config set_run dryrun].
    by rewrite Hd.
Qed.





(** The handler experiment: ten rows, in order, with [k * 100000] turns of
    overhead work for [k] from 0 to 9 and the counter re-armed by the
    handler. *)
Theorem handler_work_rows {W} (h : handler W) (a : args) (w : W)
    (Henv : perf_env h) (Hn : 0 < nr_thread a <= INT_MAX) (Hm : 0 <= iter_main a <= INT_MAX)
    (Hd : 0 <= dryrun a <= 1) :
  exists a' w' tr,
    run (traced h) (do_handler_work a) (w, []) = (Done a', (w', tr))
    /\ configs (notes tr)
       = map (fun k => [nr_thread a; dryrun a; period a; iter_main a; k * 100000; DISABLE_EARLY])
           (seqZ 0 10).
Proof.
  assert (shows h (do_handler_work a) (fun _ l => configs l =
    map (fun k => [nr_thread a; dryrun a; period a; iter_main a; k * 100000; DISABLE_EARLY]) (seqZ 0 10))) as Hs.
  { unfold do_handler_work. eapply shows_weaken.
    - apply (shows_for h (fun i b l =>
        (nr_thread b = nr_thread a /\ iter_main b = iter_main a /\ dryrun b = dryrun a /\ period b = period a)
        /\ configs l = map (fun k => [nr_thread a; dryrun a; period a; iter_main a; k * 100000; DISABLE_EARLY])
                         (seqZ 0 i))).
      { by split. }
      intros i b l Hi [(H1 & H2 & H3 & H4) Hl]. eapply shows_weaken.
      + apply do_one_shows; cbn; [done|lia|rewrite s32_id by clia; lia|rewrite H2, s32_id by clia; lia].
      + intros b2 l2 Hb2. split; [destruct Hb2 as (cs & x & y & -> & _); done|].
        apply run_shows_configs in Hb2 as [Hc _]. unfold configs in *. rewrite omap_app, Hl, Hc.
        replace (i + 1) with (Z.of_nat (S (Z.to_nat i))) by lia.
        rewrite seqZ_S, map_app, Z2Nat.id by lia. unfold config. cbn. by rewrite H1, H2, H3, H4.
    - intros b l [_ Hl]. exact Hl. }
  destruct (Hs w []) as (a' & w' & tr & Hr & Hc). by exists a', w', tr.
Qed.

(** (C21) The mutual recursion [rec1]/[rec2] deepens the stack by
    [unwind_depth] frames, terminates, and unwinds exactly once; unwinding
    online terminates on every answer of the unwinder, never writes outside
    the array of addresses, and reports exactly the addresses read, in
    order, with their number. *)
Theorem rec_unwinds_online {W} (h : handler W) (a : args) (w : W)
    (Hd : 0 <= unwind_depth a) (Ht : unwind_type a = UNW_TYPE_ONLINE) :
  exists w' tr,
    run (traced h) (rec a) (w, []) = (Done (0, a), (w', tr))
    /\ Z.of_nat (length (frames tr)) <= MAX_DEPTH
    /\ exists tr0, tr = tr0 ++ [Ev (Tracepoint "unwind" "online"
                                     (frames tr ++ [Z.of_nat (length (frames tr))])) tt].
Proof.
  unfold rec. rewrite run_bind.
  destruct (rec_unwinds (traced h) (S (Z.to_nat (unwind_depth a))) (unwind_depth a) (unwind_type a) (w, []))
    as [-> _]; [lia|].
  rewrite Ht, run_bind. change (do_unwind UNW_TYPE_ONLINE) with do_unwind_online.
  destruct (run_do_unwind_online h w []) as (w' & tr & -> & Hl & tr0 & Htr). cbn [and_then]. rewrite !run_ret.
  cbn [and_then]. rewrite run_ret. exists w', tr. split; [done|]. split; [done|]. by exists tr0.
Qed.

(** ** The overhead of unwinding *)

(** An environment in which memory is granted and [unw_backtrace] keeps its
    promise. *)
Record unwind_env {W} (h : handler W) : Prop := UnwindEnv {
  ue_malloc : forall n w, exists p, (h _ (Malloc n) w).1 = Some p;
  ue_backtrace : forall m w, 0 <= m -> ((h _ (Unw_backtrace m) w).1).1 <= m
}.

Lemma silent_unwind {W} (h : handler W) type : unwind_env h -> silent h (do_unwind type).
Proof.
  intros [_ Hb].
  assert (silent h do_unwind_backtrace) as Hbt.
  { unfold do_unwind_backtrace.
    eapply (shows_bind _ _ _ (fun x l => l = [] /\ x.1 <= MAX_DEPTH)).
    { apply shows_call. intros w. split; [done|by apply Hb]. }
    intros [d l] k [-> Hd]. cbn [fst] in Hd. replace (d <=? MAX_DEPTH) with true by lia.
    eapply silent_bind; [apply silent_assert|]. intros _. by apply silent_call. }
  unfold do_unwind. repeat case_if; try apply silent_ret; try exact Hbt.
  - unfold do_unwind_online. eapply silent_bind; [by apply silent_call|]. intros _.
    eapply silent_bind; [by apply silent_call|]. intros _.
    eapply silent_bind; [|intros [l d]; by apply silent_call].
    assert (forall fuel addr, Z.of_nat (length addr) + Z.of_nat fuel = MAX_DEPTH ->
      silent h (unwind_loop fuel addr (Z.of_nat (length addr)))) as Hloop.
    { induction fuel as [|fuel IH]; intros addr Hl; cbn [unwind_loop].
      - case_if; [lia|apply silent_ret].
      - case_if; [|lia]. eapply silent_bind; [by apply silent_call|]. intros r.
        case_if; [|apply silent_ret]. eapply silent_bind; [by apply silent_call|]. intros ip.
        unfold store_addr. replace (_ && _) with true.
        2:{ symmetry. apply andb_true_iff. rewrite Z.leb_le, Z.ltb_lt. lia. }
        eapply (shows_bind _ _ _ (fun x l => l = [] /\ x = addr ++ [ip])).
        { apply shows_ret. rewrite Nat2Z.id, take_ge by lia. done. }
        intros x l [-> ->]. eapply shows_weaken; [|intros ? ? Hnil; exact Hnil].
        replace (Z.of_nat (length addr) + 1) with (Z.of_nat (length (addr ++ [ip])))
          by (rewrite length_app; cbn; lia).
        apply IH. rewrite length_app. cbn. lia. }
    by apply (Hloop (Z.to_nat MAX_DEPTH) []).
  - unfold do_unwind_offline. eapply silent_bind; [by apply silent_call|]. intros uc. by apply silent_call.
  - unfold do_unwind_offline_fast. eapply silent_bind; [by apply silent_call|]. intros uc. by apply silent_call.
Qed.

Lemma rec_shows {W} (h : handler W) a :
  unwind_env h -> 0 <= unwind_depth a -> shows h (rec a) (fun r l => r = (0, a) /\ l = []).
Proof.
  intros Henv Hd w tr. unfold rec. rewrite run_bind.
  destruct (rec_unwinds (traced h) (S (Z.to_nat (unwind_depth a))) (unwind_depth a) (unwind_type a) (w, tr))
    as [-> _]; [lia|].
  destruct (silent_unwind h (unwind_type a) Henv w tr) as ([] & w' & tr' & Hr & Hl).
  rewrite run_bind, Hr. cbn [and_then]. rewrite !run_ret. cbn [and_then]. rewrite run_ret. eauto 6.
Qed.

Lemma delta_at_shows {W} (h : handler W) p l i :
  0 <= i -> i + 1 < Z.of_nat (length l) -> silent h (delta_at (BArr p l) i).
Proof.
  intros Hi Hl. unfold delta_at.
  assert (forall j, 0 <= j < Z.of_nat (length l) -> silent h (load_ts (BArr p l) j)) as Hload.
  { intros j Hj. unfold load_ts. case_if; [lia|].
    destruct (lookup_lt_is_Some_2 l (Z.to_nat j)) as [x ->]; [lia|]. apply silent_ret. }
  eapply silent_bind; [apply Hload; lia|]. intros t1.
  eapply silent_bind; [apply Hload; lia|]. intros t0. apply silent_ret.
Qed.

(** The profile of the unwinder, with the buffer of its clock readings. *)
Definition unwinder (b : args) (d : tsbuf) : profile args :=
  Profile _ (Some "unwind") rec b 10000 (double_of_Z 0) (double_of_Z 0) 0 d.

Lemma unwind_init_shows {W} (h : handler W) a b :
  unwind_env h ->
  shows h (profile_init (Utils.set_args (unwind_profile a) b)) (fun prof l => l = [] /\ exists p,
    prof = unwinder b (BArr p (replicate 10000 (Timespec 0 0)))).
Proof.
  intros Henv. unfold profile_init. cbn [Utils.repeat Utils.set_args unwind_profile].
  change (u64 (u64 10000 * sizeof_timespec)) with 160000.
  eapply (shows_bind _ _ _ (fun x l => l = [] /\ exists p, x = Some p)).
  { apply shows_call. intros w. split; [done|apply (ue_malloc h Henv)]. }
  intros x l [-> [p ->]].
  eapply (shows_bind _ _ _ (fun x l => l = [] /\ x = BArr p (replicate 10000 (Timespec 0 0)))).
  { eapply silent_bind; [by apply silent_call|]. intros _. by apply shows_ret. }
  intros x l [-> ->]. apply shows_ret. split; [done|]. by exists p.
Qed.

(** The loop keeps a full buffer. *)
Lemma unwind_func_shows {W} (h : handler W) b p :
  unwind_env h -> 0 <= unwind_depth b ->
  shows h (profile_func (unwinder b (BArr p (replicate 10000 (Timespec 0 0))))) (fun prof l => l = [] /\
    exists ts, Z.of_nat (length ts) = 10000 /\ prof = unwinder b (BArr p ts)).
Proof.
  intros Henv Hd. unfold profile_func. cbn [func Utils.args Utils.repeat data unwinder].
  eapply (shows_bind _ _ _ (fun r l => l = [] /\ r = (0, b))).
  { eapply shows_weaken; [by apply rec_shows|]. by intros ? ? [-> ->]. }
  intros r l [-> ->].
  eapply (shows_bind _ _ _ (fun r l => l = [] /\ r.2 = b /\ exists ts, Z.of_nat (length ts) = 10000 /\ r.1 = BArr p ts)).
  { apply (shows_for h (fun _ r l => l = [] /\ r.2 = b /\ exists ts, Z.of_nat (length ts) = 10000 /\ r.1 = BArr p ts)).
    { split_and!; [done..|]. exists (replicate 10000 (Timespec 0 0)). by split; [rewrite length_replicate|]. }
    intros j [x y] l Hj (-> & Hy & ts & Hts & Hx). cbn [fst snd] in *. subst x y.
    eapply silent_bind; [by apply silent_call|]. intros t.
    eapply (shows_bind _ _ _ (fun x l => l = [] /\ exists ts, Z.of_nat (length ts) = 10000 /\ x = BArr p ts)).
    { unfold store_ts. replace (_ && _) with true.
      2:{ symmetry. apply andb_true_iff. rewrite Z.leb_le, Z.ltb_lt. lia. }
      apply shows_ret. split; [done|]. eexists. split; [|reflexivity]. by rewrite length_insert. }
    intros x l [-> (ts' & Hts' & ->)].
    eapply shows_bind; [by apply rec_shows|]. intros r l [-> ->]. apply shows_ret.
    split_and!; [done..|]. by exists ts'. }
  intros [x y] l (-> & Hy & ts & Hts & Hx). cbn [fst snd] in *. subst x y.
  apply shows_ret. split; [done|]. by exists ts.
Qed.

Lemma unwind_stats_shows {W} (h : handler W) b p ts :
  Z.of_nat (length ts) = 10000 ->
  shows h (profile_stats (unwinder b (BArr p ts))) (fun prof l => l = [] /\ Utils.args prof = b).
Proof.
  intros Hts. unfold profile_stats. cbn [data Utils.repeat unwinder].
  assert (forall (S : Type) (g : timespec -> S -> S) (s : S),
    silent h (for_ (Z.to_nat (s32 (10000 - 1))) 0 (fun i s => x ← delta_at (BArr p ts) i; Ret (g x s)) s)) as Hfor.
  { intros S g s. eapply shows_weaken; [apply (shows_for h (fun _ _ l => l = [])); [done|]|by intros].
    intros j s' l Hj ->. rewrite s32_id in Hj by clia.
    eapply silent_bind; [apply delta_at_shows; lia|]. intros. by apply shows_ret. }
  eapply silent_bind; [apply (Hfor _ (fun x s => time_add s x))|]. intros tot.
  eapply silent_bind; [apply (Hfor _ (fun delta acc => dadd acc (dmul _ _)))|].
  intros sq. by apply shows_ret.
Qed.

Lemma overhead_one_shows {W} (h : handler W) a :
  unwind_env h -> 0 <= unwind_depth a ->
  shows h (do_unwind_overhead_one a)
    (fun a' l => (exists d, a' = set_done a d) /\ l = [Depth_type (unwind_depth a) (unwind_type a)]).
Proof.
  intros Henv Hd. unfold do_unwind_overhead_one. cbv zeta.
  eapply (shows_bind _ _ _ (fun b l => l = [] /\ exists d, b = set_done a d)).
  { case_if; [eapply silent_bind; [by apply silent_call|]; intros; apply shows_ret; split; [done|]; by exists 1|].
    apply shows_ret. split; [done|]. exists (done a). by destruct a. }
  intros b l [-> [d ->]].
  eapply shows_bind; [by apply unwind_init_shows|]. intros prof l [-> [p ->]].
  eapply shows_bind; [by apply unwind_func_shows|]. intros prof l [-> (ts & Hts & ->)].
  eapply shows_bind; [by apply unwind_stats_shows|]. intros prof l [-> E]. rewrite E.
  eapply (shows_bind _ _ _ (fun _ l => l = [Depth_type (unwind_depth a) (unwind_type a)])).
  { apply shows_call. intros w. reflexivity. }
  intros _ l ->. apply shows_ret. split; [by exists d|done].
Qed.

(** The comparison of the unwinders: [do_unwind_overhead_all] terminates
    and measures exactly fifty configurations, in order: for each of the
    types none, offline, offline-fast, backtrace and memcpy the depths 0, 10,
    ..., 90.  Unwinding online, the default, is not among them. *)
Theorem unwind_all_configs {W} (h : handler W) (a : args) (w : W) (Henv : unwind_env h) :
  exists a' w' tr,
    run (traced h) (do_unwind_overhead_all a) (w, []) = (Done a', (w', tr))
    /\ notes tr = concat (map (fun t => map (fun i => Depth_type (10 * i) t) (seqZ 0 10)) (seqZ 0 5))
    /\ forall d, Depth_type d UNW_TYPE_ONLINE ∉ notes tr.
Proof.
  assert (shows h (do_unwind_overhead_all a) (fun _ l =>
    l = concat (map (fun t => map (fun i => Depth_type (10 * i) t) (seqZ 0 10)) (seqZ 0 5)))) as Hs.
  { unfold do_unwind_overhead_all.
    apply (shows_for h (fun t _ l =>
      l = concat (map (fun t => map (fun i => Depth_type (10 * i) t) (seqZ 0 10)) (seqZ 0 t)))); [done|].
    intros t b l Ht ->. eapply shows_weaken.
    - apply (shows_for h (fun i _ l => l = map (fun i => Depth_type (10 * i) t) (seqZ 0 i))); [done|].
      intros i b2 l Hi ->. eapply shows_weaken; [apply overhead_one_shows; [done|change (0 <= 10 * i); lia]|].
      intros b3 l [_ ->]. cbn [set_unwind unwind_depth unwind_type].
      replace (i + 1) with (Z.of_nat (S (Z.to_nat i))) by lia.
      by rewrite seqZ_S, map_app, Z2Nat.id by lia.
    - intros b2 l ->. change (0 + Z.of_nat (Z.to_nat (MAX_DEPTH / 10))) with 10.
      replace (t + 1) with (Z.of_nat (S (Z.to_nat t))) by lia.
      rewrite seqZ_S, map_app, concat_app, Z2Nat.id by lia. cbn [map concat]. by rewrite app_nil_r. }
  destruct (Hs w []) as (a' & w' & tr & Hr & Hc). exists a', w', tr. split; [done|]. split; [done|].
  rewrite Hc. intros d Hin. apply list_elem_of_In, in_concat in Hin as (l & Hl & Hin).
  apply in_map_iff in Hl as (t & <- & Ht). apply in_map_iff in Hin as (i & Hi & _).
  injection Hi as _ ->. apply list_elem_of_In, elem_of_seqZ in Ht. unfold UNW_TYPE_ONLINE in Ht. lia.
Qed.

(** ** Witnesses *)

Lemma default_perf_env : perf_env (W := unit) default_handler.
Proof.
  split; intros; try (by exists 1); try reflexivity; vm_compute; intuition discriminate.
Qed.

Lemma default_unwind_env : unwind_env (W := unit) default_handler.
Proof. split; intros; [by exists 1|]. cbn. done. Qed.


Theorem handler_work_rows_witness :
  exists a' w' tr, run (traced default_handler) (do_handler_work default_args) (tt, [])
                   = (Done a', (w', tr)) /\ length (configs (notes tr)) = 10%nat.
Proof.
  destruct (handler_work_rows default_handler default_args tt) as (a' & w' & tr & Hr & Hc).
  - exact default_perf_env.
  - vm_compute. intuition discriminate.
  - vm_compute. intuition discriminate.
  - vm_compute. intuition discriminate.
  - exists a', w', tr. split; [exact Hr|]. rewrite Hc. reflexivity.
Defined.

Theorem rec_unwinds_online_witness :
  exists w' tr, run (traced default_handler) (rec default_args) (tt, []) = (Done (0, default_args), (w', tr)).
Proof.
  destruct (rec_unwinds_online default_handler default_args tt) as (w' & tr & Hr & _).
  - vm_compute. discriminate.
  - reflexivity.
  - by exists w', tr.
Defined.

Theorem unwind_all_configs_witness :
  exists a' w' tr, run (traced default_handler) (do_unwind_overhead_all default_args) (tt, [])
                   = (Done a', (w', tr)) /\ Depth_type 90 UNW_TYPE_MEMCPY ∈ notes tr.
Proof.
  destruct (unwind_all_configs default_handler default_args tt default_unwind_env)
    as (a' & w' & tr & Hr & Hc & _).
  exists a', w', tr. split; [exact Hr|]. rewrite Hc.
  apply list_elem_of_In. vm_compute. intuition.
Defined.
