(* ===== verification/Process.v ===== *)
(** * Processes in time: cpm1.c, cpm2.c, reparent.c, inception.c

    The programs of the kit whose point is their critical path: which process
    computes, which one waits, and for how long.  [timed] runs a program from
    a given instant with the processes it forks, which start where they are
    forked from and run beside their parent; [waitpid] takes the caller to
    the end of the child.  The result is the instant at which the process
    ends and a log of what every process of its family did, and when. *)

From S2P Require Import Prelude CInt CString Libc Utils Calibrate.

Local Open Scope string_scope.
Local Open Scope list_scope.
Local Open Scope Z_scope.

(** ** The timed semantics *)

(** A process, by its place in the family: the child forked by the [i]-th
    [fork] of [p] is [p ++ [i]]. *)
Notation family := (list nat).

Inductive activity := Works | Sleeps | Waits.

#[export] Instance activity_eq_dec : EqDecision activity.
Proof. solve_decision. Defined.

Record span := Span { who : family; act : activity; from : Z; til : Z }.

(** What the call lets the process do; the other calls take no room in the
    log. *)
Definition activity_of {X} (e : sys X) : option activity :=
  match e with
  | Busy _ => Some Works
  | Nanosleep _ | Sleep _ | Usleep _ => Some Sleeps
  | _ => None
  end.

(** The machine: the answer of the [fork] that creates a process (negative:
    it fails), and the answer and the duration of every other call. *)
Record machine := Machine {
  newpid : family -> Z;
  answer : forall X, sys X -> family -> X * Z
}.

Definition spans_of (me : family) (a : option activity) (t t' : Z) : list span :=
  match a with Some a => [Span me a t t'] | None => [] end.

(** [kids]: the children not yet waited for, by pid, with the instant at which
    each ends. *)
Definition reap (kids : list (Z * Z)) (pid : Z) : option Z :=
  '(_, kid) ← list_find (fun kid => kid.1 = pid) kids; Some kid.2.

Definition forget (kids : list (Z * Z)) (pid : Z) : list (Z * Z) :=
  filter (fun kid => kid.1 <> pid) kids.

Definition timing (A : Type) : Type := family -> Z -> list (Z * Z) -> nat -> outcome A * Z * list span.

Definition after_call {X A} (m : machine) (e : sys X) (f : X -> timing A) : timing A :=
  fun me t kids born =>
    let '(x, d) := answer m X e me in
    let '(o, t', l) := f x me (t + d) kids born in
    (o, t', spans_of me (activity_of e) t (t + d) ++ l).

Definition after_fork {A} (m : machine) (f : Z -> timing A) : timing A :=
  fun me t kids born =>
    let child := me ++ [born] in
    let pid := newpid m child in
    if pid <? 0 then f pid me t kids (S born)
    else
      let '(_, tc, lc) := f 0 child t [] O in
      let '(o, t', l) := f pid me t ((pid, tc) :: kids) (S born) in
      (o, t', lc ++ l).

Definition after_waitpid {A} (pid : Z) (f : Z -> timing A) : timing A :=
  fun me t kids born =>
    match reap kids pid with
    | None => f (-1) me t kids born
    | Some tc =>
        let '(o, t', l) := f pid me (Z.max t tc) (forget kids pid) born in
        (o, t', Span me Waits t (Z.max t tc) :: l)
    end.

Fixpoint timed {A} (m : machine) (p : prog A) : timing A :=
  match p with
  | Ret a => fun _ t _ _ => (Done a, t, [])
  | Exit s => fun _ t _ _ => (Exited s, t, [])
  | Undef w => fun _ t _ _ => (Undefined w, t, [])
  | Fuel => fun _ t _ _ => (Out_of_fuel, t, [])
  | Vis e k =>
      match e in sys X return (X -> timing A) -> timing A with
      | Fork => fun f => after_fork m f
      | Waitpid pid => fun f => after_waitpid pid f
      | e => fun f => after_call m e f
      end (fun x => timed m (k x))
  end.

(** ** Lemmas *)

Lemma reap_here pid tc kids : reap ((pid, tc) :: kids) pid = Some tc.
Proof. unfold reap. cbn. by rewrite decide_True. Qed.

(** The processes of a log, and the time a process spends on something. *)
Definition spent (me : family) (a : activity) (l : list span) : Z :=
  zsum (map (fun s => if decide (who s = me) then match act s, a with
    | Works, Works | Sleeps, Sleeps | Waits, Waits => til s - from s
    | _, _ => 0 end else 0) l).

(** A machine on which [hog] takes [cost p] units of time per turn in the
    process [p]. *)
Definition busy_machine (m : machine) (cost : family -> Z) : Prop :=
  forall me n, answer m unit (Busy n) me = (tt, cost me * n).

Lemma timed_hog {A} (m : machine) cost n (f : unit -> prog A) me t kids born :
  busy_machine m cost ->
  timed m (hog n ≫= f) me t kids born
  = let '(o, t', l) := timed m (f tt) me (t + cost me * Z.max 1 n) kids born in
    (o, t', Span me Works t (t + cost me * Z.max 1 n) :: l).
Proof. intros Hm. cbn. unfold after_call. rewrite Hm. reflexivity. Qed.

(** Congruence and associativity of sequencing, pointwise. *)
Definition same_timing {A} (f g : timing A) : Prop := forall me t kids born, f me t kids born = g me t kids born.

Lemma after_call_same {X A} m (e : sys X) (f g : X -> timing A) :
  (forall x, same_timing (f x) (g x)) -> same_timing (after_call m e f) (after_call m e g).
Proof. intros H me t kids born. unfold after_call. destruct (answer m X e me). by rewrite H. Qed.

Lemma after_fork_same {A} m (f g : Z -> timing A) :
  (forall x, same_timing (f x) (g x)) -> same_timing (after_fork m f) (after_fork m g).
Proof.
  intros H me t kids born. unfold after_fork. case_if; [apply H|].
  rewrite H. destruct (g 0 _ _ _ _) as [[o tc] lc]. by rewrite H.
Qed.

Lemma after_waitpid_same {A} pid (f g : Z -> timing A) :
  (forall x, same_timing (f x) (g x)) -> same_timing (after_waitpid pid f) (after_waitpid pid g).
Proof.
  intros H me t kids born. unfold after_waitpid. by destruct (reap kids pid); rewrite H.
Qed.

Lemma timed_vis_same {A X} m (e : sys X) (k k' : X -> prog A) :
  (forall x, same_timing (timed m (k x)) (timed m (k' x))) ->
  same_timing (timed m (Vis e k)) (timed m (Vis e k')).
Proof.
  intros H. destruct e; cbn [timed];
    first [apply after_call_same; exact H | apply after_fork_same; exact H | apply after_waitpid_same; exact H].
Qed.

Lemma timed_assoc {A B C} m (p : prog A) (f : A -> prog B) (g : B -> prog C) :
  same_timing (timed m ((p ≫= f) ≫= g)) (timed m (p ≫= (fun x => f x ≫= g))).
Proof.
  induction p as [a|s|w| |X e k IH]; try done. cbn [mbind prog_bind]. by apply timed_vis_same.
Qed.

Lemma timed_fork_fails {A} m (f : Z -> prog A) me t kids born :
  newpid m (me ++ [born]) < 0 ->
  timed m (call Fork ≫= f) me t kids born
  = timed m (f (newpid m (me ++ [born]))) me t kids (S born).
Proof. intros H. cbn. unfold after_fork. case_if; [done|lia]. Qed.

Lemma timed_fork {A} m (f : Z -> prog A) me t kids born pid :
  newpid m (me ++ [born]) = pid -> 0 < pid ->
  timed m (call Fork ≫= f) me t kids born
  = let '(_, tc, lc) := timed m (f 0) (me ++ [born]) t [] O in
    let '(o, t', l) := timed m (f pid) me t ((pid, tc) :: kids) (S born) in
    (o, t', lc ++ l).
Proof. intros <- H. cbn. unfold after_fork. case_if; [lia|done]. Qed.

(** Wait for the child forked last. *)
Lemma timed_waitpid {A} m pid tc kids (f : Z -> prog A) me t born :
  timed m (call (Waitpid pid) ≫= f) me t ((pid, tc) :: kids) born
  = let '(o, t', l) := timed m (f pid) me (Z.max t tc) (forget kids pid) born in
    (o, t', Span me Waits t (Z.max t tc) :: l).
Proof.
  cbn. unfold after_waitpid. rewrite reap_here. unfold forget. rewrite filter_cons_False; [done|].
  cbn. tauto.
Qed.

Lemma timed_ret {A} m (a : A) me t kids born : timed m (Ret a) me t kids born = (Done a, t, []).
Proof. done. Qed.

Lemma timed_ret_bind {A B} m (a : A) (f : A -> prog B) me t kids born :
  timed m (Ret a ≫= f) me t kids born = timed m (f a) me t kids born.
Proof. done. Qed.

(** A continuation that only returns [b]. *)
Definition quiet {A B} (m : machine) (f : A -> prog B) (b : B) : Prop :=
  forall x me t kids born, timed m (f x) me t kids born = (Done b, t, []).

(** Run a program of forks, waits and busy loops. *)
Ltac step_timed Hm :=
  repeat (rewrite !timed_assoc || rewrite (timed_hog _ _ _ _ _ _ _ _ Hm) || rewrite timed_waitpid
    || rewrite timed_ret_bind || rewrite timed_ret; cbn [app]).

(** The [fork] at the head of the goal succeeds, by [H : 0 < newpid m child]. *)
Ltac fork_succeeds H :=
  match type of H with
  | 0 < ?pid =>
      rewrite (timed_fork _ _ _ _ _ _ pid); [|done|done];
      rewrite ?(proj2 (Z.ltb_ge pid 0)), ?(proj2 (Z.eqb_neq pid 0)) by lia;
      cbn [Z.ltb Z.eqb Z.compare app]
  end.

Ltac fork_fails H :=
  match type of H with
  | ?pid < 0 =>
      rewrite timed_fork_fails; [|done]; cbn [app];
      rewrite ?(proj2 (Z.ltb_lt pid 0)) by lia
  end.

(** ** A machine where time is counted in turns and nanoseconds *)

Definition ms (n : Z) : Z := n * 1000000.

Definition duration {X} (e : sys X) : Z :=
  match e with
  | Busy n => n
  | Nanosleep t => tv_sec t * 1000000000 + tv_nsec t
  | Sleep s => ms (1000 * s)
  | Usleep us => us * 1000
  | _ => 0
  end.

Definition unit_machine : machine := {|
  newpid p := Z.of_nat (length p);
  answer X e me := (default_answer e, duration e)
|}.

Lemma unit_machine_busy : busy_machine unit_machine (fun _ => 1).
Proof. intros me n. cbn [answer unit_machine default_answer duration]. f_equal. lia. Qed.
