(* ===== verification/Cpm.v ===== *)
(** * src/cpm1.c, src/cpm2.c, src/reparent.c

    Three programs made to have a known critical path, in the timed semantics
    of [Process]. *)

From S2P Require Import Prelude CInt CString Libc Utils Calibrate Process.

Local Open Scope string_scope.
Local Open Scope list_scope.
Local Open Scope Z_scope.

(** ** src/cpm1.c

    [waitpid] is declared nowhere and called with its first argument only;
    the model gives it the two NULL or zero arguments the program means. *)
Module Cpm1.

Definition child2 (unit_ : Z) : prog unit := hog (s64 (2 * unit_)).

Definition child1 (unit_ : Z) : prog unit :=
  hog unit_;;
  res ← call Fork;
  if res <? 0 then Ret tt
  else if res =? 0 then child2 unit_;; Ret tt
  else
    call (Waitpid res);;
    hog (s64 (2 * unit_)).

Definition master (unit_ : Z) : prog unit :=
  res ← call Fork;
  if res <? 0 then Ret tt
  else if res =? 0 then child1 unit_;; Ret tt
  else
    hog (s64 (4 * unit_));;
    call (Waitpid res);;
    hog unit_;;
    Ret tt.

Definition main (argv : list string) : prog Z :=
  let s := 100000 in
  unit_ ← calibrate s;
  master (s64 unit_);;
  Ret EXIT_SUCCESS.

(** The processes. *)
Definition master_ : family := [].
Definition child1_ : family := [O].
Definition child2_ : family := [O; O].

(** The critical path: the master works [4 u] and waits for child 1, which
    itself waits for child 2; [c0], [c1], [c2] are the costs of a turn in the
    three processes, and [t] the instant at which the master starts. *)
Definition e2 (c1 c2 u t : Z) : Z := t + u * c1 + 2 * u * c2.
Definition e1 (c1 c2 u t : Z) : Z := e2 c1 c2 u t + 2 * u * c1.
Definition awaited (c0 c1 c2 u t : Z) : Z := Z.max (t + 4 * u * c0) (e1 c1 c2 u t).

Definition story (c0 c1 c2 u t : Z) : list span :=
  let w := awaited c0 c1 c2 u t in
  [ Span child1_ Works t (t + u * c1);
    Span child2_ Works (t + u * c1) (e2 c1 c2 u t);
    Span child1_ Waits (t + u * c1) (e2 c1 c2 u t);
    Span child1_ Works (e2 c1 c2 u t) (e1 c1 c2 u t);
    Span master_ Works t (t + 4 * u * c0);
    Span master_ Waits (t + 4 * u * c0) w;
    Span master_ Works w (w + u * c0) ].

(** The master and what follows it; when the first fork fails nothing runs,
    when the second fails only child 2 and the wait for it are missing. *)
Lemma master_critical_path {B} (m : machine) (cost : family -> Z) (u t : Z) (f : unit -> prog B) (b : B) :
  busy_machine m cost -> (forall p, 0 <= cost p) -> 1 <= u -> 4 * u <= LONG_MAX -> quiet m f b ->
  let '(c0, c1, c2) := (cost master_, cost child1_, cost child2_) in
  (0 < newpid m child1_ -> 0 < newpid m child2_ ->
   timed m (master u ≫= f) master_ t [] O
   = (Done b, awaited c0 c1 c2 u t + u * c0, story c0 c1 c2 u t))
  /\ (newpid m child1_ < 0 -> timed m (master u ≫= f) master_ t [] O = (Done b, t, []))
  /\ (0 < newpid m child1_ -> newpid m child2_ < 0 ->
      exists l, timed m (master u ≫= f) master_ t [] O
        = (Done b, Z.max (t + 4 * u * c0) (t + u * c1) + u * c0, l)
        /\ Forall (fun s => who s <> child2_) l).
Proof.
  intros Hm Hc Hu Hmax Hq. unfold master, child1, child2, story, awaited, e1, e2, master_, child1_, child2_ in *.
  assert (E4 : s64 (4 * u) = 4 * u) by (apply s64_id; clia).
  assert (E2 : s64 (2 * u) = 2 * u) by (apply s64_id; clia).
  assert (P0 : 0 <= u * cost []) by (specialize (Hc []); nia).
  assert (P1 : 0 <= u * cost [O]) by (specialize (Hc [O]); nia).
  assert (P2 : 0 <= u * cost [O; O]) by (specialize (Hc [O; O]); nia).
  rewrite E4, E2. split_and!.
  - intros Hf1 Hf2. rewrite timed_assoc.
    fork_succeeds Hf1. step_timed Hm. fork_succeeds Hf2. repeat (step_timed Hm; rewrite ?Hq). rewrite !(Z.max_r 1) by lia. repeat (lia || f_equal).
  - intros Hf1. rewrite timed_assoc. fork_fails Hf1. step_timed Hm. by rewrite Hq.
  - intros Hf1 Hf2. rewrite timed_assoc. fork_succeeds Hf1. step_timed Hm. fork_fails Hf2.
    repeat (step_timed Hm; rewrite ?Hq). eexists. rewrite !(Z.max_r 1) by lia. split; [repeat (lia || f_equal)|].
    repeat constructor; cbn; discriminate.
Qed.

End Cpm1.

(** ** src/cpm2.c *)
Module Cpm2.

Definition child1 (unit_ : Z) : prog unit := hog unit_.

Definition master (unit_ : Z) : prog unit :=
  res ← call Fork;
  if res <? 0 then Ret tt
  else if res =? 0 then child1 unit_;; Ret tt
  else
    hog (s64 (2 * unit_));;
    call (Waitpid res);;
    Ret tt.

Definition main (argv : list string) : prog Z :=
  let s := 100000 in
  unit_ ← calibrate s;
  master (s64 unit_);;
  Ret EXIT_SUCCESS.

Definition master_ : family := [].
Definition child1_ : family := [O].

(** The master of cpm2 is alone on the critical path: as long as a turn of
    the child costs at most twice a turn of the master, the child has ended
    when the master comes to wait for it, the wait takes no time and the
    master ends after its own two units; a slower child makes the master wait
    until the child ends. *)
Lemma master_timed {B} (m : machine) (cost : family -> Z) (u t : Z) (f : unit -> prog B) (b : B) :
  busy_machine m cost -> 1 <= u -> 2 * u <= LONG_MAX -> 0 < newpid m child1_ -> quiet m f b ->
  let '(c0, c1) := (cost master_, cost child1_) in
  let w := Z.max (t + 2 * u * c0) (t + u * c1) in
  timed m (master u ≫= f) master_ t [] O
  = (Done b, w,
     [ Span child1_ Works t (t + u * c1);
       Span master_ Works t (t + 2 * u * c0);
       Span master_ Waits (t + 2 * u * c0) w ]).
Proof.
  intros Hm Hu Hmax Hf Hq. unfold master, child1, master_, child1_ in *.
  assert (E2 : s64 (2 * u) = 2 * u) by (apply s64_id; clia).
  rewrite E2, timed_assoc.
  fork_succeeds Hf. repeat (step_timed Hm; rewrite ?Hq). rewrite !(Z.max_r 1) by lia. repeat (lia || f_equal).
Qed.

Lemma master_never_waits c0 c1 u t :
  0 <= u -> c1 <= 2 * c0 -> Z.max (t + 2 * u * c0) (t + u * c1) = t + 2 * u * c0.
Proof. nia. Qed.

End Cpm2.

(** ** src/reparent.c *)
Module Reparent.

Definition main (argv : list string) : prog Z :=
  pid ← call Fork;
  if pid <? 0 then Ret EXIT_FAILURE
  else
    (if pid =? 0 then call (Sleep 1);; Ret tt else Ret tt);;
    Ret EXIT_SUCCESS.

(** The parent is gone while the child sleeps. *)
Lemma parent_ends_at_once (m : machine) argv t d :
  0 < newpid m [O] -> answer m Z (Sleep 1) [O] = (0, d) ->
  timed m (main argv) [] t [] O = (Done EXIT_SUCCESS, t, [Span [O] Sleeps t (t + d)]).
Proof.
  intros Hf Hs. unfold main. fork_succeeds Hf. cbn. unfold after_call. by rewrite Hs.
Qed.

End Reparent.
