(* ===== verification/Inception.v ===== *)
(** * src/inception.c

    [wk-inception TIME CHILDREN]: every process sleeps, then forks the next
    one, with one child less to go and twice the time to sleep, and waits for
    it.  The globals [mili] and [children] are copied by [fork]: here they are
    arguments. *)

From S2P Require Import Prelude CInt CString Libc Utils Calibrate Process.

Local Open Scope string_scope.
Local Open Scope list_scope.
Local Open Scope Z_scope.

Definition usage (prog_ : string) : prog unit :=
  call (Printf ("Usage: %s TIME CHILDREN" +:+ NL +:+ NL) [PStr (Some prog_)]);;
  call (Printf ("    TIME     : sleep time in miliseconds" +:+ NL) []);;
  call (Printf ("    CHILDREN : number of children to spawn" +:+ NL) []).

(** An [int] computed by signed arithmetic. *)
Definition int_ (x : Z) : prog Z :=
  if bool_decide (in_s32 x) then Ret x else Undef "signed overflow".

(** [do_run] falls off its end after [spawn_child] has succeeded: its value is
    then whatever; no caller reads it, and the model says 0. *)
Section recursion.
Variable do_run : Z -> Z -> prog Z.

Definition spawn_child (mili children : Z) : prog Z :=
  children ← int_ (children - 1);
  mili ← int_ (mili * 2);
  if children =? 0 then Ret 0
  else
    child ← call Fork;
    if child <? 0 then Ret (-1)
    else if child =? 0 then do_run mili children;; Ret 0
    else call (Waitpid child);; Ret 0.
End recursion.

(** [fuel] bounds the depth of the family. *)
Fixpoint do_run (fuel : nat) (mili children : Z) : prog Z :=
  match fuel with
  | O => Fuel
  | S fuel =>
      (* self sleep first *)
      r ← do_sleep mili;
      if r <? 0 then call (Error_errno "error in do_sleep");; Ret (-1)
      else
        (* then spawn children *)
        r ← spawn_child (do_run fuel) mili children;
        if r <? 0 then call (Error_errno "error in span_children");; Ret (-1)
        else Ret 0
  end.

Definition main (fuel : nat) (argv : list string) : prog Z :=
  match argv with
  | _ :: time :: n :: _ =>
      let mili := atoi time in
      let children := atoi n in
      do_run fuel mili children;;
      Ret 0
  | _ => usage (default "" (head argv));; Ret 1
  end.

(** ** What the family does

    [n] processes, the first one at [me] with [m] milliseconds to sleep: each
    sleeps, lets its child live, and waits until the whole is over. *)
Definition total (m : Z) (n : nat) : Z := ms (m * (2 ^ Z.of_nat n - 1)).

Fixpoint story (n : nat) (me : family) (t m : Z) : list span :=
  match n with
  | O => []
  | S n =>
      Span me Sleeps t (t + ms m) ::
      match n with
      | O => []
      | _ => story n (me ++ [O]) (t + ms m) (2 * m) ++ [Span me Waits (t + ms m) (t + total m (S n))]
      end
  end.

(** Sleeping takes the time asked for, looking at the clock none. *)
Definition sleepy_machine (m : machine) : Prop :=
  (forall me t, answer m Z (Nanosleep t) me = (0, tv_sec t * 1000000000 + tv_nsec t))
  /\ (forall me, (answer m (Z * Z) Gettimeofday me).2 = 0).

Lemma int_in_range x : in_s32 x -> int_ x = Ret x.
Proof. intros H. unfold int_. by rewrite bool_decide_true. Qed.

Lemma sleep_duration n : 0 <= n <= INT_MAX ->
  cdiv n 1000 * 1000000000 + s32 (crem n 1000 * 1000000) = ms n.
Proof.
  intros Hn. pose proof (Z.quot_rem' n 1000) as Hqr.
  pose proof (Z.rem_bound_pos n 1000 ltac:(lia) ltac:(lia)) as Hr.
  rewrite s32_id by (unfold crem; clia). unfold ms, cdiv, crem. lia.
Qed.

Lemma timed_do_sleep {A} (m : machine) n (f : Z -> prog A) me t kids born :
  sleepy_machine m -> 1 <= n <= INT_MAX ->
  timed m (do_sleep n ≫= f) me t kids born
  = let '(o, t', l) := timed m (f 0) me (t + ms n) kids born in
    (o, t', Span me Sleeps t (t + ms n) :: l).
Proof.
  intros [Hs Hg] Hn. unfold do_sleep.
  rewrite (proj2 (Z.eqb_neq n 0)) by lia. rewrite !timed_assoc.
  cbn. unfold after_call. destruct (answer m (Z * Z) Gettimeofday me) as [x d] eqn:Hx.
  specialize (Hg me). rewrite Hx in Hg. cbn in Hg. subst d. cbn. rewrite Hs. unfold after_call.
  cbn. unfold after_call. rewrite Hx, sleep_duration, !Z.add_0_r by lia. by destruct (timed m (f 0) me _ kids born) as [[o t'] l].
Qed.

Lemma timed_do_run {B} (m : machine) (fuel n : nat) k mili t (f : Z -> prog B) b :
  sleepy_machine m -> quiet m f b -> (n <= fuel)%nat -> (1 <= n)%nat -> 1 <= mili ->
  mili * 2 ^ Z.of_nat n <= INT_MAX ->
  (forall j, (1 <= j < n)%nat -> 0 < newpid m (replicate (k + j) O)) ->
  forall kids, timed m (do_run fuel mili (Z.of_nat n) ≫= f) (replicate k O) t kids O
  = (Done b, t + total mili n, story n (replicate k O) t mili).
Proof.
  intros Hm. revert n k mili t f.
  induction fuel as [|fuel IH]; intros n k mili t f Hq Hn H1 Hmi Hmax Hf kids; [lia|].
  destruct n as [|n]; [lia|]. cbn [do_run].
  rewrite Nat2Z.inj_succ, Z.pow_succ_r in Hmax by lia.
  assert (Z.of_nat n < 2 ^ Z.of_nat n) as Hlt by (apply Z.pow_gt_lin_r; lia).
  assert (mili * 2 <= INT_MAX /\ Z.of_nat n <= INT_MAX) as [H2 H3] by nia.
  rewrite timed_assoc, timed_do_sleep by (done || nia). cbn [Z.ltb Z.compare].
  unfold spawn_child at 1.
  rewrite (int_in_range (mili * 2)), (int_in_range (Z.of_nat (S n) - 1)) by clia.
  rewrite !timed_assoc, timed_ret_bind, timed_assoc, timed_ret_bind.
  replace (Z.of_nat (S n) - 1) with (Z.of_nat n) by lia.
  destruct (Z.eqb_spec (Z.of_nat n) 0) as [Hn0|Hn0].
  { assert (n = O) as -> by lia. rewrite !timed_ret_bind. cbn [Z.ltb Z.compare]. rewrite timed_ret_bind, Hq.
    cbn. unfold total. cbn. repeat (lia || f_equal); unfold ms; lia. }
  assert (0 < newpid m (replicate k O ++ [O])) as Hpid.
  { rewrite <- replicate_cons_app. specialize (Hf 1%nat). rewrite Nat.add_1_r in Hf. apply Hf. lia. }
  rewrite timed_assoc. fork_succeeds Hpid. rewrite !timed_assoc, <- replicate_cons_app.
  change (O :: replicate k O) with (replicate (S k) O).
  rewrite IH; try (lia || clia || nia).
  3:{ intros j Hj. specialize (Hf (S j)). rewrite <- Nat.add_succ_comm in Hf. apply Hf. lia. }
  2:{ intros x me t0 kids0 born. rewrite !timed_ret_bind. apply Hq. }
  rewrite !timed_assoc, timed_waitpid, !timed_ret_bind. cbn [Z.ltb Z.compare]. rewrite timed_ret_bind, Hq.
  assert (Z.max (t + ms mili) (t + ms mili + total (mili * 2) n) = t + total mili (S n)) as ->.
  { unfold total, ms. rewrite Nat2Z.inj_succ, Z.pow_succ_r by lia. nia. }
  cbn [story]. destruct n as [|n]; [lia|]. rewrite replicate_S_end, (Z.mul_comm 2 mili).
  done.
Qed.

(** The family of [wk-inception M N] is a chain of [N] processes, nested as
    their [story] says: the [i]-th sleeps [2^i M] milliseconds, its child lives,
    and it waits for it until the end; the whole takes [M (2^N - 1)]
    milliseconds and the first process returns 0.  It holds as long as the
    doubled times fit an [int] and every fork succeeds. *)
Lemma inception_total (mc : machine) (m : Z) (n : nat) (prog_ : string)
    (Hm : sleepy_machine mc) (Hn : (1 <= n)%nat) (Hm1 : 1 <= m)
    (Hmax : m * 2 ^ Z.of_nat n <= INT_MAX)
    (Hfork : forall j, (1 <= j < n)%nat -> 0 < newpid mc (replicate j O)) :
  timed mc (main n [prog_; render m; render (Z.of_nat n)]) [] 0 [] O
  = (Done 0, ms (m * (2 ^ Z.of_nat n - 1)), story n [] 0 m).
Proof.
  assert (Z.of_nat n < 2 ^ Z.of_nat n) as Hlt by (apply Z.pow_gt_lin_r; lia).
  assert (m <= INT_MAX /\ Z.of_nat n <= INT_MAX) as [H2 H3] by nia.
  cbn [main]. rewrite !atoi_render by clia.
  exact (timed_do_run mc n n 0 m 0 (fun _ => Ret 0) 0 Hm (fun _ _ _ _ _ => eq_refl) (le_n n) Hn Hm1 Hmax Hfork []).
Qed.

Example inception_of_three :
  timed unit_machine (main 3 ["wk-inception"; "100"; "3"]) [] 0 [] O
  = (Done 0, ms 700,
     [ Span [] Sleeps 0 (ms 100);
       Span [O] Sleeps (ms 100) (ms 300);
       Span [O; O] Sleeps (ms 300) (ms 700);
       Span [O] Waits (ms 300) (ms 700);
       Span [] Waits (ms 100) (ms 700) ]).
Proof.
  assert (forall j, (1 <= j < 3)%nat -> 0 < newpid unit_machine (replicate j O)) as Hf.
  { intros j Hj. cbn. rewrite length_replicate. lia. }
  exact (inception_total unit_machine 100 3 "wk-inception" (conj (fun _ _ => eq_refl) (fun _ => eq_refl))
    ltac:(lia) ltac:(lia) ltac:(clia) Hf).
Defined.
