(* ===== verification/Imbalance.v ===== *)
(** * src/imbalance.c

    Four threads that compute in cycles with a barrier after each; in every
    cycle another thread is the slow one.  The threads share nothing but the
    barrier, so a cycle is a superstep: each thread runs to the barrier, and
    all leave it when the last one has come. *)

From S2P Require Import Prelude CInt CString Libc Utils Calibrate Process.

Local Open Scope string_scope.
Local Open Scope list_scope.
Local Open Scope Z_scope.

Definition THREADS : Z := 4.
Definition CYCLES : Z := 8.

(** [max] is the global that [main] sets before it creates the threads. *)
Definition cycle (max : Z) (i pos : Z) : prog Z :=
  hog (s32 ((pos + 1) * max));;
  call Barrier_wait;;
  Ret (crem (pos + 1) THREADS).

Definition worker (max : Z) (data : Z) : prog Z :=
  let self := s32 data in
  let pos := self in
  for_ (Z.to_nat CYCLES) 0 (cycle max) pos;;
  Ret 0.

(** The threads, for the value [calibrate] gave, which goes into an [int]. *)
Definition workers (max : Z) : list (prog Z) :=
  map (worker (s32 max)) [0; 1; 2; 3].

Definition main : prog Z :=
  call (Barrier_init THREADS);;
  max ← calibrate 25000;
  for_ (Z.to_nat THREADS) 0 (fun i _ => call (Pthread_create i);; Ret tt) tt;;
  for_ (Z.to_nat THREADS) 0 (fun i _ => call (Pthread_join i);; Ret tt) tt;;
  Ret 0.

(** ** Supersteps *)

(** Run a thread from [t] to its next [pthread_barrier_wait]: the instant, the
    log, and the rest of the thread if it has not ended.  (The one thread to
    which the barrier answers PTHREAD_BARRIER_SERIAL_THREAD is not
    distinguished: nobody reads the answer.) *)
Fixpoint to_barrier {A} (m : machine) (p : prog A) (me : family) (t : Z)
    : Z * list span * option (prog A) :=
  match p with
  | Vis e k =>
      match e in sys X
        return (X -> prog A) -> (X -> Z -> Z * list span * option (prog A)) -> Z * list span * option (prog A)
      with
      | Barrier_wait => fun k _ => (t, [], Some (k 0))
      | e => fun _ go =>
          let '(x, d) := answer m _ e me in
          let '(t', l, p) := go x (t + d) in
          (t', spans_of me (activity_of e) t (t + d) ++ l, p)
      end k (fun x => to_barrier m (k x) me)
  | _ => (t, [], None)
  end.

(** What the threads do in one superstep. *)
Definition superstep := list (list span).

(** All the threads from [t] to the end: [None] when some wait for one that
    has ended, or when [fuel] supersteps are not enough. *)
Fixpoint supersteps {A} (fuel : nat) (m : machine) (ps : list (prog A)) (t : Z)
    : option (Z * list superstep) :=
  match fuel with
  | O => None
  | S fuel =>
      let rs := imap (fun i p => to_barrier m p [i] t) ps in
      let t' := foldr (fun r t => Z.max r.1.1 t) t rs in
      if forallb (fun r => match r.2 with None => true | _ => false end) rs then Some (t', [])
      else
        ps' ← mapM snd rs;
        '(te, l) ← supersteps fuel m ps' t';
        Some (te, imap (fun i r => r.1.2 ++ [Span [i] Waits r.1.1 t']) rs :: l)
  end.

(** ** The schedule of the program *)

(** The weight of thread [i] in cycle [c]. *)
Definition weight (i c : Z) : Z := (i + c) mod 4 + 1.

Definition cycle_of (max c : Z) : superstep :=
  map (fun i =>
    let t := 4 * c * max in
    let t' := t + weight (Z.of_nat i) c * max in
    [Span [i] Works t t'; Span [i] Waits t' (t + 4 * max)]) (seq 0 4).

Definition at_cycle (max : Z) (n : nat) (c : Z) (i : Z) : prog Z :=
  for_ n c (cycle max) ((i + c) mod 4);; Ret 0.

Lemma to_barrier_cycle m max n c i t :
  busy_machine m (fun _ => 1) -> 1 <= max -> 4 * max <= INT_MAX ->
  to_barrier m (at_cycle max (S n) c (Z.of_nat i)) [i] t
  = (t + weight (Z.of_nat i) c * max,
     [Span [i] Works t (t + weight (Z.of_nat i) c * max)],
     Some (at_cycle max n (c + 1) (Z.of_nat i))).
Proof.
  intros Hm Hmax H4. unfold at_cycle, weight.
  pose proof (Z.mod_pos_bound (Z.of_nat i + c) 4 ltac:(lia)) as Hb.
  set (pos := (Z.of_nat i + c) mod 4) in *.
  assert ((Z.of_nat i + (c + 1)) mod 4 = crem (pos + 1) THREADS) as ->.
  { unfold crem, THREADS, pos. rewrite Z.rem_mod_nonneg, Zplus_mod_idemp_l by lia. f_equal. lia. }
  assert (1 <= (pos + 1) * max <= 4 * max) as Hw by nia.
  cbn -[crem Z.mul Z.max]. rewrite Hm, s32_id by clia. cbn -[crem Z.mul Z.max].
  rewrite Z.max_r, Z.mul_1_l by lia. done.
Qed.

(** All the threads come to the barrier. *)
Lemma supersteps_S {A} fuel m (ps ps' : list (prog A)) t r rs te l :
  imap (fun i p => to_barrier m p [i] t) ps = r :: rs ->
  mapM snd (r :: rs) = Some ps' ->
  let t' := foldr (fun r t => Z.max r.1.1 t) t (r :: rs) in
  supersteps fuel m ps' t' = Some (te, l) ->
  supersteps (S fuel) m ps t
  = Some (te, imap (fun i r => r.1.2 ++ [Span [i] Waits r.1.1 t']) (r :: rs) :: l).
Proof.
  intros Hrs Hps t' Hrec. cbn [supersteps]. rewrite Hrs, Hps.
  destruct r as [[t0 l0] [p|]]; [|done]. cbn [forallb snd andb]. cbn [mbind option_bind].
  subst t'. by rewrite Hrec.
Qed.

Lemma slowest c t max : 1 <= max ->
  foldr (fun i t' => Z.max (t + weight i c * max) t') t [0; 1; 2; 3] = t + 4 * max.
Proof.
  intros Hmax. cbn [foldr]. unfold weight.
  pose proof (Z.mod_pos_bound c 4 ltac:(lia)) as Hc.
  assert (forall i, (i + c) mod 4 = (i + c mod 4) mod 4) as H by (intros i; by rewrite Zplus_mod_idemp_r).
  rewrite !H. assert (c mod 4 = 0 \/ c mod 4 = 1 \/ c mod 4 = 2 \/ c mod 4 = 3) as [E|[E|[E|E]]] by lia;
    rewrite E;
    repeat match goal with |- context [(?a + ?b) mod 4] =>
      let v := eval vm_compute in ((a + b) mod 4) in change ((a + b) mod 4) with v end; lia.
Qed.

Lemma supersteps_from m max n c t :
  busy_machine m (fun _ => 1) -> 1 <= max -> 4 * max <= INT_MAX -> t = 4 * c * max ->
  supersteps (S n) m (map (at_cycle max n c) [0; 1; 2; 3]) t
  = Some (4 * (c + Z.of_nat n) * max, map (fun i => cycle_of max (c + Z.of_nat i)) (seq 0 n)).
Proof.
  intros Hm Hmax H4. revert c t. induction n as [|n IH]; intros c t Ht.
  { cbn. repeat f_equal. lia. }
  pose proof (slowest c t max Hmax) as Hs. cbn [foldr] in Hs.
  erewrite supersteps_S; cycle 1.
  { pose proof (fun i => to_barrier_cycle m max n c i t Hm Hmax H4) as Hb.
      pose proof (Hb 0%nat) as B0. pose proof (Hb 1%nat) as B1. pose proof (Hb 2%nat) as B2. pose proof (Hb 3%nat) as B3.
      change (Z.of_nat 0) with 0 in B0. change (Z.of_nat 1) with 1 in B1. change (Z.of_nat 2) with 2 in B2. change (Z.of_nat 3) with 3 in B3.
      cbn [imap map]. unfold compose. cbv beta. rewrite B0, B1, B2, B3. reflexivity. }
  { reflexivity. }
  { cbn [foldr fst snd]. rewrite Hs. apply (IH (c + 1)). lia. }
  cbn [foldr fst snd imap seq map app compose]. rewrite Hs.
  f_equal. f_equal; [f_equal; lia|]. f_equal.
  - unfold cycle_of. cbn [seq map]. subst t. by rewrite Z.add_0_r.
  - rewrite <- seq_shift, map_map. apply map_ext. intros i. f_equal. lia.
Qed.

(** (C28) The run of imbalance.c on equal processors, all four threads started
    together: it takes [8 * 4 * max], in cycle [c] the thread [i] works
    [(i + c) mod 4 + 1] times [max] and waits for the rest of the cycle, so
    that one thread, another in every cycle in turn, waits for nobody; over
    the whole run every thread has worked the same, [20 * max]. *)
Theorem imbalance_schedule (m : machine) (max : Z)
    (Hm : busy_machine m (fun _ => 1)) (H1 : 1 <= max) (H4 : 4 * max <= INT_MAX) :
  supersteps 9 m (workers max) 0
  = Some (32 * max, map (fun c => cycle_of max (Z.of_nat c)) (seq 0 8))
  /\ (forall i c, 0 <= i < 4 -> weight i c = 4 <-> i = (3 - c) mod 4)
  /\ (forall i, 0 <= i < 4 -> zsum (map (fun c => weight i (Z.of_nat c)) (seq 0 8)) = 20).
Proof.
  split_and!.
  - unfold workers. rewrite s32_id by clia. exact (supersteps_from m max 8 0 0 Hm H1 H4 eq_refl).
  - intros i c Hi. unfold weight. pose proof (Z.mod_pos_bound (i + c) 4 ltac:(lia)).
    pose proof (Z.div_mod (i + c) 4 ltac:(lia)). split.
    + intros E. apply (Z.mod_unique _ _ (- ((i + c) / 4))); lia.
    + intros E. pose proof (Z.div_mod (3 - c) 4 ltac:(lia)). rewrite <- E in *.
      assert ((i + c) mod 4 = 3) as ->; [|done].
      symmetry. apply (Z.mod_unique _ _ (- ((3 - c) / 4))); lia.
  - intros i Hi. assert (i = 0 \/ i = 1 \/ i = 2 \/ i = 3) as [->|[->|[->| ->]]] by lia; done.
Qed.

Theorem imbalance_schedule_witness :
  supersteps 9 unit_machine (workers 100) 0
  = Some (3200, map (fun c => cycle_of 100 (Z.of_nat c)) (seq 0 8)).
Proof.
  exact (proj1 (imbalance_schedule unit_machine 100 unit_machine_busy ltac:(lia) ltac:(clia))).
Defined.
