(* ===== verification/Locks.v ===== *)
(** * src/mutex.c, src/deadlock.c, src/dthread.c

    Three small programs of threads.  Each is a finite transition system, so
    its theorems are checked on the explored list of all its states.  The
    sleeps of the programs only make one order of events likely; the theorems
    hold for every order. *)

From S2P Require Import Prelude Sched.

(** ** src/mutex.c *)
Module Mutex.

(** The next statement of a worker and of [main]. *)
Inductive pc := Unborn | Lock | Usleep | Unlock | Returned.
Inductive main_pc :=
  | Mutex_init | Create_0 | Sleep_tenth | Create_1 | Print_0 | Join_0 | Print_1 | Join_1 | Main_done.

#[export] Instance pc_eq_dec : EqDecision pc. Proof. solve_decision. Defined.
#[export] Instance main_pc_eq_dec : EqDecision main_pc. Proof. solve_decision. Defined.

Inductive thread := Main | Worker (second : bool).

Record state := State { mutex_ : mutex bool; w0 : pc; w1 : pc; main_ : main_pc }.

#[export] Instance state_eq_dec : EqDecision state. Proof. solve_decision. Defined.

(** [worker]: the state of the mutex and of the thread [i] after its next
    statement. *)
Definition worker (i : bool) (m : mutex bool) (p : pc) : option (mutex bool * pc) :=
  match p with
  | Unborn | Returned => None
  | Lock => m' ← mutex_lock i m; Some (m', Usleep)
  | Usleep => Some (m, Unlock)
  | Unlock => Some (mutex_unlock m, Returned)
  end.

Definition main (s : state) : option state :=
  let '(State m a b p) := s in
  match p with
  | Mutex_init => Some (State None a b Create_0)
  | Create_0 => Some (State m Lock b Sleep_tenth)
  | Sleep_tenth => Some (State m a b Create_1)
  | Create_1 => Some (State m a Lock Print_0)
  | Print_0 => Some (State m a b Join_0)
  | Join_0 => if decide (a = Returned) then Some (State m a b Print_1) else None
  | Print_1 => Some (State m a b Join_1)
  | Join_1 => if decide (b = Returned) then Some (State m a b Main_done) else None
  | Main_done => None
  end.

Definition init : state := State None Unborn Unborn Mutex_init.

#[export] Instance mutex_c : System state thread := {
  exec t s :=
    match t with
    | Main => main s
    | Worker false => '(m, p) ← worker false (mutex_ s) (w0 s); Some (State m p (w1 s) (main_ s))
    | Worker true => '(m, p) ← worker true (mutex_ s) (w1 s); Some (State m (w0 s) p (main_ s))
    end;
  initial s := s = init
}.

Definition threads : list thread := [Main; Worker false; Worker true].

Lemma mutex_all_threads t : t ∈ threads.
Proof. destruct t as [|[]]; repeat constructor. Qed.

Definition states : list state := explore threads 200 [init] [].

(** Inside the critical section. *)
Definition inside (p : pc) : bool := match p with Usleep | Unlock => true | _ => false end.

Definition progress (p : pc) : nat :=
  match p with Unborn | Lock => 3 | Usleep => 2 | Unlock => 1 | Returned => 0 end.
Definition main_progress (p : main_pc) : nat :=
  match p with
  | Mutex_init => 8 | Create_0 => 7 | Sleep_tenth => 6 | Create_1 => 5 | Print_0 => 4 | Join_0 => 3
  | Print_1 => 2 | Join_1 => 1 | Main_done => 0
  end.
Definition measure (s : state) : nat :=
  progress (w0 s) + progress (w1 s) + main_progress (main_ s).

Definition final (s : state) : bool := bool_decide (s = State None Returned Returned Main_done).

Definition safe (s : state) : bool :=
  negb (inside (w0 s) && inside (w1 s))
  && (if decide (mutex_ s = None) then negb (inside (w0 s) || inside (w1 s)) else true)
  && (if stuckb threads s then final s else true).

Lemma mutex_reachable_states s : reachable s -> s ∈ states.
Proof.
  apply (reachable_explored threads mutex_all_threads).
  - intros s0 ->. apply (bool_decide_unpack _). by vm_compute.
  - by vm_compute.
Qed.

(** The two workers of mutex.c are never inside the critical section at the
    same time, a thread inside holds the mutex, and the program cannot block:
    the only state without a next step is the end, where both workers have
    returned, [main] has joined them and the mutex is free.  A run takes at
    most [measure] steps, fourteen from the start. *)
Theorem mutex_exclusion (s : state) (Hr : reachable s) :
  ~ (inside (w0 s) = true /\ inside (w1 s) = true)
  /\ (inside (w0 s) = true \/ inside (w1 s) = true -> mutex_ s <> None)
  /\ (stuck s -> s = State None Returned Returned Main_done)
  /\ (forall ts s', run_schedule ts s = Some s' -> (length ts + measure s' <= measure s)%nat)
  /\ measure init = 14%nat.
Proof.
  apply mutex_reachable_states in Hr.
  assert (forallb safe states = true) as Hs by (by vm_compute).
  pose proof (explored_forall safe states s Hs Hr) as H.
  unfold safe in H. bool_to_prop. split_and!.
  - intros [E1 E2]. by rewrite E1, E2 in *.
  - intros E Hm. rewrite decide_True in * by done. bool_to_prop.
    destruct E; congruence.
  - intros Hst. apply (stuckb_spec threads mutex_all_threads) in Hst. rewrite Hst in *.
    unfold final in *. match goal with H : bool_decide _ = true |- _ => by apply bool_decide_eq_true in H end.
  - intros ts s'. apply (explored_bound threads mutex_all_threads states); [by vm_compute|by vm_compute|done].
  - done.
Qed.

Theorem mutex_exclusion_witness :
  let s := State (Some false) Unlock Lock Join_0 in
  reachable s /\ ~ (inside (w0 s) = true /\ inside (w1 s) = true).
Proof.
  assert (reachable (State (Some false) Unlock Lock Join_0)) as Hr.
  { exists init. split; [done|].
    by apply (run_schedule_reach [Main; Main; Worker false; Main; Main; Worker false; Main]). }
  split; [exact Hr|exact (proj1 (mutex_exclusion _ Hr))].
Defined.
End Mutex.

(** ** src/deadlock.c *)
Module Deadlock.

Inductive pc := Unborn | Lock_first | Usleep | Lock_second | Returned.
Inductive main_pc := Init_a | Init_b | Create_a | Create_b | Main_usleep | Kill_a | Killed.

#[export] Instance pc_eq_dec : EqDecision pc. Proof. solve_decision. Defined.
#[export] Instance main_pc_eq_dec : EqDecision main_pc. Proof. solve_decision. Defined.

Inductive thread := Main | A | B.

#[export] Instance thread_eq_dec : EqDecision thread. Proof. solve_decision. Defined.

Record state := State { mutex_a : mutex thread; mutex_b : mutex thread; wa : pc; wb : pc; main_ : main_pc }.

#[export] Instance state_eq_dec : EqDecision state. Proof. solve_decision. Defined.

(** The common shape of [worker_a] and [worker_b]: the thread [t] takes the
    mutex [first], sleeps, and takes the mutex [second]; it releases none. *)
Definition worker (t : thread) (first second : mutex thread) (p : pc) :
    option (mutex thread * mutex thread * pc) :=
  match p with
  | Unborn | Returned => None
  | Lock_first => m ← mutex_lock t first; Some (m, second, Usleep)
  | Usleep => Some (first, second, Lock_second)
  | Lock_second => m ← mutex_lock t second; Some (first, m, Returned)
  end.

Definition worker_a (s : state) : option state :=
  '(a, b, p) ← worker A (mutex_a s) (mutex_b s) (wa s); Some (State a b p (wb s) (main_ s)).

Definition worker_b (s : state) : option state :=
  '(b, a, p) ← worker B (mutex_b s) (mutex_a s) (wb s); Some (State a b (wa s) p (main_ s)).

(** SIGKILL ends the whole process, whichever of its threads it is sent to:
    the second [pthread_kill] is not reached. *)
Definition main (s : state) : option state :=
  let '(State a b p q m) := s in
  match m with
  | Init_a => Some (State None b p q Init_b)
  | Init_b => Some (State a None p q Create_a)
  | Create_a => Some (State a b Lock_first q Create_b)
  | Create_b => Some (State a b p Lock_first Main_usleep)
  | Main_usleep => Some (State a b p q Kill_a)
  | Kill_a => Some (State a b p q Killed)
  | Killed => None
  end.

Definition init : state := State None None Unborn Unborn Init_a.

#[export] Instance deadlock_c : System state thread := {
  exec t s :=
    if decide (main_ s = Killed) then None
    else match t with Main => main s | A => worker_a s | B => worker_b s end;
  initial s := s = init
}.

Definition threads : list thread := [Main; A; B].

Lemma deadlock_all_threads t : t ∈ threads.
Proof. destruct t; repeat constructor. Qed.

Definition states : list state := explore threads 400 [init] [].

Lemma deadlock_reachable_states s : reachable s -> s ∈ states.
Proof.
  apply (reachable_explored threads deadlock_all_threads).
  - intros s0 ->. apply (bool_decide_unpack _). by vm_compute.
  - by vm_compute.
Qed.

(** Each worker holds the mutex the other one wants. *)
Definition crossed (s : state) : bool :=
  bool_decide (mutex_a s = Some A) && bool_decide (mutex_b s = Some B).

Definition returned (s : state) : bool :=
  bool_decide (wa s = Returned) || bool_decide (wb s = Returned).

Definition safe (s : state) : bool :=
  negb (bool_decide (wa s = Returned) && bool_decide (wb s = Returned))
  && negb (crossed s && returned s)
  && (if stuckb threads s then bool_decide (main_ s = Killed) else true).

Lemma crossed_forever s s' : s ∈ states -> crossed s = true -> reach s s' -> s' ∈ states /\ crossed s' = true.
Proof.
  intros Hs Hc Hr. induction Hr as [|s1 s2 _ [IH1 IH2] [t Ht]]; [done|].
  assert (all_steps threads (fun s s' => bool_decide (s' ∈ states)) states = true) as H1 by (by vm_compute).
  assert (all_steps threads (fun s s' => implb (crossed s) (crossed s')) states = true) as H2 by (by vm_compute).
  split.
  - apply (all_steps_spec threads deadlock_all_threads _ _ _ _ _ H1 IH1) in Ht. by apply bool_decide_eq_true in Ht.
  - apply (all_steps_spec threads deadlock_all_threads _ _ _ _ _ H2 IH1) in Ht. by rewrite IH2 in Ht.
Qed.

(** (C29) deadlock.c does what its comment says: once each worker holds its first
    mutex neither ever returns, whatever the scheduler does.  Even when the
    sleeps do not line the workers up they never both return, since nobody
    releases a mutex.  Yet the program ends: it blocks only when the signal
    has killed it. *)
Theorem deadlock_certain (s : state) (Hr : reachable s) :
  ~ (wa s = Returned /\ wb s = Returned)
  /\ (crossed s = true -> forall s', reach s s' -> wa s' <> Returned /\ wb s' <> Returned)
  /\ (stuck s -> main_ s = Killed).
Proof.
  apply deadlock_reachable_states in Hr.
  assert (forallb safe states = true) as Hs by (by vm_compute).
  assert (forall s', s' ∈ states -> safe s' = true) as Hsafe
    by (intros s' H'; by apply (explored_forall safe states)).
  split_and!.
  - intros [E1 E2]. specialize (Hsafe s Hr). unfold safe in Hsafe.
    by rewrite E1, E2, !bool_decide_true in Hsafe.
  - intros Hc s' Hreach. destruct (crossed_forever s s' Hr Hc Hreach) as [H1 H2].
    specialize (Hsafe s' H1). unfold safe, returned in Hsafe. rewrite H2 in Hsafe.
    split; intros E; rewrite E in Hsafe; cbn in Hsafe; by rewrite ?orb_true_r, ?andb_false_r in Hsafe.
  - intros Hst. apply (stuckb_spec threads deadlock_all_threads) in Hst.
    specialize (Hsafe s Hr). unfold safe in Hsafe. rewrite Hst in Hsafe. bool_to_prop.
    match goal with H : bool_decide _ = true |- _ => by apply bool_decide_eq_true in H end.
Qed.

Theorem deadlock_certain_witness :
  let s := State (Some A) (Some B) Usleep Lock_second Main_usleep in
  reachable s /\ forall s', reach s s' -> wa s' <> Returned /\ wb s' <> Returned.
Proof.
  assert (reachable (State (Some A) (Some B) Usleep Lock_second Main_usleep)) as Hr.
  { exists init. split; [done|].
    by apply (run_schedule_reach [Main; Main; Main; Main; A; B; B]). }
  split; [exact Hr|]. exact (proj1 (proj2 (deadlock_certain _ Hr)) eq_refl).
Defined.
End Deadlock.

(** ** src/dthread.c

    The global [t2] is [None] until [pthread_create] stores the handle. *)
Module Dthread.

Inductive pc := Unborn | Print | Sleep_1 | Create | Sleep_3 | Returned.
Inductive main_pc := Create_1 | Join_1 | Join_2 | Main_done.

#[export] Instance pc_eq_dec : EqDecision pc. Proof. solve_decision. Defined.
#[export] Instance main_pc_eq_dec : EqDecision main_pc. Proof. solve_decision. Defined.

Inductive thread := Main | T1 | T2.

#[export] Instance thread_eq_dec : EqDecision thread. Proof. solve_decision. Defined.

Record state := State { t1 : option thread; t2 : option thread; c1 : pc; c2 : pc; main_ : main_pc }.

#[export] Instance state_eq_dec : EqDecision state. Proof. solve_decision. Defined.

(** [child1] and [child2] fall off their ends: they return whatever, and
    nobody reads it. *)
Definition child1 (s : state) : option state :=
  let '(State h1 h2 p q m) := s in
  match p with
  | Unborn | Returned => None
  | Print => Some (State h1 h2 Sleep_1 q m)
  | Sleep_1 => Some (State h1 h2 Create q m)
  | Create => Some (State h1 (Some T2) Sleep_3 Print m)
  | Sleep_3 => Some (State h1 h2 Returned q m)
  end.

Definition child2 (s : state) : option state :=
  let '(State h1 h2 p q m) := s in
  match q with
  | Print => Some (State h1 h2 p Sleep_1 m)
  | Sleep_1 => Some (State h1 h2 p Returned m)
  | _ => None
  end.

(** The thread behind a handle has returned. *)
Definition joinable (s : state) (h : option thread) : bool :=
  match h with
  | Some T1 => bool_decide (c1 s = Returned)
  | Some T2 => bool_decide (c2 s = Returned)
  | _ => false
  end.

Definition main (s : state) : option state :=
  let '(State h1 h2 p q m) := s in
  match m with
  | Create_1 => Some (State (Some T1) h2 Print q Join_1)
  | Join_1 => if joinable s h1 then Some (State h1 h2 p q Join_2) else None
  | Join_2 => if joinable s h2 then Some (State h1 h2 p q Main_done) else None
  | Main_done => None
  end.

Definition init : state := State None None Unborn Unborn Create_1.

#[export] Instance dthread_c : System state thread := {
  exec t s := match t with Main => main s | T1 => child1 s | T2 => child2 s end;
  initial s := s = init
}.

Definition threads : list thread := [Main; T1; T2].

Lemma dthread_all_threads t : t ∈ threads.
Proof. destruct t; repeat constructor. Qed.

Definition states : list state := explore threads 200 [init] [].

Definition safe (s : state) : bool :=
  (match main_ s with
   | Join_2 | Main_done => bool_decide (t2 s = Some T2) && bool_decide (c1 s = Returned)
   | _ => true end)
  && (if stuckb threads s then bool_decide (s = State (Some T1) (Some T2) Returned Returned Main_done) else true).

(** [main] never joins a thread whose handle has not been stored: when it comes
    to [t2], the first thread has ended, and it created the second.  The
    program blocks only at its end. *)
Lemma dthread_joins (s : state) : reachable s ->
  (main_ s = Join_2 \/ main_ s = Main_done -> t2 s = Some T2 /\ c1 s = Returned)
  /\ (stuck s -> s = State (Some T1) (Some T2) Returned Returned Main_done).
Proof.
  intros Hr.
  assert (s ∈ states) as Hin.
  { revert s Hr. apply (reachable_explored threads dthread_all_threads); [|by vm_compute].
    intros s0 ->. apply (bool_decide_unpack _). by vm_compute. }
  assert (forallb safe states = true) as Hs by (by vm_compute).
  pose proof (explored_forall safe states s Hs Hin) as H. unfold safe in H. bool_to_prop. split.
  - intros [E|E]; rewrite E in *; bool_to_prop; split; by eapply bool_decide_eq_true.
  - intros Hst. apply (stuckb_spec threads dthread_all_threads) in Hst. rewrite Hst in *.
    by eapply bool_decide_eq_true.
Qed.
End Dthread.
