(* ===== verification/KernelLock.v ===== *)
(** * rt_kernel_lock: wk_lock.c and wk_kernel_lock.c

    A kernel module whose file [/proc/wk_lock] is a lock, held from [open] to
    [close], and the program that shows a priority inversion on it.  The
    priorities make some interleavings likely; the model has all of them. *)

From S2P Require Import Prelude Sched.

Local Open Scope Z_scope.

(** ** The threads *)

Inductive task := Main | Lowprio1 | Highprio1 | Highprio0.

#[export] Instance task_eq_dec : EqDecision task. Proof. solve_decision. Defined.

(** ** The module: wk_lock.c *)

(** The rtmutex [wk_lock], the spinlock [priv_spin_lock] and the flag. *)
Record module := Module_ { wk_lock : mutex task; priv_spin_lock : mutex task; locked : bool }.

#[export] Instance module_eq_dec : EqDecision module. Proof. solve_decision. Defined.

(** The statements of [wk_open] and [wk_release] that other tasks can see,
    one by one. *)
Inductive open_pc := Rt_lock | Open_spin | Open_set | Open_unspin.
Inductive release_pc := Release_spin | Release_clear | Rt_unlock | Release_unspin.

#[export] Instance open_pc_eq_dec : EqDecision open_pc. Proof. solve_decision. Defined.
#[export] Instance release_pc_eq_dec : EqDecision release_pc. Proof. solve_decision. Defined.

(** One statement: the module after it, and the next one ([None]: returned).
    The whole is [None] when the task is blocked. *)
Definition wk_open (t : task) (m : module) (p : open_pc) : option (module * option open_pc) :=
  let '(Module_ rt sp l) := m in
  match p with
  | Rt_lock => rt ← mutex_lock t rt; Some (Module_ rt sp l, Some Open_spin)
  | Open_spin => sp ← mutex_lock t sp; Some (Module_ rt sp l, Some Open_set)
  | Open_set => Some (Module_ rt sp true, Some Open_unspin)
  | Open_unspin => Some (Module_ rt (mutex_unlock sp) l, None)
  end.

Definition wk_release (t : task) (m : module) (p : release_pc) : option (module * option release_pc) :=
  let '(Module_ rt sp l) := m in
  match p with
  | Release_spin => sp ← mutex_lock t sp; Some (Module_ rt sp l, Some Release_clear)
  | Release_clear => Some (Module_ rt sp false, Some Rt_unlock)
  | Rt_unlock => Some (Module_ (mutex_unlock rt) sp l, Some Release_unspin)
  | Release_unspin => Some (Module_ rt (mutex_unlock sp) l, None)
  end.

Definition ENOMEM : Z := 12.

(** [proc_create_data] answers an entry or NULL. *)
Definition wk_init (wk_file_dentry : bool) : Z * module :=
  let m := Module_ None None false in
  if negb wk_file_dentry then (- ENOMEM, m) else (0, m).

(** The module is unloaded when no task has the file open: nothing runs beside
    [wk_exit].  The second part of the result: was the entry removed? *)
Definition wk_exit (wk_file_dentry : bool) (m : module) : module * bool :=
  let '(Module_ rt sp l) := m in
  let rt := if l then mutex_unlock rt else rt in
  (Module_ rt sp l, wk_file_dentry).

(** ** The program: wk_kernel_lock.c

    A step that can fail does so when the environment says ([ok = false]):
    setting the affinity or the priority, opening the file, creating a
    thread.  The busy loops, which end, are one step. *)

Inductive pc :=
  | Unborn
  | Set_affinity_prio
  | Open (p : open_pc)
  | Barrier_arrive
  | Barrier_wait
  | Busy_work
  | Close (p : release_pc)
  | End_.

Inductive main_pc :=
  | Barrier_init | Main_affinity | Create_low | Main_arrive | Main_wait
  | Create_high1 | Create_high0 | Join_high0 | Join_high1 | Join_low | Return_ (ret : bool).

#[export] Instance pc_eq_dec : EqDecision pc. Proof. solve_decision. Defined.
#[export] Instance main_pc_eq_dec : EqDecision main_pc. Proof. solve_decision. Defined.

(** [arrived]: the threads at the barrier, which opens at two; [ret]: no call
    of [main] has failed. *)
Record state := State {
  mod_ : module; arrived : nat; low1 : pc; high1 : pc; high0 : pc; main_ : main_pc; ret : bool
}.

#[export] Instance state_eq_dec : EqDecision state. Proof. solve_decision. Defined.

(** A thread at [p]: the module, the barrier and the thread after its next
    step.  [after_open] and [after_affinity] say where the thread goes from
    there. *)
Definition thread_step (t : task) (after_affinity after_open : pc) (ok : bool)
    (m : module) (n : nat) (p : pc) : option (module * nat * pc) :=
  match p with
  | Unborn | End_ => None
  | Set_affinity_prio => Some (m, n, if ok then after_affinity else End_)
  | Open Rt_lock =>
      if ok then
        '(m, p) ← wk_open t m Rt_lock;
        Some (m, n, match p with Some p => Open p | None => after_open end)
      else Some (m, n, End_)
  | Open p =>
      '(m, p) ← (if ok then wk_open t m p else None);
      Some (m, n, match p with Some p => Open p | None => after_open end)
  | Barrier_arrive => if ok then Some (m, S n, Barrier_wait) else None
  | Barrier_wait => if ok && (2 <=? n)%nat then Some (m, n, Busy_work) else None
  | Busy_work =>
      if ok then Some (m, n, match t with Lowprio1 => Close Release_spin | _ => End_ end) else None
  | Close p =>
      '(m, p) ← (if ok then wk_release t m p else None);
      Some (m, n, match p with Some p => Close p | None => End_ end)
  end.

Definition lowprio1 := thread_step Lowprio1 (Open Rt_lock) Barrier_arrive.
Definition highprio1 := thread_step Highprio1 Busy_work End_.
Definition highprio0 := thread_step Highprio0 (Open Rt_lock) (Close Release_spin).

(** [ret] is what the last call that assigns it left, zero or not. *)
Definition main (ok : bool) (s : state) : option state :=
  let '(State m n l h1 h0 p r) := s in
  match p with
  | Barrier_init => if ok then Some (State m O l h1 h0 Main_affinity r) else None
  | Main_affinity => Some (State m n l h1 h0 (if ok then Create_low else Return_ false) ok)
  | Create_low => Some (if ok then State m n Set_affinity_prio h1 h0 Main_arrive true
                        else State m n l h1 h0 (Return_ false) false)
  | Main_arrive => if ok then Some (State m (S n) l h1 h0 Main_wait r) else None
  | Main_wait => if ok && (2 <=? n)%nat then Some (State m n l h1 h0 Create_high1 r) else None
  | Create_high1 => Some (if ok then State m n l Set_affinity_prio h0 Create_high0 true
                          else State m n l h1 h0 Join_low false)
  | Create_high0 => Some (if ok then State m n l h1 Set_affinity_prio Join_high0 true
                          else State m n l h1 h0 Join_high1 false)
  | Join_high0 => if ok && bool_decide (h0 = End_) then Some (State m n l h1 h0 Join_high1 r) else None
  | Join_high1 => if ok && bool_decide (h1 = End_) then Some (State m n l h1 h0 Join_low r) else None
  | Join_low => if ok && bool_decide (l = End_) then Some (State m n l h1 h0 (Return_ r) r) else None
  | Return_ _ => None
  end.

Definition init : state :=
  State (wk_init true).2 O Unborn Unborn Unborn Barrier_init true.

(** The end of [main] ends the process. *)
Definition running (p : main_pc) : bool := match p with Return_ _ => false | _ => true end.

#[export] Instance kernel_lock : System state (task * bool) := {
  exec '(t, ok) s :=
    if running (main_ s) then
      match t with
      | Main => main ok s
      | Lowprio1 =>
          '(m, n, p) ← lowprio1 ok (mod_ s) (arrived s) (low1 s);
          Some (State m n p (high1 s) (high0 s) (main_ s) (ret s))
      | Highprio1 =>
          '(m, n, p) ← highprio1 ok (mod_ s) (arrived s) (high1 s);
          Some (State m n (low1 s) p (high0 s) (main_ s) (ret s))
      | Highprio0 =>
          '(m, n, p) ← highprio0 ok (mod_ s) (arrived s) (high0 s);
          Some (State m n (low1 s) (high1 s) p (main_ s) (ret s))
      end
    else None;
  initial s := s = init
}.

(** ** The states *)

Definition threads : list (task * bool) :=
  t ← [Main; Lowprio1; Highprio1; Highprio0]; ok ← [true; false]; [(t, ok)].

Lemma kernel_all_threads t : t ∈ threads.
Proof. destruct t as [[] []]; repeat constructor. Qed.

Definition states : list state := explore threads 4000 [init] [].

Lemma kernel_reachable_states s : reachable s -> s ∈ states.
Proof.
  apply (reachable_explored threads kernel_all_threads).
  - intros s0 ->. apply (bool_decide_unpack _). by vm_compute.
  - by vm_compute.
Qed.

(** The thread has the rtmutex. *)
Definition holds (p : pc) : bool :=
  match p with
  | Open Rt_lock => false
  | Open _ | Barrier_arrive | Barrier_wait | Busy_work => true
  | Close Release_unspin => false
  | Close _ => true
  | _ => false
  end.

(** It has been through [open]. *)
Definition opened (p : pc) : bool :=
  match p with Barrier_wait | Busy_work | Close _ | End_ => true | _ => false end.

Definition exclusive (s : state) : bool :=
  bool_decide (wk_lock (mod_ s) =
    if holds (low1 s) then Some Lowprio1 else if holds (high0 s) then Some Highprio0 else None)
  && negb (holds (low1 s) && holds (high0 s))
  && implb (locked (mod_ s)) (bool_decide (wk_lock (mod_ s) <> None)).

Definition ordered (s : state) : bool :=
  if decide (high0 s = Unborn) then true
  else opened (low1 s) && bool_decide (arrived s = 2%nat) && (if decide (wk_lock (mod_ s) = None) then
         match low1 s with Close Release_unspin | End_ => true | _ => false end else true).

Definition waits_forever (s : state) : bool :=
  bool_decide (main_ s = Main_wait) && bool_decide (low1 s = End_).

Definition lock_free (m : module) : bool :=
  bool_decide (m = Module_ None None false) && bool_decide ((wk_exit true m).1 = m).

Definition ends_well (s : state) : bool :=
  (if stuckb threads s then
     match main_ s with Return_ _ => true | _ => waits_forever s end else true)
  && (match main_ s with
      | Return_ true =>
          bool_decide (low1 s = End_) && bool_decide (high1 s = End_) && bool_decide (high0 s = End_)
          && lock_free (mod_ s)
      | _ => true
      end).

Lemma checked (P : state -> bool) s : forallb P states = true -> reachable s -> P s = true.
Proof. intros HP Hr. by apply (explored_forall P states), kernel_reachable_states. Qed.

(** (C24) The kernel lock and its test program: the module's lock is held by
    [lowprio1] or by [highprio0] exactly while that thread has the file open,
    never by both, and the flag [locked] is only set under the lock;
    [highprio0] is born after [lowprio1] has opened the file and come to the
    barrier, and finds the
    lock free only after [lowprio1] has released it.  The program blocks
    only at its end or waiting at the barrier for a [lowprio1] that has given
    up; when [main] returns 0 every thread has ended, the lock is free, and
    unloading the module has nothing to unlock. *)
Theorem kernel_lock_correct (s : state) (Hr : reachable s) :
  wk_lock (mod_ s) =
    (if holds (low1 s) then Some Lowprio1 else if holds (high0 s) then Some Highprio0 else None)
  /\ ~ (holds (low1 s) = true /\ holds (high0 s) = true)
  /\ (locked (mod_ s) = true -> wk_lock (mod_ s) <> None)
  /\ (high0 s <> Unborn -> opened (low1 s) = true /\ arrived s = 2%nat)
  /\ (high0 s <> Unborn -> wk_lock (mod_ s) = None -> low1 s = Close Release_unspin \/ low1 s = End_)
  /\ (stuck s -> (exists r, main_ s = Return_ r) \/ main_ s = Main_wait /\ low1 s = End_)
  /\ (main_ s = Return_ true ->
      low1 s = End_ /\ high1 s = End_ /\ high0 s = End_
      /\ mod_ s = Module_ None None false /\ (wk_exit true (mod_ s)).1 = mod_ s).
Proof.
  pose proof (checked exclusive s ltac:(by vm_compute) Hr) as He.
  pose proof (checked ordered s ltac:(by vm_compute) Hr) as Ho.
  pose proof (checked ends_well s ltac:(by vm_compute) Hr) as Hw.
  unfold exclusive in He. unfold ordered in Ho. unfold ends_well, waits_forever, lock_free in Hw.
  bool_to_prop. rewrite ?bool_decide_eq_true in *. split_and!.
  - done.
  - intros [E1 E2]. by rewrite E1, E2 in *.
  - intros E. rewrite E in *. cbn in *. by rewrite bool_decide_eq_true in *.
  - intros E. rewrite decide_False in Ho by done. bool_to_prop.
    by rewrite bool_decide_eq_true in *.
  - intros E En. rewrite decide_False in Ho by done. rewrite decide_True in Ho by done. bool_to_prop.
    destruct (low1 s) as [| | | | | |[]|]; try done; [by left|by right].
  - intros Hst. apply (stuckb_spec threads kernel_all_threads) in Hst. rewrite Hst in *.
    destruct (main_ s); try (bool_to_prop; rewrite ?bool_decide_eq_true in *; by right); by left; eexists.
  - intros E. rewrite E in *. bool_to_prop. by rewrite ?bool_decide_eq_true in *.
Qed.

Theorem kernel_lock_correct_witness :
  let s := State (Module_ (Some Lowprio1) (Some Lowprio1) false) 2 (Close Rt_unlock) Busy_work
    (Open Rt_lock) Join_high0 true in
  reachable s /\ high0 s <> Unborn /\ opened (low1 s) = true /\ holds (high0 s) = false.
Proof.
  set (s := State _ _ _ _ _ _ _).
  assert (reachable s) as Hr.
  { exists init. split; [done|].
    apply (run_schedule_reach
      [(Main, true); (Main, true); (Main, true); (Lowprio1, true); (Lowprio1, true); (Lowprio1, true);
       (Lowprio1, true); (Lowprio1, true); (Lowprio1, true); (Main, true); (Main, true); (Main, true);
       (Highprio1, true); (Main, true); (Highprio0, true); (Lowprio1, true); (Lowprio1, true);
       (Lowprio1, true); (Lowprio1, true)]). by vm_compute. }
  destruct (kernel_lock_correct s Hr) as (_ & Hx & _ & Ho & _).
  split; [exact Hr|]. split; [discriminate|]. split; [by apply Ho|].
  destruct (holds (high0 s)) eqn:E; [|done]. by destruct Hx.
Defined.

(** [lowprio1] has given up before the barrier. *)
Definition abandoned (s : state) : bool :=
  bool_decide (low1 s = End_)
  && (bool_decide (main_ s = Main_arrive) && bool_decide (arrived s = O)
      || bool_decide (main_ s = Main_wait) && bool_decide (arrived s = 1%nat)).

Lemma abandoned_forever s s' : s ∈ states -> abandoned s = true -> reach s s' -> s' ∈ states /\ abandoned s' = true.
Proof.
  intros Hs Hc Hr. induction Hr as [|s1 s2 _ [IH1 IH2] [t Ht]]; [done|].
  assert (all_steps threads (fun s s' => bool_decide (s' ∈ states) && implb (abandoned s) (abandoned s')) states
    = true) as H by (by vm_compute).
  apply (all_steps_spec threads kernel_all_threads _ _ _ _ _ H IH1) in Ht. rewrite IH2 in Ht.
  cbn [implb] in Ht. apply andb_true_iff in Ht as [H1 H2]. apply bool_decide_eq_true in H1.
  exact (conj H1 H2).
Qed.

(** (C25) When [lowprio1] cannot set its priority or open the lock, it ends without
    coming to the barrier, and the program hangs: from that step on no run
    ever leaves the barrier, so [main] neither returns nor reports the
    failure. *)
Theorem kernel_lock_hangs (s s' : state) (Hr : reachable s)
    (Hfail : exec (Lowprio1, false) s = Some s') :
  forall s'', reach s' s'' ->
    running (main_ s'') = true
    /\ (stuck s'' -> main_ s'' = Main_wait /\ arrived s'' = 1%nat /\ low1 s'' = End_).
Proof.
  pose proof (kernel_reachable_states s Hr) as Hs.
  assert (s' ∈ states) as Hs' by (by eapply kernel_reachable_states, reachable_step).
  assert (abandoned s' = true) as Ha.
  { assert (forallb (fun s => match exec (Lowprio1, false) s with Some s' => abandoned s' | None => true end) states
      = true) as H by (by vm_compute).
    pose proof (explored_forall _ states s H Hs) as H'. cbv beta in H'. by rewrite Hfail in H'. }
  intros s'' Hr2. destruct (abandoned_forever s' s'' Hs' Ha Hr2) as [H1 H2]. unfold abandoned in H2.
  bool_to_prop. rewrite orb_true_iff, !andb_true_iff, !bool_decide_eq_true in *.
  assert (running (main_ s'') = true /\ low1 s'' = End_ /\ (main_ s'' = Main_wait /\ arrived s'' = 1%nat
    \/ main_ s'' = Main_arrive)) as (Hrun & Hlow & Hm).
  { clear Hs Hs' Ha H1. destruct s''. cbn in *. naive_solver. }
  split; [exact Hrun|]. intros Hst. destruct Hm as [[Em Ea]|Em]; [exact (conj Em (conj Ea Hlow))|]. specialize (Hst (Main, true)). exfalso. clear -Hst Em. destruct s''. cbn in *. subst. discriminate.
Qed.

Theorem kernel_lock_hangs_witness :
  let s := State (Module_ None None false) 1 End_ Unborn Unborn Main_wait true in
  reachable s /\ running (main_ s) = true.
Proof.
  set (s := State _ _ _ _ _ _ _).
  set (s0 := State (Module_ None None false) 0 Set_affinity_prio Unborn Unborn Main_arrive true).
  assert (reachable s0) as Hr.
  { exists init. split; [done|]. apply (run_schedule_reach [(Main, true); (Main, true); (Main, true)]). by vm_compute. }
  assert (reach (State (Module_ None None false) 0 End_ Unborn Unborn Main_arrive true) s) as Hs
    by (apply (run_schedule_reach [(Main, true)]); by vm_compute).
  split.
  - eapply reachable_step; [|exact (eq_refl : exec (Main, true)
      (State (Module_ None None false) 0 End_ Unborn Unborn Main_arrive true) = Some s)].
    by apply (reachable_step (Lowprio1, false) s0).
  - exact (proj1 (kernel_lock_hangs s0 _ Hr eq_refl s Hs)).
Defined.
