(* ===== verification/Threadtree.v ===== *)
(** * ust/threadtree/threadtree.c

    A chain of stages of threads.  Each thread works, takes a number under the
    mutex of its stage, puts itself in the [ready] array and signals; the
    thread with the last number creates the threads of the next stage.  The
    main thread joins them all, stage by stage, in the order of [ready]. *)

From S2P Require Import Prelude Sched.

Local Open Scope nat_scope.

(** ** Data *)

(** The next statement of [thread_worker]; from the increment on the thread
    has its local [index].  [Spawn index i] is the loop of [spawn_stage]. *)
Inductive pc :=
  | Unborn
  | Start
  | Do_something
  | Sem_wait_mutex
  | Incr
  | Sem_post_mutex (index : nat)
  | Store_ready (index : nat)
  | Post_ready (index : nat)
  | Last (index : nat)
  | Spawn (index i : nat)
  | Trace_exit (index : nat)
  | Returned (index : nat).

#[export] Instance pc_eq_dec : EqDecision pc.
Proof. solve_decision. Defined.

(** [stage_t]; the handles are the positions of the threads in the stage, and
    [threads] their states.  A slot of [ready] is [None] as [calloc] left it. *)
Record stage := Stage {
  nb_thread : nat;
  exit_count : nat;
  threads : list pc;
  ready : list (option nat);
  parent : option nat;
  sem_ready : nat;
  mutex : nat
}.

Definition set_pc (st : stage) (t : nat) (p : pc) : stage :=
  Stage (nb_thread st) (exit_count st) (<[t := p]> (threads st)) (ready st) (parent st) (sem_ready st) (mutex st).
Definition set_mutex (st : stage) (m : nat) : stage :=
  Stage (nb_thread st) (exit_count st) (threads st) (ready st) (parent st) (sem_ready st) m.
Definition set_exit_count (st : stage) (n : nat) : stage :=
  Stage (nb_thread st) n (threads st) (ready st) (parent st) (sem_ready st) (mutex st).
Definition set_ready (st : stage) (i t : nat) : stage :=
  Stage (nb_thread st) (exit_count st) (threads st) (<[i := Some t]> (ready st)) (parent st) (sem_ready st) (mutex st).
Definition set_sem_ready (st : stage) (n : nat) : stage :=
  Stage (nb_thread st) (exit_count st) (threads st) (ready st) (parent st) n (mutex st).
Definition set_parent (st : stage) (t : nat) : stage :=
  Stage (nb_thread st) (exit_count st) (threads st) (ready st) (Some t) (sem_ready st) (mutex st).

(** [make_task]: the stages have [nb_threads], [nb_threads - 1], ... threads,
    their arrays [nb_threads] entries. *)
Definition make_stage (nb_threads curr_nb_threads : nat) : stage :=
  Stage curr_nb_threads 0 (replicate curr_nb_threads Unborn) (replicate nb_threads None) None 0 1.

Definition make_task (nb_stages nb_threads : nat) : list stage :=
  (fun i => make_stage nb_threads (nb_threads - i)) <$> seq 0 nb_stages.

(** The next statement of [main]: the loop of [spawn_stage], [wait_task] (the
    loop head of a stage, the loop over its threads, the read of the slot,
    the join), [free_task].  [Join_null]: [pthread_join] of the zero that
    [calloc] left. *)
Inductive main_pc :=
  | M_spawn (i : nat)
  | M_stage (k : nat)
  | M_wait (k i : nat)
  | M_read (k i : nat)
  | M_join (k i t : nat)
  | Join_null (k i : nat)
  | M_free
  | M_done.

Record state := State { stages : list stage; main_ : main_pc }.

Inductive thread := Main | Worker (k t : nat).

(** ** Steps *)

(** [pthread_create] of the thread [i] of a stage. *)
Definition create (st : stage) (i : nat) : stage := set_pc st i Start.

(** [thread_worker], but for the creation of the next stage. *)
Definition thread_worker (st : stage) (t : nat) (p : pc) : option stage :=
  match p with
  | Unborn | Spawn _ _ | Returned _ => None
  | Start => Some (set_pc st t Do_something)
  | Do_something => Some (set_pc st t Sem_wait_mutex)
  | Sem_wait_mutex => m ← sem_wait (mutex st); Some (set_pc (set_mutex st m) t Incr)
  | Incr => Some (set_pc (set_exit_count st (S (exit_count st))) t (Sem_post_mutex (exit_count st)))
  | Sem_post_mutex i => Some (set_pc (set_mutex st (sem_post (mutex st))) t (Store_ready i))
  | Store_ready i => Some (set_pc (set_ready st i t) t (Post_ready i))
  | Post_ready i => Some (set_pc (set_sem_ready st (sem_post (sem_ready st))) t (Last i))
  | Last i =>
      Some (if i + 1 =? nb_thread st then set_pc (set_parent st t) t (Spawn i 0)
            else set_pc st t (Trace_exit i))
  | Trace_exit i => Some (set_pc st t (Returned i))
  end.

(** One turn of [spawn_stage(stage->next)], or its end. *)
Definition spawn_stage (ss : list stage) (k t i j : nat) (st : stage) : list stage :=
  match ss !! S k with
  | Some nx =>
      if j <? nb_thread nx then <[S k := create nx j]> (<[k := set_pc st t (Spawn i (S j))]> ss)
      else <[k := set_pc st t (Trace_exit i)]> ss
  | None => <[k := set_pc st t (Trace_exit i)]> ss
  end.

Definition worker_step (ss : list stage) (k t : nat) : option (list stage) :=
  st ← ss !! k;
  p ← threads st !! t;
  match p with
  | Spawn i j => Some (spawn_stage ss k t i j st)
  | p => st' ← thread_worker st t p; Some (<[k := st']> ss)
  end.

Definition returned (p : pc) : bool := match p with Returned _ => true | _ => false end.

Definition main_step (s : state) : option state :=
  let '(State ss m) := s in
  match m with
  | M_spawn i =>
      match ss !! 0 with
      | Some st => if i <? nb_thread st then Some (State (<[0 := create st i]> ss) (M_spawn (S i)))
                   else Some (State ss (M_stage 0))
      | None => Some (State ss (M_stage 0))
      end
  | M_stage k => Some (State ss (match ss !! k with Some _ => M_wait k 0 | None => M_free end))
  | M_wait k i =>
      st ← ss !! k;
      if i <? nb_thread st then
        n ← sem_wait (sem_ready st); Some (State (<[k := set_sem_ready st n]> ss) (M_read k i))
      else Some (State ss (M_stage (S k)))
  | M_read k i =>
      st ← ss !! k;
      Some (State ss (match ready st !! i with Some (Some t) => M_join k i t | _ => Join_null k i end))
  | M_join k i t =>
      st ← ss !! k;
      p ← threads st !! t;
      if returned p then Some (State ss (M_wait k (S i))) else None
  | Join_null _ _ => None
  | M_free => Some (State ss M_done)
  | M_done => None
  end.

Definition init (nb_stages nb_threads : nat) : state := State (make_task nb_stages nb_threads) (M_spawn 0).

Section threadtree.
Variables nb_stages nb_threads : nat.

#[export] Instance SYS : System state thread := {
  exec t s :=
    match t with
    | Main => main_step s
    | Worker k t => ss ← worker_step (stages s) k t; Some (State ss (main_ s))
    end;
  initial s := s = init nb_stages nb_threads
}.
End threadtree.

(** ** What the states keep *)

(** The number a thread has taken; past the store; past the post; inside the
    critical section; the threads it has created, for a next stage of [n]. *)
Definition index (p : pc) : option nat :=
  match p with
  | Sem_post_mutex i | Store_ready i | Post_ready i | Last i | Spawn i _ | Trace_exit i | Returned i => Some i
  | _ => None
  end.
Definition stored (p : pc) : bool :=
  match p with Post_ready _ | Last _ | Spawn _ _ | Trace_exit _ | Returned _ => true | _ => false end.
Definition posted (p : pc) : nat :=
  match p with Last _ | Spawn _ _ | Trace_exit _ | Returned _ => 1 | _ => 0 end.
Definition critical (p : pc) : nat := match p with Incr | Sem_post_mutex _ => 1 | _ => 0 end.
Definition children (nb n : nat) (p : pc) : nat :=
  match p with
  | Spawn _ j => j
  | Trace_exit i | Returned i => if i + 1 =? nb then n else 0
  | _ => 0
  end.

Record stage_inv (nb_threads : nat) (st : stage) : Prop := StageInv {
  si_length : length (threads st) = nb_thread st;
  si_ready_length : length (ready st) = nb_threads;
  si_bound : nb_thread st <= nb_threads;
  si_index : omap index (threads st) ≡ₚ seq 0 (exit_count st);
  si_mutex : mutex st + sum_list_with critical (threads st) = 1;
  si_spawn : forall t i j, threads st !! t = Some (Spawn i j) -> i + 1 = nb_thread st;
  si_ready : forall i t, ready st !! i = Some (Some t) ->
    exists p, threads st !! t = Some p /\ index p = Some i /\ stored p = true;
  si_stored : forall t p i, threads st !! t = Some p -> index p = Some i -> stored p = true ->
    ready st !! i = Some (Some t)
}.

(** A thread moves without taking a number or storing itself. *)
Lemma stage_inv_move N st st' t p q :
  stage_inv N st -> threads st !! t = Some p ->
  nb_thread st' = nb_thread st -> exit_count st' = exit_count st ->
  threads st' = <[t := q]> (threads st) -> ready st' = ready st ->
  mutex st' + critical q = mutex st + critical p ->
  index q = index p -> stored q = stored p ->
  (forall i j, q = Spawn i j -> i + 1 = nb_thread st) ->
  stage_inv N st'.
Proof.
  intros [Hl Hrl Hb Hi Hm Hs Hr Hst] Hp En Ex Et Er Ec Eq Es Hsp.
  split; rewrite ?En, ?Ex, ?Et, ?Er; try done.
  - by rewrite length_insert.
  - by rewrite (omap_insert_same _ _ _ _ _ Hp).
  - pose proof (sum_list_insert critical _ _ _ q Hp). lia.
  - intros t' i j H. apply list_lookup_insert_Some in H as [(<- & -> & _)|[_ H]]; eauto.
  - intros i t' H. destruct (Hr i t' H) as (p' & H' & ? & ?).
    destruct (decide (t = t')) as [<-|].
    + exists q. rewrite list_lookup_insert_eq by (by eapply lookup_lt_Some). split_and!; congruence.
    + exists p'. by rewrite list_lookup_insert_ne.
  - intros t' p' i H. apply list_lookup_insert_Some in H as [(<- & <- & _)|[_ H]]; [|by eauto].
    intros E1 E2. apply (Hst t p); congruence.
Qed.

(** The numbers given out are at most the threads. *)
Lemma exit_count_bound N st : stage_inv N st -> exit_count st <= nb_thread st.
Proof.
  intros [Hl _ _ Hi _ _ _ _]. apply Permutation_length in Hi. rewrite length_seq in Hi.
  rewrite <- Hl, <- Hi. apply length_omap_le.
Qed.

Lemma index_bound N st t p i :
  stage_inv N st -> threads st !! t = Some p -> index p = Some i -> i < exit_count st.
Proof.
  intros H Hp Hi. pose proof (si_index _ _ H) as Hperm.
  assert (i ∈ seq 0 (exit_count st)) as Hin.
  { rewrite <- Hperm. apply list_elem_of_omap. exists p. split; [by eapply list_elem_of_lookup_2|done]. }
  apply elem_of_seq in Hin. lia.
Qed.

(** Taking a number. *)
Lemma stage_inv_incr N st t :
  stage_inv N st -> threads st !! t = Some Incr ->
  stage_inv N (set_pc (set_exit_count st (S (exit_count st))) t (Sem_post_mutex (exit_count st))).
Proof.
  intros [Hl Hrl Hb Hi Hm Hs Hr Hst] Hp. split; cbn; try done.
  - by rewrite length_insert.
  - rewrite (omap_insert_new _ _ _ _ (Sem_post_mutex (exit_count st)) _ Hp eq_refl eq_refl), Hi.
    change (exit_count st :: seq 0 (exit_count st) ≡ₚ seq 0 (S (exit_count st))).
    rewrite seq_S. apply Permutation_cons_append.
  - pose proof (sum_list_insert critical _ _ _ (Sem_post_mutex (exit_count st)) Hp) as H. cbn in H. lia.
  - intros t' i j H. apply list_lookup_insert_Some in H as [(_ & [=] & _)|[_ H]]; eauto.
  - intros i t' H. destruct (Hr i t' H) as (p' & H' & ? & ?). exists p'.
    rewrite list_lookup_insert_ne; [done|]. intros <-. by simplify_eq/=.
  - intros t' p' i H E1 E2. apply list_lookup_insert_Some in H as [(<- & <- & _)|[_ H]]; [done|by eauto].
Qed.

(** Storing oneself in the slot of one's number. *)
Lemma stage_inv_store N st t i :
  stage_inv N st -> threads st !! t = Some (Store_ready i) ->
  stage_inv N (set_pc (set_ready st i t) t (Post_ready i)).
Proof.
  intros H Hp. pose proof (index_bound N st t _ i H Hp eq_refl) as Hib.
  pose proof (exit_count_bound N st H) as Hec.
  destruct H as [Hl Hrl Hb Hi Hm Hs Hr Hst].
  assert (forall t' p', threads st !! t' = Some p' -> index p' = Some i -> t' = t) as Huniq.
  { intros t' p' Hp' Hi'. eapply (omap_NoDup_inj index (threads st)); [|exact Hp'|exact Hp|done|done].
    rewrite Hi. apply NoDup_seq. }
  split; cbn; try done.
  - by rewrite length_insert.
  - by rewrite length_insert.
  - by rewrite (omap_insert_same _ _ _ _ _ Hp).
  - pose proof (sum_list_insert critical _ _ _ (Post_ready i) Hp) as H. cbn in H. lia.
  - intros t' i' j H. apply list_lookup_insert_Some in H as [(_ & [=] & _)|[_ H]]; eauto.
  - intros i' t' H. apply list_lookup_insert_Some in H as [(<- & [= ->] & _)|[Hne H]].
    + exists (Post_ready i). by rewrite list_lookup_insert_eq by (by eapply lookup_lt_Some).
    + destruct (Hr i' t' H) as (p' & H' & ? & ?). exists p'.
      rewrite list_lookup_insert_ne; [done|]. intros <-. by simplify_eq/=.
  - intros t' p' i' H E1 E2. apply list_lookup_insert_Some in H as [(<- & <- & _)|[Hne H]].
    + cbn in E1. injection E1 as <-. rewrite list_lookup_insert_eq; [done|lia].
    + rewrite list_lookup_insert_ne; [by eapply Hst|]. intros ->. apply Hne. symmetry. by eapply Huniq.
Qed.

Lemma thread_worker_inv N st t p st' :
  stage_inv N st -> threads st !! t = Some p -> thread_worker st t p = Some st' -> stage_inv N st'.
Proof.
  intros H Hp He. destruct p; cbn in He; try done; [..|injection He as <-].
  all: try (injection He as <-; by eapply (stage_inv_move N st _ t)).
  - destruct (sem_wait (mutex st)) as [m|] eqn:Em; [|done]. injection He as <-.
    apply sem_wait_Some in Em. eapply (stage_inv_move N st _ t); try done. cbn. lia.
  - injection He as <-. by apply stage_inv_incr.
  - injection He as <-. eapply (stage_inv_move N st _ t); try done. cbn. unfold sem_post. lia.
  - injection He as <-. by apply stage_inv_store.
  - destruct (Nat.eqb_spec (index0 + 1) (nb_thread st)); injection He as <-;
      (eapply (stage_inv_move N st _ t); [done..|]); intros i j [=]; congruence.
  - by eapply (stage_inv_move N st _ t).
Qed.


(** ** The stages together *)

(** The threads of [nx] that the threads of [st] have created. *)
Definition created (st nx : stage) : nat :=
  sum_list_with (children (nb_thread st) (nb_thread nx)) (threads st).

Record chain_inv (st nx : stage) : Prop := ChainInv {
  ci_bound : created st nx <= nb_thread nx;
  ci_born : forall j p, threads nx !! j = Some p -> (p = Unborn <-> created st nx <= j)
}.

(** What [main] has done: created in the first stage, taken from the semaphore
    of the stage [k], joined in it. *)
Definition spawned (m : main_pc) (nb : nat) : nat := match m with M_spawn i => i | _ => nb end.

Definition at_stage (k k' i nb : nat) : nat :=
  if k <? k' then nb else if k =? k' then i else 0.

Definition consumed (m : main_pc) (k nb : nat) : nat :=
  match m with
  | M_spawn _ => 0
  | M_stage k' => at_stage k k' 0 nb
  | M_wait k' i => at_stage k k' i nb
  | M_read k' i | M_join k' i _ | Join_null k' i => at_stage k k' (S i) nb
  | M_free | M_done => nb
  end.

Definition joined (m : main_pc) (k nb : nat) : nat :=
  match m with
  | M_spawn _ => 0
  | M_stage k' => at_stage k k' 0 nb
  | M_wait k' i | M_read k' i | M_join k' i _ | Join_null k' i => at_stage k k' i nb
  | M_free | M_done => nb
  end.

Definition main_ok (m : main_pc) (ss : list stage) : Prop :=
  match m with
  | M_spawn i => forall st, ss !! 0 = Some st -> i <= nb_thread st
  | M_wait k i => exists st, ss !! k = Some st /\ i <= nb_thread st
  | M_read k i | Join_null k i => exists st, ss !! k = Some st /\ i < nb_thread st
  | M_join k i t => exists st p, ss !! k = Some st /\ i < nb_thread st
      /\ threads st !! t = Some p /\ index p = Some i
  | _ => True
  end.

Record main_inv (m : main_pc) (k : nat) (st : stage) : Prop := MainInv {
  mi_sem : sem_ready st + consumed m k (nb_thread st) = sum_list_with posted (threads st);
  mi_joined : forall j, j < joined m k (nb_thread st) -> exists t, threads st !! t = Some (Returned j)
}.

Record Inv (N : nat) (s : state) : Prop := mkInv {
  inv_stage : forall k st, stages s !! k = Some st -> stage_inv N st;
  inv_main : forall k st, stages s !! k = Some st -> main_inv (main_ s) k st;
  inv_chain : forall k st nx, stages s !! k = Some st -> stages s !! S k = Some nx -> chain_inv st nx;
  inv_first : forall st, stages s !! 0 = Some st ->
    forall j p, threads st !! j = Some p -> (p = Unborn <-> spawned (main_ s) (nb_thread st) <= j);
  inv_ok : main_ok (main_ s) (stages s)
}.

(** A stage changes by a step of one of its threads: what is known of the
    others stays. *)
Record moves (st st' : stage) : Prop := Moves {
  mv_nb : nb_thread st' = nb_thread st;
  mv_index : forall t p i, threads st !! t = Some p -> index p = Some i ->
    exists p', threads st' !! t = Some p' /\ index p' = Some i;
  mv_returned : forall t i, threads st !! t = Some (Returned i) -> threads st' !! t = Some (Returned i);
  mv_sem : sem_ready st' + sum_list_with posted (threads st)
           = sem_ready st + sum_list_with posted (threads st')
}.

(** It also creates nothing. *)
Record stays (st st' : stage) : Prop := Stays {
  sy_moves : moves st st';
  sy_created : forall nb, sum_list_with (children (nb_thread st') nb) (threads st')
                        = sum_list_with (children (nb_thread st) nb) (threads st);
  sy_unborn : forall j p', threads st' !! j = Some p' ->
    exists p, threads st !! j = Some p /\ (p' = Unborn <-> p = Unborn)
}.

Lemma moves_set (st st' : stage) t p q :
  threads st !! t = Some p -> nb_thread st' = nb_thread st -> threads st' = <[t := q]> (threads st) ->
  (index p = None \/ index q = index p) -> returned p = false ->
  sem_ready st' + posted p = sem_ready st + posted q -> moves st st'.
Proof.
  intros Hp En Et Hi Hr Hs. pose proof (lookup_lt_Some _ _ _ Hp) as Hlt. split; rewrite ?Et; try done.
  - intros t' p' i H E. destruct (decide (t = t')) as [<-|].
    + exists q. rewrite list_lookup_insert_eq by done. split; [done|]. destruct Hi; congruence.
    + exists p'. by rewrite list_lookup_insert_ne.
  - intros t' i H. rewrite list_lookup_insert_ne; [done|]. intros <-. by simplify_eq.
  - pose proof (sum_list_insert posted _ _ _ q Hp). lia.
Qed.

Lemma stays_set (st st' : stage) t p q :
  moves st st' -> threads st !! t = Some p -> threads st' = <[t := q]> (threads st) ->
  (forall nb, children (nb_thread st) nb q = children (nb_thread st) nb p) ->
  p <> Unborn -> q <> Unborn -> stays st st'.
Proof.
  intros Hm Hp Et Hc Hpu Hqu. split; [done| |].
  - intros nb. rewrite (mv_nb _ _ Hm), Et.
    pose proof (sum_list_insert (children (nb_thread st) nb) _ _ _ q Hp) as H. rewrite Hc in H. lia.
  - intros j p' H. rewrite Et in H. apply list_lookup_insert_Some in H as [(<- & <- & _)|[_ H]].
    + by exists p.
    + by exists p'.
Qed.

Lemma thread_worker_stays st t p st' :
  threads st !! t = Some p -> thread_worker st t p = Some st' -> stays st st'.
Proof.
  intros Hp He.
  assert (exists q, threads st' = <[t := q]> (threads st) /\ nb_thread st' = nb_thread st
    /\ (index p = None \/ index q = index p) /\ returned p = false
    /\ sem_ready st' + posted p = sem_ready st + posted q
    /\ (forall nb, children (nb_thread st) nb q = children (nb_thread st) nb p)
    /\ p <> Unborn /\ q <> Unborn) as (q & Et & En & Hi & Hr & Hs & Hc & Hpu & Hqu).
  2:{ eapply stays_set; try done. by eapply moves_set. }
  destruct p; cbn in He; try done; try (injection He as <-; eexists; split; [reflexivity|]; cbn; by auto 10).
  all: try (injection He as <-; eexists; split; [reflexivity|]; cbn; unfold sem_post; split_and!; auto; lia).
  - destruct (sem_wait (mutex st)); [|done]. injection He as <-.
    eexists; split; [reflexivity|]; cbn; by auto 10.
  - destruct (Nat.eqb_spec (index0 + 1) (nb_thread st)); injection He as <-;
      (eexists; split; [reflexivity|]); cbn; [by auto 10|].
    apply Nat.eqb_neq in n. rewrite n. by auto 10.
Qed.

Lemma main_inv_moves m k st st' : moves st st' -> main_inv m k st -> main_inv m k st'.
Proof.
  intros [En Hi Hr Hs] [H1 H2]. split; rewrite En; [lia|].
  intros j Hj. destruct (H2 j Hj) as [t Ht]. exists t. by apply Hr.
Qed.

Lemma main_ok_moves m k ss st st' :
  ss !! k = Some st -> moves st st' -> main_ok m ss -> main_ok m (<[k := st']> ss).
Proof.
  intros Hk [En Hi Hr Hs] Hm. pose proof (lookup_lt_Some _ _ _ Hk) as Hlt.
  assert (forall k0 st0, ss !! k0 = Some st0 -> exists st1, <[k := st']> ss !! k0 = Some st1
    /\ nb_thread st1 = nb_thread st0
    /\ (forall t p i, threads st0 !! t = Some p -> index p = Some i ->
         exists p', threads st1 !! t = Some p' /\ index p' = Some i)) as Hget.
  { intros k0 st0 H0. destruct (decide (k = k0)) as [<-|].
    - exists st'. rewrite list_lookup_insert_eq by done. by simplify_eq.
    - exists st0. rewrite list_lookup_insert_ne by done. split_and!; eauto. }
  destruct m; cbn in *; try done.
  - intros st0 H0. apply list_lookup_insert_Some in H0 as [(-> & <- & _)|[_ H0]]; [rewrite En|]; by apply Hm.
  - destruct Hm as (st0 & H0 & Hb). destruct (Hget _ _ H0) as (st1 & ? & E & _). exists st1. by rewrite E.
  - destruct Hm as (st0 & H0 & Hb). destruct (Hget _ _ H0) as (st1 & ? & E & _). exists st1. by rewrite E.
  - destruct Hm as (st0 & p & H0 & Hb & Hp & Hx). destruct (Hget _ _ H0) as (st1 & ? & E & Hx1).
    destruct (Hx1 _ _ _ Hp Hx) as (p' & ? & ?). exists st1, p'. by rewrite E.
  - destruct Hm as (st0 & H0 & Hb). destruct (Hget _ _ H0) as (st1 & ? & E & _). exists st1. by rewrite E.
Qed.

(** No thread is born. *)
Definition same_born (st st' : stage) : Prop :=
  forall j p', threads st' !! j = Some p' -> exists p, threads st !! j = Some p /\ (p' = Unborn <-> p = Unborn).

Lemma chain_inv_same st st' nx nx' :
  created st' nx' = created st nx -> nb_thread nx' = nb_thread nx -> same_born nx nx' ->
  chain_inv st nx -> chain_inv st' nx'.
Proof.
  intros E En Hu [Hb Hborn]. split; rewrite E; [by rewrite En|].
  intros j p' Hp'. destruct (Hu j p' Hp') as (p & Hp & Heq). rewrite Heq. by apply Hborn.
Qed.

Lemma same_born_refl st : same_born st st.
Proof. intros j p' H. by exists p'. Qed.

Lemma moves_refl st : moves st st.
Proof. split; eauto. Qed.

(** A stage changes, its creations and births excepted. *)
Lemma Inv_update N ss m k st st' :
  Inv N (State ss m) -> ss !! k = Some st -> stage_inv N st' -> moves st st' -> same_born st st' ->
  (forall nx, ss !! S k = Some nx -> created st' nx = created st nx) ->
  Inv N (State (<[k := st']> ss) m).
Proof.
  intros [Hst Hma Hch Hfi Hok] Hk Hinv Hmv Hsb Hcr. cbn in *.
  pose proof (lookup_lt_Some _ _ _ Hk) as Hlt.
  assert (forall k0 st0, <[k := st']> ss !! k0 = Some st0 ->
    exists st1, ss !! k0 = Some st1 /\ moves st1 st0 /\ same_born st1 st0 /\ stage_inv N st0
      /\ (k0 <> k -> st1 = st0) /\ (k0 = k -> st1 = st /\ st0 = st')) as Hget.
  { intros k0 st0 H0. apply list_lookup_insert_Some in H0 as [(-> & <- & _)|[? H0]].
    - by exists st.
    - exists st0. split_and!; first [done|apply moves_refl|apply same_born_refl|by eapply Hst|congruence]. }
  split; cbn.
  - intros k0 st0 H0. by destruct (Hget _ _ H0) as (st1 & _ & _ & _ & ? & _).
  - intros k0 st0 H0. destruct (Hget _ _ H0) as (st1 & H1 & Hm1 & _).
    eapply main_inv_moves; [exact Hm1|by apply Hma].
  - intros k0 st0 nx0 H0 Hn. destruct (Hget _ _ H0) as (st1 & H1 & Hm1 & _ & _ & Hne & Heq).
    destruct (Hget _ _ Hn) as (nx1 & Hn1 & Hmn & Hbn & _).
    eapply chain_inv_same; [|apply (mv_nb _ _ Hmn)|exact Hbn|exact (Hch _ _ _ H1 Hn1)].
    unfold created. rewrite (mv_nb _ _ Hmn). fold (created st0 nx1) (created st1 nx1).
    destruct (decide (k0 = k)) as [->|Hk0]; [|by rewrite Hne].
    destruct (Heq eq_refl) as [-> ->]. by apply Hcr.
  - intros st0 H0 j p Hp. destruct (Hget _ _ H0) as (st1 & H1 & Hm1 & Hb1 & _).
    destruct (Hb1 j p Hp) as (p1 & Hp1 & ->). rewrite (mv_nb _ _ Hm1). by eapply Hfi.
  - eapply main_ok_moves; eauto.
Qed.

(** ** Creation *)

Lemma create_inv N st j :
  stage_inv N st -> threads st !! j = Some Unborn -> stage_inv N (create st j).
Proof. intros H Hj. by eapply (stage_inv_move N st _ j). Qed.

Lemma create_moves st j : threads st !! j = Some Unborn -> moves st (create st j).
Proof. intros Hj. eapply moves_set; try done. by left. Qed.

Lemma create_created st j nx : threads st !! j = Some Unborn -> created (create st j) nx = created st nx.
Proof.
  intros Hj. unfold created, create. cbn.
  pose proof (sum_list_insert (children (nb_thread st) (nb_thread nx)) _ _ _ Start Hj) as H. cbn in H. lia.
Qed.

Lemma spawn_unique N st t i q t' i' :
  stage_inv N st -> threads st !! t = Some (Spawn i i') -> threads st !! t' = Some q -> t' <> t ->
  forall nb, children (nb_thread st) nb q = 0.
Proof.
  intros H Hp Hq Hne nb. pose proof (si_spawn _ _ H _ _ _ Hp) as Hlast.
  assert (index q <> Some i) as Hi.
  { intros Hi. apply Hne. eapply (omap_NoDup_inj index (threads st)); [|exact Hq|exact Hp|exact Hi|done].
    rewrite (si_index _ _ H). apply NoDup_seq. }
  destruct q; cbn; try done.
  - pose proof (si_spawn _ _ H _ _ _ Hq). exfalso. apply Hi. cbn. f_equal. lia.
  - destruct (Nat.eqb_spec (index0 + 1) (nb_thread st)); [|done]. exfalso. apply Hi. cbn. f_equal. lia.
  - destruct (Nat.eqb_spec (index0 + 1) (nb_thread st)); [|done]. exfalso. apply Hi. cbn. f_equal. lia.
Qed.

Lemma created_spawning N st t i j nx :
  stage_inv N st -> threads st !! t = Some (Spawn i j) -> created st nx = j.
Proof.
  intros H Hp. unfold created. rewrite (sum_list_single _ _ _ _ Hp); [done|].
  intros t' q Hq Hne. by eapply spawn_unique.
Qed.

(** The spawning thread moves. *)
Lemma spawning_moves N st t i j q :
  stage_inv N st -> threads st !! t = Some (Spawn i j) ->
  (q = Spawn i (S j) \/ q = Trace_exit i) ->
  stage_inv N (set_pc st t q) /\ moves st (set_pc st t q) /\ same_born st (set_pc st t q)
  /\ forall nx, created (set_pc st t q) nx = children (nb_thread st) (nb_thread nx) q.
Proof.
  intros H Hp Hq. pose proof (si_spawn _ _ H _ _ _ Hp) as Hlast. split_and!.
  - eapply (stage_inv_move N st _ t); try done; destruct Hq as [->| ->]; try done. by intros ? ? [= -> _].
  - eapply moves_set; try done; destruct Hq as [->| ->]; try done; by right.
  - intros j' p' Hj. cbn in Hj. apply list_lookup_insert_Some in Hj as [(<- & <- & _)|[_ Hj]]; [|by exists p'].
    exists (Spawn i j). split; [done|]. by destruct Hq as [->| ->].
  - intros nx. unfold created, set_pc. cbn.
    pose proof (sum_list_insert (children (nb_thread st) (nb_thread nx)) _ _ _ q Hp) as Hs.
    pose proof (created_spawning N st t i j nx H Hp) as Hc. unfold created in Hc. rewrite Hc in Hs. cbn in Hs. lia.
Qed.

(** Two neighbours that change, among the stages. *)
Lemma lookup_neighbours (ss : list stage) k st' nx' k0 st0 :
  <[S k := nx']> (<[k := st']> ss) !! k0 = Some st0 ->
  k0 = S k /\ st0 = nx' \/ k0 = k /\ st0 = st' \/ k0 <> k /\ k0 <> S k /\ ss !! k0 = Some st0.
Proof.
  intros H0. apply list_lookup_insert_Some in H0 as [(-> & <- & _)|[? H0]]; [by left|].
  apply list_lookup_insert_Some in H0 as [(-> & <- & _)|[? H0]]; [by right; left|]. right; right. auto.
Qed.

(** Thread [t] of stage [k] creates thread [j] of the next. *)
Lemma Inv_create N ss m k t i j st nx :
  Inv N (State ss m) -> ss !! k = Some st -> ss !! S k = Some nx ->
  threads st !! t = Some (Spawn i j) -> (j < nb_thread nx)%nat ->
  Inv N (State (<[S k := create nx j]> (<[k := set_pc st t (Spawn i (S j))]> ss)) m).
Proof.
  intros Hi Hk Hn Hp Hj. pose proof (inv_stage _ _ Hi k st Hk) as Hst.
  pose proof (inv_chain _ _ Hi k st nx Hk Hn) as [Hcb Hcn].
  rewrite (created_spawning N st t i j nx Hst Hp) in Hcb, Hcn.
  destruct (spawning_moves N st t i j (Spawn i (S j)) Hst Hp ltac:(by left)) as (H1 & H2 & H3 & H4).
  pose proof (inv_stage _ _ Hi (S k) nx Hn) as Hnx.
  assert (threads nx !! j = Some Unborn) as Hjn.
  { destruct (lookup_lt_is_Some_2 (threads nx) j) as [p Hpj]; [by rewrite (si_length _ _ Hnx)|].
    rewrite Hpj. f_equal. by apply (Hcn j p Hpj). }
  set (st' := set_pc st t (Spawn i (S j))) in *. set (nx' := create nx j).
  pose proof (lookup_lt_Some _ _ _ Hk) as Hkl. pose proof (lookup_lt_Some _ _ _ Hn) as Hnl.
  destruct Hi as [Ist Ima Ich Ifi Iok]. cbn [stages main_] in *.
  pose proof (lookup_neighbours ss k st' nx') as Hget. split; cbn [stages main_].
  - intros k0 st0 H0. destruct (Hget _ _ H0) as [[-> ->]|[[-> ->]|(_ & _ & H0')]];
      [by apply create_inv|done|by eapply Ist].
  - intros k0 st0 H0. destruct (Hget _ _ H0) as [[-> ->]|[[-> ->]|(_ & _ & H0')]].
    + eapply main_inv_moves; [by apply create_moves|by apply Ima].
    + eapply main_inv_moves; [exact H2|by apply Ima].
    + by apply Ima.
  - intros k0 st0 nx0 H0 H0n.
    destruct (Hget _ _ H0) as [[-> ->]|[[-> ->]|(Hne1 & Hne2 & H0')]];
      destruct (Hget _ _ H0n) as [[E ->]|[[E ->]|(Hne3 & Hne4 & Hn')]]; try lia.
    + apply (chain_inv_same nx nx' nx0 nx0); [by apply create_created|done|apply same_born_refl|exact (Ich _ _ _ Hn Hn')].
    + split; rewrite H4; cbn [children]; [exact Hj|].
      intros j0 p Hj0. cbn in Hj0. apply list_lookup_insert_Some in Hj0 as [(<- & <- & _)|[Hne Hj0]].
      * split; [done|lia].
      * rewrite (Hcn j0 p Hj0). lia.
    + subst k. apply (chain_inv_same st0 st0 st st'); [|done|exact H3|exact (Ich _ _ _ H0' Hk)].
      unfold created. by rewrite (mv_nb _ _ H2).
    + exact (Ich _ _ _ H0' Hn').
  - intros st0 H0 j0 p Hj0. destruct (Hget _ _ H0) as [[E ->]|[[E ->]|(_ & _ & H0')]]; [lia| |by eapply Ifi].
    subst k. destruct (H3 j0 p Hj0) as (p1 & Hp1 & ->). rewrite (mv_nb _ _ H2). by eapply Ifi.
  - eapply (main_ok_moves m (S k) _ nx); [|by apply create_moves|by eapply main_ok_moves].
    rewrite list_lookup_insert_ne by lia. exact Hn.
Qed.

Lemma Inv_spawn N ss m k t i j st :
  Inv N (State ss m) -> ss !! k = Some st -> threads st !! t = Some (Spawn i j) ->
  Inv N (State (spawn_stage ss k t i j st) m).
Proof.
  intros Hi Hk Hp. pose proof (inv_stage _ _ Hi k st Hk) as Hst.
  pose proof (si_spawn _ _ Hst _ _ _ Hp) as Hlast.
  destruct (spawning_moves N st t i j (Trace_exit i) Hst Hp ltac:(by right)) as (H1 & H2 & H3 & H4).
  unfold spawn_stage. destruct (ss !! S k) as [nx|] eqn:Hn.
  2:{ eapply Inv_update; eauto. intros nx Hn'. congruence. }
  destruct (Nat.ltb_spec j (nb_thread nx)) as [Hj|Hj]; [by apply Inv_create|].
  eapply Inv_update; eauto. intros nx' Hn'. cbn in Hn. rewrite Hn in Hn'. injection Hn' as <-.
  pose proof (inv_chain _ _ Hi k st nx Hk Hn) as [Hcb _].
  rewrite (created_spawning N st t i j nx Hst Hp) in Hcb |- *. rewrite H4. cbn.
  rewrite (proj2 (Nat.eqb_eq _ _) Hlast). lia.
Qed.

Lemma worker_step_cases ss k t ss' :
  worker_step ss k t = Some ss' ->
  exists st p, ss !! k = Some st /\ threads st !! t = Some p
    /\ ((exists i j, p = Spawn i j /\ ss' = spawn_stage ss k t i j st)
        \/ exists st', thread_worker st t p = Some st' /\ ss' = <[k := st']> ss).
Proof.
  unfold worker_step. intros Hs. destruct (ss !! k) as [st|]; [|done]. cbn in Hs.
  destruct (threads st !! t) as [p|] eqn:Hp; [|done]. cbn in Hs. exists st, p. split_and!; [done..|].
  destruct p; try (right; destruct (thread_worker st t _) as [st'|]; [|done]; injection Hs as <-; by exists st').
  left. injection Hs as <-. by do 2 eexists.
Qed.

Lemma worker_step_inv N ss m k t ss' :
  Inv N (State ss m) -> worker_step ss k t = Some ss' -> Inv N (State ss' m).
Proof.
  intros Hi Hs.
  destruct (worker_step_cases _ _ _ _ Hs) as (st & p & Hk & Hp & [(i & j & -> & ->)|(st' & He & ->)]).
  - by apply Inv_spawn.
  - pose proof (thread_worker_stays _ _ _ _ Hp He) as [Hm Hc Hu].
    eapply Inv_update; eauto.
    eapply thread_worker_inv; eauto. by eapply inv_stage.
Qed.

(** ** The main thread *)

#[local] Arguments Nat.ltb : simpl never.
#[local] Arguments Nat.eqb : simpl never.

Lemma Inv_main N ss m m' :
  Inv N (State ss m) ->
  (forall k st, ss !! k = Some st -> consumed m' k (nb_thread st) = consumed m k (nb_thread st)) ->
  (forall k st j, ss !! k = Some st -> j < joined m' k (nb_thread st) ->
     j < joined m k (nb_thread st) \/ exists t, threads st !! t = Some (Returned j)) ->
  (forall st, ss !! 0 = Some st -> spawned m' (nb_thread st) = spawned m (nb_thread st)) ->
  main_ok m' ss -> Inv N (State ss m').
Proof.
  intros [Ist Ima Ich Ifi Iok] Hc Hj Hs Hok. cbn in *. split; cbn; try done.
  - intros k st Hk. destruct (Ima k st Hk) as [H1 H2]. split; [by rewrite Hc|].
    intros j Hlt. destruct (Hj k st j Hk Hlt) as [|]; eauto.
  - intros st Hk j p Hp. rewrite Hs by done. by apply Ifi.
Qed.

Ltac stages_lia :=
  unfold consumed, joined, at_stage in *;
  repeat match goal with
  | |- context [?a <? ?b] => destruct (Nat.ltb_spec a b)
  | |- context [?a =? ?b] => destruct (Nat.eqb_spec a b)
  | H : context [?a <? ?b] |- _ => destruct (Nat.ltb_spec a b)
  | H : context [?a =? ?b] |- _ => destruct (Nat.eqb_spec a b)
  end; subst; simplify_eq; try lia.

Lemma main_spawn_inv N ss i st :
  Inv N (State ss (M_spawn i)) -> ss !! 0 = Some st -> i < nb_thread st ->
  Inv N (State (<[0 := create st i]> ss) (M_spawn (S i))).
Proof.
  intros [Ist Ima Ich Ifi Iok] Hk Hi. cbn in *.
  pose proof (Ist 0 st Hk) as Hst. pose proof (lookup_lt_Some _ _ _ Hk) as Hlt.
  assert (threads st !! i = Some Unborn) as Hu.
  { destruct (lookup_lt_is_Some_2 (threads st) i) as [p Hp]; [by rewrite (si_length _ _ Hst)|].
    rewrite Hp. f_equal. apply (Ifi st Hk i p Hp). done. }
  split; cbn.
  - intros k0 st0 H0. apply list_lookup_insert_Some in H0 as [(<- & <- & _)|[_ H0]];
      [by apply create_inv|by eapply Ist].
  - intros k0 st0 H0. apply list_lookup_insert_Some in H0 as [(<- & <- & _)|[_ H0]];
      [apply (main_inv_moves (M_spawn (S i)) 0 st); [by apply create_moves|]; destruct (Ima 0 st Hk)
      |destruct (Ima k0 st0 H0)]; by split.
  - intros k0 st0 nx0 H0 Hn. apply list_lookup_insert_Some in Hn as [([=] & _)|[_ Hn]].
    apply list_lookup_insert_Some in H0 as [(E0 & <- & _)|[_ H0]]; [|exact (Ich _ _ _ H0 Hn)].
    subst k0. apply (chain_inv_same st _ nx0 nx0); [by apply create_created|done|apply same_born_refl|exact (Ich _ _ _ Hk Hn)].
  - intros st0 H0 j p Hj. apply list_lookup_insert_Some in H0 as [(_ & <- & _)|[H0 _]]; [|done].
    cbn in Hj. apply list_lookup_insert_Some in Hj as [(<- & <- & _)|[Hne Hj]].
    + split; [done|lia].
    + rewrite (Ifi st Hk j p Hj). lia.
  - intros st0 H0. apply list_lookup_insert_Some in H0 as [(_ & <- & _)|[H0 _]]; [cbn; lia|done].
Qed.

Lemma main_sem_wait_inv N ss k i st n :
  Inv N (State ss (M_wait k i)) -> ss !! k = Some st -> i < nb_thread st -> sem_ready st = S n ->
  Inv N (State (<[k := set_sem_ready st n]> ss) (M_read k i)).
Proof.
  intros [Ist Ima Ich Ifi Iok] Hk Hi Hn. cbn in *. pose proof (lookup_lt_Some _ _ _ Hk) as Hlt.
  assert (forall k0 st0, <[k := set_sem_ready st n]> ss !! k0 = Some st0 -> exists st1,
    ss !! k0 = Some st1 /\ nb_thread st0 = nb_thread st1 /\ threads st0 = threads st1
    /\ exit_count st0 = exit_count st1 /\ ready st0 = ready st1 /\ mutex st0 = mutex st1
    /\ sem_ready st1 = sem_ready st0 + if k0 =? k then 1 else 0) as Hget.
  { intros k0 st0 H0. apply list_lookup_insert_Some in H0 as [(-> & <- & _)|[Hne H0]].
    - exists st. rewrite Nat.eqb_refl. split_and!; cbn; done || lia.
    - exists st0. rewrite (proj2 (Nat.eqb_neq _ _)) by done. split_and!; done || lia. }
  split; cbn.
  - intros k0 st0 H0. destruct (Hget _ _ H0) as (st1 & H1 & E1 & E2 & E3 & E4 & E5 & _).
    destruct (Ist _ _ H1) as [? ? ? ? ? ? ? ?]. split; rewrite ?E1, ?E2, ?E3, ?E4, ?E5; done.
  - intros k0 st0 H0. destruct (Hget _ _ H0) as (st1 & H1 & E1 & E2 & E3 & E4 & E5 & E6).
    destruct (Ima _ _ H1) as [H2 H3]. split; rewrite ?E1, ?E2; [|done].
    rewrite <- H2, E6. stages_lia.
  - intros k0 st0 nx0 H0 H0n. destruct (Hget _ _ H0) as (st1 & H1 & E1 & E2 & _).
    destruct (Hget _ _ H0n) as (nx1 & Hn1 & En1 & En2 & _).
    destruct (Ich _ _ _ H1 Hn1) as [Hb Hc]. split; unfold created; rewrite E1, E2, En1; [done|].
    rewrite En2. exact Hc.
  - intros st0 H0 j p Hj. destruct (Hget _ _ H0) as (st1 & H1 & E1 & E2 & _). rewrite E1. rewrite E2 in Hj.
    by apply (Ifi st1).
  - exists (set_sem_ready st n). by rewrite list_lookup_insert_eq.
Qed.

Lemma main_step_inv N s s' : Inv N s -> main_step s = Some s' -> Inv N s'.
Proof.
  destruct s as [ss m]. intros Hi Hs. pose proof (inv_ok _ _ Hi) as Hok. cbn in Hok.
  destruct m as [i|k|k i|k i|k i t|k i| |]; cbn in Hs; try done.
  - destruct (ss !! 0) as [st|] eqn:Hk; [destruct (Nat.ltb_spec i (nb_thread st)) as [Hlt|Hge]|]; injection Hs as <-.
    + by apply main_spawn_inv.
    + specialize (Hok st Hk). eapply (Inv_main N ss _ _ Hi); cbn; try done; intros; stages_lia.
    + eapply (Inv_main N ss _ _ Hi); cbn; try done; intros; stages_lia.
  - injection Hs as <-. destruct (ss !! k) as [st|] eqn:Hk.
    + eapply (Inv_main N ss _ _ Hi); cbn; try done; [intros; by left|]. exists st. split; [done|lia].
    + apply lookup_ge_None in Hk.
      eapply (Inv_main N ss _ _ Hi); cbn; try done; intros k0 st0 * H0; intros;
        apply lookup_lt_Some in H0; stages_lia.
  - destruct Hok as (st & Hk & Hb). rewrite Hk in Hs. cbn in Hs.
    destruct (Nat.ltb_spec i (nb_thread st)).
    + destruct (sem_wait (sem_ready st)) as [n|] eqn:Hn; [|done]. injection Hs as <-.
      apply sem_wait_Some in Hn. by apply main_sem_wait_inv.
    + injection Hs as <-. eapply (Inv_main N ss _ _ Hi); cbn; try done; intros k0 st0 * H0; intros; stages_lia.
  - destruct Hok as (st & Hk & Hb). rewrite Hk in Hs. cbn in Hs. injection Hs as <-.
    destruct (ready st !! i) as [[t|]|] eqn:Hr;
      (eapply (Inv_main N ss _ _ Hi); cbn; try done; [intros; by left|]); [|by exists st..].
    destruct (si_ready _ _ (inv_stage _ _ Hi k st Hk) _ _ Hr) as (p & Hp & Hx & _). by exists st, p.
  - destruct Hok as (st & p & Hk & Hb & Hp & Hx). rewrite Hk in Hs. cbn in Hs. rewrite Hp in Hs. cbn in Hs.
    destruct (returned p) eqn:Hret; [|done]. injection Hs as <-.
    destruct p; try done. cbn in Hx. injection Hx as ->.
    eapply (Inv_main N ss _ _ Hi); cbn; try done.
    + intros k0 st0 j H0 Hj. destruct (decide (k0 = k)) as [->|]; [|left; stages_lia].
      simplify_eq. destruct (decide (j = i)) as [->|]; [right; by exists t|left; stages_lia].
    + exists st. split; [done|lia].
  - injection Hs as <-. eapply (Inv_main N ss _ _ Hi); cbn; try done; intros; by left.
Qed.

(** ** Reachable states *)

Lemma make_task_lookup n N k st :
  make_task n N !! k = Some st -> k < n /\ st = make_stage N (N - k).
Proof.
  unfold make_task. rewrite list_lookup_fmap. intros H.
  destruct (seq 0 n !! k) as [i|] eqn:E; [|done]. apply lookup_seq in E as [-> ?]. by injection H as <-.
Qed.

Lemma sum_list_replicate_0 {A} (f : A -> nat) n x : f x = 0 -> sum_list_with f (replicate n x) = 0.
Proof. intros E. induction n as [|n IH]; [done|]. cbn. lia. Qed.

Lemma make_stage_inv N c : c <= N -> stage_inv N (make_stage N c).
Proof.
  intros H. split; cbn; try done.
  - apply length_replicate.
  - apply length_replicate.
  - assert (omap index (replicate c Unborn) = []) as ->; [by clear H; induction c|done].
  - by rewrite sum_list_replicate_0.
  - intros t i j Ht. apply lookup_replicate in Ht as [[=] _].
  - intros i t Ht. apply lookup_replicate in Ht as [[=] _].
  - intros t p i Ht. apply lookup_replicate in Ht as [-> _]. done.
Qed.

Lemma init_inv n N : Inv N (init n N).
Proof.
  split; cbn.
  - intros k st H. apply make_task_lookup in H as [_ ->]. apply make_stage_inv. lia.
  - intros k st H. apply make_task_lookup in H as [_ ->]. split; cbn; [|lia].
    by rewrite sum_list_replicate_0.
  - intros k st nx H Hn. apply make_task_lookup in H as [_ ->]. apply make_task_lookup in Hn as [_ ->].
    assert (created (make_stage N (N - k)) (make_stage N (N - S k)) = 0) as E
      by (unfold created; cbn; by rewrite sum_list_replicate_0).
    split; rewrite E; [lia|]. intros j p Hp. apply lookup_replicate in Hp as [-> _]. split; [lia|done].
  - intros st H j p Hp. apply make_task_lookup in H as [_ ->]. apply lookup_replicate in Hp as [-> _].
    split; [lia|done].
  - intros st _. lia.
Qed.

Lemma Inv_reachable_tree n N s : @reachable _ _ (SYS n N) s -> Inv N s.
Proof.
  apply (@invariant_reachable _ _ (SYS n N)).
  - intros s0 ->. apply init_inv.
  - intros [|k t] s0 s1 Hi He; cbn in He; [by eapply main_step_inv|].
    destruct (worker_step (stages s0) k t) as [ss|] eqn:E; [|done]. injection He as <-.
    destruct s0 as [ss0 m]. by eapply worker_step_inv.
Qed.

(** The sizes of the stages do not change. *)
Lemma sizes_insert (ss : list stage) (k : nat) st st' :
  ss !! k = Some st -> nb_thread st' = nb_thread st -> nb_thread <$> <[k := st']> ss = nb_thread <$> ss.
Proof.
  intros Hk E. rewrite list_fmap_insert, E. apply list_insert_id. by rewrite list_lookup_fmap, Hk.
Qed.

Lemma sizes_reachable n N s :
  @reachable _ _ (SYS n N) s -> nb_thread <$> stages s = nb_thread <$> make_task n N.
Proof.
  apply (@invariant_reachable _ _ (SYS n N) (fun s => nb_thread <$> stages s = nb_thread <$> make_task n N));
    [by intros s0 ->|].
  intros [|k t] [ss m] s1 <- He; cbn in He |- *.
  - destruct m as [i|k|k i|k i|k i t|k i| |]; cbn in He; try done; try by (injection He as <-).
    + destruct (ss !! 0) as [st|] eqn:Hk; [|by injection He as <-].
      destruct (i <? nb_thread st); injection He as <-; [|done]. by apply (sizes_insert _ _ st).
    + destruct (ss !! k) as [st|] eqn:Hk; [|done]. cbn in He.
      destruct (i <? nb_thread st); [|by injection He as <-].
      destruct (sem_wait (sem_ready st)); [|done]. injection He as <-. by apply (sizes_insert _ _ st).
    + destruct (ss !! k) as [st|] eqn:Hk; [|done]. by injection He as <-.
    + destruct (ss !! k) as [st|] eqn:Hk; [|done]. cbn in He. destruct (threads st !! t) as [p|]; [|done].
      cbn in He. destruct (returned p); [|done]. by injection He as <-.
  - destruct (worker_step ss k t) as [ss'|] eqn:E; [|done]. injection He as <-. cbn.
    destruct (worker_step_cases _ _ _ _ E) as (st & p & Hk & Hp & [(i & j & -> & ->)|(st' & He & ->)]).
    + unfold spawn_stage. destruct (ss !! S k) as [nx|] eqn:Hn; [|by apply (sizes_insert _ _ st)].
      destruct (j <? nb_thread nx); [|by apply (sizes_insert _ _ st)].
      rewrite (sizes_insert _ _ nx); [by apply (sizes_insert _ _ st)| |done].
      rewrite list_lookup_insert_ne by lia. done.
    + apply (sizes_insert _ _ st); [done|]. apply (thread_worker_stays _ _ _ _ Hp He).
Qed.

Lemma index_inj N st t t' p p' i :
  stage_inv N st -> threads st !! t = Some p -> threads st !! t' = Some p' ->
  index p = Some i -> index p' = Some i -> t = t'.
Proof.
  intros H Hp Hp' Hi Hi'. eapply (omap_NoDup_inj index (threads st)); eauto.
  rewrite (si_index _ _ H). apply NoDup_seq.
Qed.

(** When all the numbers have been given out, every thread has one. *)
Lemma all_indexed N st t p :
  stage_inv N st -> exit_count st = nb_thread st -> threads st !! t = Some p -> is_Some (index p).
Proof.
  intros H E Hp. eapply omap_full; [|exact Hp].
  rewrite (Permutation_length (si_index _ _ H)), length_seq, E. symmetry. apply (si_length _ _ H).
Qed.

Lemma all_joined N st t p :
  stage_inv N st -> (forall j, j < nb_thread st -> exists t, threads st !! t = Some (Returned j)) ->
  threads st !! t = Some p -> returned p = true.
Proof.
  intros H Hj Hp. pose proof (exit_count_bound N st H).
  pose proof (lookup_lt_Some _ _ _ Hp) as Hlt. rewrite (si_length _ _ H) in Hlt.
  destruct (Hj (nb_thread st - 1) ltac:(lia)) as [t' Ht'].
  pose proof (index_bound N st t' _ _ H Ht' eq_refl) as Hb.
  destruct (all_indexed N st t p H ltac:(lia) Hp) as [i Hi].
  destruct (Hj i) as [t2 Ht2]; [pose proof (index_bound N st t _ _ H Hp Hi); lia|].
  pose proof (index_inj N st t t2 _ _ _ H Hp Ht2 Hi eq_refl) as <-. by simplify_eq.
Qed.

(** A thread of the next stage is born: the number [nb_thread - 1] is taken. *)
Lemma born_after N st nx j p :
  stage_inv N st -> chain_inv st nx -> threads nx !! j = Some p -> p <> Unborn ->
  exit_count st = nb_thread st.
Proof.
  intros H [_ Hborn] Hp Hne.
  assert (0 < created st nx) as Hc.
  { destruct (created st nx) eqn:E; [|lia]. exfalso. apply Hne, (Hborn j p Hp). lia. }
  apply sum_list_pos in Hc as (t & q & Hq & Hpos).
  assert (exists i, index q = Some i /\ i + 1 = nb_thread st) as (i & Hi & Hlast).
  { destruct q; cbn in Hpos; try lia.
    - exists index0. split; [done|]. by eapply si_spawn.
    - destruct (Nat.eqb_spec (index0 + 1) (nb_thread st)); [by exists index0|lia].
    - destruct (Nat.eqb_spec (index0 + 1) (nb_thread st)); [by exists index0|lia]. }
  pose proof (index_bound N st t q i H Hq Hi). pose proof (exit_count_bound N st H). lia.
Qed.

(** ** Blocked states *)

Lemma worker_moves n N ss m k t st p :
  ss !! k = Some st -> threads st !! t = Some p -> p <> Unborn -> returned p = false ->
  (p = Sem_wait_mutex -> mutex st <> 0) ->
  exists s', @exec _ _ (SYS n N) (Worker k t) (State ss m) = Some s'.
Proof.
  intros Hk Hp Hb Hr Hm. cbn. unfold worker_step. rewrite Hk. cbn. rewrite Hp. cbn.
  destruct p; cbn in *; try done; try by eexists.
  destruct (mutex st) as [|m0] eqn:E; [by destruct Hm|]. by eexists.
Qed.

Lemma stuck_threads n N s :
  Inv N s -> @stuck _ _ (SYS n N) s ->
  forall k st t p, stages s !! k = Some st -> threads st !! t = Some p -> p = Unborn \/ returned p = true.
Proof.
  intros Hi Hst. destruct s as [ss m].
  assert (forall k st t p, ss !! k = Some st -> threads st !! t = Some p -> p <> Unborn ->
    returned p = false -> (p = Sem_wait_mutex -> mutex st <> 0) -> False) as Hno.
  { intros k st t p Hk Hp Hb Hr Hm. destruct (worker_moves n N ss m k t st p) as [s' Hs']; try done.
    by rewrite (Hst (Worker k t)) in Hs'. }
  intros k st t p Hk Hp. cbn in Hk.
  destruct (decide (p = Unborn)) as [|Hb]; [by left|right].
  destruct (returned p) eqn:Hr; [done|]. exfalso.
  eapply (Hno k st t p); try done. intros -> Hm0.
  pose proof (si_mutex _ _ (inv_stage _ _ Hi k st Hk)) as Hmu.
  destruct (sum_list_pos critical (threads st) ltac:(lia)) as (t' & q & Hq & Hpos).
  eapply (Hno k st t' q Hk Hq); destruct q; cbn in *; try done; lia.
Qed.

Lemma sizes n N s k st :
  @reachable _ _ (SYS n N) s -> stages s !! k = Some st -> nb_thread st = N - k.
Proof.
  intros Hr Hk. pose proof (sizes_reachable n N s Hr) as E.
  apply (f_equal (lookup k)) in E. rewrite !list_lookup_fmap, Hk in E. cbn in E.
  destruct (make_task n N !! k) as [st0|] eqn:E0; [|done]. cbn in E. injection E as ->.
  by apply make_task_lookup in E0 as [_ ->].
Qed.

(** When [main] waits on the stage [k], all of its threads have been born. *)
Lemma waited_born n N ss k i st t p :
  @reachable _ _ (SYS n N) (State ss (M_wait k i)) -> ss !! k = Some st -> i < nb_thread st ->
  threads st !! t = Some p -> p <> Unborn.
Proof.
  intros Hr Hk Hlt Hp Hu. pose proof (Inv_reachable_tree n N _ Hr) as Hi.
  pose proof (lookup_lt_Some _ _ _ Hp) as Ht.
  rewrite (si_length _ _ (inv_stage _ _ Hi k st Hk)) in Ht.
  destruct k as [|k].
  { apply (inv_first _ _ Hi st Hk t p Hp) in Hu. cbn in Hu. lia. }
  destruct (lookup_lt_is_Some_2 ss k) as [st0 H0]; [apply lookup_lt_Some in Hk; lia|].
  pose proof (inv_chain _ _ Hi k st0 st H0 Hk) as [_ Hborn].
  pose proof (sizes n N _ k st0 Hr H0) as E0. pose proof (sizes n N _ (S k) st Hr Hk) as E1.
  destruct (mi_joined _ _ _ (inv_main _ _ Hi k st0 H0) (nb_thread st0 - 1)) as [t0 Ht0].
  { cbn [main_]. unfold joined, at_stage. rewrite (proj2 (Nat.ltb_lt k (S k))) by lia. lia. }
  assert (nb_thread st <= created st0 st) as Hc.
  { transitivity (children (nb_thread st0) (nb_thread st) (Returned (nb_thread st0 - 1))).
    - cbn. rewrite (proj2 (Nat.eqb_eq _ _)); lia.
    - unfold created. apply sum_list_with_in. by eapply list_elem_of_lookup_2. }
  apply (Hborn t p Hp) in Hu. lia.
Qed.

Lemma no_deadlock n N s :
  @reachable _ _ (SYS n N) s -> @stuck _ _ (SYS n N) s ->
  main_ s = M_done \/ exists k i, main_ s = Join_null k i.
Proof.
  intros Hr Hst. pose proof (Inv_reachable_tree n N s Hr) as Hi.
  pose proof (stuck_threads n N s Hi Hst) as Hq. specialize (Hst Main). cbn in Hst.
  pose proof (inv_ok _ _ Hi) as Hok.
  destruct s as [ss [i|k|k i|k i|k i t|k i| |]]; cbn in *; try done; try (by right; eexists _, _); try by left.
  - destruct (ss !! 0) as [st|]; [destruct (i <? nb_thread st)|]; done.
  - destruct Hok as (st & Hk & Hb). rewrite Hk in Hst. cbn in Hst.
    destruct (Nat.ltb_spec i (nb_thread st)) as [Hlt|]; [|done].
    destruct (sem_wait (sem_ready st)) eqn:Hs; [done|]. apply sem_wait_None in Hs.
    pose proof (mi_sem _ _ _ (inv_main _ _ Hi k st Hk)) as Hsem. cbn [main_] in Hsem.
    unfold consumed, at_stage in Hsem. rewrite Nat.ltb_irrefl, Nat.eqb_refl in Hsem.
    assert (sum_list_with posted (threads st) = length (threads st)) as E.
    { assert (forall t p, threads st !! t = Some p -> posted p = 1) as H1.
      { intros t p Hp. destruct (Hq k st t p Hk Hp) as [->|Hret]; [|by destruct p].
        by destruct (waited_born n N ss k i st t Unborn Hr Hk Hlt Hp). }
      clear -H1. induction (threads st) as [|p l IH]; [done|]. cbn.
      rewrite (H1 0 p eq_refl), IH; [done|]. intros t q Hq. by apply (H1 (S t)). }
    rewrite (si_length _ _ (inv_stage _ _ Hi k st Hk)) in E. lia.
  - destruct Hok as (st & Hk & Hb). by rewrite Hk in Hst.
  - destruct Hok as (st & p & Hk & Hb & Hp & Hx). rewrite Hk in Hst. cbn in Hst. rewrite Hp in Hst. cbn in Hst.
    destruct (Hq k st t p Hk Hp) as [->|Hret]; [done|]. by rewrite Hret in Hst.
Qed.

(** ** Properties *)

(** (C22) The stages of a task of [n] stages and [N] threads, on every schedule:
    a thread of a stage exists only once all the threads of the previous stage
    have done their work and taken their numbers; at most one thread of a
    stage is inside its critical section; two threads never hold the same
    number, and the numbers are below the size of the stage; and [main]
    reaches [free_task] only when every thread of every stage has
    returned. *)
Theorem threadtree_staged (n N : nat) (s : state) (Hr : @reachable _ _ (SYS n N) s) :
  (forall k st nx j q, stages s !! k = Some st -> stages s !! S k = Some nx ->
     threads nx !! j = Some q -> q <> Unborn ->
     forall t p, threads st !! t = Some p -> is_Some (index p))
  /\ (forall k st t t' p p', stages s !! k = Some st ->
     threads st !! t = Some p -> threads st !! t' = Some p' ->
     critical p = 1 -> critical p' = 1 -> t = t')
  /\ (forall k st t t' p p' i, stages s !! k = Some st ->
     threads st !! t = Some p -> threads st !! t' = Some p' ->
     index p = Some i -> index p' = Some i -> t = t' /\ i < nb_thread st)
  /\ (main_ s = M_free \/ main_ s = M_done ->
     forall k st t p, stages s !! k = Some st -> threads st !! t = Some p -> returned p = true).
Proof.
  pose proof (Inv_reachable_tree n N s Hr) as Hi. split_and!.
  - intros k st nx j q Hk Hn Hq Hne t p Hp. pose proof (inv_stage _ _ Hi k st Hk) as Hst.
    eapply all_indexed; [exact Hst| |exact Hp]. exact (born_after N st nx j q Hst (inv_chain _ _ Hi k st nx Hk Hn) Hq Hne).
  - intros k st t t' p p' Hk Hp Hp' Hc Hc'. pose proof (inv_stage _ _ Hi k st Hk) as Hst.
    destruct (decide (t = t')) as [|Hne]; [done|]. exfalso.
    pose proof (si_mutex _ _ Hst) as Hm.
    pose proof (sum_list_insert critical _ _ _ Unborn Hp) as E. cbn in E. rewrite Hc in E.
    assert (p' ∈ <[t := Unborn]> (threads st)) as Hin.
    { eapply (list_elem_of_lookup_2 _ t'). by rewrite list_lookup_insert_ne. }
    pose proof (sum_list_with_in _ critical _ Hin). lia.
  - intros k st t t' p p' i Hk Hp Hp' Hx Hx'. pose proof (inv_stage _ _ Hi k st Hk) as Hst. split.
    + by eapply index_inj.
    + pose proof (index_bound N st t p i Hst Hp Hx). pose proof (exit_count_bound N st Hst). lia.
  - intros Hm k st t p Hk Hp. pose proof (inv_stage _ _ Hi k st Hk) as Hst.
    eapply all_joined; [exact Hst| |exact Hp]. intros j Hj.
    apply (mi_joined _ _ _ (inv_main _ _ Hi k st Hk)). by destruct Hm as [-> | ->].
Qed.

(** (C23) No schedule deadlocks: the program blocks only at its end, or in a
    [pthread_join] of the zero of a slot that no thread has filled.  That one
    does happen: the number is taken under the mutex but the slot is filled
    after it, so a thread with a later number may signal first. *)
Theorem threadtree_ready_race (n N : nat) :
  (forall s, @reachable _ _ (SYS n N) s -> @stuck _ _ (SYS n N) s ->
     main_ s = M_done \/ exists k i, main_ s = Join_null k i)
  /\ (exists s, @reachable _ _ (SYS 4 4) s /\ main_ s = Join_null 0 0).
Proof.
  split; [intros s; apply no_deadlock|].
  set (ts := replicate 6 Main ++ replicate 5 (Worker 0 0) ++ replicate 7 (Worker 0 1) ++ replicate 2 Main).
  destruct (@run_schedule _ _ (SYS 4 4) ts (init 4 4)) as [s|] eqn:E; [|by vm_compute in E].
  exists s. split.
  - exists (init 4 4). split; [done|]. by eapply run_schedule_reach.
  - vm_compute in E. by injection E as <-.
Qed.

Theorem threadtree_staged_witness :
  let s0 := init 4 4 in
  exists s, @reachable _ _ (SYS 4 4) s /\ s <> s0 /\
    (main_ s = M_free \/ main_ s = M_done ->
     forall k st t p, stages s !! k = Some st -> threads st !! t = Some p -> returned p = true).
Proof.
  destruct (@run_schedule _ _ (SYS 4 4) (replicate 6 Main ++ replicate 5 (Worker 0 0)) (init 4 4))
    as [s|] eqn:E; [|by vm_compute in E].
  assert (@reachable _ _ (SYS 4 4) s) as Hr.
  { exists (init 4 4). split; [done|]. by eapply run_schedule_reach. }
  exists s. split; [exact Hr|]. split; [vm_compute in E; by injection E as <-|].
  exact (proj2 (proj2 (proj2 (threadtree_staged 4 4 s Hr)))).
Defined.
