(* ===== verification/Memory.v ===== *)
(** * src/timemalloc.c, src/stp.c, src/evfreq.c, src/copymm.c

    The programs that measure a small function with the profiling harness:
    allocating and filling memory, printing, reading a byte, cloning. *)

From stdpp Require Import gmap.
From S2P Require Import Prelude CInt CString Libc CFloat Utils.

Local Open Scope string_scope.
Local Open Scope list_scope.
Local Open Scope Z_scope.

(** ** Memory blocks: a byte is [None] until it is written *)

Definition block := list (option Z).

Definition fresh (size : Z) : block := replicate (Z.to_nat size) None.

(** The bytes of an [n]-byte integer, least significant first. *)
Fixpoint le_bytes (n : nat) (v : Z) : list Z :=
  match n with O => [] | S n => u8 v :: le_bytes n (Z.shiftr v 8) end.

(** Write [bs] at [off]; [None] outside the block. *)
Definition write_bytes (b : block) (off : Z) (bs : list Z) : option block :=
  if (0 <=? off) && (off + Z.of_nat (length bs) <=? Z.of_nat (length b))
  then Some (take (Z.to_nat off) b ++ map Some bs ++ drop (Z.to_nat off + length bs) b)
  else None.

(** A function that leaves its argument alone. *)
Lemma func_ok_id {W Args} (h : handler W) (f : Args -> prog (Z * Args)) (a0 : Args) :
  (forall w tr, exists r w' tr', run (traced h) (f a0) (w, tr) = (Done (r, a0), (w', tr ++ tr'))
     /\ clock_readings tr' = []) ->
  func_ok h f id a0.
Proof.
  intros H k w tr a. assert (a = a0) as -> by (subst a; induction k; done). apply H.
Qed.

(** ** src/timemalloc.c *)
Module Timemalloc.

Definition do_empty (args : Z) : prog (Z * Z) := Ret (0, args).

(** The block is not freed. *)
Definition do_malloc (args : Z) : prog (Z * Z) :=
  let size := u64 args in
  p ← call (Malloc size);
  match p with
  | None => Undef "write through NULL"
  | Some _ =>
      match write_bytes (fresh size) 0 (le_bytes 8 42) with
      | None => Undef "write outside the block"
      | Some _ => Ret (0, args)
      end
  end.

Definition do_malloc_memset (args : Z) : prog (Z * Z) :=
  let size := u64 args in
  p ← call (Malloc size);
  match p with
  | None => Undef "memset of NULL"
  | Some a => call (Memset a 42 size);; call (Free p);; Ret (0, args)
  end.

(** [for (i = 0; i < n; i++) store(i)] with an [int i] and an unsigned [n]:
    [None] when a store leaves the block or [i] overflows. *)
Fixpoint set_loop (fuel : nat) (store : block -> Z -> option block) (n i : Z) (b : block) : option block :=
  if u64 i <? n then
    match fuel with
    | O => None
    | S fuel =>
        b ← store b i;
        if i =? INT_MAX then None else set_loop fuel store n (i + 1) b
    end
  else Some b.

Definition VAL : Z := 0x2a2a2a2a2a2a2a2a.
Definition sizeof_long : Z := 8.

(** What the loops leave in the block. *)
Definition set_long (size : Z) : option block :=
  let n := size / sizeof_long in
  set_loop (Z.to_nat n) (fun b i => write_bytes b (sizeof_long * i) (le_bytes 8 VAL)) n 0 (fresh size).

Definition set_char (size : Z) : option block :=
  set_loop (Z.to_nat size) (fun b i => write_bytes b i [0x2a]) size 0 (fresh size).

(** [memset(foo, 42, size)]. *)
Definition set_memset (size : Z) : block := replicate (Z.to_nat size) (Some (u8 42)).

(** [stores size] stores go through the pointer. *)
Definition set_block (stores : Z -> Z) (fill : Z -> option block) (args : Z) : prog (Z * Z) :=
  let size := u64 args in
  p ← call (Malloc size);
  match p with
  | None => if stores size =? 0 then call (Free None);; Ret (0, args) else Undef "write through NULL"
  | Some _ =>
      match fill size with
      | None => Undef "write outside the block"
      | Some _ => call (Free p);; Ret (0, args)
      end
  end.

Definition do_malloc_set_long : Z -> prog (Z * Z) := set_block (fun size => size / sizeof_long) set_long.
Definition do_malloc_set_char : Z -> prog (Z * Z) := set_block (fun size => size) set_char.

(** The rows of [p]; the members not named in the source are zero. *)
Definition row (name_ : string) (f : Z -> prog (Z * Z)) (size : Z) : profile Z :=
  Profile _ (Some name_) f size 1000000 (double_of_Z 0) (double_of_Z 0) 1 BNull.

Definition profiles : list (profile Z) :=
  [ row "empty" do_empty 0;
    row "malloc_8" do_malloc (Z.shiftl 1 3);
    row "malloc_4096" do_malloc (Z.shiftl 1 12);
    row "malloc_memset" do_malloc_memset (Z.shiftl 1 12);
    row "malloc_set_char" do_malloc_set_char (Z.shiftl 1 12);
    row "malloc_set_long" do_malloc_set_long (Z.shiftl 1 12) ].

Fixpoint combos (ps : list (profile Z)) : prog unit :=
  match ps with
  | [] => Ret tt
  | p :: ps => profile_combo p;; combos ps
  end.

Definition main : prog Z := combos profiles;; Ret 0.

(** ** Lemmas *)

Lemma write_bytes_front k c m :
  (c <= m)%nat ->
  write_bytes (replicate k (Some 42) ++ replicate m None) (Z.of_nat k) (replicate c 42)
  = Some (replicate (k + c) (Some 42) ++ replicate (m - c) None).
Proof.
  intros Hc. unfold write_bytes. rewrite length_app, !length_replicate.
  rewrite (proj2 (andb_true_iff _ _)) by (rewrite !Z.leb_le; lia).
  rewrite Nat2Z.id, take_app_length' by (by rewrite length_replicate).
  rewrite drop_app_ge, length_replicate by (rewrite length_replicate; lia).
  rewrite drop_replicate. replace (k + c - k)%nat with c by lia.
  change (map Some (replicate c 42)) with (Some <$> replicate c 42).
  by rewrite fmap_replicate, app_assoc, <- replicate_add.
Qed.

(** A loop that turns [B i] into [B (i + 1)]. *)
Lemma set_loop_run (B : Z -> block) store n i fuel :
  (forall j, 0 <= j < n -> store (B j) j = Some (B (j + 1))) ->
  0 <= i <= n -> n <= INT_MAX -> fuel = Z.to_nat (n - i) ->
  set_loop fuel store n i (B i) = Some (B n).
Proof.
  intros Hs Hi Hn ->. remember (Z.to_nat (n - i)) as k eqn:Hk. revert i Hi Hk.
  induction k as [|k IH]; intros i Hi Hk; cbn [set_loop]; rewrite u64_id by clia.
  - rewrite (proj2 (Z.ltb_ge _ _)) by lia. do 2 f_equal. lia.
  - rewrite (proj2 (Z.ltb_lt _ _)) by lia. rewrite Hs by lia. cbn.
    rewrite (proj2 (Z.eqb_neq _ _)) by lia. apply IH; lia.
Qed.

Definition filled (n size : Z) : block :=
  replicate (Z.to_nat n) (Some 42) ++ replicate (Z.to_nat (size - n)) None.

Lemma set_char_run size : 0 <= size <= INT_MAX -> set_char size = Some (filled size size).
Proof.
  intros H. unfold set_char. change (fresh size) with (replicate (Z.to_nat 0) (Some 42) ++ fresh size).
  replace (fresh size) with (replicate (Z.to_nat (size - 0)) (None : option Z)) by (unfold fresh; do 2 f_equal; lia).
  apply (set_loop_run (fun i => filled i size)); [|lia..].
  intros j Hj. unfold filled. replace j with (Z.of_nat (Z.to_nat j)) at 3 by lia.
  change [0x2a] with (replicate 1 42). rewrite write_bytes_front by lia.
  do 2 f_equal; f_equal; lia.
Qed.

Lemma set_long_run size : 0 <= size <= INT_MAX -> set_long size = Some (filled (8 * (size / 8)) size).
Proof.
  intros H. pose proof (Z.mul_div_le size 8 ltac:(lia)). pose proof (Z.div_pos size 8 ltac:(lia) ltac:(lia)).
  unfold set_long, sizeof_long. change (fresh size) with (replicate (Z.to_nat 0) (Some 42) ++ fresh size).
  replace (fresh size) with (replicate (Z.to_nat (size - 8 * 0)) (None : option Z)) by (unfold fresh; do 2 f_equal; lia).
  apply (set_loop_run (fun i => filled (8 * i) size)); [|lia..].
  intros j Hj. unfold filled. replace (8 * j) with (Z.of_nat (Z.to_nat (8 * j))) at 3 by lia.
  change (le_bytes 8 VAL) with (replicate 8 42). rewrite write_bytes_front by lia.
  do 2 f_equal; f_equal; lia.
Qed.

(** The three ways of filling a block agree: setting it byte by byte leaves
    what [memset] with 42 leaves, and so does setting it by [long]s of eight
    42s when its size is a multiple of eight; otherwise the last [size mod 8]
    bytes stay unwritten.  No store leaves the block, for every size an [int]
    can count. *)
Theorem fills_agree (size : Z) (H : 0 <= size <= INT_MAX) :
  set_char size = Some (set_memset size)
  /\ set_long size = Some (set_memset (8 * (size / 8)) ++ fresh (size mod 8))
  /\ (set_long size = set_char size <-> size mod 8 = 0).
Proof.
  rewrite set_char_run, set_long_run by done. unfold filled, set_memset, fresh.
  pose proof (Z.div_mod size 8 ltac:(lia)) as Hd. pose proof (Z.mod_pos_bound size 8 ltac:(lia)) as Hm.
  rewrite Z.sub_diag. cbn [Z.to_nat replicate]. rewrite app_nil_r.
  replace (size - 8 * (size / 8)) with (size mod 8) by lia.
  split_and!; [done..|]. split.
  - intros [= E]. destruct (Z.eq_dec (size mod 8) 0) as [|Hne]; [done|exfalso].
    assert (None ∈ replicate (Z.to_nat size) (Some 42)) as Hin.
    { rewrite <- E. apply elem_of_app. right. apply elem_of_replicate. split; [done|lia]. }
    apply elem_of_replicate in Hin as [[=] _].
  - intros E. rewrite E. cbn [Z.to_nat replicate]. rewrite app_nil_r. do 2 f_equal. lia.
Qed.

Theorem fills_agree_witness : set_long 4096 = set_char 4096 /\ set_long 12 <> set_char 12.
Proof.
  split.
  - apply (proj2 (proj2 (fills_agree 4096 ltac:(clia)))). reflexivity.
  - intros E. apply (proj2 (proj2 (fills_agree 12 ltac:(clia)))) in E. discriminate.
Defined.
(** ** The run of the program *)

Lemma set_block_ok {W} (h : handler W) p f stores fill size :
  profiling_env h p f -> 0 <= size <= INT_MAX -> is_Some (fill size) ->
  func_ok h (set_block stores fill) id size.
Proof.
  intros He Hs [b Hb]. apply func_ok_id. intros w tr. unfold set_block.
  rewrite u64_id by clia. step_run. rewrite (env_malloc _ _ _ He), Hb. step_run.
  rewrite <- !app_assoc. do 3 eexists. split; [reflexivity|done].
Qed.

Lemma do_malloc_ok {W} (h : handler W) p f size :
  profiling_env h p f -> 8 <= size <= INT_MAX -> func_ok h do_malloc id size.
Proof.
  intros He Hs. apply func_ok_id. intros w tr. unfold do_malloc.
  rewrite u64_id by clia. step_run. rewrite (env_malloc _ _ _ He).
  unfold write_bytes, fresh. rewrite length_replicate.
  rewrite (proj2 (andb_true_iff _ _)) by (rewrite !Z.leb_le; cbn; lia).
  do 3 eexists. split; [reflexivity|done].
Qed.

Lemma profiles_ok {W} (h : handler W) p f :
  profiling_env h p f ->
  Forall (fun prof => exists step, func_ok h (func prof) step (args prof)
    /\ 0 < repeat prof <= INT_MAX) profiles.
Proof.
  intros He. unfold profiles, row. repeat (apply Forall_cons; split; [exists id; cbn [func args repeat]|]).
  7: constructor.
  all: split; [|clia].
  - apply func_ok_id. intros w tr. exists 0, w, []. by rewrite app_nil_r.
  - apply (do_malloc_ok h p f); [done|]. change (Z.shiftl 1 3) with 8. clia.
  - apply (do_malloc_ok h p f); [done|]. change (Z.shiftl 1 12) with 4096. clia.
  - apply func_ok_id. intros w tr. unfold do_malloc_memset. step_run. rewrite (env_malloc _ _ _ He). step_run.
    rewrite <- !app_assoc. do 3 eexists. split; [reflexivity|done].
  - change (Z.shiftl 1 12) with 4096. apply (set_block_ok h p f); [done|clia|].
    rewrite set_char_run by clia. by eexists.
  - change (Z.shiftl 1 12) with 4096. apply (set_block_ok h p f); [done|clia|].
    rewrite set_long_run by clia. by eexists.
Qed.

Lemma combos_run {W} (h : handler W) p f ps w tr :
  profiling_env h p f ->
  Forall (fun prof => exists step, func_ok h (func prof) step (args prof)
    /\ 0 < repeat prof <= INT_MAX) ps ->
  exists w' trs, run (traced h) (combos ps) (w, tr) = (Done tt, (w', tr ++ concat trs))
    /\ Forall2 (combo_trace p f) ps trs.
Proof.
  intros He Hps. revert w tr. induction Hps as [|prof ps (step & Hf & Hr) _ IH]; intros w tr.
  { exists w, []. cbn. by rewrite app_nil_r. }
  cbn [combos]. rewrite run_bind.
  destruct (profile_combo_run h w tr prof step p f He Hr Hf) as (prof' & w1 & tr1 & -> & _ & _ & _ & Hc).
  cbn [and_then]. destruct (IH w1 (tr ++ tr1)) as (w2 & trs & -> & Hf2).
  exists w2, (tr1 :: trs). cbn [concat]. rewrite app_assoc. split; [done|]. by constructor.
Qed.

(** [wk-timemalloc] runs to its end: the six profiles one after the other, a
    million timed calls each, each with its file. *)
Lemma timemalloc_runs {W} (h : handler W) (w : W) p f (He : profiling_env h p f) :
  exists w' trs, run (traced h) main (w, []) = (Done 0, (w', concat trs))
    /\ Forall2 (combo_trace p f) profiles trs.
Proof.
  destruct (combos_run h p f profiles w [] He (profiles_ok h p f He)) as (w' & trs & Hr & Hf).
  exists w', trs. unfold main. rewrite run_bind, Hr. done.
Qed.

End Timemalloc.

(** ** src/stp.c *)
Module Stp.

Definition foo (arg : option Z) : prog (Z * option Z) :=
  call (Printf ("hello" +:+ NL) []);; Ret (0, arg).

Definition main : prog Z :=
  let p := Profile _ (Some "wk-stp") foo None 10000 (double_of_Z 0) (double_of_Z 0) 0 BNull in
  profile_combo p;;
  Ret 0.

Lemma stp_runs {W} (h : handler W) (w : W) p f (He : profiling_env h p f) :
  exists w' tr, run (traced h) main (w, []) = (Done 0, (w', tr))
    /\ Z.of_nat (length (clock_readings tr)) = 10000.
Proof.
  unfold main. rewrite run_bind. set (prof := Profile _ _ _ _ _ _ _ _ _).
  assert (func_ok h (func prof) id (args prof)) as Hf.
  { apply func_ok_id. intros w0 tr. cbn [func args prof]. unfold foo. step_run.
    do 3 eexists. split; [reflexivity|done]. }
  destruct (profile_combo_run h w [] prof id p f He ltac:(cbn; clia) Hf)
    as (prof' & w' & tr & -> & _ & _ & _ & Hl & _).
  exists w', tr. split; [done|]. rewrite Hl. cbn [repeat prof]. lia.
Qed.
End Stp.

(** ** src/evfreq.c *)
Module Evfreq.

Definition O_RDONLY : Z := 0.

Definition profile_clock (fd : Z) : prog (Z * Z) :=
  '(ret, _) ← call (Read fd 1);
  Ret (s32 ret, fd).

(** Of the automatic [p] only [func], [repeat] and [args] are assigned. *)
Definition main : prog Z :=
  fd ← call (Open "/dev/zero" O_RDONLY 0);
  let p := Profile _ None profile_clock fd 10000000 (double_of_Z 0) (double_of_Z 0) 0 BIndet in
  profile_func p;;
  Ret 0.
End Evfreq.

(** ** src/copymm.c *)
Module Copymm.

(** [struct cnt]: the buffers are pointers, so that two members may be the
    same buffer; [stack] is an address. *)
Record cnt := Cnt { buf1 : Z; buf2 : Z; bigbuf : Z; stack : Z; idx : Z; count : Z }.

Definition worker_stub : Z := 0.

(** [clone] with CLONE_THREAD and CLONE_SIGHAND but not CLONE_VM: the kernel
    refuses the combination. *)
Definition profile_wrapper_clone (data : cnt) : prog (Z * cnt) :=
  call (Printf ("%p %p" +:+ NL) [PStr (Some "worker_stub"); PInt (stack data)]);;
  tid ← call (Clone_thread_sighand (stack data));
  call (Perror (Some "error"));;
  call (Printf ("tid=%d" +:+ NL) [PInt tid]);;
  Ret (0, data).

(** The other wrappers, which [main] keeps in comments.  The buffers are
    blocks of bytes of a store, by address. *)
Definition PAGE_SIZE : Z := 4096.
Definition store := gmap Z (list Z).

Definition profile_wrapper_empty (data : cnt) : prog (Z * cnt) := Ret (0, data).

Definition handle_signal (signum : Z) : unit := tt.

Definition profile_wrapper_signal (data : cnt) : prog (Z * cnt) :=
  call (Kill SIGUSR1);; Ret (0, data).

(** What [%p] prints of an address. *)
Definition hex_char (d : Z) : ascii := if d <? 10 then digit_char d else ascii_of_nat (Z.to_nat (87 + d)).

Fixpoint hex_digits (fuel : nat) (n : Z) (acc : string) : string :=
  match fuel with
  | O => acc
  | S fuel =>
      let acc' := String (hex_char (n mod 16)) acc in
      if n <? 16 then acc' else hex_digits fuel (n / 16) acc'
  end.

Definition pointer (n : Z) : string := "0x" +:+ hex_digits 16 n "".

(** [sprintf] into 256 bytes at [buf], of the text and its end; [%f] prints
    six decimals. *)
Definition printf_text (buf : Z) : string :=
  "bidon" +:+ " " +:+ render (s64 buf) +:+ " " +:+ pointer buf +:+ " " +:+ "3.141600" +:+ NL.

Definition profile_wrapper_printf (buf : Z) (data : cnt) : prog (Z * cnt) :=
  if 256 <? Z.of_nat (String.length (printf_text buf)) + 1 then Undef "write outside buf"
  else Ret (0, data).

(** [memcpy] of a page between two buffers; undefined outside a block and
    between overlapping ones. *)
Definition memcpy (m : store) (dst src n : Z) : option store :=
  s ← m !! src;
  d ← m !! dst;
  if (dst =? src) || (Z.of_nat (length s) <? n) || (Z.of_nat (length d) <? n) then None
  else Some (<[dst := take (Z.to_nat n) s ++ drop (Z.to_nat n) d]> m).

(** The copy, then the exchange of the buffers as it is written:
    [tmp = buf1; buf2 = buf1; buf1 = tmp]. *)
Definition profile_wrapper_memcpy (m : store) (data : cnt) : option (store * cnt) :=
  m ← memcpy m (buf2 data) (buf1 data) PAGE_SIZE;
  let tmp := buf1 data in
  let data := Cnt (buf1 data) (buf1 data) (bigbuf data) (stack data) (idx data) (count data) in
  Some (m, Cnt tmp (buf2 data) (bigbuf data) (stack data) (idx data) (count data)).

(** A [char] is signed. *)
Definition profile_wrapper_pagefault (m : store) (data : cnt) : option (store * cnt) :=
  b ← m !! bigbuf data;
  let off := idx data * PAGE_SIZE in
  if (0 <=? off) && (off <? Z.of_nat (length b)) then
    Some (<[bigbuf data := <[Z.to_nat off := s8 (idx data)]> b]> m,
          Cnt (buf1 data) (buf2 data) (bigbuf data) (stack data) (s64 (idx data + 1)) (count data))
  else None.

Definition profile_wrapper_condition (m : store) (data : cnt) : option (store * cnt) :=
  b ← m !! bigbuf data;
  c ← (if idx data <? 0 then None else b !! Z.to_nat (idx data));
  let n := if (64 <? c) || (c <? -64) then s32 (count data + 1) else count data in
  Some (m, Cnt (buf1 data) (buf2 data) (bigbuf data) (stack data) (s64 (idx data + 1)) n).

Definition main : prog Z :=
  let stack_size := 1024 * 1024 in
  p ← call (Malloc stack_size);
  let data := Cnt 0 0 0 (match p with Some a => a | None => 0 end + stack_size) 0 0 in
  let prof := Profile _ None profile_wrapper_clone data 1 (double_of_Z 0) (double_of_Z 0) 0 BIndet in
  profile_func prof;;
  Ret 0.

Lemma string_length_app (s t : string) : String.length (s +:+ t) = (String.length s + String.length t)%nat.
Proof. induction s as [|c s IH]; [done|]. rewrite string_app_cons. cbn. by rewrite IH. Qed.

Lemma dec_digits_length fuel k n acc :
  0 <= n < 10 ^ Z.of_nat (S k) -> (String.length (dec_digits fuel n acc) <= S k + String.length acc)%nat.
Proof.
  revert k n acc. induction fuel as [|fuel IH]; intros k n acc Hn; cbn [dec_digits]; [lia|].
  case_if; [cbn [String.length]; lia|].
  destruct k as [|k]; [change (10 ^ Z.of_nat 1) with 10 in Hn; lia|].
  etrans; [apply (IH k)|cbn [String.length]; lia].
  rewrite Nat2Z.inj_succ, Z.pow_succ_r in Hn by lia.
  split; [apply Z.div_pos; lia|apply Z.div_lt_upper_bound; lia].
Qed.

Lemma hex_digits_length fuel n acc : (String.length (hex_digits fuel n acc) <= fuel + String.length acc)%nat.
Proof.
  revert n acc. induction fuel as [|fuel IH]; intros n acc; cbn [hex_digits]; [lia|].
  case_if; [cbn [String.length]; lia|]. etrans; [apply IH|cbn [String.length]; lia].
Qed.

Lemma render_length n : in_s64 n -> (String.length (render n) <= 20)%nat.
Proof.
  intros Hn. unfold render, render_nat. case_if; cbn [String.length].
  - apply le_n_S. etrans; [apply (dec_digits_length _ 18)|done]. unfold in_s64, LONG_MIN, LONG_MAX in Hn.
    change (10 ^ Z.of_nat 19) with 10000000000000000000. lia.
  - etrans; [apply (dec_digits_length _ 18)|cbn; lia]. unfold in_s64, LONG_MIN, LONG_MAX in Hn.
    change (10 ^ Z.of_nat 19) with 10000000000000000000. lia.
Qed.

(** Wherever the buffer is, the text needs 55 of its 256 bytes at most. *)
Lemma printf_wrapper_fits buf data : profile_wrapper_printf buf data = Ret (0, data).
Proof.
  unfold profile_wrapper_printf. case_if; [|done]. exfalso.
  pose proof (render_length (s64 buf) (s64_range buf)). pose proof (hex_digits_length 16 buf "").
  unfold printf_text, pointer in *. rewrite !string_length_app in *. cbn [String.length] in *. cbn in *. lia.
Qed.

(** The exchange loses the second buffer: after one call both pointers name
    the first, so that the next call is a copy of a page onto itself. *)
Lemma memcpy_wrapper_once (m m' : store) (data data' : cnt) :
  profile_wrapper_memcpy m data = Some (m', data') ->
  buf1 data' = buf1 data /\ buf2 data' = buf1 data /\ profile_wrapper_memcpy m' data' = None.
Proof.
  unfold profile_wrapper_memcpy. destruct (memcpy m _ _ _) as [m1|]; [|done]. cbn [mbind option_bind].
  intros [= -> <-]. cbn [buf1 buf2]. split_and!; [done..|]. unfold memcpy.
  destruct (m' !! buf1 data) as [s|]; [|done]. cbn [mbind option_bind]. by rewrite Z.eqb_refl.
Qed.
End Copymm.

(** The first timed turn of [profile_func] writes through the [data] member,
    which [evfreq] and [copymm] never set. *)
Lemma profile_func_indet {W Args} (h : handler W) (prof : profile Args) step w tr0 :
  data prof = BIndet -> 0 < repeat prof -> func_ok h (func prof) step (args prof) ->
  exists w' tr, run (traced h) (profile_func prof) (w, tr0)
    = (Undefined "write through an invalid data pointer", (w', tr)).
Proof.
  intros Hd Hr Hf. unfold profile_func. rewrite run_bind.
  destruct (Hf O w tr0) as (r & w1 & tr1 & H1 & _). cbn in H1. rewrite H1. cbn [and_then].
  rewrite run_bind. destruct (Z.to_nat (repeat prof)) as [|n] eqn:E; [lia|].
  rewrite run_for_S, Hd. step_run. do 2 eexists. reflexivity.
Qed.

(** The two programs that build their [struct profile] member by member
    forget its [data]: on every machine, whatever the calls answer, the first
    timed turn of [wk-evfreq] and of [wk-copymm] stores a clock reading through
    a pointer that was never assigned. *)
Theorem data_never_assigned {W} (h : handler W) (w : W) :
  (exists w' tr, run (traced h) Evfreq.main (w, [])
     = (Undefined "write through an invalid data pointer", (w', tr)))
  /\ (exists w' tr, run (traced h) Copymm.main (w, [])
     = (Undefined "write through an invalid data pointer", (w', tr))).
Proof.
  split.
  - unfold Evfreq.main. step_run.
    edestruct (@profile_func_indet W) as (w' & tr & Hrun); [| | |rewrite Hrun; by do 2 eexists]; [done|done|].
    apply func_ok_id. intros w0 tr. cbn [func args]. unfold Evfreq.profile_clock. step_run.
    destruct (h _ (Read _ 1) w0).1 as [ret bytes] eqn:E. step_run.
    do 3 eexists. split; [reflexivity|done].
  - unfold Copymm.main. step_run.
    edestruct (@profile_func_indet W) as (w' & tr & Hrun); [| | |rewrite Hrun; by do 2 eexists]; [done|done|].
    apply func_ok_id. intros w0 tr. cbn [func args]. unfold Copymm.profile_wrapper_clone. step_run.
    rewrite <- ?app_assoc. do 3 eexists. split; [reflexivity|done].
Qed.
