(* ===== verification/Traces.v ===== *)
(** * Observations of a trace

    What the theorems about the tracing programs look at in a trace: the
    lines printed, the tracepoints recorded, the sleeps, the threads created
    and joined; and how loops put them together. *)

From S2P Require Import Prelude CInt CString Libc CFloat Utils Getopt.

Local Open Scope list_scope.
Local Open Scope Z_scope.

Inductive obs :=
  | Line (fmt : string) (args : list parg)
  | Point (provider name : string) (args : list parg)
  | Pause (us : Z)
  | Created (i : Z)
  | Joined (i : Z).

Definition observe (e : ev) : option obs :=
  match e with
  | Ev e _ =>
      match e with
      | Printf fmt args => Some (Line fmt args)
      | Tracepoint_args p n args => Some (Point p n args)
      | Usleep us => Some (Pause us)
      | Pthread_create i => Some (Created i)
      | Pthread_join i => Some (Joined i)
      | _ => None
      end
  end.

Definition observed (tr : list ev) : list obs := omap observe tr.

Lemma observed_app tr1 tr2 : observed (tr1 ++ tr2) = observed tr1 ++ observed tr2.
Proof. apply omap_app. Qed.

(** [p] ends normally with [a], whatever the environment answers, and is
    observed as [l]. *)
Definition emits {W A} (h : handler W) (p : prog A) (a : A) (l : list obs) : Prop :=
  forall w tr, exists w' tr',
    run (traced h) p (w, tr) = (Done a, (w', tr ++ tr')) /\ observed tr' = l.

Section emits.
Context {W : Type} (h : handler W).

Lemma emits_ret {A} (a : A) : emits h (Ret a) a [].
Proof. intros w tr. exists w, []. by rewrite app_nil_r. Qed.

Lemma emits_bind {A B} (p : prog A) (f : A -> prog B) a b l k :
  emits h p a l -> emits h (f a) b k -> emits h (p ≫= f) b (l ++ k).
Proof.
  intros Hp Hf w tr. destruct (Hp w tr) as (w1 & tr1 & Hr1 & Ho1).
  destruct (Hf w1 (tr ++ tr1)) as (w2 & tr2 & Hr2 & Ho2).
  exists w2, (tr1 ++ tr2). rewrite run_bind, Hr1. cbn [and_then]. rewrite Hr2, <- app_assoc.
  split; [done|]. by rewrite observed_app, Ho1, Ho2.
Qed.

(** A call whose answer is not looked at. *)
Lemma emits_call {X A} (e : sys X) (k : X -> prog A) a l o :
  (forall x, observe (Ev e x) = o) ->
  (forall x, emits h (k x) a l) -> emits h (call e ≫= k) a (option_list o ++ l).
Proof.
  intros Ho Hk w tr. destruct (h X e w) as [x w1] eqn:E.
  destruct (Hk x w1 (tr ++ [Ev e x])) as (w2 & tr2 & Hr2 & Ho2).
  exists w2, (Ev e x :: tr2). rewrite run_bind, run_traced_call, E. cbn [and_then fst snd].
  rewrite Hr2, <- app_assoc. split; [done|]. cbn [observed omap list_omap].
  rewrite (Ho x). unfold observed in Ho2. destruct o; cbn [option_list app]; by rewrite <- Ho2.
Qed.

Lemma emits_unit {X} (e : sys X) o :
  (forall x, observe (Ev e x) = o) -> emits h (call e;; Ret tt) tt (option_list o).
Proof.
  intros Ho. rewrite <- (app_nil_r (option_list o)).
  apply emits_call; [done|]. intros. apply emits_ret.
Qed.

(** The last call of a program without a result. *)
Lemma emits_last (e : sys unit) o :
  (forall x, observe (Ev e x) = o) -> emits h (call e) tt (option_list o).
Proof.
  intros Ho w tr. exists (h unit e w).2, [Ev e tt]. rewrite run_traced_unit. split; [done|].
  cbn [observed omap list_omap]. rewrite (Ho tt). by destruct o.
Qed.

Lemma emits_for (body : Z -> unit -> prog unit) (F : Z -> list obs) n i :
  (forall j, i <= j < i + Z.of_nat n -> emits h (body j tt) tt (F j)) ->
  emits h (for_ n i body tt) tt (concat (F <$> seqZ i (Z.of_nat n))).
Proof.
  revert i. induction n as [|n IH]; intros i Hb; cbn [for_]; [apply emits_ret|].
  rewrite seqZ_cons, fmap_cons by lia. cbn [concat].
  apply emits_bind with (a := tt); [apply Hb; lia|].
  replace (Z.succ i) with (i + 1) by lia. replace (Z.pred _) with (Z.of_nat n) by lia.
  apply IH. intros. apply Hb. lia.
Qed.

(** [p] does something undefined, whatever the environment answers. *)
Definition goes_wrong {A} (p : prog A) (why : string) : Prop :=
  forall w tr, exists w' tr', run (traced h) p (w, tr) = (Undefined why, (w', tr')).

Lemma goes_wrong_bind {A B} (p : prog A) (f : A -> prog B) a l why :
  emits h p a l -> goes_wrong (f a) why -> goes_wrong (p ≫= f) why.
Proof.
  intros Hp Hf w tr. destruct (Hp w tr) as (w1 & tr1 & Hr1 & _).
  rewrite run_bind, Hr1. apply Hf.
Qed.

(** The turn [k] of a loop is its first that goes wrong. *)
Lemma goes_wrong_for (body : Z -> unit -> prog unit) (F : Z -> list obs) n i k why :
  (forall j, i <= j < k -> emits h (body j tt) tt (F j)) -> i <= k < i + Z.of_nat n ->
  goes_wrong (body k tt) why -> goes_wrong (for_ n i body tt) why.
Proof.
  revert i. induction n as [|n IH]; intros i Hb Hk Hw; [lia|]. cbn [for_].
  destruct (Z.eq_dec i k) as [->|Hne].
  - intros w tr. destruct (Hw w tr) as (w' & tr' & Hr). rewrite run_bind, Hr. by do 2 eexists.
  - apply (goes_wrong_bind _ _ tt (F i)); [apply Hb; lia|]. apply IH; [|lia|done].
    intros. apply Hb. lia.
Qed.

Lemma emits_eq {A} (p : prog A) (a : A) l l' : emits h p a l -> l = l' -> emits h p a l'.
Proof. by intros ? <-. Qed.
End emits.

(** [pthread_create] in a loop. *)
Definition create_all (n : Z) : prog unit :=
  for_ (Z.to_nat n) 0 (fun i _ => call (Pthread_create i);; Ret tt) tt.
Definition join_all (n : Z) : prog unit :=
  for_ (Z.to_nat n) 0 (fun i _ => call (Pthread_join i);; Ret tt) tt.

Lemma concat_singletons {A B} (f : A -> B) (l : list A) : concat ((fun x => [f x]) <$> l) = f <$> l.
Proof. induction l as [|x l IH]; [done|]. rewrite !fmap_cons. cbn [concat app]. by rewrite IH. Qed.

Lemma emits_create_all {W} (h : handler W) n : 0 <= n -> emits h (create_all n) tt (Created <$> seqZ 0 n).
Proof.
  intros H. eapply emits_eq;
    [apply (emits_for h _ (fun i => [Created i])); intros j _; by apply (emits_unit h _ (Some (Created j)))|].
  rewrite concat_singletons. do 2 f_equal. lia.
Qed.

Lemma emits_join_all {W} (h : handler W) n : 0 <= n -> emits h (join_all n) tt (Joined <$> seqZ 0 n).
Proof.
  intros H. eapply emits_eq;
    [apply (emits_for h _ (fun i => [Joined i])); intros j _; by apply (emits_unit h _ (Some (Joined j)))|].
  rewrite concat_singletons. do 2 f_equal. lia.
Qed.
