(* ===== verification/Signals.v ===== *)
(** * src/signest.c

    Signals and their handlers.  The process is a stack of frames: the
    function it executes and, above it, the handlers that interrupted it;
    the kernel side is the set of blocked signals, the set of pending ones
    and the disposition of each.  A signal is delivered between two calls,
    as soon as it is pending and not blocked; its handler runs with the
    signal itself blocked, and the mask comes back when it returns (the
    semantics of [signal] in the GNU library). *)

From S2P Require Import Prelude CInt CString.

Local Open Scope string_scope.
Local Open Scope list_scope.
Local Open Scope Z_scope.

(** ** Data *)

Definition SIGUSR1 : Z := 10.
Definition SIGSEGV : Z := 11.
Definition SIGUSR2 : Z := 12.

(** The numbers [signal] accepts: all but SIGKILL and SIGSTOP. *)
Definition catchable (s : Z) : bool := (1 <=? s) && (s <=? 64) && negb (s =? 9) && negb (s =? 19).

Inductive handler := Handler1 | Handler2 | Handler3 | Crash.
Inductive disposition := SIG_DFL | SIG_IGN | Catch (h : handler).
Inductive how := SIG_BLOCK | SIG_UNBLOCK.

(** The calls of the program; [Load_x] is [boom = *x]. *)
Inductive op :=
  | Printf (fmt : string) (args : list Z)
  | Print (msg : string)
  | Backtrace
  | Sigprocmask (h : how) (set : list Z)
  | Kill (s : Z)
  | Signal (s : Z) (d : disposition)
  | Load_x
  | Exit (status : Z).

(** A frame and the mask its return restores. *)
Record frame := Frame { code : list op; saved : list Z }.

Record proc := Proc {
  frames : list frame;
  blocked : list Z;
  pending : list Z;
  disp : Z -> disposition;
  out : list op
}.

Inductive state :=
  | Running (p : proc)
  | Exited (status : Z) (out : list op)
  | Killed (s : Z) (out : list op).

(** ** The program *)

Definition do_bt : list op := [Backtrace].

Definition crash : list op := do_bt ++ [Exit 0].

Definition handler2 : list op := Print ("handler2" +:+ NL) :: do_bt.

Definition handler3 : list op := Print ("handler3" +:+ NL) :: do_bt.

Definition handler1 (action : Z) : list op :=
  if action =? 0 then
    [Sigprocmask SIG_BLOCK [SIGSEGV]; Print ("before" +:+ NL); Load_x; Print ("after" +:+ NL);
     Sigprocmask SIG_BLOCK [SIGSEGV]]
  else if action =? 1 then [Kill SIGUSR2]
  else if action =? 2 then
    [Sigprocmask SIG_BLOCK [SIGUSR2]; Kill SIGUSR2; Sigprocmask SIG_UNBLOCK [SIGUSR2]]
  else if action =? 3 then [Signal SIGUSR2 SIG_IGN; Kill SIGUSR2]
  else [].

(** The set-up of [main]; [signo] is what [__libc_allocate_rtsig] answers. *)
Definition install (action signo : Z) : list op :=
  [Printf ("action=%d signo=%d" +:+ NL) [action; signo];
   Signal SIGUSR1 (Catch Handler1); Signal SIGUSR2 (Catch Handler2);
   Signal signo (Catch Handler3); Signal SIGSEGV (Catch Crash)].

Definition main (action signo : Z) : list op :=
  install action signo
  ++ [Sigprocmask SIG_BLOCK [SIGUSR2]; Kill SIGUSR2; Kill SIGUSR2;
      Sigprocmask SIG_UNBLOCK [SIGUSR2]; Printf ("bye" +:+ NL) []].

(** [if (argc == 2) action = atoi(argv[1])]; [argv] is without the program
    name. *)
Definition action_of (argv : list string) : Z := match argv with [a] => atoi a | _ => 0 end.

(** ** The kernel *)

Definition add (s : Z) (l : list Z) : list Z := if decide (s ∈ l) then l else s :: l.
Definition remove_all (set l : list Z) : list Z := filter (fun s => s ∉ set) l.

(** The pending signal to deliver: the lowest number that is not blocked. *)
Definition next_signal (p : proc) : option Z :=
  List.find (fun s => bool_decide (s ∈ pending p) && bool_decide (s ∉ blocked p))
    (Z.of_nat <$> seq 1 64).

(** [signal(s, d)]; a number it does not accept changes nothing. *)
Definition set_disp (s : Z) (d : disposition) (disp : Z -> disposition) : Z -> disposition :=
  if catchable s then fun s' => if s' =? s then d else disp s' else disp.

Section step.
Variable action : Z.

Definition body (h : handler) : list op :=
  match h with
  | Handler1 => handler1 action
  | Handler2 => handler2
  | Handler3 => handler3
  | Crash => crash
  end.

(** Enter the handler of [s]; the default action of the signals the program
    sends is to terminate it. *)
Definition deliver (s : Z) (p : proc) : state :=
  let rest := remove_all [s] (pending p) in
  match disp p s with
  | SIG_IGN => Running (Proc (frames p) (blocked p) rest (disp p) (out p))
  | SIG_DFL => Killed s (out p)
  | Catch h =>
      Running (Proc (Frame (body h) (blocked p) :: frames p) (add s (blocked p)) rest (disp p) (out p))
  end.

(** [x] is NULL: the fault raises SIGSEGV, which kills the process when it is
    blocked or ignored; a handler that returned would meet the fault again. *)
Definition fault (p : proc) : state :=
  match disp p SIGSEGV with
  | Catch h =>
      if decide (SIGSEGV ∈ blocked p) then Killed SIGSEGV (out p)
      else Running (Proc (Frame (body h) (blocked p) :: frames p) (add SIGSEGV (blocked p))
                      (pending p) (disp p) (out p))
  | _ => Killed SIGSEGV (out p)
  end.

Definition exec_op (o : op) (rest : list op) (sv : list Z) (fs : list frame) (p : proc) : state :=
  let fs' := Frame rest sv :: fs in
  match o with
  | Printf _ _ | Print _ | Backtrace =>
      Running (Proc fs' (blocked p) (pending p) (disp p) (out p ++ [o]))
  | Sigprocmask SIG_BLOCK set =>
      Running (Proc fs' (foldr add (blocked p) set) (pending p) (disp p) (out p))
  | Sigprocmask SIG_UNBLOCK set =>
      Running (Proc fs' (remove_all set (blocked p)) (pending p) (disp p) (out p))
  | Kill s =>
      (* a signal that is ignored and not blocked is discarded at once; a
         pending one is not recorded twice *)
      if (match disp p s with SIG_IGN => true | _ => false end) && bool_decide (s ∉ blocked p)
      then Running (Proc fs' (blocked p) (pending p) (disp p) (out p))
      else Running (Proc fs' (blocked p) (add s (pending p)) (disp p) (out p))
  | Signal s d =>
      Running (Proc fs' (blocked p)
        (match d with SIG_IGN => if catchable s then remove_all [s] (pending p) else pending p
         | _ => pending p end)
        (set_disp s d (disp p)) (out p))
  | Load_x => fault p
  | Exit status => Exited status (out p)
  end.

Definition step (st : state) : state :=
  match st with
  | Exited _ _ | Killed _ _ => st
  | Running p =>
      match next_signal p with
      | Some s => deliver s p
      | None =>
          match frames p with
          | [] => Exited 0 (out p)
          | Frame [] sv :: fs => Running (Proc fs sv (pending p) (disp p) (out p))
          | Frame (o :: rest) sv :: fs => exec_op o rest sv fs p
          end
      end
  end.

(** The process at its start, about to execute [code]; SIGUSR1 and SIGUSR2
    have their default action and no signal is blocked. *)
Definition start (code : list op) : state :=
  Running (Proc [Frame code []] [] [] (fun _ => SIG_DFL) []).

(** It ends in [st]. *)
Definition ends (code : list op) (st : state) : Prop :=
  (forall p, st <> Running p) /\ exists n, Nat.iter n step (start code) = st.
End step.

(** [main] with [n] times the signal. *)
Definition main_with (n : nat) (action signo : Z) : list op :=
  install action signo
  ++ Sigprocmask SIG_BLOCK [SIGUSR2] :: replicate n (Kill SIGUSR2)
  ++ [Sigprocmask SIG_UNBLOCK [SIGUSR2]; Printf ("bye" +:+ NL) []].

(** What [__libc_allocate_rtsig] answers: a real-time signal, or -1. *)
Definition rt_signal (signo : Z) : Prop := signo = -1 \/ 34 <= signo <= 64.

(** The dispositions after the set-up. *)
Definition installed (d : Z -> disposition) : Prop :=
  d SIGUSR1 = Catch Handler1 /\ d SIGUSR2 = Catch Handler2 /\ d SIGSEGV = Catch Crash.

(** ** Lemmas *)

Lemma catchable_rt signo : 34 <= signo <= 64 -> catchable signo = true.
Proof. intros H. unfold catchable. bool_to_prop. lia. Qed.

Lemma next_signal_none fs bl d o : next_signal (Proc fs bl [] d o) = None.
Proof. reflexivity. Qed.

Lemma step_op action o rest sv fs bl d l :
  step action (Running (Proc (Frame (o :: rest) sv :: fs) bl [] d l))
  = exec_op action o rest sv fs (Proc (Frame (o :: rest) sv :: fs) bl [] d l).
Proof. reflexivity. Qed.

(** The set-up, whatever follows. *)
Lemma run_install action signo rest :
  rt_signal signo ->
  exists d, installed d /\
    Nat.iter 5 (step action) (start (install action signo ++ rest))
    = Running (Proc [Frame rest []] [] [] d [Printf ("action=%d signo=%d" +:+ NL) [action; signo]]).
Proof.
  intros H.
  exists (set_disp SIGSEGV (Catch Crash) (set_disp signo (Catch Handler3)
    (set_disp SIGUSR2 (Catch Handler2) (set_disp SIGUSR1 (Catch Handler1) (fun _ => SIG_DFL))))).
  split; [|reflexivity]. unfold installed, set_disp.
  destruct H as [->|H]; [done|]. rewrite (catchable_rt signo) by done.
  pose proof (proj2 (Z.eqb_neq SIGUSR1 signo) ltac:(unfold SIGUSR1; lia)) as H1.
  pose proof (proj2 (Z.eqb_neq SIGUSR2 signo) ltac:(unfold SIGUSR2; lia)) as H2.
  split_and!; [by change ((if SIGUSR1 =? signo then Catch Handler3 else Catch Handler1) = Catch Handler1);
    rewrite H1|by change ((if SIGUSR2 =? signo then Catch Handler3 else Catch Handler2) = Catch Handler2);
    rewrite H2|done].
Qed.

(** A signal sent again while it is blocked and pending changes nothing. *)
Lemma run_kills action n rest sv fs d h l :
  d SIGUSR2 = Catch h ->
  Nat.iter n (step action)
    (Running (Proc (Frame (replicate n (Kill SIGUSR2) ++ rest) sv :: fs) [SIGUSR2] [SIGUSR2] d l))
  = Running (Proc (Frame rest sv :: fs) [SIGUSR2] [SIGUSR2] d l).
Proof.
  intros Hd. induction n as [|n IH]; [done|]. rewrite Nat.iter_succ_r. cbn [replicate app].
  rewrite <- IH. f_equal. cbn. by rewrite Hd.
Qed.

(** The first one makes it pending. *)
Lemma run_first_kill action rest d h l :
  d SIGUSR2 = Catch h ->
  Nat.iter 2 (step action)
    (Running (Proc [Frame (Sigprocmask SIG_BLOCK [SIGUSR2] :: Kill SIGUSR2 :: rest) []] [] [] d l))
  = Running (Proc [Frame rest []] [SIGUSR2] [SIGUSR2] d l).
Proof.
  intros Hd. change (Nat.iter 2 ?f ?x) with (f (f x)). rewrite step_op.
  cbn [exec_op blocked pending disp out]. rewrite step_op. cbn [exec_op blocked pending disp out].
  by rewrite Hd.
Qed.

(** Unblocking it runs the handler before the next statement. *)
Lemma run_unblock action d l :
  d SIGUSR2 = Catch Handler2 ->
  Nat.iter 8 (step action)
    (Running (Proc [Frame [Sigprocmask SIG_UNBLOCK [SIGUSR2]; Printf ("bye" +:+ NL) []] []]
      [SIGUSR2] [SIGUSR2] d l))
  = Exited 0 (((l ++ [Print ("handler2" +:+ NL)]) ++ [Backtrace]) ++ [Printf ("bye" +:+ NL) []]).
Proof.
  intros Hd. rewrite (Nat.iter_add 7 1).
  set (p := Proc [Frame [Printf ("bye" +:+ NL) []] []] [] [SIGUSR2] d l).
  change (Nat.iter 7 (step action) (Running p) =
    Exited 0 (((l ++ [Print ("handler2" +:+ NL)]) ++ [Backtrace]) ++ [Printf ("bye" +:+ NL) []])).
  rewrite (Nat.iter_add 6 1). change (Nat.iter 1 (step action) (Running p)) with (deliver action SIGUSR2 p).
  unfold deliver, p. cbn [disp]. rewrite Hd. reflexivity.
Qed.

(** Putting runs together. *)
Lemma ends_intro action code n m st st' :
  Nat.iter n (step action) (start code) = st -> Nat.iter m (step action) st = st' ->
  (forall p, st' <> Running p) -> ends action code st'.
Proof. intros <- <- H. split; [done|]. exists (m + n)%nat. by rewrite Nat.iter_add. Qed.

(** The state a run ends in is unique. *)
Lemma ends_unique action code st st' : ends action code st -> ends action code st' -> st = st'.
Proof.
  assert (forall st k, (forall p, st <> Running p) -> Nat.iter k (step action) st = st) as Hfix.
  { intros s k Hs. induction k as [|k IH]; [done|]. rewrite Nat.iter_succ, IH. by destruct s; [destruct (Hs p)|..]. }
  intros [Hs (n & Hn)] [Hs' (m & Hm)]. rewrite <- (Hfix st m Hs), <- (Hfix st' n Hs'), <- Hn, <- Hm.
  by rewrite <- !Nat.iter_add, Nat.add_comm.
Qed.

(** One step, by the state of the process. *)
Lemma step_exec action o rest sv fs bl pe d l :
  next_signal (Proc [] bl pe d l) = None ->
  step action (Running (Proc (Frame (o :: rest) sv :: fs) bl pe d l))
  = exec_op action o rest sv fs (Proc (Frame (o :: rest) sv :: fs) bl pe d l).
Proof. intros H. unfold step. change (next_signal _) with (next_signal (Proc [] bl pe d l)). by rewrite H. Qed.

Lemma step_return action sv fs bl pe d l :
  next_signal (Proc [] bl pe d l) = None ->
  step action (Running (Proc (Frame [] sv :: fs) bl pe d l)) = Running (Proc fs sv pe d l).
Proof. intros H. unfold step. change (next_signal _) with (next_signal (Proc [] bl pe d l)). by rewrite H. Qed.

Lemma step_deliver action s fs bl pe d l :
  next_signal (Proc [] bl pe d l) = Some s ->
  step action (Running (Proc fs bl pe d l)) = deliver action s (Proc fs bl pe d l).
Proof. intros H. unfold step. change (next_signal _) with (next_signal (Proc [] bl pe d l)). by rewrite H. Qed.

(** Steps from a state whose dispositions are known. *)
Ltac signal_step :=
  rewrite Nat.iter_succ_r;
  first [rewrite step_exec by reflexivity; unfold exec_op, fault
        | rewrite step_return by reflexivity
        | rewrite (step_deliver _ SIGUSR1) by reflexivity; unfold deliver
        | rewrite (step_deliver _ SIGUSR2) by reflexivity; unfold deliver];
  cbn [frames blocked pending disp out];
  repeat match goal with
    | H : ?d ?s = _ |- context [?d ?s] => rewrite H
    | |- context [set_disp ?s ?a ?d ?s] => change (set_disp s a d s) with a
    | |- context [bool_decide ?P] => let b := eval vm_compute in (bool_decide P) in change (bool_decide P) with b
    end;
  cbn [body handler1 handler2 do_bt app andb Z.eqb Pos.eqb].

(** ** Theorems *)

(** (C31) Signals are not queued: however many times ([n >= 1]) the process
    sends itself SIGUSR2 while it is blocked, its handler runs exactly once,
    when the signal is unblocked and before the next statement; [main], which
    sends it twice, prints and leaves the same trace as if it had sent it
    once, whatever the action asked for and the real-time signal obtained. *)
Theorem signest_coalesced (action signo : Z) (n : nat) (Hs : rt_signal signo) (Hn : (1 <= n)%nat) :
  main action signo = main_with 2 action signo
  /\ ends action (main_with n action signo)
       (Exited 0 [Printf ("action=%d signo=%d" +:+ NL) [action; signo];
                  Print ("handler2" +:+ NL); Backtrace; Printf ("bye" +:+ NL) []]).
Proof.
  split; [reflexivity|]. destruct n as [|n]; [lia|]. unfold main_with.
  destruct (run_install action signo (Sigprocmask SIG_BLOCK [SIGUSR2] :: replicate (S n) (Kill SIGUSR2)
    ++ [Sigprocmask SIG_UNBLOCK [SIGUSR2]; Printf ("bye" +:+ NL) []]) Hs) as (d & (_ & Hd & _) & Hrun).
  apply (ends_intro action _ 5 (8 + (n + 2)) _ _ Hrun); [|done].
  cbn [replicate app]. rewrite Nat.iter_add, Nat.iter_add, (run_first_kill _ _ _ Handler2), (run_kills _ _ _ _ _ _ Handler2), run_unblock by done.
  reflexivity.
Qed.

Theorem signest_coalesced_witness :
  ends 0 (main 0 34) (Exited 0 [Printf ("action=%d signo=%d" +:+ NL) [0; 34];
    Print ("handler2" +:+ NL); Backtrace; Printf ("bye" +:+ NL) []]).
Proof. apply (signest_coalesced 0 34 2); [right; lia|lia]. Defined.

(** The process sends itself SIGUSR1 after the set-up. *)
Definition scenario (action signo : Z) : list op :=
  install action signo ++ [Kill SIGUSR1; Printf ("bye" +:+ NL) []].

Definition started (action signo : Z) : op := Printf ("action=%d signo=%d" +:+ NL) [action; signo].
Definition bye : op := Printf ("bye" +:+ NL) [].

(** The four actions of the handler of SIGUSR1.  0: it reads through a
    NULL pointer with SIGSEGV blocked, and the process dies of it, the handler
    of SIGSEGV never called.  1: SIGUSR2 interrupts the handler.  2: sent
    while blocked, it is delivered when the handler unblocks it.  3: sent while
    ignored, it is dropped.  Any other action does nothing. *)
Theorem signest_actions (action signo : Z) (Hs : rt_signal signo) :
  ends action (scenario action signo)
    (if action =? 0 then Killed SIGSEGV [started action signo; Print ("before" +:+ NL)]
     else if (action =? 1) || (action =? 2)
     then Exited 0 [started action signo; Print ("handler2" +:+ NL); Backtrace; bye]
     else Exited 0 [started action signo; bye]).
Proof.
  destruct (run_install action signo [Kill SIGUSR1; Printf ("bye" +:+ NL) []] Hs) as (d & (H1 & H2 & H3) & Hrun).
  eapply (ends_intro action _ 5 20 _ _ Hrun); [|by repeat case_match].
  destruct (Z.eqb_spec action 0) as [->|N0]; [repeat signal_step; reflexivity|].
  destruct (Z.eqb_spec action 1) as [->|N1]; [repeat signal_step; reflexivity|].
  destruct (Z.eqb_spec action 2) as [->|N2]; [repeat signal_step; reflexivity|].
  destruct (Z.eqb_spec action 3) as [->|N3]; [repeat signal_step; reflexivity|].
  assert (handler1 action = []) as Hb by (unfold handler1; by rewrite !(proj2 (Z.eqb_neq _ _)) by done).
  repeat (signal_step; rewrite ?Hb). reflexivity.
Qed.

Theorem signest_actions_witness :
  ends 0 (scenario 0 34) (Killed SIGSEGV [started 0 34; Print ("before" +:+ NL)])
  /\ ends 3 (scenario 3 34) (Exited 0 [started 3 34; bye]).
Proof. split; [apply (signest_actions 0 34)|apply (signest_actions 3 34)]; right; lia. Defined.
