(* ===== verification/Heartbeat.v ===== *)
(** * ust/heartbeat/heartbeat.c and ust/burnust/burnust.c

    Threads that record user-space events: [wk-heartbeat] one every [delay]
    microseconds, [wk-burnust] as fast as it can, [rep] times [rep] of them.
    The threads share nothing but the options, which they only read, so each
    is a program of its own.  Strings are values: the copy of the message and its
    release are not steps. *)

From S2P Require Import Prelude CInt CString Libc CFloat Utils Getopt Traces.

Local Open Scope string_scope.
Local Open Scope list_scope.
Local Open Scope Z_scope.

(** The two programs have the same options, but for the message. *)
Record command_opts := Opts {
  message : option string; delay : Z; rep : Z; nb_thread : Z; verbose : Z; quiet : Z
}.

Definition set_message o v := Opts (Some v) (delay o) (rep o) (nb_thread o) (verbose o) (quiet o).
Definition set_delay o v := Opts (message o) v (rep o) (nb_thread o) (verbose o) (quiet o).
Definition set_rep o v := Opts (message o) (delay o) v (nb_thread o) (verbose o) (quiet o).
Definition set_nb_thread o v := Opts (message o) (delay o) (rep o) v (verbose o) (quiet o).
Definition set_verbose o v := Opts (message o) (delay o) (rep o) (nb_thread o) v (quiet o).
Definition set_quiet o v := Opts (message o) (delay o) (rep o) (nb_thread o) (verbose o) v.

Definition no_opts : command_opts := Opts None 0 0 0 0 0.

(** [if (opts->x == 0) opts->x = def]. *)
Definition default_int_value (val def : Z) : Z := if val =? 0 then def else val.

Definition dump (l : list (string * parg)) : prog unit :=
  call (Printf ("%10s %s" +:+ NL) [PStr (Some "option"); PStr (Some "value")]);;
  (fix go l := match l with
     | [] => Ret tt
     | (n, PStr s) :: l => call (Printf ("%10s %s" +:+ NL) [PStr (Some n); PStr s]);; go l
     | (n, a) :: l => call (Printf ("%10s %d" +:+ NL) [PStr (Some n); a]);; go l
     end) l.

(** [pthread_create(&thds[i], ...)] in a loop; what [calloc] answered is not
    looked at, and the thread is written to the array. *)
Definition create_in (thds : option Z) (n : Z) : prog unit :=
  for_ (Z.to_nat n) 0 (fun i _ =>
    match thds with
    | None => Undef "write through NULL"
    | Some _ => call (Pthread_create i);; Ret tt
    end) tt.

(** ** wk-heartbeat *)
Module Heartbeat.

Definition DEFAULT_MSG : string := "heartbeat".
Definition DEFAULT_DELAY : Z := 1000000.
Definition DEFAULT_REP : Z := 10.
Definition DEFAULT_NB_THD : Z := 1.

Definition usage {A} : prog A := usage_text
  [("wk-heartbeat" +:+ NL, []);
   ("Usage: wk-heartbeat [OPTIONS] [COMMAND]" +:+ NL, []);
   (NL +:+ "Options:" +:+ NL, []);
   ("  --help	this help" +:+ NL, []);
   ("  --message	custom message to write as heartbeat, default heartbeat" +:+ NL, []);
   ("  --nb_thread	set number of threads" +:+ NL, []);
   ("  --delay 	delay between heartbeats (us), default 1s" +:+ NL, []);
   ("  --rep	number of heartbeats to emit, default 10" +:+ NL, []);
   ("  --verbose	verbose mode, display option values" +:+ NL, []);
   ("  --quiet      quiet mode, do not display heartbeat" +:+ NL, []);
   (NL, [])].

Definition dump_opts (o : command_opts) : prog unit :=
  dump [("message", PStr (message o)); ("delay", PInt (delay o)); ("rep", PInt (rep o));
        ("nb_thread", PInt (nb_thread o)); ("verbose", PInt (verbose o)); ("quiet", PInt (quiet o))].

Definition optstring : string := "hvm:d:r:n:q:".
Definition options : list option_ :=
  [Option_ "help" false "h"; Option_ "message" true "m"; Option_ "delay" true "d";
   Option_ "rep" true "r"; Option_ "nb_thread" true "n"; Option_ "verbose" false "v";
   Option_ "quiet" false "q"].

(** The [switch], on [ret] and the options. *)
Definition parse_opt (f : found) '((ret, o) : Z * command_opts) : prog (Z * command_opts) :=
  match opt f with
  | "m"%char => with_arg f (fun a => Ret (ret, set_message o a))
  | "d"%char => with_arg f (fun a => Ret (ret, set_delay o (atoi a)))
  | "r"%char => with_arg f (fun a => Ret (ret, set_rep o (atoi a)))
  | "n"%char => with_arg f (fun a => Ret (ret, set_nb_thread o (atoi a)))
  | "h"%char => usage
  | "v"%char => Ret (ret, set_verbose o 1)
  | "q"%char => Ret (ret, set_quiet o 1)
  | c => call (Printf ("unknown option %c" +:+ NL) [PInt (code c)]);; Ret (-1, o)
  end.

(** The default values. *)
Definition defaults (o : command_opts) : command_opts :=
  Opts (Some (default DEFAULT_MSG (message o))) (default_int_value (delay o) DEFAULT_DELAY)
    (default_int_value (rep o) DEFAULT_REP) (default_int_value (nb_thread o) DEFAULT_NB_THD)
    (verbose o) (quiet o).

Definition parse_opts (argv : list string) : prog (Z * command_opts) :=
  '(ret, o) ← opt_loop parse_opt (getopt_long optstring options None argv) (0, no_opts);
  let o := defaults o in
  (if negb (verbose o =? 0) then dump_opts o else Ret tt);;
  Ret (ret, o).

(** One heartbeat. *)
Definition beat (id : Z) (o : command_opts) (i : Z) : prog unit :=
  (if quiet o =? 0
   then call (Printf ("0x%-16lx %-10d %s" +:+ NL) [PInt id; PInt i; PStr (message o)])
   else Ret tt);;
  call (Tracepoint_args "heartbeat" "msg" [PStr (message o)]);;
  call (Usleep (u32 (delay o)));;
  Ret tt.

Definition heartbeat_thread (arg : option command_opts) : prog unit :=
  match arg with
  | None => Ret tt
  | Some o =>
      id ← call Pthread_self;
      call (Usleep (u32 (delay o)));;
      for_ (Z.to_nat (rep o)) 0 (fun i _ => beat id o i) tt
  end.

Definition main (argv : list string) : prog Z :=
  '(ret, o) ← parse_opts argv;
  if ret <? 0 then Ret ret else
  thds ← call (Calloc 8 (u64 (nb_thread o)));
  (if quiet o =? 0
   then call (Printf ("%-18s %-10s %s" +:+ NL) [PStr (Some "id"); PStr (Some "rep"); PStr (Some "message")])
   else Ret tt);;
  create_in thds (nb_thread o);;
  join_all (nb_thread o);;
  Ret ret.
End Heartbeat.

(** ** wk-burnust *)
Module Burnust.

Definition DEFAULT_DELAY : Z := 0.
Definition DEFAULT_REP : Z := 1000000.
Definition DEFAULT_NB_THD : Z := 4.

Definition usage {A} : prog A := usage_text
  [("wk-burnust" +:+ NL, []);
   ("Usage: wk-burnust [OPTIONS] [COMMAND]" +:+ NL, []);
   (NL +:+ "Options:" +:+ NL, []);
   ("  --help	this help" +:+ NL, []);
   ("  --nb_thread	set number of threads" +:+ NL, []);
   ("  --delay 	delay between heartbeats (us), default 1s" +:+ NL, []);
   ("  --rep	number of heartbeats to emit, default 10" +:+ NL, []);
   ("  --verbose	verbose mode, display option values" +:+ NL, []);
   ("  --quiet      quiet mode, do not display heartbeat" +:+ NL, []);
   (NL, [])].

Definition dump_opts (o : command_opts) : prog unit :=
  dump [("delay", PInt (delay o)); ("rep", PInt (rep o)); ("nb_thread", PInt (nb_thread o));
        ("verbose", PInt (verbose o)); ("quiet", PInt (quiet o))].

Definition optstring : string := "hvd:r:n:q".
Definition options : list option_ :=
  [Option_ "help" false "h"; Option_ "delay" true "d"; Option_ "rep" true "r";
   Option_ "nb_thread" true "n"; Option_ "verbose" false "v"; Option_ "quiet" false "q"].

Definition parse_opt (f : found) '((ret, o) : Z * command_opts) : prog (Z * command_opts) :=
  match opt f with
  | "d"%char => with_arg f (fun a => Ret (ret, set_delay o (atoi a)))
  | "r"%char => with_arg f (fun a => Ret (ret, set_rep o (atoi a)))
  | "n"%char => with_arg f (fun a => Ret (ret, set_nb_thread o (atoi a)))
  | "h"%char => usage
  | "v"%char => Ret (ret, set_verbose o 1)
  | "q"%char => Ret (ret, set_quiet o 1)
  | c => call (Printf ("unknown option %c" +:+ NL) [PInt (code c)]);; Ret (-1, o)
  end.

Definition defaults (o : command_opts) : command_opts :=
  Opts (message o) (default_int_value (delay o) DEFAULT_DELAY)
    (default_int_value (rep o) DEFAULT_REP) (default_int_value (nb_thread o) DEFAULT_NB_THD)
    (verbose o) (quiet o).

Definition parse_opts (argv : list string) : prog (Z * command_opts) :=
  '(ret, o) ← opt_loop parse_opt (getopt_long optstring options None argv) (0, no_opts);
  let o := defaults o in
  (if negb (verbose o =? 0) then dump_opts o else Ret tt);;
  Ret (ret, o).

(** One event; [i + j] is an [int]. *)
Definition burn (id : Z) (o : command_opts) (i j : Z) : prog unit :=
  if INT_MAX <? i + j then Undef "overflow of i + j" else
  (if quiet o =? 0 then call (Printf ("0x%-16lx %-10d" +:+ NL) [PInt id; PInt (i + j)]) else Ret tt);;
  call (Tracepoint_args "burnust" "count" [PInt (i + j)]);;
  (if 0 <? delay o then call (Usleep (u32 (delay o)));; Ret tt else Ret tt).

Definition burnust_thread (arg : option command_opts) : prog unit :=
  match arg with
  | None => Ret tt
  | Some o =>
      id ← call Pthread_self;
      call (Usleep (u32 (delay o)));;
      for_ (Z.to_nat (rep o)) 0 (fun i _ =>
        for_ (Z.to_nat (rep o)) 0 (fun j _ => burn id o i j) tt) tt
  end.

Definition main (argv : list string) : prog Z :=
  '(ret, o) ← parse_opts argv;
  if ret <? 0 then Ret ret else
  thds ← call (Calloc 8 (u64 (nb_thread o)));
  (if quiet o =? 0
   then call (Printf ("%-18s %-10s" +:+ NL) [PStr (Some "id"); PStr (Some "rep")])
   else Ret tt);;
  create_in thds (nb_thread o);;
  join_all (nb_thread o);;
  Ret ret.
End Burnust.

(** ** Command lines *)

Definition number_settings (o : command_opts) : list (option_ * option string) :=
  [(Option_ "delay" true "d", Some (render (delay o)));
   (Option_ "rep" true "r", Some (render (rep o)));
   (Option_ "nb_thread" true "n", Some (render (nb_thread o)))].

Definition flag_settings (o : command_opts) : list (option_ * option string) :=
  (if verbose o =? 0 then [] else [(Option_ "verbose" false "v", None)])
  ++ (if quiet o =? 0 then [] else [(Option_ "quiet" false "q", None)]).

(** The options as [long_options], in any program with these options. *)
Definition well_formed (o : command_opts) : Prop :=
  in_s32 (delay o) /\ 0 <= rep o <= INT_MAX /\ 0 <= nb_thread o <= INT_MAX
  /\ (verbose o = 0 \/ verbose o = 1) /\ (quiet o = 0 \/ quiet o = 1).

#[export] Instance well_formed_dec o : Decision (well_formed o).
Proof. unfold well_formed, in_s32. apply _. Defined.

Definition dump_lines (l : list (string * parg)) : list obs :=
  Line ("%10s %s" +:+ NL) [PStr (Some "option"); PStr (Some "value")]
  :: map (fun '(n, a) =>
       Line (match a with PStr _ => "%10s %s" +:+ NL | _ => "%10s %d" +:+ NL end) [PStr (Some n); a]) l.

Lemma emits_line {W} (h : handler W) fmt args (p : prog unit) l :
  emits h p tt l -> emits h (call (Printf fmt args);; p) tt (Line fmt args :: l).
Proof. intros Hp. by apply (emits_call h _ (fun _ => p) tt l (Some (Line fmt args))). Qed.

Lemma emits_dump {W} (h : handler W) l : emits h (dump l) tt (dump_lines l).
Proof.
  apply emits_line. induction l as [|[n a] l IH]; [apply emits_ret|].
  destruct a; cbn [map]; apply emits_line; done.
Qed.

(** [if (b) p]. *)
Lemma emits_if {W} (h : handler W) (b : bool) (p : prog unit) l :
  emits h p tt l -> emits h (if b then p else Ret tt) tt (if b then l else []).
Proof. intros Hp. destruct b; [done|apply emits_ret]. Qed.

(** The end of [main]: its array, its header and its threads.  Without memory the
    first thread is written through NULL. *)
Definition threads_outcome (thds : option Z) (ret : Z) : outcome Z :=
  if thds then Done ret else Undefined "write through NULL".
Definition threads_obs (thds : option Z) (n : Z) : list obs :=
  if thds then (Created <$> seqZ 0 n) ++ (Joined <$> seqZ 0 n) else [].

Lemma run_threads {W} (h : handler W) n header l ret w tr :
  0 < n -> emits h header tt l ->
  exists thds w' tr',
    run (traced h) (thds ← call (Calloc 8 (u64 n)); header;; create_in thds n;; join_all n;; Ret ret) (w, tr)
    = (threads_outcome thds ret, (w', tr ++ Ev (Calloc 8 (u64 n)) thds :: tr'))
    /\ observed tr' = l ++ threads_obs thds n.
Proof.
  intros Hn Hh. rewrite run_bind, run_traced_call. cbn [and_then].
  destruct (h _ (Calloc 8 (u64 n)) w) as [thds w1]. cbn [fst snd].
  destruct (Hh w1 (tr ++ [Ev (Calloc 8 (u64 n)) thds])) as (w2 & tr2 & Hr2 & Ho2).
  rewrite run_bind, Hr2. cbn [and_then]. destruct thds as [p|].
  - edestruct (emits_bind h (create_all n) (fun _ => join_all n;; Ret ret) tt ret)
      as (w3 & tr3 & Hr3 & Ho3); [apply emits_create_all; lia| |].
    + eapply emits_eq; [|apply (app_nil_r (Joined <$> seqZ 0 n))].
      eapply emits_bind; [apply emits_join_all; lia|apply emits_ret].
    + exists (Some p), w3, (tr2 ++ tr3). split; [|by rewrite observed_app, Ho2, Ho3].
      etransitivity; [exact Hr3|]. by rewrite <- !app_assoc.
  - exists None, w2, tr2. split; [|by rewrite app_nil_r].
    unfold create_in. destruct (Z.to_nat n) as [|k] eqn:E; [lia|]. cbn. by rewrite <- app_assoc.
Qed.

Module HeartbeatFacts.
Import Heartbeat.

Definition settings (o : command_opts) : list (option_ * option string) :=
  match message o with Some m => [(Option_ "message" true "m", Some m)] | None => [] end
  ++ number_settings o ++ flag_settings o.

(** What a beat, a thread and [main] are observed as. *)
Definition beat_obs (id : Z) (o : command_opts) (i : Z) : list obs :=
  (if quiet o =? 0
   then [Line ("0x%-16lx %-10d %s" +:+ NL) [PInt id; PInt i; PStr (message o)]] else [])
  ++ [Point "heartbeat" "msg" [PStr (message o)]; Pause (u32 (delay o))].

Definition main_obs (thds : option Z) (o : command_opts) : list obs :=
  (if verbose o =? 0 then [] else dump_lines
     [("message", PStr (message o)); ("delay", PInt (delay o)); ("rep", PInt (rep o));
      ("nb_thread", PInt (nb_thread o)); ("verbose", PInt (verbose o)); ("quiet", PInt (quiet o))])
  ++ (if quiet o =? 0 then [Line ("%-18s %-10s %s" +:+ NL)
        [PStr (Some "id"); PStr (Some "rep"); PStr (Some "message")]] else [])
  ++ threads_obs thds (nb_thread o).

Lemma heartbeat_settings o :
  well_formed o -> opt_loop parse_opt (getopt_long optstring options None (words (settings o))) (0, no_opts) = Ret (0, o).
Proof.
  intros (Hd & Hr & Hn & Hv & Hq). rewrite getopt_long_words.
  - destruct o as [m d r n v q]. unfold settings, number_settings, flag_settings.
    cbn [message delay rep nb_thread verbose quiet] in *.
    destruct m as [m|], Hv as [->| ->], Hq as [->| ->]; cbn; rewrite !atoi_render by clia; reflexivity.
  - unfold settings, flag_settings. destruct (message o), Hv as [->| ->], Hq as [->| ->]; reflexivity.
Qed.

Lemma emits_beat {W} (h : handler W) id o i : emits h (beat id o i) tt (beat_obs id o i).
Proof.
  unfold beat, beat_obs. eapply emits_bind with (a := tt).
  - destruct (quiet o =? 0); [by apply (emits_last h _ (Some (Line _ _)))|apply emits_ret].
  - apply (emits_call h _ _ tt [Pause (u32 (delay o))] (Some (Point _ _ _))); [done|]. intros _.
    by apply (emits_unit h _ (Some (Pause _))).
Qed.

Lemma run_heartbeat_main {W} (h : handler W) o w :
  well_formed o ->
  exists thds w' tr,
    run (traced h) (main (words (settings o))) (w, []) = (threads_outcome thds 0, (w', tr))
    /\ Ev (Calloc 8 (nb_thread (defaults o))) thds ∈ tr /\ observed tr = main_obs thds (defaults o).
Proof.
  intros Hw. unfold main, parse_opts. rewrite heartbeat_settings by done.
  rewrite run_bind. cbn [mbind prog_bind].
  destruct (emits_if h (negb (verbose (defaults o) =? 0)) (dump_opts (defaults o)) _ (emits_dump h _) w [])
    as (w1 & tr1 & Hr1 & Ho1).
  rewrite run_bind, Hr1. cbn [and_then]. rewrite run_ret. cbn [and_then].
  change (0 <? 0) with false. cbv iota.
  assert (0 < nb_thread (defaults o) <= INT_MAX) as Hn.
  { destruct Hw as (_ & _ & Hn & _). cbn [defaults nb_thread].
    unfold default_int_value, DEFAULT_NB_THD. case_if; clia. }
  edestruct (run_threads h (nb_thread (defaults o))
    (if quiet (defaults o) =? 0 then call (Printf ("%-18s %-10s %s" +:+ NL)
       [PStr (Some "id"); PStr (Some "rep"); PStr (Some "message")]) else Ret tt)) as (thds & w2 & tr2 & Hr2 & Ho2); [lia| |].
  { apply (emits_if h (quiet (defaults o) =? 0)). eapply (emits_last h _ (Some (Line _ _))). reflexivity. }
  exists thds, w2. eexists. split; [exact Hr2|]. rewrite u64_id by clia. split.
  - apply elem_of_app. right. apply elem_of_cons. by left.
  - rewrite observed_app. cbn [app]. rewrite Ho1. unfold observed in *. cbn [omap list_omap observe].
    rewrite Ho2. unfold main_obs. by destruct (verbose (defaults o) =? 0).
Qed.

(** (C32) [wk-heartbeat] from its command line to its last event.  The
    options, written as long options in any combination, are read back exactly,
    with the defaults for the zeros and the missing message; [main] then asks for
    the array of its threads and prints its header unless it is to be quiet; if
    it was given the array it creates the [nb_thread] threads, joins them all
    and returns 0, and if not, it writes the first thread through NULL.  Each
    thread waits once, and records exactly [rep] events with the message,
    numbered on the way and each followed by one wait of [delay], which
    [usleep] takes as unsigned. *)
Theorem heartbeat_program {W} (h : handler W) (o : command_opts) (Hw : well_formed o) (w : W) :
  (exists thds w' tr,
     run (traced h) (main (words (settings o))) (w, []) = (threads_outcome thds 0, (w', tr))
     /\ Ev (Calloc 8 (nb_thread (defaults o))) thds ∈ tr
     /\ observed tr = main_obs thds (defaults o))
  /\ (exists id w' tr,
       run (traced h) (heartbeat_thread (Some (defaults o))) (w, []) = (Done tt, (w', tr))
       /\ observed tr = Pause (u32 (delay (defaults o)))
            :: concat (beat_obs id (defaults o) <$> seqZ 0 (rep (defaults o)))).
Proof.
  split; [by apply run_heartbeat_main|].
  set (o' := defaults o). assert (0 <= rep o') as Hr.
  { destruct Hw as (_ & Hr & _). cbn [o' defaults rep]. unfold default_int_value, DEFAULT_REP.
    case_if; lia. }
  unfold heartbeat_thread. step_run.
  edestruct (emits_for h (fun i _ => beat (h _ Pthread_self w).1 o' i)
    (beat_obs (h _ Pthread_self w).1 o') (Z.to_nat (rep o')) 0) as (w' & tr & Hrun & Hobs).
  { intros j _. apply emits_beat. }
  exists (h _ Pthread_self w).1. do 2 eexists. split; [exact Hrun|].
  rewrite observed_app, Hobs, Z2Nat.id by done. reflexivity.
Qed.

Theorem heartbeat_program_witness :
  exists w' tr,
    run (traced default_handler) (main (words (settings (Opts None (-5) 0 2 0 1)))) (tt, []) = (Done 0, (w', tr))
    /\ observed tr = [Created 0; Created 1; Joined 0; Joined 1].
Proof.
  assert (well_formed (Opts None (-5) 0 2 0 1)) as Hw by (by vm_compute; intuition).
  destruct (heartbeat_program default_handler _ Hw tt) as [(thds & w' & tr & Hr & _ & Ho) _].
  destruct thds as [p|]; [by exists w', tr|]. vm_compute in Hr. discriminate.
Defined.
End HeartbeatFacts.

Module BurnustFacts.
Import Burnust.

Definition settings (o : command_opts) : list (option_ * option string) :=
  number_settings o ++ flag_settings o.

Definition burn_obs (id : Z) (o : command_opts) (i j : Z) : list obs :=
  (if quiet o =? 0 then [Line ("0x%-16lx %-10d" +:+ NL) [PInt id; PInt (i + j)]] else [])
  ++ [Point "burnust" "count" [PInt (i + j)]]
  ++ (if 0 <? delay o then [Pause (u32 (delay o))] else []).

Definition turn_obs (id : Z) (o : command_opts) (i : Z) : list obs :=
  concat (burn_obs id o i <$> seqZ 0 (rep o)).

Definition main_obs (thds : option Z) (o : command_opts) : list obs :=
  (if verbose o =? 0 then [] else dump_lines
     [("delay", PInt (delay o)); ("rep", PInt (rep o)); ("nb_thread", PInt (nb_thread o));
      ("verbose", PInt (verbose o)); ("quiet", PInt (quiet o))])
  ++ (if quiet o =? 0 then [Line ("%-18s %-10s" +:+ NL) [PStr (Some "id"); PStr (Some "rep")]] else [])
  ++ threads_obs thds (nb_thread o).

Lemma burnust_settings o :
  well_formed o -> message o = None ->
  opt_loop parse_opt (getopt_long optstring options None (words (settings o))) (0, no_opts) = Ret (0, o).
Proof.
  intros (Hd & Hr & Hn & Hv & Hq) Hm. rewrite getopt_long_words.
  - destruct o as [m d r n v q]. unfold settings, number_settings, flag_settings.
    cbn [message delay rep nb_thread verbose quiet] in *. subst m.
    destruct Hv as [->| ->], Hq as [->| ->]; cbn; rewrite !atoi_render by clia; reflexivity.
  - unfold settings, flag_settings. destruct Hv as [->| ->], Hq as [->| ->]; reflexivity.
Qed.

Lemma run_burnust_main {W} (h : handler W) o w :
  well_formed o -> message o = None ->
  exists thds w' tr,
    run (traced h) (main (words (settings o))) (w, []) = (threads_outcome thds 0, (w', tr))
    /\ Ev (Calloc 8 (nb_thread (defaults o))) thds ∈ tr /\ observed tr = main_obs thds (defaults o).
Proof.
  intros Hw Hm. unfold main, parse_opts. rewrite burnust_settings by done.
  rewrite run_bind. cbn [mbind prog_bind].
  destruct (emits_if h (negb (verbose (defaults o) =? 0)) (dump_opts (defaults o)) _ (emits_dump h _) w [])
    as (w1 & tr1 & Hr1 & Ho1).
  rewrite run_bind, Hr1. cbn [and_then]. rewrite run_ret. cbn [and_then].
  change (0 <? 0) with false. cbv iota.
  assert (0 < nb_thread (defaults o) <= INT_MAX) as Hn.
  { destruct Hw as (_ & _ & Hn & _). cbn [defaults nb_thread].
    unfold default_int_value, DEFAULT_NB_THD. case_if; clia. }
  edestruct (run_threads h (nb_thread (defaults o))
    (if quiet (defaults o) =? 0 then call (Printf ("%-18s %-10s" +:+ NL) [PStr (Some "id"); PStr (Some "rep")]) else Ret tt)) as (thds & w2 & tr2 & Hr2 & Ho2); [lia| |].
  { apply (emits_if h (quiet (defaults o) =? 0)). eapply (emits_last h _ (Some (Line _ _))). reflexivity. }
  exists thds, w2. eexists. split; [exact Hr2|]. rewrite u64_id by clia. split.
  - apply elem_of_app. right. apply elem_of_cons. by left.
  - rewrite observed_app. cbn [app]. rewrite Ho1. unfold observed in *. cbn [omap list_omap observe].
    rewrite Ho2. unfold main_obs. by destruct (verbose (defaults o) =? 0).
Qed.

Lemma emits_burn {W} (h : handler W) id o i j :
  i + j <= INT_MAX -> emits h (burn id o i j) tt (burn_obs id o i j).
Proof.
  intros H. unfold burn, burn_obs. rewrite (proj2 (Z.ltb_ge _ _)) by done.
  eapply emits_bind with (a := tt).
  - destruct (quiet o =? 0); [by apply (emits_last h _ (Some (Line _ _)))|apply emits_ret].
  - apply (emits_call h _ _ tt _ (Some (Point _ _ _))); [done|]. intros _.
    apply emits_if. by apply (emits_unit h _ (Some (Pause _))).
Qed.

Definition is_point (o : obs) : bool := match o with Point _ _ _ => true | _ => false end.

Lemma length_points_concat {A} (f : A -> list obs) (l : list A) n :
  (forall x, length (List.filter is_point (f x)) = n) ->
  length (List.filter is_point (concat (f <$> l))) = (length l * n)%nat.
Proof.
  intros H. induction l as [|x l IH]; [done|]. rewrite fmap_cons. cbn [concat length].
  rewrite List.filter_app, length_app, H, IH. lia.
Qed.

Lemma points_of_thread id o :
  length (List.filter is_point (concat (turn_obs id o <$> seqZ 0 (rep o))))
  = (Z.to_nat (rep o) * Z.to_nat (rep o))%nat.
Proof.
  rewrite (length_points_concat _ _ (Z.to_nat (rep o))); [by rewrite length_seqZ|].
  intros i. unfold turn_obs. rewrite (length_points_concat _ _ 1); [rewrite length_seqZ; lia|].
  intros j. unfold burn_obs. by destruct (quiet o =? 0), (0 <? delay o).
Qed.

(** (C33) A thread of [wk-burnust] is defined exactly when [rep] is at most
    2^30, beyond which the [int] [i + j] overflows; it then records the events
    [i + j] for every [i] and [j] below [rep], in order: [rep * rep] of them,
    and not [rep] as the usage text has it. *)
Theorem burnust_events {W} (h : handler W) (o : command_opts) (Hr : 0 <= rep o <= INT_MAX) (w : W) :
  (rep o <= 2 ^ 30 ->
     exists id w' tr, run (traced h) (burnust_thread (Some o)) (w, []) = (Done tt, (w', tr))
       /\ observed tr = Pause (u32 (delay o)) :: concat (turn_obs id o <$> seqZ 0 (rep o))
       /\ Z.of_nat (length (List.filter is_point (observed tr))) = rep o * rep o)
  /\ (2 ^ 30 < rep o ->
     exists w' tr, run (traced h) (burnust_thread (Some o)) (w, []) = (Undefined "overflow of i + j", (w', tr))).
Proof.
  unfold burnust_thread. step_run. set (id := (h _ Pthread_self w).1).
  assert (forall i, i + rep o - 1 <= INT_MAX ->
    emits h (for_ (Z.to_nat (rep o)) 0 (fun j _ => burn id o i j) tt) tt (turn_obs id o i)) as Hturn.
  { intros i Hi. eapply emits_eq; [apply (emits_for h _ (burn_obs id o i)); intros j Hj; apply emits_burn; lia|].
    unfold turn_obs. do 3 f_equal. lia. }
  split; intros Hb.
  - edestruct (emits_for h (fun i _ => for_ (Z.to_nat (rep o)) 0 (fun j _ => burn id o i j) tt)
      (turn_obs id o) (Z.to_nat (rep o)) 0) as (w' & tr & Hrun & Hobs).
    { intros i Hi. apply Hturn. clia. }
    exists id. do 2 eexists. split; [exact Hrun|]. rewrite observed_app, Hobs, Z2Nat.id by lia.
    split; [reflexivity|].
    rewrite List.filter_app, length_app, points_of_thread. cbn. lia.
  - apply (goes_wrong_for h _ (turn_obs id o) _ 0 (INT_MAX - rep o + 2)); [|clia|].
    + intros i Hi. apply Hturn. lia.
    + apply (goes_wrong_for h _ (burn_obs id o (INT_MAX - rep o + 2)) _ 0 (rep o - 1)); [|lia|].
      * intros j Hj. apply emits_burn. lia.
      * intros w1 tr1. unfold burn. rewrite (proj2 (Z.ltb_lt _ _)) by lia. by do 2 eexists.
Qed.

Theorem burnust_events_witness :
  exists w' tr, run (traced default_handler) (burnust_thread (Some (Opts None 0 1500000000 1 0 1))) (tt, [])
    = (Undefined "overflow of i + j", (w', tr)).
Proof. apply (burnust_events default_handler (Opts None 0 1500000000 1 0 1)); cbn; clia. Defined.
End BurnustFacts.

(** ** Any command line *)

Lemma returns_dump {W} (h : handler W) l : returns h (dump l) (fun _ => True).
Proof.
  unfold dump. apply returns_call. intros _. induction l as [|[n [z|x|d]] l IH]; [by intros w|..]; by apply returns_call.
Qed.

(** The types of the members, before and after the defaults. *)
Definition typed (ro : Z * command_opts) : Prop :=
  let '(ret, o) := ro in
  (ret = 0 \/ ret = -1) /\ in_s32 (delay o) /\ in_s32 (rep o) /\ in_s32 (nb_thread o)
  /\ (verbose o = 0 \/ verbose o = 1) /\ (quiet o = 0 \/ quiet o = 1).

Lemma typed_start : typed (0, no_opts).
Proof. cbn. split_and!; by (left || clia). Qed.

Lemma default_int_range v d : in_s32 v -> in_s32 d -> in_s32 (default_int_value v d).
Proof. unfold default_int_value. by case_if. Qed.

Lemma default_int_nonzero v d : d <> 0 -> default_int_value v d <> 0.
Proof. unfold default_int_value. case_if; lia. Qed.

(** An option that is declared with an argument has one. *)
Ltac typed_case :=
  first [apply returns_usage
    | apply returns_with_arg; [by match goal with H : has_its_arg _ _ _ , E : opt _ = _ |- _ => apply H; rewrite E end|];
      intros ?; cbn in *; split_and!; try tauto; apply s32_range
    | apply returns_ret; cbn in *; split_and!; try tauto; clia
    | apply returns_call; intros _; apply returns_ret; cbn in *; split_and!; try tauto; clia].

Lemma heartbeat_parse_opt_typed {W} (h : handler W) f s :
  has_its_arg Heartbeat.optstring Heartbeat.options f -> typed s -> returns h (Heartbeat.parse_opt f s) typed.
Proof.
  destruct s as [ret o]. intros Hf Hs. unfold Heartbeat.parse_opt.
  destruct (opt f) as [b0 b1 b2 b3 b4 b5 b6 b7] eqn:E. repeat case_match; subst; typed_case.
Qed.

Lemma burnust_parse_opt_typed {W} (h : handler W) f s :
  has_its_arg Burnust.optstring Burnust.options f -> typed s -> returns h (Burnust.parse_opt f s) typed.
Proof.
  destruct s as [ret o]. intros Hf Hs. unfold Burnust.parse_opt.
  destruct (opt f) as [b0 b1 b2 b3 b4 b5 b6 b7] eqn:E. repeat case_match; subst; typed_case.
Qed.

(** Whatever the command line, the reading of the options ends, in
    [usage] or with options, an option without its argument never reaching the
    conversion of the argument; and the options the programs go on with are well formed: the numbers are [int]s, none of the three that have a default is
    zero (but the delay of [wk-burnust], whose default is 0), the two flags are
    0 or 1, the result is 0 or -1 and the message of [wk-heartbeat] is not NULL. *)
Theorem options_well_typed {W} (h : handler W) (argv : list string) :
  returns h (Heartbeat.parse_opts argv) (fun '(ret, o) =>
    typed (ret, o) /\ is_Some (message o) /\ delay o <> 0 /\ rep o <> 0 /\ nb_thread o <> 0)
  /\ returns h (Burnust.parse_opts argv) (fun '(ret, o) =>
    typed (ret, o) /\ rep o <> 0 /\ nb_thread o <> 0).
Proof.
  split.
  - unfold Heartbeat.parse_opts. apply (returns_bind _ _ _ typed).
    { apply returns_opt_loop; [apply typed_start|apply heartbeat_parse_opt_typed]. }
    intros [ret o] (Hr & Hd & Hp & Hn & Hv & Hq).
    apply (returns_bind _ _ _ (fun _ => True)); [case_if; [apply returns_dump|by apply returns_ret]|].
    intros _ _. apply returns_ret. unfold Heartbeat.defaults, Heartbeat.DEFAULT_DELAY, Heartbeat.DEFAULT_REP, Heartbeat.DEFAULT_NB_THD.
    cbn [typed message delay rep nb_thread verbose quiet].
    split_and!; try tauto; try (apply default_int_range; [done|clia]); try (by apply default_int_nonzero). by eexists.
  - unfold Burnust.parse_opts. apply (returns_bind _ _ _ typed).
    { apply returns_opt_loop; [apply typed_start|apply burnust_parse_opt_typed]. }
    intros [ret o] (Hr & Hd & Hp & Hn & Hv & Hq).
    apply (returns_bind _ _ _ (fun _ => True)); [case_if; [apply returns_dump|by apply returns_ret]|].
    intros _ _. apply returns_ret. unfold Burnust.defaults, Burnust.DEFAULT_DELAY, Burnust.DEFAULT_REP, Burnust.DEFAULT_NB_THD.
    cbn [typed message delay rep nb_thread verbose quiet].
    split_and!; try tauto; try (apply default_int_range; [done|clia]); by apply default_int_nonzero.
Qed.
