(* ===== verification/Cputemp.v ===== *)
(** * ust/cputemp/cputemp.c

    [wk-cputemp]: reads the temperature of the cores a number of times and
    records an event when it changes.  The sensors library answers through
    the environment; its constants are parameters. *)

From S2P Require Import Prelude CInt CString Libc CFloat Utils Getopt Traces.

Local Open Scope string_scope.
Local Open Scope list_scope.
Local Open Scope Z_scope.

Definition PROGRAM : string := "wk-cputemp".
Definition PROG_VERSION : string := "0.0.1".
Definition BUF_SIZE : Z := 200.

(** [check_gen_trace]: the new [curr_val_buff], and whether to trace. *)
Definition check_gen_trace (curr_val_buff curr_val : float) : float * bool :=
  if fneqb curr_val_buff curr_val then (curr_val, true) else (curr_val_buff, false).

Section cputemp.
Variables (SENSORS_FEATURE_TEMP SENSORS_SUBFEATURE_TEMP_FAULT SENSORS_SUBFEATURE_TEMP_INPUT
  SENSORS_ERR_ACCESS_R : Z).

Definition print_short_help : prog unit :=
  call (Printf ("Try `%s -h' for more information" +:+ NL) [PStr (Some PROGRAM)]).

Definition print_version : prog unit :=
  call (Printf ("%s version is %s" +:+ NL) [PStr (Some PROGRAM); PStr (Some PROG_VERSION)]).

(** [puts] adds a newline. *)
Definition print_long_help : prog unit :=
  call (Printf ("Usage: %s [OPTION]... [CHIP]..." +:+ NL) [PStr (Some PROGRAM)]);;
  call (Printf ("  -t, --sample-time     Specify time between each observation sample" +:+ NL
    +:+ "  -r, --repeat          Specify how many times to repeat observation" +:+ NL
    +:+ "  -h, --help            Display this help text" +:+ NL
    +:+ "  -v, --version         Display the program version" +:+ NL +:+ NL) []).

Definition sprintf_chip_name (chip : Z) : prog (option string) :=
  '(n, s) ← call (Sensors_snprintf_chip_name chip BUF_SIZE);
  Ret (if n <? 0 then None else Some s).

(** [printf("%s:%*s", label, space - len, "")]. *)
Definition print_label (label : string) (space : Z) : prog unit :=
  let len := Z.of_nat (String.length label) + 1 in
  call (Printf "%s:%*s" [PStr (Some label); PInt (space - len); PStr (Some "")]).

Definition sub_error (sub : string) (err : Z) : prog unit :=
  e ← call (Sensors_strerror err);
  call (Eprintf ("ERROR: Can't get value of subfeature %s: %s" +:+ NL) [PStr (Some sub); PStr e]).

(** The error and the new [*val], written on success only. *)
Definition get_input_value (chip : Z) (sub : string * Z) (val : option double) : prog (Z * option double) :=
  '(err, v) ← call (Sensors_get_value chip sub.2);
  (if negb (err =? 0) && negb (err =? - SENSORS_ERR_ACCESS_R) then sub_error sub.1 err else Ret tt);;
  Ret (err, if err =? 0 then Some v else val).

Definition get_value (chip : Z) (sub : string * Z) : prog double :=
  '(err, val) ← call (Sensors_get_value chip sub.2);
  if negb (err =? 0) then sub_error sub.1 err;; Ret (double_of_Z 0) else Ret val.

(** Is a [double] true? *)
Definition dtrue (d : double) : bool := fneqb d (S754_zero false).

(** The printing of a temperature, which makes an event when it differs from
    the last one. *)
Definition show_temp (buf : float) (val : double) : prog float :=
  call (Printf ("%+6.1f%s " +:+ NL) [PDouble val; PStr (Some " deg C")]);;
  let '(buf, changed) := check_gen_trace buf (float_of_double val) in
  if changed
  then call (Tracepoint_args "cputemp" "temp" [PDouble val]);; Ret buf
  else Ret buf.

(** The features are [(handle, name, type)]. *)
Definition print_chip_temp (chip : Z) (feature : Z * string * Z) (label_size : Z) (buf : float) : prog float :=
  let '(feat, fname, _) := feature in
  l ← call (Sensors_get_label chip feat);
  match l with
  | None =>
      call (Eprintf ("ERROR: Can't get label of feature %s!" +:+ NL) [PStr (Some fname)]);; Ret buf
  | Some (p, label) =>
      print_label label label_size;;
      call (Free (Some p));;
      sf ← call (Sensors_get_subfeature chip feat SENSORS_SUBFEATURE_TEMP_FAULT);
      fault ← (match sf with Some sf => v ← get_value chip sf; Ret (dtrue v) | None => Ret false end);
      if fault : bool then call (Printf "   FAULT  " []);; Ret buf
      else
        sf ← call (Sensors_get_subfeature chip feat SENSORS_SUBFEATURE_TEMP_INPUT);
        match sf with
        | None => call (Printf "     N/A  " []);; Ret buf
        | Some sf =>
            '(err, val) ← get_input_value chip sf None;
            if err =? 0 then
              '(_, val) ← get_input_value chip sf val;
              match val with
              | None => Undef "read of an indeterminate double"
              | Some val => show_temp buf val
              end
            else call (Printf "     N/A  " []);; Ret buf
        end
  end.

(** [while ((iter = sensors_get_features(name, &i)))]. *)
Fixpoint label_sizes (fuel : nat) (chip i max_size : Z) : prog Z :=
  match fuel with
  | O => Fuel
  | S fuel =>
      '(iter, i) ← call (Sensors_get_features chip i);
      match iter with
      | None => Ret max_size
      | Some (feat, _, _) =>
          l ← call (Sensors_get_label chip feat);
          let max_size :=
            match l with
            | Some (_, label) => if max_size <? u64 (Z.of_nat (String.length label))
                                 then u32 (Z.of_nat (String.length label)) else max_size
            | None => max_size
            end in
          call (Free (fst <$> l));;
          label_sizes fuel chip i max_size
      end
  end.

Definition get_label_size (fuel : nat) (chip : Z) : prog Z :=
  max_size ← label_sizes fuel chip 0 11;
  Ret (s32 (u32 (max_size + 2))).

Definition print_chip (fuel : nat) (chip : Z) (buf : float) : prog float :=
  label_size ← get_label_size fuel chip;
  '(feature, _) ← call (Sensors_get_features chip 0);
  match feature with
  | None => Undef "NULL feature"
  | Some (feat, fname, ty) =>
      if ty =? SENSORS_FEATURE_TEMP then print_chip_temp chip (feat, fname, ty) label_size buf
      else call (Printf "Feature was not TEMP" []);; Ret buf
  end.

Definition do_a_print (fuel : nat) (chip : Z) (buf : float) : prog float :=
  name ← sprintf_chip_name chip;
  call (Printf ("Chip : %s" +:+ NL) [PStr name]);;
  buf ← print_chip fuel chip buf;
  call (Printf NL []);;
  Ret buf.

(** [while ((chip = sensors_get_detected_chips(match, &chip_nr)))]. *)
Fixpoint chips (fuel depth : nat) (chip_nr cnt : Z) (buf : float) : prog (Z * float) :=
  match fuel with
  | O => Fuel
  | S fuel =>
      '(chip, chip_nr) ← call (Sensors_get_detected_chips chip_nr);
      match chip with
      | None => Ret (cnt, buf)
      | Some (chip, prefix) =>
          buf ← (if strstr prefix "core" then do_a_print depth chip buf else Ret buf);
          chips fuel depth chip_nr (s32 (cnt + 1)) buf
      end
  end.

Definition do_the_real_work (fuel : nat) (buf : float) : prog (Z * float) := chips fuel fuel 0 0 buf.

(** ** main *)

Definition optstring : string := "hvt:r:".
Definition long_opts : list option_ :=
  [Option_ "help" false "h"; Option_ "version" false "v"; Option_ "sample-time" true "t";
   Option_ "repeat" true "r"].

(** The [switch], on [(repeat_val, sample_time)]. *)
Definition parse_opt (f : found) '((repeat_val, sample_time) : Z * Z) : prog (Z * Z) :=
  match opt f with
  | ":"%char | "?"%char => print_short_help;; Exit 1
  | "h"%char => print_long_help;; Exit 0
  | "v"%char => print_version;; Exit 0
  | "r"%char => with_arg f (fun a => Ret (atoi a, sample_time))
  | "t"%char => with_arg f (fun a => Ret (repeat_val, atoi a))
  | _ => call (Eprintf ("Internal error while parsing options!" +:+ NL) []);; Exit 1
  end.

(** One turn of [for (i=1; i<repeat_val; i++)], on [err] and
    [curr_val_buff]. *)
Definition observe_once (fuel : nat) (sample_time : Z) (buf : float) : prog (Z * float) :=
  '(err, buf) ← do_the_real_work fuel buf;
  (if err =? 0
   then call (Printf ("Error with do_the_real_work() in %s" +:+ NL)
     [PStr (Some "main")])
   else Ret tt);;
  if (INT_MIN <=? sample_time * 1000) && (sample_time * 1000 <=? INT_MAX)
  then call (Usleep (u32 (sample_time * 1000)));; Ret (err, buf)
  else Undef "overflow of sample_time*1000".

Definition main (fuel : nat) (argv : list string) : prog Z :=
  '(repeat_val, sample_time) ← opt_loop parse_opt (getopt_long optstring long_opts None argv) (0, 500);
  err ← call Sensors_init;
  if negb (err =? 0) then
    e ← call (Sensors_strerror err);
    call (Eprintf ("sensors_init: %s" +:+ NL) [PStr e]);;
    call (Printf "Sensor Init Error!!" []);;
    Ret 1
  else
    '(err, buf) ← for_ (Z.to_nat (repeat_val - 1)) 1 (fun _ '(_, buf) =>
       observe_once fuel sample_time buf) (err, S754_zero false);
    '(n, _) ← do_the_real_work fuel buf;
    err ← (if n =? 0
           then call (Eprintf ("No sensors found!" +:+ NL
                  +:+ "Make sure you loaded all the kernel drivers you need." +:+ NL
                  +:+ "Try sensors-detect to find out which these are." +:+ NL) []);; Ret 1
           else Ret err);
    call Sensors_cleanup;;
    Exit err.
End cputemp.

(** ** What a run shows of the temperatures *)

Inductive temp := Shown (v : double) | Traced (v : double).

Definition temp_ev (e : ev) : option temp :=
  match e with
  | Ev (Printf fmt [PDouble v; _]) _ => if String.eqb fmt ("%+6.1f%s " +:+ NL) then Some (Shown v) else None
  | Ev (Tracepoint_args "cputemp" "temp" [PDouble v]) _ => Some (Traced v)
  | _ => None
  end.

Definition temps (tr : list ev) : list temp := omap temp_ev tr.

Definition shown (l : list temp) : list double :=
  omap (fun t => match t with Shown v => Some v | Traced _ => None end) l.
Definition traced_temps (l : list temp) : list double :=
  omap (fun t => match t with Traced v => Some v | Shown _ => None end) l.

(** The reference: the values that differ, as [float]s, from the last one
    kept, [c] at first. *)
Fixpoint changes (c : float) (vs : list double) : list double :=
  match vs with
  | [] => []
  | v :: vs => if fneqb c (float_of_double v) then v :: changes (float_of_double v) vs else changes c vs
  end.

(** The buffer after these values, and what they leave in the trace. *)
Fixpoint last_kept (c : float) (vs : list double) : float :=
  match vs with
  | [] => c
  | v :: vs => last_kept (if fneqb c (float_of_double v) then float_of_double v else c) vs
  end.

Fixpoint log (c : float) (vs : list double) : list temp :=
  match vs with
  | [] => []
  | v :: vs =>
      if fneqb c (float_of_double v) then Shown v :: Traced v :: log (float_of_double v) vs
      else Shown v :: log c vs
  end.

Lemma shown_log c vs : shown (log c vs) = vs.
Proof. revert c. induction vs as [|v vs IH]; intros c; [done|]. cbn. case_if; cbn; f_equal; apply IH. Qed.

Lemma traced_log c vs : traced_temps (log c vs) = changes c vs.
Proof.
  revert c. induction vs as [|v vs IH]; intros c; [done|]. cbn [log changes].
  case_if; [cbn; f_equal|]; apply IH.
Qed.

Lemma log_app c vs1 vs2 : log c (vs1 ++ vs2) = log c vs1 ++ log (last_kept c vs1) vs2.
Proof.
  revert c. induction vs1 as [|v vs1 IH]; intros c; [done|]. cbn [log app last_kept].
  case_if; rewrite IH; done.
Qed.

Lemma last_kept_app c vs1 vs2 : last_kept c (vs1 ++ vs2) = last_kept (last_kept c vs1) vs2.
Proof. revert c. induction vs1 as [|v vs1 IH]; intros c; [done|]. apply IH. Qed.

(** [p], started with the buffer [c], shows some temperatures and leaves the
    buffer [next] of its result; it need not end normally. *)
Section tracks.
Context {W : Type} (h : handler W).

Definition tracks {A} (p : prog A) (c : float) (next : A -> float) : Prop :=
  forall w tr, exists o w' tr' vs,
    run (traced h) p (w, tr) = (o, (w', tr ++ tr')) /\ temps tr' = log c vs
    /\ forall a, o = Done a -> next a = last_kept c vs.


Lemma tracks_ret {A} (a : A) c next : next a = c -> tracks (Ret a) c next.
Proof. intros H w tr. exists (Done a), w, [], []. rewrite app_nil_r. split_and!; [done..|]. by intros ? [= <-]. Qed.
Lemma tracks_exit {A} s c (next : A -> float) : tracks (Exit s) c next.
Proof. intros w tr. exists (Exited s), w, [], []. by rewrite app_nil_r. Qed.
Lemma tracks_undef {A} s c (next : A -> float) : tracks (Undef s) c next.
Proof. intros w tr. exists (Undefined s), w, [], []. by rewrite app_nil_r. Qed.
Lemma tracks_fuel {A} c (next : A -> float) : tracks Fuel c next.
Proof. intros w tr. exists Out_of_fuel, w, [], []. by rewrite app_nil_r. Qed.

Lemma tracks_bind {A B} (p : prog A) (f : A -> prog B) c next1 next2 :
  tracks p c next1 -> (forall a, tracks (f a) (next1 a) next2) -> tracks (p ≫= f) c next2.
Proof.
  intros Hp Hf w tr. destruct (Hp w tr) as (o & w1 & tr1 & vs1 & Hr1 & Ht1 & Hn1).
  rewrite run_bind, Hr1. destruct o as [a|s|s|]; cbn [and_then].
  2-4: do 2 eexists; exists tr1, vs1; split_and!; [done..|]; intros ? [=].
  destruct (Hf a w1 (tr ++ tr1)) as (o & w2 & tr2 & vs2 & Hr2 & Ht2 & Hn2).
  rewrite (Hn1 a eq_refl) in *.
  exists o, w2, (tr1 ++ tr2), (vs1 ++ vs2). rewrite Hr2, <- app_assoc. split_and!; [done|..].
  - unfold temps in *. by rewrite omap_app, Ht1, Ht2, log_app.
  - intros b Hb. by rewrite last_kept_app, (Hn2 b Hb).
Qed.

(** A call that shows no temperature. *)
Lemma tracks_call {X} (e : sys X) c :
  (forall x, temp_ev (Ev e x) = None) -> tracks (call e) c (fun _ => c).
Proof.
  intros H w tr. rewrite run_traced_call. do 2 eexists. exists [Ev e (h X e w).1], [].
  split_and!; [done| |done]. unfold temps. cbn [omap list_omap]. by rewrite H.
Qed.

Lemma tracks_call_bind {X B} (e : sys X) (f : X -> prog B) c next :
  (forall x, temp_ev (Ev e x) = None) -> (forall x, tracks (f x) c next) -> tracks (call e ≫= f) c next.
Proof. intros. eapply tracks_bind; [by apply tracks_call|done]. Qed.

(** A loop that carries the buffer. *)
Lemma tracks_for {S} (body : Z -> S -> prog S) (next : S -> float) n i s :
  (forall j s, tracks (body j s) (next s) next) -> tracks (for_ n i body s) (next s) next.
Proof.
  intros Hb. revert i s. induction n as [|n IH]; intros i s; cbn [for_]; [by apply tracks_ret|].
  eapply tracks_bind; [apply Hb|]. intros s'. apply IH.
Qed.

Lemma tracks_show buf val : tracks (show_temp buf val) buf id.
Proof.
  intros w tr. unfold show_temp, check_gen_trace. rewrite run_bind, run_traced_unit. cbn [and_then].
  destruct (fneqb buf (float_of_double val)) eqn:E.
  - rewrite run_bind, run_traced_unit. cbn [and_then]. rewrite run_ret, <- app_assoc. do 2 eexists.
    eexists. exists [val]. split_and!; [reflexivity| |].
    + cbn. by rewrite E.
    + intros a [= <-]. cbn. by rewrite E.
  - rewrite run_ret. do 3 eexists. exists [val]. split_and!; [reflexivity| |].
    + cbn. by rewrite E.
    + intros a [= <-]. cbn. by rewrite E.
Qed.
End tracks.

(** A part of the program that leaves the buffer alone. *)
Lemma tracks_bind_same {W A B} (h : handler W) (p : prog A) (f : A -> prog B) c next :
  tracks h p c (fun _ => c) -> (forall a, tracks h (f a) c next) -> tracks h (p ≫= f) c next.
Proof. apply tracks_bind. Qed.

(** Walk through a program that shows a temperature in [show_temp] only. *)
Ltac track :=
  repeat first
    [ progress intros
    | match goal with
      | |- tracks _ (Exit _) _ _ => apply tracks_exit
      | |- tracks _ (Undef _) _ _ => apply tracks_undef
      | |- tracks _ Fuel _ _ => apply tracks_fuel
      | |- tracks _ (Ret _) _ _ => apply tracks_ret; reflexivity
      | |- tracks _ (show_temp _ _) _ _ => apply tracks_show
      | |- tracks _ (call _) _ _ => apply tracks_call; intros; reflexivity
      | |- tracks _ (mbind _ (call _)) _ _ => apply tracks_call_bind; [intros; reflexivity|]
      | |- tracks _ (match ?x with _ => _ end) _ _ => destruct x eqn:?
      | |- tracks _ (mbind _ (match ?x with _ => _ end)) _ _ => apply tracks_bind_same
      | |- tracks _ (mbind _ (mbind _ _)) _ _ => apply tracks_bind_same
      end ].

(** What the sensors library promises of its two enumerations: an entry is
    found at a number below [n] only, and the number goes up. *)
Class Enumerates {W} (h : handler W) (n : nat) : Prop := {
  chips_listed nr w c nr' :
    (h _ (Sensors_get_detected_chips nr) w).1 = (Some c, nr') -> nr < Z.of_nat n /\ nr < nr';
  features_listed chip nr w f nr' :
    (h _ (Sensors_get_features chip nr) w).1 = (Some f, nr') -> nr < Z.of_nat n /\ nr < nr'
}.

#[export] Instance traced_enumerates {W} (h : handler W) n : Enumerates h n -> Enumerates (traced h) n.
Proof.
  intros H. split.
  - intros nr w c nr'. unfold traced. destruct (h _ _ _) as [x w'] eqn:E. cbn. intros ->.
    apply (chips_listed nr w.1 c nr'). by rewrite E.
  - intros chip nr w f nr'. unfold traced. destruct (h _ _ _) as [x w'] eqn:E. cbn. intros ->.
    apply (features_listed chip nr w.1 f nr'). by rewrite E.
Qed.

Section facts.
Context {W : Type} (h : handler W).
Variables (TEMP FAULT INPUT ACCESS_R : Z).

Lemma tracks_get_input_value chip sub val c : tracks h (get_input_value ACCESS_R chip sub val) c (fun _ => c).
Proof. unfold get_input_value, sub_error. track. Qed.

Lemma tracks_get_value chip sub c : tracks h (get_value chip sub) c (fun _ => c).
Proof. unfold get_value, sub_error. track. Qed.

Lemma tracks_print_chip_temp chip feature size buf :
  tracks h (print_chip_temp FAULT INPUT ACCESS_R chip feature size buf) buf id.
Proof.
  unfold print_chip_temp, print_label. track.
  - apply tracks_bind_same; [apply tracks_get_value|]. track.
  - apply tracks_bind_same; [apply tracks_get_input_value|]. track.
    apply tracks_bind_same; [apply tracks_get_input_value|]. track.
Qed.

Lemma tracks_label_sizes fuel chip i m c : tracks h (label_sizes fuel chip i m) c (fun _ => c).
Proof. revert i m. induction fuel as [|fuel IH]; intros i m; cbn [label_sizes]; track. apply IH. Qed.

Lemma tracks_print_chip fuel chip buf :
  tracks h (print_chip TEMP FAULT INPUT ACCESS_R fuel chip buf) buf id.
Proof.
  unfold print_chip, get_label_size. apply tracks_bind_same.
  { apply tracks_bind_same; [apply tracks_label_sizes|]. track. }
  track. apply tracks_print_chip_temp.
Qed.

Lemma tracks_do_a_print fuel chip buf :
  tracks h (do_a_print TEMP FAULT INPUT ACCESS_R fuel chip buf) buf id.
Proof.
  unfold do_a_print, sprintf_chip_name. track.
  eapply tracks_bind; [apply tracks_print_chip|]. track.
Qed.

Lemma tracks_do_the_real_work fuel buf :
  tracks h (do_the_real_work TEMP FAULT INPUT ACCESS_R fuel buf) buf snd.
Proof.
  unfold do_the_real_work. generalize fuel at 2. intros depth. generalize 0 at 1. generalize 0.
  revert buf. induction fuel as [|fuel IH]; intros buf cnt nr; cbn [chips]; [track|].
  apply tracks_call_bind; [done|]. intros [[[chip prefix]|] nr']; [|track].
  eapply tracks_bind with (next1 := id); [|intros; apply IH].
  destruct (strstr prefix "core"); [apply tracks_do_a_print|track].
Qed.

Lemma tracks_observe_once fuel st buf :
  tracks h (observe_once TEMP FAULT INPUT ACCESS_R fuel st buf) buf snd.
Proof.
  unfold observe_once. eapply tracks_bind; [apply tracks_do_the_real_work|]. track.
Qed.

Lemma tracks_opt_loop l s c : tracks h (opt_loop parse_opt l s) c (fun _ => c).
Proof.
  revert s. induction l as [|f l IH]; intros s; cbn [opt_loop]; [track|].
  apply tracks_bind_same; [|done]. unfold parse_opt, with_arg, print_short_help, print_long_help, print_version.
  destruct s as [r t]. destruct (opt f) as [[] [] [] [] [] [] [] []]; track.
Qed.

Lemma tracks_main fuel argv :
  tracks h (main TEMP FAULT INPUT ACCESS_R fuel argv) (S754_zero false) (fun _ => S754_zero false).
Proof.
  unfold main. apply tracks_bind_same; [apply tracks_opt_loop|]. intros [r t].
  apply tracks_call_bind; [done|]. intros err. destruct (negb (err =? 0)); [track|].
  eapply tracks_bind with (next1 := snd).
  { apply (tracks_for h _ snd). intros j [e buf]. apply tracks_observe_once. }
  intros [err' buf]. eapply tracks_bind; [apply tracks_do_the_real_work|]. intros [n buf']. track.
Qed.

(** ** The fuel *)

Lemma fuelled_get_input_value chip sub val : fuelled h (get_input_value ACCESS_R chip sub val).
Proof. unfold get_input_value, sub_error. walk_fuelled. Qed.
Lemma fuelled_get_value chip sub : fuelled h (get_value chip sub).
Proof. unfold get_value, sub_error. walk_fuelled. Qed.
Lemma fuelled_show_temp buf val : fuelled h (show_temp buf val).
Proof. unfold show_temp. walk_fuelled. Qed.
#[local] Hint Resolve fuelled_get_input_value fuelled_get_value fuelled_show_temp : wk_fuelled.

Lemma fuelled_print_chip_temp chip feature size buf :
  fuelled h (print_chip_temp FAULT INPUT ACCESS_R chip feature size buf).
Proof. unfold print_chip_temp, print_label. walk_fuelled. Qed.
#[local] Hint Resolve fuelled_print_chip_temp : wk_fuelled.

Lemma fuelled_opt_loop l s : fuelled h (opt_loop parse_opt l s).
Proof.
  revert s. induction l as [|f l IH]; intros s; cbn [opt_loop]; [walk_fuelled|].
  apply fuelled_bind; [|done]. unfold parse_opt, with_arg, print_short_help, print_long_help, print_version.
  destruct s as [r t]. destruct (opt f) as [[] [] [] [] [] [] [] []]; walk_fuelled.
Qed.

Section fuel.
Context (n : nat) `{!Enumerates h n}.

Lemma fuelled_label_sizes fuel chip i m :
  Z.max 0 (Z.of_nat n - i) < Z.of_nat fuel -> fuelled h (label_sizes fuel chip i m).
Proof using Type*.
  revert i m. induction fuel as [|fuel IH]; intros i m Hf; [lia|]. cbn [label_sizes].
  apply fuelled_answer. intros w. destruct (h _ (Sensors_get_features chip i) w).1 as [[[[f s] ty]|] i'] eqn:E.
  - apply features_listed in E. walk_fuelled. apply IH. lia.
  - walk_fuelled.
Qed.

Lemma fuelled_do_a_print fuel chip buf : (n < fuel)%nat ->
  fuelled h (do_a_print TEMP FAULT INPUT ACCESS_R fuel chip buf).
Proof using Type*.
  intros Hf. unfold do_a_print, sprintf_chip_name, print_chip, get_label_size. walk_fuelled.
  apply fuelled_label_sizes. lia.
Qed.

Lemma fuelled_chips fuel depth nr cnt buf :
  Z.max 0 (Z.of_nat n - nr) < Z.of_nat fuel -> (n < depth)%nat ->
  fuelled h (chips TEMP FAULT INPUT ACCESS_R fuel depth nr cnt buf).
Proof using Type*.
  revert nr cnt buf. induction fuel as [|fuel IH]; intros nr cnt buf Hf Hd; [lia|]. cbn [chips].
  apply fuelled_answer. intros w. destruct (h _ (Sensors_get_detected_chips nr) w).1 as [[[c prefix]|] nr'] eqn:E;
    [|apply fuelled_ret].
  apply chips_listed in E. apply fuelled_bind; [|intros; apply IH; lia].
  destruct (strstr prefix "core"); [by apply fuelled_do_a_print|apply fuelled_ret].
Qed.

Lemma fuelled_main fuel argv : (n < fuel)%nat -> fuelled h (main TEMP FAULT INPUT ACCESS_R fuel argv).
Proof using Type*.
  intros Hf. unfold main. apply fuelled_bind; [apply fuelled_opt_loop|]. intros [r t].
  assert (forall buf, fuelled h (do_the_real_work TEMP FAULT INPUT ACCESS_R fuel buf)) as Hwork.
  { intros buf. apply fuelled_chips; lia. }
  apply fuelled_bind; [apply fuelled_call|]. intros err. destruct (negb (err =? 0)); [walk_fuelled|].
  apply fuelled_bind.
  { apply fuelled_for. intros j [e buf]. unfold observe_once. apply fuelled_bind; [done|]. walk_fuelled. }
  intros [e buf]. apply fuelled_bind; [done|]. walk_fuelled.
Qed.
End fuel.
End facts.

(** (C34) The events of [wk-cputemp] are the changes of the temperature:
    whatever the command line, the readings and the errors of the sensors,
    the program comes to an end when the lists of chips and of features have
    at most [n] entries and the loops over them more turns than that; and
    the values recorded are the values displayed from which each that equals
    the last one kept (as a [float], zero at first) has been removed, in the
    same order. *)
Theorem cputemp_traces_changes {W} (h : handler W) (TEMP FAULT INPUT ACCESS_R : Z)
    (n fuel : nat) (argv : list string) (w : W) (Hn : Enumerates h n) (Hf : (n < fuel)%nat) :
  exists o w' tr,
    run (traced h) (main TEMP FAULT INPUT ACCESS_R fuel argv) (w, []) = (o, (w', tr))
    /\ o <> Out_of_fuel
    /\ traced_temps (temps tr) = changes (S754_zero false) (shown (temps tr)).
Proof.
  destruct (tracks_main h TEMP FAULT INPUT ACCESS_R fuel argv w []) as (o & w' & tr & vs & Hr & Ht & _).
  exists o, w', tr. split; [done|]. split; [|by rewrite Ht, shown_log, traced_log].
  intros ->. eapply (fuelled_main (traced h) _ _ _ _ n fuel argv Hf (w, [])). by rewrite Hr.
Qed.

(** One core whose readings are the states of the world, in turn. *)
Definition sensor : forall X, sys X -> list double -> X * list double := fun X e w =>
  match e in sys X return X * list double with
  | Sensors_get_detected_chips nr => ((if nr =? 0 then Some (7, "coretemp") else None, nr + 1), w)
  | Sensors_get_features _ nr => ((if nr =? 0 then Some (1, "temp1", 2) else None, nr + 1), w)
  | Sensors_get_label _ _ => (Some (5, "Core 0"), w)
  | Sensors_get_subfeature _ _ ty => (if ty =? 512 then Some ("temp1_input", 3) else None, w)
  | Sensors_get_value _ _ => ((0, List.hd (S754_zero false) w), List.tl w)
  | e => (default_answer e, w)
  end.

(** Each observation reads twice and shows the second reading. *)
Definition readings : list double := double_of_Z <$> [40; 40; 40; 40; 41; 41; 40; 40].

#[export] Instance sensor_enumerates : Enumerates sensor 1.
Proof.
  split.
  - intros nr w c nr'. cbn. destruct (Z.eqb_spec nr 0); intros [= _ <-]; lia.
  - intros chip nr w c nr'. cbn. destruct (Z.eqb_spec nr 0); intros [= _ <-]; lia.
Qed.

Theorem cputemp_traces_changes_witness :
  traced_temps (temps (run (traced sensor) (main 2 640 512 4 9 ["--repeat"; "4"; "-t"; "10"]) (readings, [])).2.2)
  = double_of_Z <$> [40; 41; 40].
Proof.
  destruct (cputemp_traces_changes sensor 2 640 512 4 1 9 ["--repeat"; "4"; "-t"; "10"] readings
    sensor_enumerates ltac:(lia)) as (o & w' & tr & E & _ & H).
  assert ((run (traced sensor) (main 2 640 512 4 9 ["--repeat"; "4"; "-t"; "10"]) (readings, [])).2.2 = tr) as Htr
    by (by rewrite E).
  rewrite Htr, H, <- Htr. vm_compute. reflexivity.
Defined.

(** The status of a run that goes well is the number of chips of the last
    observation but one: 0 without repetition, 1 here, as after an error. *)
Lemma cputemp_exit_status :
  (run sensor (main 2 640 512 4 9 ["--repeat"; "4"]) readings).1 = Exited 1
  /\ (run sensor (main 2 640 512 4 9 []) readings).1 = Exited 0.
Proof. by vm_compute. Qed.
