(* ===== verification/Cpm3.v ===== *)
(** * src/cpm3.c

    A master that starts a server and a client, which exchange packets over a
    local connection: three rounds of messages of different sizes, with
    different delays on the two sides. *)

From S2P Require Import Prelude CInt CString Libc CFloat Utils Calibrate.

Local Open Scope string_scope.
Local Open Scope list_scope.
Local Open Scope Z_scope.

Definition DEFAULT_HOST : string := "localhost".
Definition DEFAULT_PORT : Z := 7373.
Definition SIZE : Z := 1024.
Definition SERVER : string := "server".
Definition CLIENT : string := "client".

(** [ctx_t]; [buf] is the contents of the buffer. *)
Record ctx := Ctx { id : Z; who : option string; sock : Z; buf : list Z; size : Z; mili : Z }.

Definition set_sock c v := Ctx (id c) (who c) v (buf c) (size c) (mili c).
Definition set_who c v := Ctx (id c) (Some v) (sock c) (buf c) (size c) (mili c).
Definition set_buf c v := Ctx (id c) (who c) (sock c) v (size c) (mili c).
Definition set_mili c v := Ctx (id c) (who c) (sock c) (buf c) (size c) v.

Section cpm3.
(** What [malloc] leaves in the buffer, and the global [unit]. *)
Variable garbage : list Z.
Variable unit_ : Z.

Definition make_ctx (size : Z) : prog ctx :=
  p ← call (Calloc 1 40);
  match p with
  | None => Undef "write through NULL"
  | Some _ =>
      b ← call (Malloc size);
      Ret (Ctx 0 None 0 (match b with Some _ => take (Z.to_nat size) garbage | None => [] end) size 0)
  end.

(** The buffer, then the structure. *)
Definition free_ctx (c : ctx) : prog unit := call (Free (Some 1));; call (Free (Some 1)).

Definition htons (p : Z) : Z := uwrap 16 p.

Definition make_client_socket : prog Z :=
  sockfd ← call Socket;
  (if sockfd <? 0 then throw (Some "ERROR opening socket") else Ret tt);;
  server ← call (Gethostbyname DEFAULT_HOST);
  match server with
  | None => call (Eprintf ("ERROR, no such host" +:+ NL) []);; Exit 0
  | Some h_addr =>
      r ← call (Connect sockfd h_addr (htons DEFAULT_PORT));
      (if r <? 0 then throw (Some "ERROR connecting") else Ret tt);;
      Ret sockfd
  end.

Definition make_server_socket : prog Z :=
  sockfd ← call Socket;
  (if sockfd <? 0 then throw (Some "ERROR opening socket") else Ret tt);;
  r ← call (Setsockopt_reuse sockfd);
  (if r <? 0 then throw (Some "ERROR while setting socket option") else Ret tt);;
  server ← call (Gethostbyname DEFAULT_HOST);
  match server with
  | None => call (Eprintf ("ERROR, no such host" +:+ NL) []);; Exit 0
  | Some h_addr =>
      r ← call (Bind sockfd h_addr (htons DEFAULT_PORT));
      (if r <? 0 then throw (Some "ERROR on binding") else Ret tt);;
      call (Printf ("server waiting" +:+ NL) []);;
      call (Listen sockfd 5);;
      newsockfd ← call (Accept sockfd);
      (if newsockfd <? 0 then throw (Some "ERROR on accept") else Ret tt);;
      Ret newsockfd
  end.

Definition do_send (c : ctx) (size id : Z) : prog unit :=
  n ← call (Send (sock c) (take (Z.to_nat size) (buf c)));
  call (Printf ("%d %s send %ld" +:+ NL) [PInt id; PStr (who c); PInt n]);;
  hog (mili c).

(** [recv] fills the front of the buffer. *)
Definition do_recv (c : ctx) (size id : Z) : prog ctx :=
  '(n, bytes) ← call (Recv (sock c) size);
  let c := set_buf c (bytes ++ drop (length bytes) (buf c)) in
  call (Printf ("%d %s recv %ld" +:+ NL) [PInt id; PStr (who c); PInt n]);;
  hog (mili c);;
  Ret c.

Definition do_server_run (c : ctx) : prog unit :=
  let full := size c in
  let half := Z.shiftr (size c) 1 in
  do_send c full 0;;
  do_send c half 1;;
  do_send c half 1;;
  do_send c full 2;;
  do_sleep 50;;
  Ret tt.

Definition do_client_run (c : ctx) : prog ctx :=
  let full := size c in
  let half := Z.shiftr (size c) 1 in
  c ← do_recv c full 0;
  c ← do_recv c full 1;
  c ← do_recv c half 1;
  c ← do_recv c half 2;
  do_sleep 50;;
  Ret c.

Definition server : prog unit :=
  c ← make_ctx SIZE;
  fd ← make_server_socket;
  let c := set_mili (set_who (set_sock c fd) SERVER) unit_ in
  do_server_run c;;
  do_server_run c;;
  let c := set_mili c 0 in
  do_server_run c;;
  call (Shutdown (sock c) 0);;
  free_ctx c.

Definition client : prog unit :=
  c ← make_ctx SIZE;
  fd ← make_client_socket;
  let c := set_mili (set_who (set_sock c fd) CLIENT) unit_ in
  c ← do_client_run c;
  c ← do_client_run (set_mili c 0);
  c ← do_client_run (set_mili c unit_);
  call (Shutdown (sock c) 0);;
  free_ctx c.

(** The child runs [f] and exits. *)
Definition spawn (f : prog unit) : prog Z :=
  pid ← call Fork;
  if pid <? 0 then Ret pid
  else if pid =? 0 then f;; Exit 0
  else Ret pid.

(** [waitpid(pid)], declared nowhere: the other arguments are arbitrary. *)
Definition master : prog unit :=
  server_pid ← spawn server;
  do_sleep 10;;
  client_pid ← spawn client;
  call (Waitpid client_pid);;
  call (Waitpid server_pid);;
  Ret tt.
End cpm3.

Definition main (garbage : list Z) : prog Z :=
  unit_ ← calibrate 10000;
  master garbage (s64 unit_);;
  Ret EXIT_SUCCESS.

(** ** The connection

    A byte stream in the kernel: [rest] has been sent and not yet received.  A
    [recv] of [n] bytes takes what it asks for, what is there, or fewer: the
    next of [chunks] bounds it (at least one byte comes when there is one). *)
Record net := Net { rest : list Z; chunks : list nat }.

Definition tcp : forall X, sys X -> net -> X * net := fun X e w =>
  match e in sys X return X * net with
  | Send _ bytes => (Z.of_nat (length bytes), Net (rest w ++ bytes) (chunks w))
  | Recv _ n =>
      let k := (Z.to_nat n `min` S (List.hd O (chunks w)))%nat in
      let bytes := take k (rest w) in
      ((Z.of_nat (length bytes), bytes), Net (drop k (rest w)) (List.tl (chunks w)))
  | e => (default_answer e, w)
  end.

(** The messages that went out of and came into a process. *)
Definition sent (tr : list ev) : list (list Z) :=
  omap (fun e => match e with Ev (Send _ bytes) _ => Some bytes | _ => None end) tr.

(** What [recv] was asked for, and what it gave. *)
Definition recv_ev (e : ev) : option (Z * list Z) :=
  match e with
  | Ev e x => match e in sys X return X -> option (Z * list Z) with
              | Recv _ n => fun x => Some (n, x.2)
              | _ => fun _ => None
              end x
  end.
Definition received (tr : list ev) : list (Z * list Z) := omap recv_ev tr.

Definition bytes_received (tr : list ev) : list Z := concat (map snd (received tr)).

(** ** Lemmas *)

Lemma received_app tr1 tr2 : received (tr1 ++ tr2) = received tr1 ++ received tr2.
Proof. apply omap_app. Qed.

Lemma bytes_received_app tr1 tr2 : bytes_received (tr1 ++ tr2) = bytes_received tr1 ++ bytes_received tr2.
Proof. unfold bytes_received. by rewrite received_app, map_app, concat_app. Qed.

(** A receive that got something, and no more than it asked for. *)
Definition fair (r : Z * list Z) : Prop := 1 <= Z.of_nat (length r.2) <= r.1.

Lemma fair_total l : Forall fair l -> Z.of_nat (length (concat (map snd l))) <= zsum (map fst l).
Proof.
  induction 1 as [|[n bs] l [_ H] _ IH]; [done|]. cbn [map concat fst snd] in *.
  rewrite length_app. cbn [zsum foldr]. unfold zsum in IH. lia.
Qed.

(** [p] receives messages of the sizes [asks], in order, when that many bytes
    are under way; each receive gets something. *)
Definition takes {A} (p : prog A) (asks : list Z) (post : A -> Prop) : Prop :=
  forall w tr, zsum asks <= Z.of_nat (length (rest w)) ->
    exists a w' tr', run (traced tcp) p (w, tr) = (Done a, (w', tr ++ tr')) /\ post a
      /\ rest w = bytes_received tr' ++ rest w'
      /\ map fst (received tr') = asks /\ Forall fair (received tr').

Lemma takes_ret {A} (a : A) (post : A -> Prop) : post a -> takes (Ret a) [] post.
Proof. intros H w tr _. exists a, w, []. rewrite app_nil_r. by split_and!. Qed.

Lemma takes_bind {A B} (p : prog A) (f : A -> prog B) asks1 asks2 post1 post2 :
  takes p asks1 post1 -> Forall (Z.le 0) asks2 -> (forall a, post1 a -> takes (f a) asks2 post2) ->
  takes (p ≫= f) (asks1 ++ asks2) post2.
Proof.
  intros Hp Hpos Hf w tr Hle. rewrite zsum_app in Hle. pose proof (zsum_nonneg _ Hpos).
  destruct (Hp w tr ltac:(lia)) as (a & w1 & tr1 & Hr1 & Ha & Hs1 & Hm1 & Hf1).
  pose proof (fair_total _ Hf1) as Ht. rewrite Hm1 in Ht. fold (bytes_received tr1) in Ht.
  assert (length (rest w) = length (bytes_received tr1) + length (rest w1))%nat as Hl
    by (rewrite Hs1 at 1; by rewrite length_app).
  destruct (Hf a Ha w1 (tr ++ tr1) ltac:(lia)) as (b & w2 & tr2 & Hr2 & Hb & Hs2 & Hm2 & Hf2).
  exists b, w2, (tr1 ++ tr2). rewrite run_bind, Hr1. cbn [and_then]. rewrite Hr2, <- app_assoc.
  rewrite bytes_received_app, received_app, map_app, Hm1, Hm2. split_and!; [done..| |done|].
  - by rewrite <- app_assoc, <- Hs2, <- Hs1.
  - by apply Forall_app.
Qed.

(** A call other than [recv] that leaves the connection alone. *)
Lemma takes_call {X B} (e : sys X) (f : X -> prog B) asks post :
  (forall w, (tcp _ e w).2 = w) -> (forall x, recv_ev (Ev e x) = None) ->
  (forall x, (exists w, x = (tcp _ e w).1) -> takes (f x) asks post) -> takes (call e ≫= f) asks post.
Proof.
  intros Hw He Hf w tr Hle. rewrite run_bind, run_traced_call, Hw. cbn [and_then].
  destruct (Hf (tcp X e w).1 ltac:(by eexists) w (tr ++ [Ev e (tcp X e w).1]) Hle)
    as (a & w' & tr' & Hr & Ha & Hs & Hm & Hfair).
  exists a, w', (Ev e (tcp X e w).1 :: tr'). rewrite Hr, <- app_assoc.
  assert (received (Ev e (tcp X e w).1 :: tr') = received tr') as Hrec
    by (unfold received; cbn [omap list_omap]; by rewrite He).
  unfold bytes_received in *. rewrite Hrec. by split_and!.
Qed.

(** The client's context keeps its members through a receive. *)
Definition same (c c' : ctx) : Prop := size c' = size c /\ sock c' = sock c /\ mili c' = mili c.

Lemma takes_recv c n id : 1 <= n -> takes (do_recv c n id) [n] (same c).
Proof.
  intros Hn w tr Hle. unfold do_recv. rewrite run_bind, run_traced_call. cbn [and_then tcp fst snd].
  set (k := (Z.to_nat n `min` S (List.hd O (chunks w)))%nat).
  assert (length (take k (rest w)) = k `min` length (rest w))%nat as Hl by apply length_take.
  cbn [zsum foldr] in Hle. assert (1 <= k)%nat by (subst k; lia).
  unfold hog. step_run. do 3 eexists. split; [rewrite <- !app_assoc; reflexivity|].
  split; [done|]. split_and!.
  - unfold bytes_received. cbn. rewrite app_nil_r. by rewrite take_drop.
  - done.
  - repeat constructor; unfold fair; cbn [fst snd]; subst k; lia.
Qed.

Lemma takes_sleep m : 0 < m -> takes (do_sleep m) [] (fun _ => True).
Proof.
  intros Hm. unfold do_sleep. rewrite (proj2 (Z.eqb_neq _ _)) by lia.
  apply takes_call; [done..|]. intros _ _. apply takes_call; [done..|]. intros r [w ->]. cbn.
  apply takes_call; [done..|]. intros _ _. by apply takes_ret.
Qed.

Lemma takes_client_run c :
  size c = SIZE -> takes (do_client_run c) [1024; 1024; 512; 512] (fun c' => size c' = SIZE).
Proof.
  intros Hc. unfold do_client_run. rewrite Hc. change (Z.shiftr SIZE 1) with 512.
  apply (takes_bind _ _ [1024] [1024; 512; 512] _ _ (takes_recv c 1024 0 ltac:(lia))); [repeat constructor; lia|].
  intros c1 [H1 _]. rewrite Hc in H1.
  apply (takes_bind _ _ [1024] [512; 512] _ _ (takes_recv c1 1024 1 ltac:(lia))); [repeat constructor; lia|].
  intros c2 [H2 _]. rewrite H1 in H2.
  apply (takes_bind _ _ [512] [512] _ _ (takes_recv c2 512 1 ltac:(lia))); [repeat constructor; lia|].
  intros c3 [H3 _]. rewrite H2 in H3.
  apply (takes_bind _ _ [512] [] _ _ (takes_recv c3 512 2 ltac:(lia))); [constructor|].
  intros c4 [H4 _]. rewrite H3 in H4.
  apply (takes_bind _ _ [] [] _ _ (takes_sleep 50 ltac:(lia))); [constructor|].
  intros _ _. by apply takes_ret.
Qed.

Definition client_asks : list Z := [1024; 1024; 512; 512] ++ [1024; 1024; 512; 512] ++ [1024; 1024; 512; 512].

Lemma takes_client garbage unit_ : takes (client garbage unit_) client_asks (fun _ => True).
Proof.
  unfold client, make_ctx, make_client_socket. change (SIZE) with 1024.
  assert (forall l : list Z, Forall (Z.le 0) ([1024; 1024; 512; 512] ++ l) <-> Forall (Z.le 0) l) as Hpos.
  { intros l. rewrite Forall_app. split; [by intros [_ ?]|]. intros. split; [repeat constructor; lia|done]. }
  apply (takes_bind _ _ [] client_asks (fun c => size c = SIZE)).
  { apply takes_call; [done..|]. intros p [w ->]. apply takes_call; [done..|]. intros b _. by apply takes_ret. }
  { unfold client_asks. rewrite !Hpos. repeat constructor; lia. }
  intros c Hc. apply (takes_bind _ _ [] client_asks (fun _ => True)).
  { apply takes_call; [done..|]. intros s [w ->]. apply (takes_bind _ _ [] [] (fun _ => True)); [by apply takes_ret|constructor|].
    intros _ _. apply takes_call; [done..|]. intros a [w' ->]. apply takes_call; [done..|]. intros r [w'' ->].
    apply (takes_bind _ _ [] [] (fun _ => True)); [by apply takes_ret|constructor|].
    intros _ _. by apply takes_ret. }
  { unfold client_asks. rewrite !Hpos. repeat constructor; lia. }
  intros fd _. unfold client_asks.
  eapply takes_bind; [by apply takes_client_run|unfold client_asks; rewrite !Hpos; repeat constructor; lia|].
  intros c1 H1. eapply takes_bind; [by apply takes_client_run|repeat constructor; lia|].
  intros c2 H2. rewrite <- (app_nil_r [1024; 1024; 512; 512]).
  eapply takes_bind; [by apply takes_client_run|constructor|].
  intros c3 H3. apply takes_call; [done..|]. intros _ _. unfold free_ctx.
  apply takes_call; [done..|]. intros _ _.
  intros w tr _. do 3 eexists. split; [apply run_traced_unit|]. by split_and!.
Qed.

(** [p] sends the messages [msgs]. *)
Definition gives {A} (p : prog A) (msgs : list (list Z)) (post : A -> Prop) : Prop :=
  forall w tr, exists a tr',
    run (traced tcp) p (w, tr) = (Done a, (Net (rest w ++ concat msgs) (chunks w), tr ++ tr'))
    /\ sent tr' = msgs /\ post a.

Lemma gives_ret {A} (a : A) (post : A -> Prop) : post a -> gives (Ret a) [] post.
Proof. intros H [r c] tr. exists a, []. cbn. by rewrite !app_nil_r. Qed.

Lemma gives_bind {A B} (p : prog A) (f : A -> prog B) l1 l2 post1 post2 :
  gives p l1 post1 -> (forall a, post1 a -> gives (f a) l2 post2) -> gives (p ≫= f) (l1 ++ l2) post2.
Proof.
  intros Hp Hf w tr. destruct (Hp w tr) as (a & tr1 & Hr1 & Hs1 & Ha).
  destruct (Hf a Ha (Net (rest w ++ concat l1) (chunks w)) (tr ++ tr1)) as (b & tr2 & Hr2 & Hs2 & Hb).
  exists b, (tr1 ++ tr2). rewrite run_bind, Hr1. cbn [and_then]. rewrite Hr2, <- app_assoc. cbn [rest chunks].
  split_and!; [by rewrite concat_app, (app_assoc (rest w))| |done]. unfold sent in *. by rewrite omap_app, Hs1, Hs2.
Qed.

Lemma gives_call {X B} (e : sys X) (f : X -> prog B) l post :
  (forall w, (tcp _ e w).2 = w) -> (forall x, sent [Ev e x] = []) ->
  (forall x, (exists w, x = (tcp _ e w).1) -> gives (f x) l post) -> gives (call e ≫= f) l post.
Proof.
  intros Hw He Hf w tr. rewrite run_bind, run_traced_call, Hw. cbn [and_then].
  destruct (Hf (tcp X e w).1 ltac:(by eexists) w (tr ++ [Ev e (tcp X e w).1])) as (a & tr' & Hr & Hs & Ha).
  exists a, (Ev e (tcp X e w).1 :: tr'). rewrite Hr, <- app_assoc. split_and!; [done| |done].
  change (Ev e (tcp X e w).1 :: tr') with ([Ev e (tcp X e w).1] ++ tr'). unfold sent in *.
  by rewrite omap_app, He, Hs.
Qed.

Lemma gives_send c n id : gives (do_send c n id) [take (Z.to_nat n) (buf c)] (fun _ => True).
Proof.
  intros w tr. unfold do_send, hog. step_run. do 2 eexists. cbn [concat]. rewrite app_nil_r.
  split; [rewrite <- !app_assoc; reflexivity|done].
Qed.

(** The messages of a round, from the bytes of the buffer. *)
Definition round (b : list Z) : list (list Z) :=
  [take 1024 b; take 512 b; take 512 b; take 1024 b].

Lemma gives_server_run c : size c = SIZE -> gives (do_server_run c) (round (buf c)) (fun _ => True).
Proof.
  intros Hc. unfold do_server_run. rewrite Hc. change (Z.shiftr SIZE 1) with 512.
  set (b := buf c). unfold round.
  apply (gives_bind _ _ [take 1024 b] [take 512 b; take 512 b; take 1024 b] (fun _ => True));
    [exact (gives_send c 1024 0)|intros _ _].
  apply (gives_bind _ _ [take 512 b] [take 512 b; take 1024 b] (fun _ => True));
    [exact (gives_send c 512 1)|intros _ _].
  apply (gives_bind _ _ [take 512 b] [take 1024 b] (fun _ => True)); [exact (gives_send c 512 1)|intros _ _].
  apply (gives_bind _ _ [take 1024 b] [] (fun _ => True)); [exact (gives_send c 1024 2)|intros _ _].
  apply (gives_bind _ _ [] [] (fun _ => True)); [|intros; by apply gives_ret].
  unfold do_sleep. change (50 =? 0) with false. cbv iota.
  apply gives_call; [done..|]. intros _ _. apply gives_call; [done..|]. intros r [w ->]. cbn.
  apply gives_call; [done..|]. intros _ _. by apply gives_ret.
Qed.

Lemma gives_server garbage unit_ :
  let b := take 1024 garbage in
  gives (server garbage unit_) (round b ++ round b ++ round b) (fun _ => True).
Proof.
  intros b. unfold server, make_ctx, make_server_socket. set (l := round b ++ round b ++ round b).
  apply (gives_bind _ _ [] l (fun c => size c = SIZE /\ buf c = b)).
  { apply gives_call; [done..|]. intros p [w ->]. apply gives_call; [done..|]. intros m [w' ->]. by apply gives_ret. }
  intros c [Hs Hb]. apply (gives_bind _ _ [] l (fun _ => True)).
  { repeat first [apply gives_call; [done..|]; intros ? [? ->]
      | apply (gives_bind _ _ [] [] (fun _ => True)); [by apply gives_ret|]; intros ? _
      | by apply gives_ret]. }
  intros fd _. subst l. rewrite <- Hb. set (c' := set_mili (set_who (set_sock c fd) SERVER) unit_).
  apply (gives_bind _ _ (round (buf c)) (round (buf c) ++ round (buf c)) (fun _ => True));
    [exact (gives_server_run c' Hs)|intros _ _].
  apply (gives_bind _ _ (round (buf c)) (round (buf c)) (fun _ => True));
    [exact (gives_server_run c' Hs)|intros _ _].
  rewrite <- (app_nil_r (round (buf c))).
  apply (gives_bind _ _ (round (buf c)) [] (fun _ => True));
    [exact (gives_server_run (set_mili c' 0) Hs)|intros _ _].
  apply gives_call; [done..|]. intros _ _. unfold free_ctx. apply gives_call; [done..|]. intros _ _.
  intros [r k] tr. do 2 eexists. split; [rewrite run_traced_unit; cbn; by rewrite app_nil_r|done].
Qed.

(** ** Theorem *)

(** The exchange.  The server ends and sends three rounds of messages of
    1024, 512, 512 and 1024 bytes; the client, whatever pieces the stream
    gives it, asks for 1024, 1024, 512 and 512 bytes in each round, gets at
    least one byte and never more than it asks for every time, so that it never
    waits for bytes that nobody sends, and ends; what it received is a prefix
    of what was sent. *)
Theorem cpm3_exchange (garbage : list Z) (unit1 unit2 : Z) (cs : list nat)
    (Hg : SIZE <= Z.of_nat (length garbage)) :
  exists w1 tr1 w2 tr2,
    run (traced tcp) (server garbage unit1) (Net [] cs, []) = (Done tt, (w1, tr1))
    /\ map (fun m => Z.of_nat (length m)) (sent tr1)
       = [1024; 512; 512; 1024] ++ [1024; 512; 512; 1024] ++ [1024; 512; 512; 1024]
    /\ rest w1 = concat (sent tr1)
    /\ run (traced tcp) (client garbage unit2) (w1, []) = (Done tt, (w2, tr2))
    /\ map fst (received tr2) = client_asks /\ Forall fair (received tr2)
    /\ concat (sent tr1) = bytes_received tr2 ++ rest w2.
Proof.
  destruct (gives_server garbage unit1 (Net [] cs) []) as ([] & tr1 & Hr1 & Hs1 & _).
  set (b := take 1024 garbage) in *.
  assert (length b = 1024%nat) as Hb by (subst b; rewrite length_take; unfold SIZE in Hg; lia).
  assert (map (fun m : list Z => Z.of_nat (length m)) (round b) = [1024; 512; 512; 1024]) as Hround.
  { unfold round. cbn [map]. by rewrite !length_take, Hb. }
  cbn [rest chunks app] in Hr1.
  assert (Z.of_nat (length (concat (round b ++ round b ++ round b))) = 9216) as Hlen.
  { unfold round. rewrite !concat_app. cbn [concat]. rewrite !length_app, !length_take, Hb. done. }
  destruct (takes_client garbage unit2 (Net (concat (round b ++ round b ++ round b)) cs) [])
    as ([] & w2 & tr2 & Hr2 & _ & Hrest & Hm & Hf).
  { cbn [rest]. rewrite Hlen. done. }
  exists (Net (concat (round b ++ round b ++ round b)) cs), tr1, w2, tr2. rewrite Hs1, !map_app, Hround.
  by split_and!.
Qed.

Theorem cpm3_exchange_witness :
  exists w1 tr1, run (traced tcp) (server (replicate 1024 7) 3) (Net [] [0%nat; 5%nat], []) = (Done tt, (w1, tr1))
    /\ Z.of_nat (length (rest w1)) = 9216.
Proof.
  destruct (cpm3_exchange (replicate 1024 7) 3 4 [0%nat; 5%nat] ltac:(rewrite length_replicate; done))
    as (w1 & tr1 & _ & _ & Hr & Hm & Hrest & _).
  exists w1, tr1. split; [exact Hr|]. rewrite Hrest. clear -Hm.
  assert (forall l : list (list Z), Z.of_nat (length (concat l)) = zsum (map (fun m => Z.of_nat (length m)) l)) as Hc.
  { induction l as [|m l IH]; [done|]. cbn [concat map]. rewrite length_app, zsum_cons, <- IH. lia. }
  by rewrite Hc, Hm.
Defined.
