(* ===== verification/Sigbench.v ===== *)
(** * src/sigbench.c

    [wk-sigbench]: how many signals a second the threads can send themselves,
    for one number of threads or for the powers of two up to it.  The threads of
    the OpenMP region share one variable, [elapsed], updated in a critical
    section; they are executed here one after the other in the order in which
    they enter that section, which the environment chooses. *)

From S2P Require Import Prelude CInt CString Libc CFloat Utils Getopt.

Local Open Scope string_scope.
Local Open Scope list_scope.
Local Open Scope Z_scope.

Definition DEFAULT_THREAD : Z := -1.
Definition DEFAULT_REPEAT : Z := 1000000.
Definition progname : string := "wk-sigbench".

Record experiment := Experiment { nr_thread : Z; foreach : Z; repeat_ : Z; verbose : Z }.

Definition set_nr_thread e v := Experiment v (foreach e) (repeat_ e) (verbose e).
Definition set_foreach e v := Experiment (nr_thread e) v (repeat_ e) (verbose e).
Definition set_repeat e v := Experiment (nr_thread e) (foreach e) v (verbose e).

(** ** Command line *)

Definition usage {A} : prog A := usage_text
  [("Usage: %s [OPTIONS]" +:+ NL, [PStr (Some progname)]);
   (NL +:+ "Options:" +:+ NL +:+ NL, []);
   ("--thread N       number of threads to be spawned" +:+ NL, []);
   ("--repeat N       number of repetition" +:+ NL, []);
   ("--foreach        scalability analysis" +:+ NL, []);
   ("--verbose        be verbose" +:+ NL, []);
   ("--help           print this message and exit" +:+ NL, []);
   (NL, [])].

Definition optstring : string := "hd:t:r:fv".

(** [foreach] has no long option. *)
Definition options : list option_ :=
  [Option_ "help" false "h"; Option_ "thread" true "t"; Option_ "repeat" true "r";
   Option_ "verbose" false "v"].

Definition parse_opt (f : found) (e : experiment) : prog experiment :=
  match opt f with
  | "t"%char => with_arg f (fun a => Ret (set_nr_thread e (atoi a)))
  | "r"%char => with_arg f (fun a => Ret (set_repeat e (atoi a)))
  | "f"%char => Ret (set_foreach e 1)
  | _ => usage
  end.

(** [verbose] stays as it was. *)
Definition parse_opts (argv : list string) (e : experiment) : prog experiment :=
  n ← call Omp_get_num_procs;
  opt_loop parse_opt (getopt_long optstring options None argv)
    (Experiment n 0 DEFAULT_REPEAT (verbose e)).

(** ** The measure *)

Definition signal_handler (signum : Z) : unit := tt.

Definition sigbench_profile_func (args : unit) : prog (Z * unit) :=
  self ← call Pthread_self;
  call (Pthread_kill self SIGUSR1);;
  Ret (0, args).

(** [volatile int i = 1; while (i > 0) i--;] *)
Fixpoint calibrate_loop (fuel : nat) (i : Z) : option Z :=
  if 0 <? i then match fuel with O => None | S fuel => calibrate_loop fuel (i - 1) end else Some i.

Definition sigbench_profile_calibrate (args : unit) : prog (Z * unit) :=
  match calibrate_loop 1 1 with Some _ => Ret (0, args) | None => Fuel end.

Section sigbench.
(** The threads of a team of [nr], in the order of the critical section. *)
Variable team : Z -> list Z.

(** A thread up to the critical section: its span and its profile. *)
Definition thread_measure (nr repeat id : Z) : prog (double * profile unit) :=
  let core := id in
  call (Printf ("thread %d on cpu %d" +:+ NL) [PInt id; PInt core]);;
  tid ← gettid;
  call (Sched_setaffinity tid [core]);;
  s ← call (Vasprintf "sigbench-nr=%ld-id=%d" [PInt nr; PInt id]);
  match s with
  | None => Undef "indeterminate name"
  | Some (_, name) =>
      prof ← profile_init (Profile _ (Some name) sigbench_profile_func tt (s32 repeat)
               (double_of_Z 0) (double_of_Z 0) 0 BNull);
      call Barrier_wait;;
      t1 ← call (Clock_gettime CLOCK_MONOTONIC);
      prof ← profile_func prof;
      t2 ← call (Clock_gettime CLOCK_MONOTONIC);
      call Barrier_wait;;
      let e := time_sub t2 t1 in
      let es := timespec_to_double_ns e in
      call (Printf ("sec=%ld nsec=%ld es=%f" +:+ NL) [PInt (tv_sec e); PInt (tv_nsec e); PDouble es]);;
      Ret (es, prof)
  end.

(** [if (es > elapsed) elapsed = es]. *)
Definition critical (elapsed es : double) : double := if dltb elapsed es then es else elapsed.

(** After it. *)
Definition thread_report (prof : profile unit) : prog unit :=
  prof ← profile_stats prof;
  profile_stats_print prof 1;;
  profile_save prof;;
  profile_destroy prof;;
  Ret tt.

Fixpoint region (ids : list Z) (nr repeat : Z) (elapsed : double) : prog double :=
  match ids with
  | [] => Ret elapsed
  | id :: ids =>
      '(es, prof) ← thread_measure nr repeat id;
      let elapsed := critical elapsed es in
      thread_report prof;;
      region ids nr repeat elapsed
  end.

Definition sigbench_once (nr repeat : Z) : prog unit :=
  call (Printf ("threads=%ld" +:+ NL) [PInt nr]);;
  elapsed ← region (team nr) nr repeat (double_of_Z 0);
  let sec := ddiv elapsed (double_of_Z 1000000000) in
  let total_work := double_of_Z (s64 (nr * repeat)) in
  call (Printf ("total_work=%f" +:+ NL) [PDouble total_work]);;
  call (Printf ("sec=%f, rate=%f" +:+ NL) [PDouble sec; PDouble (ddiv total_work sec)]).

(** [for (i = 0; (1 << i) <= exp.nr_thread; i++)] with an [int] shift. *)
Fixpoint foreach_loop (fuel : nat) (i nr repeat : Z) : prog unit :=
  match fuel with
  | O => Fuel
  | S fuel =>
      if 31 <=? i then Undef "overflow of 1 << i"
      else if Z.shiftl 1 i <=? nr
      then sigbench_once (Z.shiftl 1 i) repeat;; foreach_loop fuel (i + 1) nr repeat
      else Ret tt
  end.

Definition main (argv : list string) : prog Z :=
  exp ← parse_opts argv (Experiment 0 0 0 0);
  call (Sigaction SIGUSR1);;
  (if negb (foreach exp =? 0) then foreach_loop 32 0 (nr_thread exp) (repeat_ exp)
   else sigbench_once (nr_thread exp) (repeat_ exp));;
  call (Sigaction SIGUSR1);;
  Ret 0.
End sigbench.
(** ** The number of threads *)

(** One measure for each number, then [k]. *)
Fixpoint each (team : Z -> list Z) (ns : list Z) (repeat : Z) (k : prog unit) : prog unit :=
  match ns with
  | [] => k
  | n :: ns => sigbench_once team n repeat;; each team ns repeat k
  end.

Definition powers (i n : Z) : list Z := (fun j => 2 ^ j) <$> seqZ i (n - i).

Lemma foreach_from team i k nr repeat fuel :
  0 <= i <= k -> k <= 31 -> fuel = Z.to_nat (32 - i) ->
  (forall j, i <= j < k -> 2 ^ j <= nr) -> (k < 31 -> nr < 2 ^ k) ->
  foreach_loop team fuel i nr repeat
  = each team (powers i k) repeat (if k =? 31 then Undef "overflow of 1 << i" else Ret tt).
Proof.
  intros Hi Hk -> Hle Hgt. remember (Z.to_nat (k - i)) as m eqn:Hm. revert i Hi Hm Hle.
  induction m as [|m IH]; intros i Hi Hm Hle.
  - assert (i = k) as -> by lia. replace (Z.to_nat (32 - k)) with (S (Z.to_nat (31 - k))) by lia.
    unfold powers. rewrite Z.sub_diag. cbn [foreach_loop seqZ seq fmap list_fmap each Z.to_nat].
    destruct (Z.eqb_spec k 31) as [->|Hne]; [done|].
    rewrite (proj2 (Z.leb_gt 31 k)), Z.shiftl_1_l, (proj2 (Z.leb_gt _ _)) by (try apply Hgt; lia). done.
  - replace (Z.to_nat (32 - i)) with (S (Z.to_nat (32 - (i + 1)))) by lia.
    unfold powers. rewrite seqZ_cons, fmap_cons by lia. cbn [foreach_loop each].
    rewrite (proj2 (Z.leb_gt 31 i)), Z.shiftl_1_l, (proj2 (Z.leb_le _ _)) by (try apply Hle; lia).
    rewrite IH by (try (intros; apply Hle); lia). unfold powers.
    replace (Z.succ i) with (i + 1) by lia. by replace (Z.pred (k - i)) with (k - (i + 1)) by lia.
Qed.

(** The scalability analysis measures exactly the powers of two up to the
    number of threads asked for, in increasing order, when that number is below
    2^30; for no thread or fewer it measures nothing, and from 2^30 on it
    measures the 31 powers that fit an [int] and then shifts out of it. *)
Theorem sigbench_thread_counts (team : Z -> list Z) (nr repeat : Z) (Hnr : in_s32 nr) :
  foreach_loop team 32 0 nr repeat
  = if nr <=? 0 then Ret tt
    else if nr <? 2 ^ 30 then each team (powers 0 (Z.log2 nr + 1)) repeat (Ret tt)
    else each team (powers 0 31) repeat (Undef "overflow of 1 << i").
Proof.
  destruct (Z.leb_spec nr 0) as [H0|H0].
  { cbn [foreach_loop]. change (31 <=? 0) with false. cbv iota.
    by rewrite Z.shiftl_1_l, (proj2 (Z.leb_gt _ _)) by lia. }
  pose proof (Z.log2_spec nr H0) as [Hlo Hhi]. pose proof (Z.log2_nonneg nr).
  destruct (Z.ltb_spec nr (2 ^ 30)) as [Hlt|Hge].
  - assert (Z.log2 nr < 30) by (apply Z.log2_lt_pow2; lia).
    rewrite (foreach_from team 0 (Z.log2 nr + 1)); [|lia|lia|done| |].
    + by rewrite (proj2 (Z.eqb_neq _ _)) by lia.
    + intros j Hj. etrans; [|exact Hlo]. apply Z.pow_le_mono_r; lia.
    + intros _. by replace (Z.log2 nr + 1) with (Z.succ (Z.log2 nr)) by lia.
  - rewrite (foreach_from team 0 31); [done|lia|lia|done| |lia].
    intros j Hj. etrans; [|exact Hge]. apply Z.pow_le_mono_r; lia.
Qed.

Theorem sigbench_thread_counts_witness :
  foreach_loop (fun n => seqZ 0 n) 32 0 6 100
  = each (fun n => seqZ 0 n) [1; 2; 4] 100 (Ret tt).
Proof. apply (sigbench_thread_counts (fun n => seqZ 0 n) 6 100). clia. Defined.

(** ** One measure *)

(** The span between the first and the last of the instants a thread read. *)
Definition span (l : list timespec) : Z := ns (List.last l (Timespec 0 0)) - ns (hd (Timespec 0 0) l).

Definition longest (lss : list (list timespec)) : Z := foldl Z.max 0 (span <$> lss).

(** A profiling environment that also grants the names. *)
Definition names_granted {W} (h : handler W) : Prop :=
  forall fmt args w, exists s, (h _ (Vasprintf fmt args) w).1 = Some s.

Section measure.
Context {W : Type} (h : handler W) (p f : Z).
Hypotheses (Henv : profiling_env h p f) (Hnames : names_granted h).

Lemma signal_func_ok : func_ok h sigbench_profile_func id tt.
Proof.
  intros k w tr. assert (Nat.iter k id tt = tt) as -> by (by destruct (Nat.iter k id tt)).
  unfold sigbench_profile_func. step_run. rewrite <- !app_assoc. do 3 eexists. by split.
Qed.

Lemma critical_max m s :
  0 <= m < 2 ^ 52 -> Z.abs s < 2 ^ 52 -> critical (double_of_Z m) (double_of_Z s) = double_of_Z (Z.max m s).
Proof.
  intros Hm Hs. unfold critical. rewrite dltb_exact by (unfold prec; simpl in *; lia).
  destruct (Z.ltb_spec m s); f_equal; lia.
Qed.

Lemma span_bound l : Forall (clock_answer h) l -> (2 <= length l)%nat -> Z.abs (span l) < 2 ^ 51.
Proof using Henv.
  intros Hl H2. unfold span. rewrite Forall_forall in Hl. apply (env_span _ _ _ Henv); apply Hl.
  - destruct l as [|x l] using rev_ind; [cbn in H2; lia|]. rewrite List.last_last.
    apply elem_of_app. right. apply list_elem_of_here.
  - destruct l as [|x l]; [cbn in H2; lia|]. apply list_elem_of_here.
Qed.

(** A thread up to the critical section. *)
Lemma measure_run nr repeat tid w tr0 :
  0 < repeat <= INT_MAX ->
  exists l prof w' tr,
    run (traced h) (thread_measure nr repeat tid) (w, tr0)
    = (Done (double_of_Z (span l), prof), (w', tr0 ++ tr))
    /\ clock_readings tr = l /\ Z.of_nat (length l) = repeat + 2 /\ Forall (clock_answer h) l
    /\ exists mid, samples prof p mid.
Proof using Henv Hnames.
  intros Hr. unfold thread_measure, gettid. step_run.
  edestruct Hnames as [[n s] Hs]. rewrite Hs. rewrite s32_id by clia.
  unfold profile_init, sizeof_timespec. cbn [Utils.repeat].
  rewrite (u64_id repeat), u64_id by clia. step_run. rewrite (env_malloc _ _ _ Henv). step_run.
  rewrite Z.div_mul by lia. set (prof1 := set_name _ _).
  match goal with |- context [run _ (profile_func prof1) (?w0, ?tr1)] =>
    destruct (profile_func_run h prof1 id p (replicate (Z.to_nat repeat) (Timespec 0 0)) w0 tr1)
      as (w1 & mid & Hrun & Hlen & Hf); [done| |apply signal_func_ok|]
  end.
  { rewrite length_replicate. cbn. lia. }
  rewrite Hrun. rewrite length_replicate in Hlen. step_run.
  set (t2 := (h timespec (Clock_gettime CLOCK_MONOTONIC) w1).1).
  set (t1 := (h timespec (Clock_gettime CLOCK_MONOTONIC) _).1).
  set (l := t1 :: clock_readings mid ++ [t2]).
  assert (Forall (clock_answer h) l) as Hl.
  { subst l t1 t2. constructor; [by eexists|]. apply Forall_app. split; [done|].
    constructor; [by eexists|constructor]. }
  assert (time_sub t2 t1 = ts_of_ns (span l)) as Hsub.
  { rewrite time_sub_ns.
    - unfold span, l. rewrite app_comm_cons, List.last_last. done.
    - apply (env_clock _ _ _ Henv). subst t2. by eexists.
    - apply (env_clock _ _ _ Henv). subst t1. by eexists. }
  assert (timespec_to_double_ns (time_sub t2 t1) = double_of_Z (span l)) as Hd.
  { rewrite Hsub. apply timespec_to_double_ns_exact.
    pose proof (span_bound l Hl ltac:(subst l; cbn; rewrite length_app; cbn; lia)). simpl in *. lia. }
  rewrite Hd. exists l. do 3 eexists. split; [rewrite <- !app_assoc; reflexivity|].
  split_and!.
  - rewrite !clock_readings_app. subst l. cbn. done.
  - subst l. cbn [length]. rewrite length_app. cbn. lia.
  - done.
  - exists (clock_readings mid). eapply samples_of_env; [done|reflexivity|cbn; lia|cbn; lia|done].
Qed.

(** A thread after it. *)
Lemma report_run prof mid w tr0 :
  samples prof p mid ->
  exists w' tr, run (traced h) (thread_report prof) (w, tr0) = (Done tt, (w', tr0 ++ tr))
    /\ clock_readings tr = [].
Proof using Henv.
  intros Hs. unfold thread_report. rewrite run_bind, (profile_stats_run _ _ _ _ _ Hs). cbn [and_then].
  set (prof' := set_stats _ _ _). assert (samples prof' p mid) as Hs' by (by destruct Hs).
  unfold profile_stats_print. step_run.
  match goal with |- context [run _ (profile_save prof') (?w0, ?tr1)] =>
    destruct (profile_save_trace h w0 tr1 prof' p f _ Hs' (env_fopen _ _ _ Henv _ _)) as [w2 ->]
  end.
  unfold profile_destroy. rewrite (samples_data _ _ _ Hs'). step_run. rewrite <- !app_assoc.
  do 2 eexists. split; [reflexivity|]. rewrite !clock_readings_app, clock_readings_csv. done.
Qed.

Lemma region_run nr repeat ids m w tr0 :
  0 < repeat <= INT_MAX -> 0 <= m < 2 ^ 51 ->
  exists lss w' tr,
    run (traced h) (region ids nr repeat (double_of_Z m)) (w, tr0)
    = (Done (double_of_Z (foldl Z.max m (span <$> lss))), (w', tr0 ++ tr))
    /\ clock_readings tr = concat lss /\ length lss = length ids
    /\ Forall (fun l => Z.of_nat (length l) = repeat + 2) lss.
Proof using Henv Hnames.
  intros Hr. revert m w tr0. induction ids as [|id ids IH]; intros m w tr0 Hm; cbn [region].
  { exists [], w, []. by rewrite app_nil_r. }
  rewrite run_bind.
  destruct (measure_run nr repeat id w tr0 Hr) as (l & prof & w1 & tr1 & -> & Hc & Hl & Hf & mid & Hs).
  cbn [and_then]. rewrite run_bind.
  destruct (report_run prof mid w1 (tr0 ++ tr1) Hs) as (w2 & tr2 & -> & Hc2). cbn [and_then].
  pose proof (span_bound l Hf ltac:(lia)) as Hsp.
  rewrite critical_max by (simpl in *; lia).
  destruct (IH (Z.max m (span l)) w2 ((tr0 ++ tr1) ++ tr2) ltac:(lia)) as (lss & w3 & tr3 & Hrun & Hc3 & Hn & Hall).
  exists (l :: lss), w3, (tr1 ++ tr2 ++ tr3). rewrite Hrun, <- !app_assoc. split_and!.
  - done.
  - by rewrite !clock_readings_app, Hc, Hc2, Hc3.
  - cbn. lia.
  - by constructor.
Qed.
End measure.

(** The duration and the rate printed for a longest span of [m] ns. *)
Definition rate_line (nr repeat m : Z) : ev :=
  let sec := ddiv (double_of_Z m) (double_of_Z 1000000000) in
  Ev (Printf ("sec=%f, rate=%f" +:+ NL)
    [PDouble sec; PDouble (ddiv (double_of_Z (s64 (nr * repeat))) sec)]) tt.

(** (C36) A measure over a team of threads, in whatever order they enter the
    critical section: every thread reads the clock once before and once after
    its [repeat] timed signals, and the duration and the rate printed last are
    those of the longest of the threads' spans, exactly. *)
Theorem sigbench_once_correct {W} (h : handler W) (p f : Z) (team : Z -> list Z) (nr repeat : Z) (w : W)
    (Henv : profiling_env h p f) (Hnames : names_granted h) (Hr : 0 < repeat <= INT_MAX) :
  exists lss w' tr,
    run (traced h) (sigbench_once team nr repeat) (w, [])
    = (Done tt, (w', tr ++ [rate_line nr repeat (longest lss)]))
    /\ clock_readings tr = concat lss
    /\ length lss = length (team nr) /\ Forall (fun l => Z.of_nat (length l) = repeat + 2) lss.
Proof.
  unfold sigbench_once. step_run.
  match goal with |- context [run _ (region _ _ _ _) (?w0, ?tr0)] =>
    destruct (region_run h p f Henv Hnames nr repeat (team nr) 0 w0 tr0 Hr ltac:(done))
      as (lss & w1 & tr & -> & Hc & Hn & Hall)
  end.
  step_run. exists lss. do 2 eexists. split; [reflexivity|].
  rewrite !clock_readings_app, Hc. cbn. by rewrite app_nil_r.
Qed.

Theorem sigbench_once_correct_witness :
  exists lss w' tr,
    run (traced (fun X (e : sys X) (w : unit) =>
          (match e in sys X return X with Vasprintf _ _ => Some (1, "n"%string) | e => default_answer e end, w)))
      (sigbench_once (fun n => List.rev (seqZ 0 n)) 4 10) (tt, [])
    = (Done tt, (w', tr ++ [rate_line 4 10 (longest lss)])) /\ length lss = 4%nat.
Proof.
  edestruct (sigbench_once_correct (fun X (e : sys X) (w : unit) =>
          (match e in sys X return X with Vasprintf _ _ => Some (1, "n"%string) | e => default_answer e end, w))
    1 1 (fun n => List.rev (seqZ 0 n)) 4 10 tt) as (lss & w' & tr & Hrun & _ & Hn & _).
  - split; [done..| |].
    + intros t [w ->]. vm_compute. intuition discriminate.
    + intros t u [w ->] [w' ->]. by vm_compute.
  - intros fmt args w. by eexists.
  - clia.
  - exists lss, w', tr. split; [exact Hrun|exact Hn].
Defined.
