(* ===== verification/Files.v ===== *)
(** * src/ioburst.c and src/lockfight.c

    The programs that write a file, by blocks, and that hold a lock on one. *)

From S2P Require Import Prelude CInt CString Libc CFloat Utils Getopt.

Local Open Scope string_scope.
Local Open Scope list_scope.
Local Open Scope Z_scope.

(** Flags of [open] on the platform of the kit. *)
Definition O_WRONLY : Z := 1.
Definition O_RDWR : Z := 2.
Definition O_CREAT : Z := 64.
Definition O_TRUNC : Z := 512.
Definition O_SYNC : Z := 1052672.

(** ** src/ioburst.c *)
Module Ioburst.

Definition PROGNAME : string := "ioburst".
Definition progname : string := PROGNAME.
Definition DEFAULT_BLOCK_SIZE : Z := 4096.
Definition DEFAULT_BLOCK_COUNT : Z := 1.

Record vars := Vars { file : option string; size : Z; count : Z; sync : Z }.

Definition set_file v x := Vars (Some x) (size v) (count v) (sync v).
Definition set_size v x := Vars (file v) x (count v) (sync v).
Definition set_count v x := Vars (file v) (size v) x (sync v).
Definition set_sync v x := Vars (file v) (size v) (count v) x.

Definition usage {A} : prog A := usage_text
  [("Usage: %s [OPTIONS] [COMMAND]" +:+ NL, [PStr (Some progname)]);
   (NL +:+ "Options:" +:+ NL +:+ NL, []);
   ("  --size     set size of blocs in bytes" +:+ NL, []);
   ("  --count    set number of blocs" +:+ NL, []);
   ("  --file     set the working file" +:+ NL, []);
   ("  --sync     synchrone write" +:+ NL, [])].

Definition optstring : string := "hzs:c:f:".
Definition options : list option_ :=
  [Option_ "help" false "h"; Option_ "size" true "s"; Option_ "count" true "c";
   Option_ "file" true "f"; Option_ "sync" false "z"].

Definition parse_opt (f : found) (v : vars) : prog vars :=
  match opt f with
  | "s"%char => with_arg f (fun a => Ret (set_size v (atoi a)))
  | "c"%char => with_arg f (fun a => Ret (set_count v (atoi a)))
  | "f"%char => with_arg f (fun a => Ret (set_file v a))
  | "z"%char => Ret (set_sync v 1)
  | _ => usage
  end.

(** The default values, each with its message. *)
Definition default_file (v : vars) : prog vars :=
  match file v with
  | None =>
      let v := set_file v (PROGNAME +:+ "-data") in
      call (Printf ("using default file name %s" +:+ NL) [PStr (file v)]);; Ret v
  | Some _ => Ret v
  end.
Definition default_size (v : vars) : prog vars :=
  if size v =? 0 then
    let v := set_size v DEFAULT_BLOCK_SIZE in
    call (Printf ("using default block size %d" +:+ NL) [PInt (size v)]);; Ret v
  else Ret v.
Definition default_count (v : vars) : prog vars :=
  if count v =? 0 then
    let v := set_count v DEFAULT_BLOCK_COUNT in
    call (Printf ("using default count %d" +:+ NL) [PInt (count v)]);; Ret v
  else Ret v.

Definition parse_opts (argv : list string) (v : vars) : prog vars :=
  v ← opt_loop parse_opt (getopt_long optstring options None argv) v;
  v ← default_file v;
  v ← default_size v;
  default_count v.

(** The buffer is zeroed by [calloc] and not freed.  [throw] is called with
    arguments its definition does not have: its message is the 0 passed first. *)
Definition write_loop (fd size count : Z) : prog unit :=
  for_ (Z.to_nat count) 0 (fun _ _ =>
    r ← call (Write fd (replicate (Z.to_nat size) 0));
    if r <? 0 then throw None else Ret tt) tt.

Definition do_io (fd size count : Z) : prog Z :=
  buf ← call (Calloc 1 (u64 size));
  match buf with
  | None => Ret (-1)
  | Some _ => write_loop fd size count;; Ret 0
  end.

Definition main (argv : list string) : prog Z :=
  p ← call (Calloc 1 24);
  match p with
  | None => Undef "write through NULL"
  | Some _ =>
      v ← parse_opts argv (Vars None 0 0 0);
      let perms := 438 in
      let out_flags := Z.lor (Z.lor O_CREAT O_TRUNC) O_WRONLY in
      let out_flags := if negb (sync v =? 0) then Z.lor out_flags O_SYNC else out_flags in
      out ← call (Open (default "" (file v)) out_flags perms);
      if out <? 0 then throw None
      else
        r ← do_io out (size v) (count v);
        if r <? 0 then
          call (Printf ("error occured while performing I/O" +:+ NL) []);; Ret EXIT_FAILURE
        else Ret EXIT_SUCCESS
  end.
End Ioburst.

(** ** src/lockfight.c *)
Module Lockfight.

Definition progname : string := "lockfight".

Record vars := Vars { mili : Z; path : option string }.

(** [struct flock] over the whole file. *)
Inductive lock_type := F_WRLCK | F_UNLCK.
Definition l_type (t : lock_type) : Z := match t with F_WRLCK => 1 | F_UNLCK => 2 end.

Definition lock_file (fd : Z) : prog Z :=
  call (Printf ("Try to lock file..." +:+ NL) []);;
  r ← call (Fcntl_setlkw fd (l_type F_WRLCK));
  if r <? 0 then call (Perror (Some "fcntl error"));; Ret (-1)
  else call (Printf ("File lock succeeded" +:+ NL) []);; Ret 0.

Definition unlock_file (fd : Z) : prog Z :=
  call (Printf ("Try to unlock file..." +:+ NL) []);;
  r ← call (Fcntl_setlkw fd (l_type F_UNLCK));
  if r <? 0 then call (Perror (Some "fcntl error"));; Ret (-1)
  else call (Printf ("File unlock succeeded" +:+ NL) []);; Ret 0.

Definition usage {A} : prog A := usage_text
  [("Usage: %s [OPTIONS] [COMMAND]" +:+ NL, [PStr (Some progname)]);
   (NL +:+ "Options:" +:+ NL +:+ NL, []);
   ("  --help     this help" +:+ NL, []);
   ("  --file     file to lock" +:+ NL, []);
   ("  --sleep    sleep time after acquiring the lock in miliseconds" +:+ NL, [])].

Definition optstring : string := "hs:f:".
Definition options : list option_ :=
  [Option_ "help" false "h"; Option_ "file" true "f"; Option_ "sleep" true "s"].

Definition parse_opt (f : found) (v : vars) : prog vars :=
  match opt f with
  | "s"%char => with_arg f (fun a => Ret (Vars (atoi a) (path v)))
  | "f"%char => with_arg f (fun a => Ret (Vars (mili v) (Some a)))
  | _ => usage
  end.

(** -1 when an argument is missing. *)
Definition parse_opts (argv : list string) : prog (Z * vars) :=
  v ← opt_loop parse_opt (getopt_long optstring options None argv) (Vars 0 None);
  if (mili v =? 0) || match path v with None => true | Some _ => false end then Ret (-1, v) else Ret (0, v).

(** The results of [lock_file] and [unlock_file] are not looked at. *)
Definition main (argv : list string) : prog Z :=
  '(r, v) ← parse_opts argv;
  if r <? 0 then call (Printf ("Error: missing arguments" +:+ NL) []);; usage
  else
    fd ← call (Open (default "" (path v)) (Z.lor O_RDWR O_CREAT) 420);
    if fd =? -1 then call (Perror (Some "Can't open output file"));; Ret (-1)
    else
      lock_file fd;;
      do_sleep (mili v);;
      unlock_file fd;;
      do_sleep (mili v);;
      Ret 0.
End Lockfight.

(** ** Writing blocks *)
Module IoburstFacts.
Import Ioburst.

(** The writes of [k] blocks and their answers. *)
Definition writes (fd size : Z) (rs : list Z) : list ev :=
  map (fun r => Ev (Write fd (replicate (Z.to_nat size) 0)) r) rs.

(** The loop from the turn [i] on. *)
Lemma write_loop_run {W} (h : handler W) fd size n i w tr0 :
  let loop := for_ n i (fun _ _ => r ← call (Write fd (replicate (Z.to_nat size) 0));
                        if r <? 0 then throw None else Ret tt) tt in
  exists rs w' tr,
    (run (traced h) loop (w, tr0) = (Done tt, (w', tr0 ++ tr))
     /\ tr = writes fd size rs /\ length rs = n /\ Forall (Z.le 0) rs)
    \/ (exists r, run (traced h) loop (w, tr0) = (Exited 1, (w', tr0 ++ tr))
        /\ tr = writes fd size (rs ++ [r]) ++ [Ev (Perror None) tt]
        /\ (length rs < n)%nat /\ Forall (Z.le 0) rs /\ r < 0).
Proof.
  cbv zeta. revert i w tr0. induction n as [|n IH]; intros i w tr0.
  { exists [], w, []. left. cbn. by rewrite app_nil_r. }
  cbn [for_]. step_run.
  set (r := (h Z (Write fd (replicate (Z.to_nat size) 0)) w).1).
  destruct (Z.ltb_spec r 0) as [Hr|Hr].
  - unfold throw. step_run. exists []. do 2 eexists. right. exists r. cbn [run and_then]. rewrite <- app_assoc.
    split; [reflexivity|]. split_and!; [done|cbn; lia|done|done].
  - step_run.
    destruct (IH (i + 1) (h Z (Write fd (replicate (Z.to_nat size) 0)) w).2
      (tr0 ++ [Ev (Write fd (replicate (Z.to_nat size) 0)) r])) as (rs & w' & tr & H).
    exists (r :: rs), w', (Ev (Write fd (replicate (Z.to_nat size) 0)) r :: tr).
    destruct H as [(-> & -> & Hl & Hf)|(r' & -> & -> & Hl & Hf & Hneg)].
    + left. rewrite <- app_assoc. split_and!; [done|done|cbn; lia|by constructor].
    + right. exists r'. rewrite <- app_assoc. split_and!; [done|done|cbn; lia|by constructor|done].
Qed.

(** [do_io] on every branch: it writes blocks of [size] zeros, [count] of
    them, and returns 0; or the first write that fails ends the process with
    status 1, after a message without text, the [return -1] that follows being
    out of reach; -1 means that there was no memory, and nothing was written.  A
    short write is not noticed. *)
Theorem ioburst_do_io {W} (h : handler W) (fd size count : Z) (w : W) :
  exists w' tr a,
    run (traced h) (do_io fd size count) (w, [])
    = (match a with inl r => Done r | inr s => Exited s end, (w', tr))
    /\ ((a = inl (-1) /\ tr = [Ev (Calloc 1 (u64 size)) None])
        \/ exists p rs, Forall (Z.le 0) rs /\
           ((a = inl 0 /\ length rs = Z.to_nat count
             /\ tr = Ev (Calloc 1 (u64 size)) (Some p) :: writes fd size rs)
            \/ (a = inr 1 /\ (length rs < Z.to_nat count)%nat
                /\ exists r, r < 0 /\ tr = Ev (Calloc 1 (u64 size)) (Some p)
                     :: writes fd size (rs ++ [r]) ++ [Ev (Perror None) tt]))).
Proof.
  unfold do_io. step_run. destruct (h _ (Calloc 1 (u64 size)) w).1 as [p|].
  - rewrite run_bind. unfold write_loop. cbn [app].
    destruct (write_loop_run h fd size (Z.to_nat count) 0 (h _ (Calloc 1 (u64 size)) w).2 [Ev (Calloc 1 (u64 size)) (Some p)])
      as (rs & w' & tr & [(-> & -> & Hl & Hf)|(r & -> & -> & Hl & Hf & Hr)]); cbn [and_then app].
    + rewrite run_ret. exists w', (Ev (Calloc 1 (u64 size)) (Some p) :: writes fd size rs), (inl 0). split; [done|].
      right. exists p, rs. split; [done|]. by left.
    + exists w', (Ev (Calloc 1 (u64 size)) (Some p) :: writes fd size (rs ++ [r]) ++ [Ev (Perror None) tt]), (inr 1).
      split; [done|]. right. exists p, rs. split; [done|]. right. split_and!; [done|done|]. by exists r.
  - step_run. do 2 eexists. exists (inl (-1)). split; [reflexivity|]. by left.
Qed.
End IoburstFacts.

(** ** Holding the lock *)
Module LockfightFacts.
Import Lockfight.

(** The lock requests and the sleeps of a trace. *)
Definition lock_ev (e : ev) : option (Z + timespec) :=
  match e with
  | Ev (Fcntl_setlkw _ ty) _ => Some (inl ty)
  | Ev (Nanosleep t) _ => Some (inr t)
  | _ => None
  end.
Definition locks (tr : list ev) : list (Z + timespec) := omap lock_ev tr.

Definition settings (m : Z) (file : string) : list (option_ * option string) :=
  [(Option_ "file" true "f", Some file); (Option_ "sleep" true "s", Some (render m))].

(** The pause of [do_sleep]. *)
Definition pause (m : Z) : timespec := Timespec (m / 1000) (m mod 1000 * 1000000).

Lemma sleep_run {W} (h : handler W) m w tr0 :
  0 < m <= INT_MAX ->
  exists r w' tr, run (traced h) (do_sleep m) (w, tr0) = (Done r, (w', tr0 ++ tr)) /\ locks tr = [inr (pause m)].
Proof.
  intros Hm. unfold do_sleep, cdiv, crem. rewrite (proj2 (Z.eqb_neq _ _)) by lia.
  rewrite Z.quot_div_nonneg, Z.rem_mod_nonneg, s32_id by (pose proof (Z.mod_pos_bound m 1000); clia).
  step_run. case_if; step_run; rewrite <- !app_assoc; do 3 eexists; (split; [reflexivity|done]).
Qed.

Lemma lock_run {W} (h : handler W) fd w tr0 :
  exists r w' tr, run (traced h) (lock_file fd) (w, tr0) = (Done r, (w', tr0 ++ tr)) /\ locks tr = [inl 1].
Proof.
  unfold lock_file. step_run. case_if; step_run; rewrite <- !app_assoc; do 3 eexists; (split; [reflexivity|done]).
Qed.

Lemma unlock_run {W} (h : handler W) fd w tr0 :
  exists r w' tr, run (traced h) (unlock_file fd) (w, tr0) = (Done r, (w', tr0 ++ tr)) /\ locks tr = [inl 2].
Proof.
  unfold unlock_file. step_run. case_if; step_run; rewrite <- !app_assoc; do 3 eexists; (split; [reflexivity|done]).
Qed.

Lemma ioburst_settings m file :
  0 < m <= INT_MAX -> parse_opts (words (settings m file)) = Ret (0, Vars m (Some file)).
Proof.
  intros Hm. unfold parse_opts. rewrite getopt_long_words by done. cbn.
  rewrite atoi_render by clia. by rewrite (proj2 (Z.eqb_neq m 0)) by lia.
Qed.

(** [lockfight] with a file and a time: once the file is open it requests
    the lock, sleeps for exactly the time, releases the lock, sleeps again and
    returns 0, in this order and whether or not it ever got the lock. *)
Theorem lockfight_order {W} (h : handler W) (m : Z) (file : string) (w : W)
    (Hm : 0 < m <= INT_MAX) (Hopen : forall p fl md w, (h _ (Open p fl md) w).1 <> -1) :
  exists w' tr, run (traced h) (main (words (settings m file))) (w, []) = (Done 0, (w', tr))
    /\ locks tr = [inl 1; inr (pause m); inl 2; inr (pause m)].
Proof.
  unfold main. rewrite ioburst_settings by done. step_run. change (0 <? 0) with false. cbn [mili path default].
  step_run. rewrite (proj2 (Z.eqb_neq _ _)) by apply Hopen. rewrite run_bind.
  match goal with |- context [run _ (lock_file ?fd) (?w0, ?tr0)] =>
    destruct (lock_run h fd w0 tr0) as (r1 & w1 & tr1 & -> & H1) end.
  cbn [and_then]. rewrite run_bind.
  match goal with |- context [run _ (do_sleep _) (?w0, ?tr0)] =>
    destruct (sleep_run h m w0 tr0 Hm) as (r2 & w2 & tr2 & -> & H2) end.
  cbn [and_then]. rewrite run_bind.
  match goal with |- context [run _ (unlock_file ?fd) (?w0, ?tr0)] =>
    destruct (unlock_run h fd w0 tr0) as (r3 & w3 & tr3 & -> & H3) end.
  cbn [and_then]. rewrite run_bind.
  match goal with |- context [run _ (do_sleep _) (?w0, ?tr0)] =>
    destruct (sleep_run h m w0 tr0 Hm) as (r4 & w4 & tr4 & -> & H4) end.
  cbn [and_then]. rewrite run_ret. do 2 eexists. split; [reflexivity|].
  unfold locks in *. by rewrite !omap_app, H1, H2, H3, H4.
Qed.

Theorem lockfight_order_witness :
  exists w' tr, run (traced default_handler) (main ["--file"; "f"; "--sleep"; "1500"]) (tt, []) = (Done 0, (w', tr))
    /\ locks tr = [inl 1; inr (Timespec 1 500000000); inl 2; inr (Timespec 1 500000000)].
Proof. apply (lockfight_order default_handler 1500 "f" tt); [clia|done]. Defined.
End LockfightFacts.
