(* ===== verification/Sockpair.v ===== *)
(** * src/sockpair.c

    A pair of connected sockets over the loopback: the descriptors it opens,
    uses and leaves. *)

From S2P Require Import Prelude CInt CString Libc CFloat Utils.

Local Open Scope string_scope.
Local Open Scope list_scope.
Local Open Scope Z_scope.

(** Prints the message and ends the process, with success. *)
Definition error {A} (msg : string) : prog A := call (Perror (Some msg));; Exit 0.

Definition INADDR_LOOPBACK : list Z := [127; 0; 0; 1].
Definition sizeof_sockaddr : Z := 16.

(** The bytes of [s_addr]. *)
Definition addr_bytes (a : Z) : list Z := [u8 a; u8 (Z.shiftr a 8); u8 (Z.shiftr a 16); u8 (Z.shiftr a 24)].

(** [accept] fills the address it is given, with its size [size]: an answer
    of the environment, [accepted]. *)
Section sockpair.
Variable accepted_size : Z.

(** The result and [fd].  [getsockname] answers
    [(status, size, (address, port))]. *)
Definition create_socketpair : prog (Z * option (Z * Z)) :=
  listener ← call Socket;
  if listener <? 0 then Ret (-1, None) else
  r ← call (Bind listener INADDR_LOOPBACK 0);
  if r =? -1 then Ret (-1, None) else
  r ← call (Listen listener 1);
  if r =? -1 then Ret (-1, None) else
  connector ← call Socket;
  if connector <? 0 then Ret (-1, None) else
  '(r, size, (addr, port)) ← call (Getsockname listener);
  if r =? -1 then Ret (-1, None) else
  if negb (size =? sizeof_sockaddr) then Ret (-1, None) else
  call (Printf ("listener addr %d port %d" +:+ NL) [PInt addr; PInt port]);;
  r ← call (Connect connector (addr_bytes addr) port);
  if r =? -1 then Ret (-1, None) else
  acceptor ← call (Accept listener);
  if acceptor <? 0 then Ret (-1, None) else
  if negb (accepted_size =? sizeof_sockaddr) then Ret (-1, None) else
  call (Close listener);;
  '(r, _, (addr, port)) ← call (Getsockname connector);
  if r =? -1 then Ret (-1, None) else
  call (Printf ("connector addr %d port %d" +:+ NL) [PInt addr; PInt port]);;
  Ret (0, Some (connector, acceptor)).

Definition main : prog Z :=
  '(r, _) ← create_socketpair;
  if r <? 0 then Ret (-1) else Ret 0.
End sockpair.

(** ** Descriptors *)

(** The descriptors a trace opened, and those it closed. *)
Definition opened_ev (e : ev) : option Z :=
  match e with
  | Ev e x => match e in sys X return X -> option Z with
              | Socket | Accept _ => fun fd => if fd <? 0 then None else Some fd
              | _ => fun _ => None
              end x
  end.
Definition closed_ev (e : ev) : option Z :=
  match e with Ev (Close fd) _ => Some fd | _ => None end.
Definition opened (tr : list ev) : list Z := omap opened_ev tr.
Definition closed (tr : list ev) : list Z := omap closed_ev tr.

(** Success: two sockets are left, connected through a listener that is
    closed.  Failure: whatever was opened is left, except for the listener when
    only the last call failed. *)
Definition pair_result (r : Z) (fd : option (Z * Z)) (ops cls : list Z) : Prop :=
  (r = 0 /\ exists l c a, fd = Some (c, a) /\ ops = [l; c; a] /\ cls = [l])
  \/ (r = -1 /\ fd = None /\ (cls = [] \/ exists l c a, ops = [l; c; a] /\ cls = [l])).

(** ** The calls, in order

    What the environment answers to each call; [a_connect] and [a_accept] are
    the answers of [connect] and [accept]. *)
Record answers := Answers {
  a_listener : Z; a_bind : Z; a_listen : Z; a_connector : Z;
  a_name : Z * Z * (Z * Z); a_connect : Z; a_accept : Z; a_close : Z; a_own_name : Z * Z * (Z * Z)
}.

(** Every call of a complete run with the test of its answer: the listener is
    bound to the loopback and listens, its own address is read and it is to
    this address that the connector connects; the connection is accepted from
    the listener, which is then closed. *)
Definition dialogue (accepted_size : Z) (r : answers) : list (ev * bool) :=
  let '(s1, size, (addr, port)) := a_name r in
  let '(s2, _, (addr', port')) := a_own_name r in
  [(Ev Socket (a_listener r), negb (a_listener r <? 0));
   (Ev (Bind (a_listener r) INADDR_LOOPBACK 0) (a_bind r), negb (a_bind r =? -1));
   (Ev (Listen (a_listener r) 1) (a_listen r), negb (a_listen r =? -1));
   (Ev Socket (a_connector r), negb (a_connector r <? 0));
   (Ev (Getsockname (a_listener r)) (a_name r), negb (s1 =? -1) && (size =? sizeof_sockaddr));
   (Ev (Printf ("listener addr %d port %d" +:+ NL) [PInt addr; PInt port]) tt, true);
   (Ev (Connect (a_connector r) (addr_bytes addr) port) (a_connect r), negb (a_connect r =? -1));
   (Ev (Accept (a_listener r)) (a_accept r),
      negb (a_accept r <? 0) && (accepted_size =? sizeof_sockaddr));
   (Ev (Close (a_listener r)) (a_close r), true);
   (Ev (Getsockname (a_connector r)) (a_own_name r), negb (s2 =? -1));
   (Ev (Printf ("connector addr %d port %d" +:+ NL) [PInt addr'; PInt port']) tt, true)].

(** The calls up to the first one that fails, itself included. *)
Fixpoint up_to_failure (l : list (ev * bool)) : list ev :=
  match l with
  | [] => []
  | (e, ok) :: l => e :: if ok : bool then up_to_failure l else []
  end.

Definition all_succeed (l : list (ev * bool)) : bool := forallb snd l.

(** ** A loopback network

    A concrete kernel: sockets by descriptor.  A connection waits in the queue
    of the listener until it is accepted by a new socket; the two are then the
    [Peer] of each other. *)
Inductive sock :=
  | Unbound
  | Bound (addr : list Z) (port : Z)
  | Listening (addr : list Z) (port : Z) (backlog : nat) (queue : list nat)
  | Waiting
  | Peer (fd : nat)
  | Closed.

Definition port_of (s : sock) : Z :=
  match s with Bound _ p | Listening _ p _ _ => p | _ => 0 end.
Definition fresh_port (net : list sock) : Z := 1 + foldr Z.max 0 (map port_of net).

(** The address as the [int] that [getsockname] leaves in [s_addr]. *)
Definition s_addr (addr : list Z) : Z :=
  foldr (fun b a => b + 256 * a) 0 addr.

Definition listens_on (addr : list Z) (port : Z) (s : sock) : bool :=
  match s with
  | Listening a p n q => bool_decide (a = addr) && (p =? port) && (length q <? n)%nat
  | _ => false
  end.

Definition loopback : handler (list sock) := fun X e net =>
  let n fd := Z.to_nat fd in
  match e in sys X return X * list sock with
  | Socket => (Z.of_nat (length net), net ++ [Unbound])
  | Bind fd addr port =>
      match net !! n fd with
      | Some Unbound =>
          (0, <[n fd := Bound addr (if port =? 0 then fresh_port net else port)]> net)
      | _ => (-1, net)
      end
  | Listen fd backlog =>
      match net !! n fd with
      | Some (Bound a p) => (0, <[n fd := Listening a p (n backlog) []]> net)
      | _ => (-1, net)
      end
  | Getsockname fd =>
      match net !! n fd with
      | Some (Bound a p) | Some (Listening a p _ _) => ((0, sizeof_sockaddr, (s_addr a, p)), net)
      | Some (Peer _) | Some Waiting => ((0, sizeof_sockaddr, (s_addr INADDR_LOOPBACK, 0)), net)
      | _ => ((-1, 0, (0, 0)), net)
      end
  | Connect fd addr port =>
      match list_find (fun s => listens_on addr port s) net, net !! n fd with
      | Some (l, Listening a p k q), Some Unbound =>
          (0, <[l := Listening a p k (q ++ [n fd])]> (<[n fd := Waiting]> net))
      | _, _ => (-1, net)
      end
  | Accept fd =>
      match net !! n fd with
      | Some (Listening a p k (c :: q)) =>
          (Z.of_nat (length net),
           <[n fd := Listening a p k q]> (<[c := Peer (length net)]> net) ++ [Peer c])
      | _ => (-1, net)
      end
  | Close fd => (0, <[n fd := Closed]> net)
  | e => (default_answer e, net)
  end.

(** ** Lemmas *)

Lemma lookup_at {A} (net l : list A) i k :
  i = (length net + k)%nat -> (net ++ l) !! i = l !! k.
Proof. intros ->. rewrite lookup_app_r by lia. f_equal. lia. Qed.

Lemma insert_at {A} (net l : list A) i k x :
  i = (length net + k)%nat -> <[i := x]> (net ++ l) = net ++ <[k := x]> l.
Proof. intros ->. by rewrite insert_app_r. Qed.

Lemma fresh_port_above net s : s ∈ net -> port_of s < fresh_port net.
Proof.
  unfold fresh_port. induction net as [|s' net IH]; intros Hs; [by apply not_elem_of_nil in Hs|].
  cbn [map foldr]. apply elem_of_cons in Hs as [->|Hs]; [lia|]. specialize (IH Hs). lia.
Qed.

(** Only the new listener listens on its port. *)
Lemma find_listener net p a k s :
  (0 < k)%nat -> (forall s, s ∈ net -> port_of s < p) ->
  list_find (fun s => listens_on a p s) (net ++ Listening a p k [] :: s)
  = Some (length net, Listening a p k []).
Proof.
  intros Hk Hp. apply list_find_Some. split_and!.
  - by rewrite (lookup_at _ _ _ 0) by lia.
  - cbn. rewrite bool_decide_true by done. rewrite Z.eqb_refl. by destruct k; [lia|].
  - intros j y Hj Hlt. rewrite lookup_app_l in Hj by done.
    specialize (Hp y (list_elem_of_lookup_2 _ _ _ Hj)).
    destruct y; cbn [listens_on port_of] in *; try (by intros []).
    replace (port =? p) with false by lia. rewrite andb_false_r. by intros [].
Qed.

Lemma fd_nonneg n : (Z.of_nat n <? 0) = false.
Proof. apply Z.ltb_ge, Nat2Z.is_nonneg. Qed.

(** The answers on the way, at the end of a network [net]. *)
Section loopback.
Variable net : list sock.
Let l : Z := Z.of_nat (length net).
Let c : Z := Z.of_nat (length net + 1).
Variables (a : list Z) (p : Z).

Ltac at_end := cbn [loopback]; unfold l, c; rewrite ?Nat2Z.id.

Lemma loopback_bind :
  loopback _ (Bind l a 0) (net ++ [Unbound]) = (0, net ++ [Bound a (fresh_port (net ++ [Unbound]))]).
Proof. at_end. rewrite (lookup_at _ _ _ 0) by lia. cbn [lookup list_lookup]. by rewrite (insert_at _ _ _ 0) by lia. Qed.

Lemma loopback_listen :
  loopback _ (Listen l 1) (net ++ [Bound a p]) = (0, net ++ [Listening a p 1 []]).
Proof. at_end. rewrite (lookup_at _ _ _ 0) by lia. cbn [lookup list_lookup]. by rewrite (insert_at _ _ _ 0) by lia. Qed.

Lemma loopback_name k q s :
  loopback _ (Getsockname l) (net ++ Listening a p k q :: s)
  = ((0, sizeof_sockaddr, (s_addr a, p)), net ++ Listening a p k q :: s).
Proof. at_end. by rewrite (lookup_at _ _ _ 0) by lia. Qed.

Lemma loopback_connect :
  (forall s, s ∈ net -> port_of s < p) ->
  loopback _ (Connect c a p) (net ++ [Listening a p 1 []; Unbound])
  = (0, net ++ [Listening a p 1 [(length net + 1)%nat]; Waiting]).
Proof.
  intros Hp. at_end. rewrite find_listener by (done || lia).
  rewrite (lookup_at _ _ _ 1) by lia. cbn [lookup list_lookup].
  by rewrite (insert_at _ _ _ 1), (insert_at _ _ _ 0) by lia.
Qed.

Lemma loopback_accept :
  loopback _ (Accept l) (net ++ [Listening a p 1 [(length net + 1)%nat]; Waiting])
  = (Z.of_nat (length net + 2), net ++ [Listening a p 1 []; Peer (length net + 2); Peer (length net + 1)]).
Proof.
  at_end. rewrite (lookup_at _ _ _ 0) by lia. cbn [lookup list_lookup].
  rewrite (insert_at _ _ _ 1), (insert_at _ _ _ 0), length_app by lia. cbn. by rewrite <- app_assoc.
Qed.

Lemma loopback_close s x : loopback _ (Close l) (net ++ s :: x) = (0, net ++ Closed :: x).
Proof. at_end. by rewrite (insert_at _ _ _ 0) by lia. Qed.

Lemma loopback_name_peer x y d :
  loopback _ (Getsockname c) (net ++ [x; Peer d; y])
  = ((0, sizeof_sockaddr, (s_addr INADDR_LOOPBACK, 0)), net ++ [x; Peer d; y]).
Proof. at_end. by rewrite (lookup_at _ _ _ 1) by lia. Qed.
End loopback.

Ltac loopback_step :=
  repeat (progress (cbn [fst snd app length negb]; step_run; rewrite ?Z.eqb_refl;
          change (0 =? -1) with false; cbv iota)).

(** The call on the loopback network, from any state of it. *)
Lemma run_loopback net :
  run loopback (create_socketpair sizeof_sockaddr) net
  = (Done (0, Some (Z.of_nat (length net + 1), Z.of_nat (length net + 2))),
     net ++ [Closed; Peer (length net + 2); Peer (length net + 1)]).
Proof.
  unfold create_socketpair. step_run. change (loopback _ Socket net) with (Z.of_nat (length net), net ++ [Unbound]).
  cbn [fst snd]. rewrite fd_nonneg. step_run.
  rewrite loopback_bind. set (p := fresh_port _). loopback_step.
  rewrite loopback_listen. loopback_step.
  change (loopback _ Socket ?n) with (Z.of_nat (length n), n ++ [Unbound]).
  rewrite length_app, <- app_assoc. loopback_step. rewrite fd_nonneg. step_run.
  rewrite loopback_name. loopback_step.
  change (addr_bytes (s_addr INADDR_LOOPBACK)) with INADDR_LOOPBACK.
  rewrite loopback_connect.
  2:{ intros s Hs. apply fresh_port_above. by apply elem_of_app; left. }
  loopback_step. rewrite loopback_accept. loopback_step. rewrite fd_nonneg. step_run.
  rewrite loopback_close. loopback_step. rewrite loopback_name_peer. by loopback_step.
Qed.

(** Reduce up to the next test of an answer, and split on it. *)
Ltac answered :=
  match goal with
  | H : ?h _ ?e ?w = _ |- context [?h _ ?e ?w] => rewrite H
  | H : (_ =? _) = _ |- _ => progress rewrite H
  | H : (_ <? _) = _ |- _ => progress rewrite H
  end.
Ltac answer_step :=
  cbn [negb]; cbv iota; repeat (step_run; answered; cbn [fst snd negb]; cbv iota).
Ltac pair_case :=
  answer_step;
  match goal with
  | |- context [run _ (if ?a <? 0 then _ else _)] => destruct (a <? 0) eqn:?
  | |- context [run _ (if ?a =? -1 then _ else _)] => destruct (a =? -1) eqn:?
  | |- context [run _ (if negb (?a =? 16) then _ else _)] => destruct (a =? 16) eqn:?
  end.

(** ** Theorem *)

(** (C37) [create_socketpair] on every branch, whatever the kernel answers: the
    calls are those of [dialogue], in its order, up to the first one that
    fails; the connector is connected to the address that the listener has
    been bound to, and the acceptor comes from the listener.  It returns 0
    with the connector and the acceptor exactly if every call succeeds, the
    listener being closed, and -1 otherwise; on the errors it closes nothing
    that it opened, but for the listener when the very last call fails.  On a
    loopback network, in any state, it succeeds and leaves the two new sockets
    as the peers of each other. *)
Theorem sockpair_descriptors :
  (forall W (h : handler W) (accepted_size : Z) (w : W),
    exists (r : answers) w',
      let calls := dialogue accepted_size r in
      let tr := up_to_failure calls in
      let result := if all_succeed calls then (0, Some (a_connector r, a_accept r)) else (-1, None) in
      run (traced h) (create_socketpair accepted_size) (w, []) = (Done result, (w', tr))
      /\ pair_result result.1 result.2 (opened tr) (closed tr))
  /\ (forall net : list sock,
       let l := length net in
       run loopback (create_socketpair sizeof_sockaddr) net
       = (Done (0, Some (Z.of_nat (l + 1), Z.of_nat (l + 2))),
          net ++ [Closed; Peer (l + 2); Peer (l + 1)])).
Proof.
  split; [|exact run_loopback]. intros W h asz w. unfold create_socketpair, sizeof_sockaddr.
  destruct (h _ Socket w) as [l w1] eqn:E1.
  destruct (h _ (Bind l INADDR_LOOPBACK 0) w1) as [b w2] eqn:E2.
  destruct (h _ (Listen l 1) w2) as [i w3] eqn:E3.
  destruct (h _ Socket w3) as [c w4] eqn:E4.
  destruct (h _ (Getsockname l) w4) as [[[s1 size] [addr port]] w5] eqn:E5.
  destruct (h _ (Printf ("listener addr %d port %d" +:+ NL) [PInt addr; PInt port]) w5) as [[] w6] eqn:E6.
  destruct (h _ (Connect c (addr_bytes addr) port) w6) as [k w7] eqn:E7.
  destruct (h _ (Accept l) w7) as [a w8] eqn:E8.
  destruct (h _ (Close l) w8) as [x w9] eqn:E9.
  destruct (h _ (Getsockname c) w9) as [[[s2 size2] [addr2 port2]] w10] eqn:E10.
  exists (Answers l b i c (s1, size, (addr, port)) k a x (s2, size2, (addr2, port2))).
  repeat pair_case. all: answer_step; step_run.
  all: eexists; unfold dialogue, all_succeed; cbn [a_listener a_bind a_listen a_connector a_name
         a_connect a_accept a_close a_own_name forallb snd up_to_failure]; unfold sizeof_sockaddr.
  all: repeat (answered; cbn [negb andb]; cbv iota). all: split; [reflexivity|].
  all: unfold pair_result, opened, closed; cbn; repeat (answered; cbv iota).
  all: first [right; split_and!; [done..|]; by left
    | right; split_and!; [done..|]; right; by do 3 eexists
    | left; split; [done|]; by do 3 eexists].
Qed.
