(* ===== verification/Workers.v ===== *)
(** * ust/bossthread, ust/functrace, ust/hello-openmp, tests/test-uevent.c

    Small programs whose threads count, compute or record events. *)

From S2P Require Import Prelude CInt CString Libc CFloat Utils Getopt Calibrate Traces.

Local Open Scope string_scope.
Local Open Scope list_scope.
Local Open Scope Z_scope.

(** ** ust/bossthread/bossthread.c *)
Module Bossthread.

Definition MAX_THREAD : Z := 4.

Record worker_data := WorkerData { count : Z; res : Z }.

(** [for (i = 0; i < info->count; i++) info->res++], from the turn [i]: an
    [int i], compared as an [unsigned long].  [None] when [i] overflows. *)
Fixpoint count_loop (fuel : nat) (i : Z) (info : worker_data) : option worker_data :=
  if u64 i <? count info then
    match fuel with
    | O => None
    | S fuel =>
        if i =? INT_MAX then None
        else count_loop fuel (i + 1) (WorkerData (count info) (u64 (res info + 1)))
    end
  else Some info.

(** Enough turns for every [int]. *)
Definition fuel (info : worker_data) : nat := Z.to_nat (Z.min (count info) (INT_MAX + 1)).

Definition worker (info : worker_data) : prog worker_data :=
  self ← call Pthread_self;
  call (Tracepoint_args "bossthread" "id" [PInt self]);;
  match count_loop (fuel info) 0 info with
  | None => Undef "overflow of i"
  | Some info =>
      call (Tracepoint_args "bossthread" "id" [PInt self]);;
      Ret info
  end.

(** The data of the thread [i]. *)
Definition make_data (max i : Z) : worker_data := WorkerData (u64 (max * u64 (i + 1))) 0.

(** The data of the four threads, which [main] gives them. *)
Definition main : prog (list worker_data) :=
  max ← calibrate 10000;
  data ← (fix go (ids : list Z) : prog (list worker_data) :=
    match ids with
    | [] => Ret []
    | i :: ids =>
        p ← call (Calloc 1 16);
        match p with
        | None => Undef "write through NULL"
        | Some _ => l ← go ids; Ret (make_data (u64 max) i :: l)
        end
    end) (seqZ 0 MAX_THREAD);
  create_all MAX_THREAD;;
  join_all MAX_THREAD;;
  Ret data.
End Bossthread.

(** ** ust/functrace/functrace.c and cyg.c *)
Module Functrace.

(** An [int] operation; [None] when it overflows. *)
Definition int_op (x : Z) : option Z := if (INT_MIN <=? x) && (x <=? INT_MAX) then Some x else None.

Definition baz (n : Z) : option Z :=
  n ← int_op (n * 3);
  int_op (cdiv n 4).

(** [while (i < n) { i = i << 1; baz_ptr(i++); }], from [i]. *)
Fixpoint bar_loop (fuel : nat) (n i : Z) : option Z :=
  if i <? n then
    match fuel with
    | O => None
    | S fuel =>
        i ← int_op (Z.shiftl i 1);
        _ ← baz i;
        i ← int_op (i + 1);
        bar_loop fuel n i
    end
  else Some i.

Definition bar (n : Z) : option Z := bar_loop 32 n 0.

(** [for (i = 0; i < n; i++) x = bar_ptr(i); return x;]: [x] has no value
    before the first turn. *)
Fixpoint foo_loop (turns : nat) (i : Z) (x : option Z) : option (option Z) :=
  match turns with
  | O => Some x
  | S turns => y ← bar i; foo_loop turns (i + 1) (Some y)
  end.

Definition foo (n : Z) : option Z := x ← foo_loop (Z.to_nat n) 0 None; x.

(** The three function pointers have been set to the functions. *)
Definition main (argv : list string) : prog Z :=
  match argv with
  | [] => Ret (-1)
  | a :: _ =>
      let n := atoi a in
      match foo n with
      | None => Undef "overflow, or no value"
      | Some r => call (Printf ("result %d" +:+ NL) [PInt r]);; Ret 0
      end
  end.

(** The instrumentation the compiler inserts at the ends of a function. *)
Definition cyg_profile_func_enter (this_fn call_site : Z) : prog unit :=
  call (Tracepoint_args "cyg" "entry" [PInt this_fn]).
Definition cyg_profile_func_exit (this_fn call_site : Z) : prog unit :=
  call (Tracepoint_args "cyg" "exit" []).
End Functrace.

(** ** ust/hello-openmp/hello-openmp.c *)
Module Hello.

Definition NB_ITERATIONS : Z := 1000000.

Definition inthandler (sig : Z) : prog unit :=
  call (Printf ("in SIGUSR1 handler" +:+ NL) []);;
  call (Tracepoint_args "ust_tests_hello" "tptest_sighandler" []).

Definition init_int_handler : prog Z :=
  result ← call Sigemptyset;
  if result =? -1 then call (Perror (Some "sigemptyset"));; Ret (-1) else
  result ← call (Sigaction SIGUSR1);
  if result =? -1 then call (Perror (Some "sigaction"));; Ret (-1) else
  Ret 0.

(** The bytes of a 32-bit integer, swapped. *)
Definition htonl (x : Z) : Z :=
  Z.lor (Z.shiftl (Z.land x 255) 24)
    (Z.lor (Z.shiftl (Z.land (Z.shiftr x 8) 255) 16)
       (Z.lor (Z.shiftl (Z.land (Z.shiftr x 16) 255) 8) (Z.land (Z.shiftr x 24) 255))).

(** The fields of an event: [i], [htonl(i)] as an [int], [values], [text] and
    its length, [dbl], [flt] and [mybool] ([bool] of 123). *)
Definition event (i : Z) : list parg :=
  [PInt i; PInt (s32 (htonl i)); PInt 1; PInt 2; PInt 3; PStr (Some "test"); PInt 4;
   PDouble (double_of_Z 2); PDouble (double_of_Z 2222); PInt 1].

(** What every thread of the parallel region does. *)
Definition iterations (n : Z) : prog unit :=
  for_ (Z.to_nat n) 0 (fun i _ =>
    call (Tracepoint_args "ust_tests_hello" "tptest" (event i))) tt.

(** The threads of the region share nothing; they are executed here one after
    the other. *)
Definition main (argv : list string) : prog Z :=
  init_int_handler;;
  let nb_threads := match argv with [a] => atoi a | _ => 1 end in
  call (Eprintf "Running %d iterations with %d threads... " [PInt NB_ITERATIONS; PInt nb_threads]);;
  for_ (Z.to_nat nb_threads) 0 (fun _ _ => iterations NB_ITERATIONS) tt;;
  call (Eprintf (" done." +:+ NL) []);;
  Ret 0.
End Hello.

(** ** tests/test-uevent.c *)
Module Uevent.

Definition LTTNG_FILE : string := "/proc/lttng_uevent".
Definition NB_THREAD : Z := 20.
Definition NB_EV : Z := Z.shiftl 1 16.
Definition MSG : string := "test-uevent".

(** [while (f == NULL) f = fopen(...)]; [fuel] bounds the attempts. *)
Fixpoint open_loop (fuel : nat) : prog Z :=
  match fuel with
  | O => Fuel
  | S fuel =>
      f ← call (Fopen LTTNG_FILE "w");
      match f with Some f => Ret f | None => open_loop fuel end
  end.

(** [ret] is a [uint64_t]. *)
Definition write_event (f self i miss : Z) : prog Z :=
  r ← call (Fprintf_status f "%s %ld %ld" [PStr (Some MSG); PInt self; PInt i]);
  let ret := u64 r in
  let miss := if ret <? 0 then u64 (miss + 1) else miss in
  call (Fflush f);;
  Ret miss.

Definition worker (fuel : nat) (self : Z) : prog unit :=
  f ← open_loop fuel;
  miss ← for_ (Z.to_nat NB_EV) 0 (fun i miss => write_event f self i miss) 0;
  call (Fclose f);;
  call (Printf ("Done %ld misses=%ld" +:+ NL) [PInt self; PInt miss]).

Definition do_run : prog unit := create_all NB_THREAD;; join_all NB_THREAD.

Definition main : prog Z :=
  call (Printf ("Start main" +:+ NL) []);;
  for_ 10 0 (fun _ _ => do_run) tt;;
  call (Printf ("Done main" +:+ NL) []);;
  Ret 0.
End Uevent.

(** ** Counting: facts *)
Module BossthreadFacts.
Import Bossthread.

Lemma count_loop_done k i c r :
  0 <= i -> i + Z.of_nat k = c -> c <= INT_MAX ->
  count_loop k i (WorkerData c r) = Some (WorkerData c (if (k =? 0)%nat then r else u64 (r + Z.of_nat k))).
Proof.
  revert i r. induction k as [|k IH]; intros i r Hi Hc Hm; cbn [count_loop count res];
    rewrite u64_id by clia.
  - rewrite (proj2 (Z.ltb_ge _ _)) by lia. done.
  - rewrite (proj2 (Z.ltb_lt _ _)), (proj2 (Z.eqb_neq _ _)) by lia. rewrite IH by lia.
    f_equal. f_equal. cbn [Nat.eqb]. destruct (Nat.eqb_spec k 0) as [->|Hk]; [done|].
    rewrite u64_add_idemp_l. f_equal. lia.
Qed.

Lemma count_loop_overflow k i c r :
  0 <= i <= INT_MAX -> i + Z.of_nat k = INT_MAX + 1 -> INT_MAX < c ->
  count_loop k i (WorkerData c r) = None.
Proof.
  revert i r. induction k as [|k IH]; intros i r Hi Hk Hc; [lia|]. cbn [count_loop count res].
  rewrite u64_id by clia.
  rewrite (proj2 (Z.ltb_lt _ _)) by lia. destruct (Z.eqb_spec i INT_MAX); [done|].
  apply IH; lia.
Qed.

(** A worker counts to its [count] in [res], exactly, between two events,
    when the count fits an [int]; beyond, its [int] index overflows before the
    end, although [count] is an [unsigned long].  So the four workers that
    [main] starts, of [max], [2 max], [3 max] and [4 max] turns, all count right
    when a quarter of INT_MAX bounds the calibration. *)
Theorem bossthread_worker {W} (h : handler W) (c : Z) (w : W) (Hc : in_u64 c) :
  (c <= INT_MAX -> exists id w' tr,
     run (traced h) (worker (WorkerData c 0)) (w, []) = (Done (WorkerData c c), (w', tr))
     /\ observed tr = [Point "bossthread" "id" [PInt id]; Point "bossthread" "id" [PInt id]])
  /\ (INT_MAX < c -> exists w' tr,
     run (traced h) (worker (WorkerData c 0)) (w, []) = (Undefined "overflow of i", (w', tr)))
  /\ (4 * c <= INT_MAX -> forall i, 0 <= i < MAX_THREAD -> make_data c i = WorkerData ((i + 1) * c) 0
       /\ (i + 1) * c <= INT_MAX).
Proof.
  split_and!.
  - intros Hm. unfold worker. step_run. unfold fuel. cbn [count]. rewrite Z.min_l by lia.
    rewrite (count_loop_done (Z.to_nat c) 0) by clia. step_run. do 3 eexists. split.
    + do 3 f_equal. destruct (Nat.eqb_spec (Z.to_nat c) 0); [clia|]. rewrite u64_id; clia.
    + reflexivity.
  - intros Hm. unfold worker. step_run. unfold fuel. cbn [count]. rewrite Z.min_r by lia.
    rewrite (count_loop_overflow (Z.to_nat (INT_MAX + 1)) 0) by clia. by do 2 eexists.
  - intros Hm i Hi. unfold make_data, MAX_THREAD in *. unfold in_u64 in Hc.
    assert (0 <= c * (i + 1) <= 4 * c) by nia. split; [|lia]. f_equal.
    rewrite (u64_id (i + 1)), u64_id by clia. lia.
Qed.

Theorem bossthread_worker_witness :
  exists id w' tr,
    run (traced default_handler) (worker (WorkerData 3 0)) (tt, []) = (Done (WorkerData 3 3), (w', tr))
    /\ observed tr = [Point "bossthread" "id" [PInt id]; Point "bossthread" "id" [PInt id]].
Proof. apply (bossthread_worker default_handler 3 tt); clia. Defined.
End BossthreadFacts.

(** ** The instrumented functions: facts *)
Module FunctraceFacts.
Import Functrace.

Lemma int_op_ok x : in_s32 x -> int_op x = Some x.
Proof. intros H. unfold int_op. by rewrite (proj2 (andb_true_iff _ _)) by (rewrite !Z.leb_le; clia). Qed.

Lemma baz_ok n : 0 <= n -> 3 * n <= INT_MAX -> baz n = Some (n * 3 / 4).
Proof.
  intros H0 Hn. unfold baz. rewrite int_op_ok by clia. cbn [mbind option_bind].
  unfold cdiv. rewrite Z.quot_div_nonneg by lia. apply int_op_ok.
  pose proof (Z.div_le_upper_bound (n * 3) 4 INT_MAX). pose proof (Z.div_pos (n * 3) 4). clia.
Qed.

(** A turn of the loop of [bar], from [2^j - 1]. *)
Lemma bar_turn fuel n j :
  0 <= j <= 28 -> 2 ^ j - 1 < n ->
  bar_loop (S fuel) n (2 ^ j - 1) = bar_loop fuel n (2 ^ (j + 1) - 1).
Proof.
  intros Hj Hn. assert (1 <= 2 ^ j <= 2 ^ 28) as Hp.
  { split; [change 1 with (2 ^ 0)|]; apply Z.pow_le_mono_r; lia. }
  cbn [bar_loop]. rewrite (proj2 (Z.ltb_lt _ _)) by lia.
  rewrite Z.shiftl_mul_pow2, Z.pow_1_r by lia. rewrite int_op_ok by clia. cbn [mbind option_bind].
  rewrite baz_ok by clia. cbn [mbind option_bind]. rewrite int_op_ok by clia. cbn [mbind option_bind].
  rewrite Z.pow_add_r by lia. f_equal. lia.
Qed.

(** From [2^29 - 1] on [baz] overflows. *)
Lemma bar_overflow fuel n : 2 ^ 29 - 1 < n -> bar_loop (S fuel) n (2 ^ 29 - 1) = None.
Proof. intros Hn. cbn [bar_loop]. by rewrite (proj2 (Z.ltb_lt _ _)) by lia. Qed.

Lemma bar_stop fuel n i : n <= i -> bar_loop fuel n i = Some i.
Proof. intros H. destruct fuel; cbn [bar_loop]; by rewrite (proj2 (Z.ltb_ge _ _)) by lia. Qed.

Lemma bar_from n k j fuel :
  0 <= j <= k -> k <= 29 -> (Z.to_nat (k - j) < fuel)%nat ->
  (forall i, j <= i < k -> 2 ^ i - 1 < n) -> (n <= 2 ^ k - 1 \/ k = 29 /\ 2 ^ 29 - 1 < n) ->
  bar_loop fuel n (2 ^ j - 1) = if n <=? 2 ^ k - 1 then Some (2 ^ k - 1) else None.
Proof.
  intros Hj Hk Hf Hlt Hend. remember (Z.to_nat (k - j)) as m eqn:Hm. revert j fuel Hj Hf Hm Hlt.
  induction m as [|m IH]; intros j fuel Hj Hf Hm Hlt.
  - assert (j = k) as -> by lia. destruct fuel as [|fuel]; [lia|].
    destruct (Z.leb_spec n (2 ^ k - 1)) as [Hle|Hgt]; [by apply bar_stop|].
    destruct Hend as [|[-> Hn]]; [lia|]. by apply bar_overflow.
  - destruct fuel as [|fuel]; [lia|]. rewrite bar_turn by (try apply Hlt; lia).
    apply IH; [lia|lia|lia|]. intros. apply Hlt. lia.
Qed.

Lemma bar_value n :
  0 <= n -> bar n = if n <=? 2 ^ 29 - 1 then Some (2 ^ Z.log2_up (n + 1) - 1) else None.
Proof.
  intros Hn. unfold bar. change 0 with (2 ^ 0 - 1).
  destruct (Z.leb_spec n (2 ^ 29 - 1)) as [Hle|Hgt].
  - destruct (Z.eq_dec n 0) as [->|Hn0]; [done|].
    pose proof (Z.log2_up_spec (n + 1) ltac:(lia)) as [Hlo Hhi].
    pose proof (Z.log2_up_le_mono (n + 1) (2 ^ 29) ltac:(lia)) as Hm. rewrite Z.log2_up_pow2 in Hm by lia.
    pose proof (Z.log2_up_pos (n + 1) ltac:(lia)).
    rewrite (bar_from n (Z.log2_up (n + 1)) 0); [|lia|lia|lia| |by left; lia].
    + by rewrite (proj2 (Z.leb_le _ _)) by lia.
    + intros i Hi. assert (2 ^ i <= 2 ^ Z.pred (Z.log2_up (n + 1))) by (apply Z.pow_le_mono_r; lia). lia.
  - rewrite (bar_from n 29 0); [|lia|lia|lia| |by right].
    + by rewrite (proj2 (Z.leb_gt _ _)) by lia.
    + intros i Hi. assert (2 ^ i <= 2 ^ 28) by (apply Z.pow_le_mono_r; lia). lia.
Qed.

Lemma foo_loop_app m i x :
  0 <= i -> i + Z.of_nat m <= 2 ^ 29 ->
  foo_loop m i x = Some (if (m =? 0)%nat then x else Some (2 ^ Z.log2_up (i + Z.of_nat m) - 1)).
Proof.
  intros Hi Hm. revert i x Hi Hm. induction m as [|m IH]; intros i x Hi Hm; [done|]. cbn [foo_loop].
  rewrite bar_value, (proj2 (Z.leb_le _ _)) by lia. cbn [mbind option_bind]. rewrite IH by lia.
  change (S m =? 0)%nat with false. cbv iota.
  destruct (Nat.eqb_spec m 0) as [E|E]; repeat (lia || f_equal).
Qed.

(** [foo n] is the least [2^k - 1] that is at least [n - 1] for [n] from 1
    to 2^29; for a smaller [n] it returns a variable that was never assigned,
    and from 2^29 + 1 on the tripling in [baz] leaves [int]. *)
Theorem functrace_foo (n : Z) :
  foo n = if (1 <=? n) && (n <=? 2 ^ 29) then Some (2 ^ Z.log2_up n - 1) else None.
Proof.
  unfold foo. destruct (Z.leb_spec 1 n) as [H1|H1]; cbn [andb].
  - destruct (Z.leb_spec n (2 ^ 29)) as [H2|H2].
    + rewrite foo_loop_app by lia. destruct (Nat.eqb_spec (Z.to_nat n) 0); [lia|].
      rewrite Z2Nat.id, Z.add_0_l by lia. done.
    + assert (forall m i x, 0 <= i -> 2 ^ 29 < i + Z.of_nat m -> i <= 2 ^ 29 -> foo_loop m i x = None) as Hov.
      { induction m as [|m IH]; intros i x Hi Hm Hle; [lia|]. cbn [foo_loop]. rewrite bar_value by lia.
        destruct (Z.leb_spec i (2 ^ 29 - 1)); [|done]. cbn [mbind option_bind]. apply IH; lia. }
      by rewrite Hov by lia.
  - replace (Z.to_nat n) with 0%nat by lia. done.
Qed.
End FunctraceFacts.

(** ** Byte order: facts *)
Module HelloFacts.
Import Hello.

(** Bits that do not overlap add up. *)
Lemma lor_shifted a b k : 0 <= k -> 0 <= b < 2 ^ k -> Z.lor (Z.shiftl a k) b = a * 2 ^ k + b.
Proof.
  intros Hk Hb. rewrite <- Z.shiftl_mul_pow2 by done. rewrite <- Z.add_lor_land.
  assert (Z.land (Z.shiftl a k) b = 0) as ->; [|lia].
  apply Z.bits_inj_0. intros i. rewrite Z.land_spec. destruct (Z.lt_ge_cases i k) as [Hi|Hi].
  - destruct (Z.lt_ge_cases i 0); [by rewrite Z.testbit_neg_r|]. by rewrite Z.shiftl_spec_low.
  - rewrite <- (Z.mod_small b (2 ^ k)), Z.mod_pow2_bits_high by lia. apply andb_false_r.
Qed.

Lemma byte x k : 0 <= k -> Z.land (Z.shiftr x k) 255 = x / 2 ^ k mod 256.
Proof. intros Hk. change 255 with (Z.ones 8). by rewrite Z.land_ones, Z.shiftr_div_pow2 by lia. Qed.

(** The four bytes, in the other order. *)
Lemma htonl_bytes a b c d :
  0 <= a < 256 -> 0 <= b < 256 -> 0 <= c < 256 -> 0 <= d < 256 ->
  htonl (a * 2 ^ 24 + b * 2 ^ 16 + c * 2 ^ 8 + d) = d * 2 ^ 24 + c * 2 ^ 16 + b * 2 ^ 8 + a.
Proof.
  intros Ha Hb Hc Hd. set (x := a * 2 ^ 24 + b * 2 ^ 16 + c * 2 ^ 8 + d).
  assert (x mod 256 = d /\ x / 2 ^ 8 mod 256 = c /\ x / 2 ^ 16 mod 256 = b /\ x / 2 ^ 24 mod 256 = a)
    as (E0 & E1 & E2 & E3).
  { subst x. simpl (2 ^ _). repeat split; Z.to_euclidean_division_equations; lia. }
  unfold htonl. rewrite !byte by lia. change (Z.land x 255) with (Z.land x (Z.ones 8)).
  rewrite Z.land_ones by lia. change (2 ^ 8) with 256 at 1. rewrite E0, E1, E2, E3.
  rewrite (lor_shifted b a 8), (lor_shifted c _ 16), (lor_shifted d _ 24) by (simpl (2 ^ _); lia). lia.
Qed.

Lemma four_bytes x :
  0 <= x < 2 ^ 32 -> exists a b c d, 0 <= a < 256 /\ 0 <= b < 256 /\ 0 <= c < 256 /\ 0 <= d < 256
    /\ x = a * 2 ^ 24 + b * 2 ^ 16 + c * 2 ^ 8 + d.
Proof.
  intros Hx. exists (x / 2 ^ 24), (x / 2 ^ 16 mod 256), (x / 2 ^ 8 mod 256), (x mod 256).
  simpl (2 ^ _) in *. repeat split; Z.to_euclidean_division_equations; lia.
Qed.

Lemma htonl_involutive x : 0 <= x < 2 ^ 32 -> htonl (htonl x) = x /\ 0 <= htonl x < 2 ^ 32.
Proof.
  intros Hx. destruct (four_bytes x Hx) as (a & b & c & d & Ha & Hb & Hc & Hd & ->).
  rewrite htonl_bytes, htonl_bytes by done. simpl (2 ^ _). lia.
Qed.

(** Every thread of [hello-openmp] records [n] events, the one of index
    [i] carrying [i] and its bytes in network order, from which [i] is read back
    by the same conversion; no [i] of the loop is out of its range. *)
Theorem hello_events {W} (h : handler W) (n : Z) (Hn : 0 <= n <= INT_MAX) :
  emits h (iterations n) tt
    ((fun i => Point "ust_tests_hello" "tptest" (event i)) <$> seqZ 0 n)
  /\ (forall i, 0 <= i < n -> in_s32 (s32 (htonl i)) /\ htonl (u32 (s32 (htonl i))) = i).
Proof.
  split.
  - eapply emits_eq.
    + apply (emits_for h _ (fun i => [Point "ust_tests_hello" "tptest" (event i)])). intros i _.
      by apply (emits_last h _ (Some (Point _ _ _))).
    + rewrite concat_singletons. do 2 f_equal. lia.
  - intros i Hi. destruct (htonl_involutive i) as [H1 H2]; [simpl; clia|].
    split; [apply s32_range|]. by rewrite u32_s32, u32_id.
Qed.

Theorem hello_events_witness :
  emits (@default_handler unit) (iterations 2) tt
    [Point "ust_tests_hello" "tptest" (event 0); Point "ust_tests_hello" "tptest" (event 1)]
  /\ htonl 1 = 16777216.
Proof. split; [apply (hello_events default_handler 2); clia|reflexivity]. Defined.
End HelloFacts.

(** ** Writing to the kernel module: facts *)
Module UeventFacts.
Import Uevent.

(** The test for a failed print compares an unsigned value with zero: no
    failure is ever counted. *)
Lemma uevent_never_misses {W} (h : handler W) (f self : Z) (w : W)
    (Hopen : forall p m w, (h _ (Fopen p m) w).1 = Some f) :
  exists w' tr, run (traced h) (worker 1 self) (w, [])
    = (Done tt, (w', tr ++ [Ev (Printf ("Done %ld misses=%ld" +:+ NL) [PInt self; PInt 0]) tt])).
Proof.
  unfold worker. cbn [open_loop]. step_run. rewrite Hopen. step_run.
  match goal with |- context [run _ (for_ ?n 0 ?b 0) (?w0, ?tr0)] =>
    destruct (run_for_invariant (traced h) (fun _ miss _ => miss = 0) b n 0 0 (w0, tr0))
      as (m & [w1 tr1] & -> & ->); [|done|]
  end.
  - intros i miss [w1 tr1] _ ->. unfold write_event. step_run.
    assert (u64 (h Z (Fprintf_status f "%s %ld %ld" [PStr (Some MSG); PInt self; PInt i]) w1).1 <? 0 = false) as ->.
    { apply Z.ltb_ge. apply u64_range. }
    by do 2 eexists.
  - step_run. by do 2 eexists.
Qed.
End UeventFacts.
