(* ===== verification/Tasks.v ===== *)
(** * ust/threadtree/threadtree.c: the command line and the memory

    The part of [wk-threadtree] around the threads of [Threadtree]: the
    options, the construction, the printing and the release of the chain of
    stages. *)

From S2P Require Import Prelude CInt CString Libc CFloat Utils Getopt Traces.

Local Open Scope string_scope.
Local Open Scope list_scope.
Local Open Scope Z_scope.

Definition PROGNAME : string := "wk-threadtree".

(** [struct command_opts] has the one member [verbose]. *)
Record command_opts := Opts { verbose : Z }.

Definition usage {A} : prog A := usage_text
  [("Usage: " +:+ PROGNAME +:+ " [OPTIONS] [COMMAND]" +:+ NL, []);
   (NL +:+ "Options:" +:+ NL, []);
   ("  --help	this help" +:+ NL, []);
   ("  --verbose   verbose mode" +:+ NL, []);
   (NL, [])].

Definition dump_opts (o : command_opts) : prog unit :=
  call (Printf ("%10s %s" +:+ NL) [PStr (Some "option"); PStr (Some "value")]);;
  call (Printf ("%10s %d" +:+ NL) [PStr (Some "verbose"); PInt (verbose o)]).

Definition optstring : string := "hv".
Definition options : list option_ := [Option_ "help" false "h"; Option_ "verbose" false "v"].

Definition parse_opt (f : found) '((ret, o) : Z * command_opts) : prog (Z * command_opts) :=
  match opt f with
  | "h"%char => usage
  | "v"%char => Ret (ret, Opts 1)
  | c => call (Printf ("unknown option %c" +:+ NL) [PInt (code c)]);; Ret (-1, o)
  end.

Definition parse_opts (argv : list string) : prog (Z * command_opts) :=
  opt_loop parse_opt (getopt_long optstring options None argv) (0, Opts 0).

(** ** The chain of stages

    A stage with the addresses of its blocks, of which the two arrays may be
    NULL.  The [next] pointers are set once, by [make_task], which links each
    new stage after the last: the chain they make is the list.  The semaphores
    of a stage are in [Threadtree]. *)
Record stage := Stage { addr : Z; nb_thread : Z; exit_count : Z; threads : option Z; ready : option Z }.
Record task := Task { taddr : Z; nb_stages : Z; stages : list stage }.

Definition sizeof_stage : Z := 112.
Definition sizeof_pthread : Z := 8.

(** [calloc], whose result is used at once. *)
Definition calloc (n size : Z) : prog Z :=
  p ← call (Calloc n size);
  match p with None => Undef "use of NULL" | Some a => Ret a end.

(** [n] more stages, the first of [curr] threads; the arrays have room for
    [nb_threads]. *)
Fixpoint make_stages (n : nat) (nb_threads curr : Z) : prog (list stage) :=
  match n with
  | O => Ret []
  | S n =>
      a ← calloc 1 sizeof_stage;
      t ← call (Calloc (u64 nb_threads) sizeof_pthread);
      r ← call (Calloc (u64 nb_threads) sizeof_pthread);
      l ← make_stages n nb_threads (curr - 1);
      Ret (Stage a curr 0 t r :: l)
  end.

Definition make_task (nb_stages nb_threads : Z) : prog task :=
  a ← calloc 1 16;
  l ← make_stages (Z.to_nat nb_stages) nb_threads nb_threads;
  Ret (Task a nb_stages l).

(** [if (p != NULL) free(p)]. *)
Definition free_array (p : option Z) : prog unit :=
  match p with None => Ret tt | Some a => call (Free (Some a)) end.

Fixpoint free_stages (l : list stage) : prog unit :=
  match l with
  | [] => Ret tt
  | s :: l =>
      free_array (threads s);;
      free_array (ready s);;
      call (Free (Some (addr s)));;
      free_stages l
  end.

Definition free_task (t : option task) : prog unit :=
  match t with
  | None => Ret tt
  | Some t => free_stages (stages t);; call (Free (Some (taddr t)))
  end.

Fixpoint dump_stages (i : Z) (l : list stage) : prog unit :=
  match l with
  | [] => Ret tt
  | s :: l =>
      call (Printf (String (ascii_of_nat 9) "stage %d: nb_thread=%d exit_count=%d" +:+ NL)
        [PInt i; PInt (nb_thread s); PInt (exit_count s)]);;
      dump_stages (i + 1) l
  end.

Definition dump_task (t : option task) : prog unit :=
  match t with
  | None => Ret tt
  | Some t => call (Printf ("task nb_stages=%d" +:+ NL) [PInt (nb_stages t)]);; dump_stages 0 (stages t)
  end.

(** ** The calls of the threads

    What a thread does between the steps of [Threadtree]: the work, and the
    creation of the threads of a stage, where [thd] are the numbers that
    [pthread_create] stores. *)
Definition do_something : prog unit :=
  self ← call Pthread_self;
  call (Printf ("%lu do_something" +:+ NL) [PInt self]);;
  call (Sleep 1);;
  Ret tt.

Definition spawn_stage (thd : Z -> Z) (s : option stage) : prog unit :=
  match s with
  | None => Ret tt
  | Some s =>
      for_ (Z.to_nat (nb_thread s)) 0 (fun i _ =>
        call (Printf ("pthread_create" +:+ NL) []);;
        call (Pthread_create i);;
        self ← call Pthread_self;
        call (Tracepoint_args "threadtree" "fork" [PInt self; PInt (thd i)]);;
        Ret tt) tt
  end.

(** [main]; [wait_task] stands for the function of that name, which
    [Threadtree] models with the semaphores it waits on. *)
Definition main (thd : Z -> Z) (wait_task : task -> prog unit) (argv : list string) : prog Z :=
  '(ret, o) ← parse_opts argv;
  (if ret <? 0 then call (Printf ("Error while parsing arguments" +:+ NL) []);; usage else Ret tt);;
  dump_opts o;;
  t ← make_task 4 4;
  dump_task (Some t);;
  self ← call Pthread_self;
  call (Tracepoint_args "threadtree" "start" [PInt self]);;
  spawn_stage thd (head (stages t));;
  self ← call Pthread_self;
  call (Tracepoint_args "threadtree" "exit" [PInt self]);;
  wait_task t;;
  free_task (Some t);;
  call (Printf ("done" +:+ NL) []);;
  Ret 0.

(** ** The memory *)

(** The blocks a trace allocates, and those it frees. *)
Definition alloc_ev (e : ev) : option Z :=
  match e with
  | Ev e x => match e in sys X return X -> option Z with
              | Calloc _ _ => fun p => p
              | _ => fun _ => None
              end x
  end.
Definition free_ev (e : ev) : option Z := match e with Ev (Free p) _ => p | _ => None end.
Definition allocated (tr : list ev) : list Z := omap alloc_ev tr.
Definition freed (tr : list ev) : list Z := omap free_ev tr.

(** The blocks of a stage and of a task. *)
Definition stage_blocks (s : stage) : list Z := addr s :: option_list (threads s) ++ option_list (ready s).
Definition blocks (t : task) : list Z := taddr t :: concat (map stage_blocks (stages t)).

Lemma allocated_cons n size p tr :
  omap alloc_ev (Ev (Calloc n size) p :: tr) = option_list p ++ omap alloc_ev tr.
Proof. by destruct p. Qed.

Section memory.
Context {W : Type} (h : handler W).
Hypothesis granted : forall n size w, is_Some ((h _ (Calloc n size) w).1).

Lemma make_stages_run n nb curr w tr0 :
  exists l w' tr, run (traced h) (make_stages n nb curr) (w, tr0) = (Done l, (w', tr0 ++ tr))
    /\ allocated tr = concat (map stage_blocks l) /\ freed tr = []
    /\ map nb_thread l = (fun i => curr - i) <$> seqZ 0 (Z.of_nat n)
    /\ Forall (fun s => exit_count s = 0) l.
Proof using granted.
  revert curr w tr0. induction n as [|n IH]; intros curr w tr0; cbn [make_stages].
  { exists [], w, []. rewrite app_nil_r. by split_and!. }
  unfold calloc. step_run.
  destruct (granted 1 sizeof_stage w) as [a Ha]. rewrite Ha. step_run.
  match goal with |- context [run _ (make_stages _ _ _) (?w1, ?tr1)] =>
    destruct (IH (curr - 1) w1 tr1) as (l & w' & tr & -> & Hal & Hfr & Hnb & Hex) end.
  step_run. do 3 eexists. split; [rewrite <- !app_assoc; reflexivity|].
  unfold allocated, freed in *. cbn [app]. rewrite !allocated_cons. cbn [omap list_omap free_ev]. rewrite Hal, Hfr.
  cbn [concat map stage_blocks addr threads ready app]. rewrite <- app_assoc.
  split_and!; [done|done| |by constructor].
  rewrite Hnb, (seqZ_cons 0 (Z.of_nat (S n))) by lia. cbn. f_equal; [lia|].
  replace (Z.succ 0) with (1 + 0) by lia. replace (Z.pred _) with (Z.of_nat n) by lia.
  rewrite <- fmap_add_seqZ, <- list_fmap_compose. apply list_fmap_ext. intros i x _. cbn. lia.
Qed.

Lemma free_array_run p w tr0 :
  exists w' tr, run (traced h) (free_array p) (w, tr0) = (Done tt, (w', tr0 ++ tr))
    /\ allocated tr = [] /\ freed tr = option_list p.
Proof.
  destruct p as [a|]; cbn [free_array]; step_run; do 2 eexists.
  - by split.
  - rewrite app_nil_r. by split.
Qed.

Lemma free_stages_run l w tr0 :
  exists w' tr, run (traced h) (free_stages l) (w, tr0) = (Done tt, (w', tr0 ++ tr))
    /\ allocated tr = [] /\ freed tr ≡ₚ concat (map stage_blocks l).
Proof.
  revert w tr0. induction l as [|s l IH]; intros w tr0; cbn [free_stages].
  { exists w, []. rewrite app_nil_r. by split_and!. }
  rewrite run_bind. destruct (free_array_run (threads s) w tr0) as (w1 & tr1 & -> & A1 & F1).
  cbn [and_then]. rewrite run_bind. destruct (free_array_run (ready s) w1 (tr0 ++ tr1)) as (w2 & tr2 & -> & A2 & F2).
  step_run. match goal with |- context [run _ (free_stages _) (?w1, ?tr1)] =>
    destruct (IH w1 tr1) as (w' & tr & -> & Hal & Hfr) end.
  do 2 eexists. split; [rewrite <- !app_assoc; reflexivity|].
  unfold allocated, freed in *. rewrite !omap_app, A1, A2, F1, F2, Hal. split; [done|].
  cbn [omap list_omap free_ev concat map app]. rewrite Hfr. unfold stage_blocks. cbn [app].
  rewrite <- app_assoc. symmetry. rewrite !Permutation_middle. done.
Qed.
End memory.

(** (C39) The memory of a task: when the allocations are granted, [make_task]
    builds [nb_stages] stages of [nb_threads], [nb_threads - 1], ... threads,
    each with no thread gone, from blocks of its own; and [free_task], whatever
    the numbers of the stages have become, frees each block of the task once,
    and nothing else: no leak, no block freed twice when they are distinct. *)
Theorem threadtree_memory {W} (h : handler W) (ns nt : Z) (w : W)
    (Hgranted : forall n size w, is_Some ((h _ (Calloc n size) w).1)) (Hns : 0 <= ns <= INT_MAX) :
  (exists t w' tr, run (traced h) (make_task ns nt) (w, []) = (Done t, (w', tr))
     /\ allocated tr = blocks t /\ freed tr = []
     /\ map nb_thread (stages t) = (fun i => nt - i) <$> seqZ 0 ns
     /\ Forall (fun s => exit_count s = 0) (stages t))
  /\ (forall t, exists w' tr, run (traced h) (free_task (Some t)) (w, []) = (Done tt, (w', tr))
       /\ freed tr ≡ₚ blocks t /\ allocated tr = []).
Proof.
  split.
  - unfold make_task, calloc. step_run. destruct (Hgranted 1 16 w) as [a Ha]. rewrite Ha. step_run.
    match goal with |- context [run _ (make_stages ?n ?nb ?c) (?w1, ?tr1)] =>
      destruct (make_stages_run h Hgranted n nb c w1 tr1) as (l & w' & tr & -> & Hal & Hfr & Hnb & Hex) end.
    step_run. do 3 eexists. split; [reflexivity|]. rewrite Z2Nat.id in Hnb by lia.
    unfold allocated, freed, blocks in *. cbn. by rewrite Hal, Hfr.
  - intros t. unfold free_task. step_run.
    destruct (free_stages_run h (stages t) w []) as (w' & tr & -> & Hal & Hfr). step_run.
    do 2 eexists. split; [reflexivity|]. unfold allocated, freed, blocks in *.
    rewrite !omap_app, Hal. cbn. split; [|done]. rewrite Hfr. symmetry. apply Permutation_cons_append.
Qed.

Theorem threadtree_memory_witness :
  exists t w' tr, run (traced default_handler) (make_task 4 4) (tt, []) = (Done t, (w', tr))
    /\ map nb_thread (stages t) = [4; 3; 2; 1].
Proof.
  destruct (threadtree_memory default_handler 4 4 tt) as [(t & w' & tr & Hrun & _ & _ & Hnb & _) _].
  - by eexists.
  - clia.
  - by exists t, w', tr.
Defined.
