(* ===== verification/Proclife.v ===== *)
(** * src/proclife.c

    A parent and ten children that sleep, compute a sound, use memory, write
    files and play the sound, each child forked under a name written over
    [argv[0]].  The sine function of the mathematical library is a parameter;
    the ALSA library answers through the environment. *)

From S2P Require Import Prelude CInt CString Libc Notes CFloat Utils.

Local Open Scope string_scope.
Local Open Scope list_scope.
Local Open Scope Z_scope.

Definition NUM_PROCESSES : Z := 10.
Definition NUM_SAMPLES : Z := 8000.
Definition rate : Z := 8000.

(** One turn of [allocate_memory]: the block is not touched. *)
Definition allocate_once (i : Z) : prog unit :=
  p ← call (Malloc (Z.shiftl i 16));
  call (Usleep 100);;
  call (Free p);;
  call (Usleep 100);;
  Ret tt.

(** [for (i = 10; i >= 0; --i)]. *)
Definition allocate_memory : prog unit := for_ 11 0 (fun k _ => allocate_once (10 - k)) tt.

(** [currentId + .5] *)
Definition half_past (id : Z) : double := dadd (double_of_Z id) (ddiv (double_of_Z 1) (double_of_Z 2)).

Definition wait_for_sync (currentId : Z) : prog unit :=
  call (Printf ("i = %d, sleeping for %f seconds" +:+ NL) [PInt currentId; PDouble (half_past currentId)]);;
  call (Usleep (u32 (currentId * 1000000 + 500)));;
  Ret tt.

(** A line for each byte. *)
Fixpoint write_lines (f j : Z) (soundByte : list Z) : prog unit :=
  match soundByte with
  | [] => Ret tt
  | b :: soundByte => call (Fprintf f ("%d, %d" +:+ NL) [PInt j; PInt b]);; write_lines f (j + 1) soundByte
  end.

Definition file_name (currentId : Z) : string := "/tmp/tempFile" +:+ render currentId +:+ ".tmp".

Definition write_to_file (soundByte : list Z) (currentId : Z) : prog unit :=
  f ← call (Fopen (file_name currentId) "w");
  match f with
  | None => Undef "fprintf to a NULL stream"
  | Some f => write_lines f 0 soundByte;; call (Fclose f)
  end.

(** [play_sound]; a handle is what [snd_pcm_open] left in [playback_handle],
    NULL before it. *)
Definition play_sound (soundByte : list Z) (samples : Z) : prog unit :=
  '(status, playback_handle) ← call (Snd_pcm_open "default");
  (if status <? 0 then
     e ← call (Snd_strerror status);
     call (Eprintf ("cannot open audio device %s (%s)" +:+ NL) [PStr (Some "default"); PStr e])
   else
     status ← call (Snd_pcm_set_params playback_handle 1 8000 0 500000);
     if status <? 0 then
       e ← call (Snd_strerror status);
       call (Printf ("Playback open error: %s" +:+ NL) [PStr e])
     else
       call (Printf ("Opened sound card" +:+ NL) []);;
       call (Snd_pcm_wait playback_handle (-1));;
       status ← call (Snd_pcm_writei playback_handle (take (Z.to_nat samples) soundByte) samples);
       if negb (status =? samples) then
         e ← call (Snd_strerror status);
         call (Eprintf ("write to audio interface failed (%s)" +:+ NL) [PStr e])
       else Ret tt);;
  call (Snd_pcm_hw_params_free None);;
  match playback_handle with
  | None => Ret tt
  | Some handle => call (Snd_pcm_close handle);; Ret tt
  end.

(** ** The names

    [argv[0]] is a buffer, its last byte the NUL that ends it. *)
Definition NUL : ascii := "000"%char.

Fixpoint strlen (b : list ascii) : nat :=
  match b with [] => O | c :: b => if Ascii.eqb c NUL then O else S (strlen b) end.

(** The first [n] bytes: those of [src], then zeros. *)
Definition strncpy (dst src : list ascii) (n : nat) : list ascii :=
  take n (src ++ replicate n NUL) ++ drop n dst.

Definition child_name (i : Z) : list ascii := String.list_ascii_of_string ("trace-child_" +:+ render i).

Definition rename (argv0 : list ascii) (i : Z) : list ascii := strncpy argv0 (child_name i) (strlen argv0).
Definition name_back (argv0 name_backup : list ascii) : list ascii :=
  strncpy argv0 name_backup (length name_backup).

Section proclife.
Variable sin : double -> double.

(** [(unsigned char)] of a [float]; undefined outside its range. *)
Definition uchar_of_float (x : float) : option Z :=
  match long_of_double x with
  | Some z => if (0 <=? z) && (z <=? 255) then Some z else None
  | None => None
  end.

(** [127 * sin(110.0 * (id + 1) * 2.0 * 3.141592 / (float) rate * (float) i)],
    as a [float], plus 127. *)
Definition sound_byte (currentId i : Z) : option Z :=
  let pi := ddiv (double_of_Z 3141592) (double_of_Z 1000000) in
  let x := dmul (dmul (dmul (double_of_Z 110) (double_of_Z (currentId + 1))) (double_of_Z 2)) pi in
  let x := dmul (ddiv x (double_of_Z rate)) (double_of_Z i) in
  let soundVal := float_of_double (dmul (double_of_Z 127) (sin x)) in
  uchar_of_float (fadd soundVal (double_of_Z 127)).

Definition set_up_sound (samples currentId : Z) : prog (list Z) :=
  match mapM (sound_byte currentId) (seqZ 0 samples) with
  | None => Undef "float outside unsigned char"
  | Some l => Ret l
  end.

(** What the parent and its children do. *)
Definition work (id : Z) : prog unit :=
  soundByte ← set_up_sound NUM_SAMPLES id;
  allocate_memory;;
  write_to_file soundByte id;;
  play_sound soundByte NUM_SAMPLES;;
  call (Printf ("Done!" +:+ NL) []).

(** [for (i = NUM_PROCESSES-1; i >= 0; --i)]: the pids, the last first, and
    the buffer of [argv[0]].  The name is put back after the [fork], in the child
    as in the parent. *)
Fixpoint fork_all (name_backup : list ascii) (n : nat) (argv0 : list ascii) : prog (list Z * list ascii) :=
  match n with
  | O => Ret ([], argv0)
  | S n =>
      let i := Z.of_nat n in
      let argv0 := rename argv0 i in
      pid ← call Fork;
      let argv0 := name_back argv0 name_backup in
      (if pid =? 0 then wait_for_sync i;; work i;; Exit 0 else Ret tt);;
      '(pids, argv0) ← fork_all name_backup n argv0;
      Ret (pid :: pids, argv0)
  end.

(** The processes are awaited in the order of their creation. *)
Fixpoint wait_all (pids : list Z) : prog unit :=
  match pids with
  | [] => Ret tt
  | pid :: pids =>
      call (Printf ("Waiting for process %d" +:+ NL) [PInt (Z.of_nat (length pids))]);;
      call (Waitpid pid);;
      call (Printf ("Done!" +:+ NL) []);;
      wait_all pids
  end.

(** [name_backup] has 80 bytes, and no NUL when [argv[0]] fills it. *)
Definition main (argv0 : list ascii) : prog Z :=
  if (80 <=? strlen argv0)%nat then Undef "strlen of an unterminated buffer" else
  let name_backup := take (strlen argv0) argv0 in
  '(pids, _) ← fork_all name_backup (Z.to_nat NUM_PROCESSES) argv0;
  work 0;;
  wait_all pids;;
  call (Usleep 250000);;
  call (Execv "/bin/ls" ["/bin/ls"; "-r"; "-t"; "-l"]);;
  Ret 0.
End proclife.

(** ** Facts *)

(** The children forked and awaited. *)
Inductive kin := Forked (pid : Z) | Awaited (pid : Z).

Definition note_of (e : ev) : option kin :=
  match e with
  | Ev e x =>
      match e in sys X return X -> option kin with
      | Fork => fun pid => Some (Forked pid)
      | Waitpid pid => fun _ => Some (Awaited pid)
      | _ => fun _ => None
      end x
  end.

#[local] Notation shows := (Notes.shows note_of).
#[local] Notation silent := (Notes.silent note_of).

(** A name without NUL, in a buffer of its size. *)
Definition argv0_of (name : list ascii) : list ascii := name ++ [NUL].

Lemma strlen_argv0 name : Forall (fun c => c <> NUL) name -> strlen (argv0_of name) = length name.
Proof.
  induction 1 as [|c name Hc _ IH]; [done|]. cbn. by rewrite (proj2 (Ascii.eqb_neq _ _) Hc), <- IH.
Qed.

(** The name is as it was after each turn, in the parent and in the child,
    which therefore never runs under the name made for it; during the [fork]
    it is that name, cut to the length of the program's. *)
Lemma proclife_names name i :
  Forall (fun c => c <> NUL) name ->
  rename (argv0_of name) i = take (length name) (child_name i ++ replicate (length name) NUL) ++ [NUL]
  /\ name_back (rename (argv0_of name) i) name = argv0_of name.
Proof.
  intros Hn. assert (rename (argv0_of name) i
    = take (length name) (child_name i ++ replicate (length name) NUL) ++ [NUL]) as Hr.
  { unfold rename, strncpy. rewrite strlen_argv0 by done. unfold argv0_of. by rewrite drop_app_length. }
  split; [done|]. rewrite Hr. unfold name_back, strncpy. rewrite take_app_length.
  rewrite drop_app_length'; [done|]. rewrite length_take, length_app, length_replicate. lia.
Qed.

(** [fork_all] in the parent. *)
Lemma fork_all_shows {W} sin (h : handler W) name n :
  Forall (fun c => c <> NUL) name -> (forall w, (h _ Fork w).1 <> 0) ->
  shows h (fork_all sin name n (argv0_of name)) (fun '(pids, argv0) l =>
    argv0 = argv0_of name /\ length pids = n /\ l = map Forked pids).
Proof.
  intros Hname Hf. induction n as [|n IH]; cbn [fork_all]; [by apply shows_ret|].
  rewrite (proj2 (proclife_names name (Z.of_nat n) Hname)).
  apply (shows_bind _ _ _ (fun pid l => pid <> 0 /\ l = [Forked pid])); [by apply shows_call|].
  intros pid l [Hpid ->]. rewrite (proj2 (Z.eqb_neq _ _) Hpid). apply silent_bind; [apply silent_ret|]. intros _.
  eapply shows_bind; [exact IH|]. intros [pids argv0] l (-> & Hl & ->). apply shows_ret.
  rewrite app_nil_r. cbn. auto.
Qed.

(** The handles opened and closed in a trace. *)
Definition sound_opened (tr : list ev) : list Z :=
  omap (fun e => match e with Ev e x =>
    match e in sys X return X -> option Z with Snd_pcm_open _ => snd | _ => fun _ => None end x end) tr.
Definition sound_closed (tr : list ev) : list Z :=
  omap (fun e => match e with Ev (Snd_pcm_close p) _ => Some p | _ => None end) tr.

(** Whatever the sound system answers, [play_sound] comes to an end, and
    closes the handle it opened. *)
Lemma play_sound_closes {W} (h : handler W) bytes samples w tr0 :
  exists w' tr, run (traced h) (play_sound bytes samples) (w, tr0) = (Done tt, (w', tr0 ++ tr))
    /\ sound_closed tr = sound_opened tr.
Proof.
  unfold play_sound. step_run.
  destruct (h _ (Snd_pcm_open "default") w) as [[status [handle|]] w1]; cbn [fst snd];
    repeat (step_run; try case_if); do 2 eexists; (split; [rewrite <- !app_assoc; reflexivity|done]).
Qed.

Lemma wait_all_shows {W} (h : handler W) pids :
  shows h (wait_all pids) (fun _ l => l = map Awaited pids).
Proof.
  induction pids as [|pid pids IH]; cbn [wait_all]; [by apply shows_ret|].
  apply silent_bind; [by apply silent_call|]. intros _.
  apply (shows_bind _ _ _ (fun _ l => l = [Awaited pid])); [by apply shows_call|]. intros _ l ->.
  apply silent_bind; [by apply silent_call|]. intros _. eapply shows_weaken; [exact IH|]. by intros _ l ->.
Qed.

(** The file holds one line per byte, numbered. *)
Lemma write_lines_run {W} (h : handler W) f l j w tr0 :
  exists w', run (traced h) (write_lines f j l) (w, tr0)
    = (Done tt, (w', tr0 ++ imap (fun k b =>
        Ev (Fprintf f ("%d, %d" +:+ NL) [PInt (j + Z.of_nat k); PInt b]) tt) l)).
Proof.
  revert j w tr0. induction l as [|b l IH]; intros j w tr0; cbn [write_lines].
  { exists w. by rewrite app_nil_r. }
  step_run. match goal with |- context [run _ (write_lines _ _ l) (?w1, ?tr1)] =>
    destruct (IH (j + 1) w1 tr1) as (w' & ->) end.
  exists w'. rewrite imap_cons, <- app_assoc. cbn [app]. do 3 f_equal.
  f_equal; [do 3 f_equal; f_equal; lia|]. apply imap_ext. intros k x _. cbn. do 3 f_equal. f_equal. lia.
Qed.

Lemma allocate_memory_silent {W} (h : handler W) : silent h allocate_memory.
Proof.
  unfold allocate_memory, allocate_once. eapply shows_weaken;
    [apply (shows_for h (fun _ _ l => l = []))|by intros _ l ->]; [done|].
  intros j s l _ ->. repeat (apply silent_bind; [by apply silent_call|]; intros ?). by apply shows_ret.
Qed.

Lemma write_lines_silent {W} (h : handler W) f j l : silent h (write_lines f j l).
Proof.
  revert j. induction l as [|b l IH]; intros j; cbn [write_lines]; [apply silent_ret|].
  apply silent_bind; [by apply silent_call|]. intros _. apply IH.
Qed.

Lemma play_sound_silent {W} (h : handler W) bytes samples : silent h (play_sound bytes samples).
Proof.
  unfold play_sound. apply silent_bind; [by apply silent_call|]. intros [status handle].
  apply silent_bind.
  { repeat first [progress intros | case_if | by apply silent_call | apply silent_ret
      | apply silent_bind; [by apply silent_call|]]. }
  intros _. apply silent_bind; [by apply silent_call|]. intros _.
  destruct handle; [|apply silent_ret]. apply silent_bind; [by apply silent_call|]. intros _. apply silent_ret.
Qed.

Lemma work_silent {W} sin (h : handler W) id l :
  (forall path mode w, (h _ (Fopen path mode) w).1 <> None) ->
  mapM (sound_byte sin id) (seqZ 0 NUM_SAMPLES) = Some l -> silent h (work sin id).
Proof.
  intros Hf Hl. unfold work, set_up_sound. rewrite Hl. apply silent_bind; [apply silent_ret|]. intros bytes.
  apply silent_bind; [apply allocate_memory_silent|]. intros _. apply silent_bind.
  { unfold write_to_file. eapply shows_bind.
    { apply (shows_call _ _ (fun f l => f <> None /\ l = [])). intros w. by split. }
    intros f k [Hn ->]. destruct f as [f|]; [|done]. apply silent_bind; [apply write_lines_silent|].
    intros _. by apply silent_call. }
  intros _. apply silent_bind; [apply play_sound_silent|]. intros _. by apply silent_call.
Qed.

(** The parent of the family: when the forks succeed, the file opens and the
    samples are bytes, it forks ten children, awaits each of them, in the order
    in which they were forked, and returns 0 (its [execv] failing, as the end of
    [main] is reached on no other path). *)
Lemma proclife_family {W} sin (h : handler W) name l :
  Forall (fun c => c <> NUL) name -> (length name < 80)%nat ->
  (forall w, (h _ Fork w).1 <> 0) -> (forall path mode w, (h _ (Fopen path mode) w).1 <> None) ->
  mapM (sound_byte sin 0) (seqZ 0 NUM_SAMPLES) = Some l ->
  shows h (main sin (argv0_of name)) (fun r k => r = 0 /\
    exists pids, length pids = Z.to_nat NUM_PROCESSES /\ k = map Forked pids ++ map Awaited pids).
Proof.
  intros Hname H80 Hfork Hf Hl. unfold main. rewrite (strlen_argv0 name Hname).
  rewrite (proj2 (Nat.leb_gt _ _) H80). unfold argv0_of at 1. rewrite take_app_length.
  eapply shows_bind; [by apply fork_all_shows|]. intros [pids argv0] k (-> & Hlen & ->).
  apply silent_bind; [by eapply work_silent|]. intros _.
  eapply shows_bind; [apply wait_all_shows|]. intros _ k ->.
  do 2 (apply silent_bind; [by apply silent_call|]; intros ?). apply shows_ret. split; [done|].
  exists pids. by rewrite app_nil_r.
Qed.
