(* ===== verification/PipelineSpec.v ===== *)
(** * The contract of src/pipeline.c

    What the pipeline promises to an observer of its output, as a system of
    its own: three stages that print, each at most four items ahead of the
    next and never ahead of the one before, ten items in all.  The program of
    [Pipeline], with its semaphores, indices and arrays, refines it. *)

From S2P Require Import Prelude CInt Sched Pipeline.

Local Open Scope string_scope.
Local Open Scope list_scope.
Local Open Scope Z_scope.

(** ** The abstract system: its state is the output *)

Definition output := list (Z * string).

Inductive stage := Stage1 | Stage2 | Stage3.

#[export] Instance stage_eq_dec : EqDecision stage.
Proof. solve_decision. Defined.

Definition worker_name (t : stage) : string :=
  match t with Stage1 => "worker_1" | Stage2 => "worker_2" | Stage3 => "worker_3" end.
Definition value (t : stage) : Z := match t with Stage1 => 0 | Stage2 => 1 | Stage3 => 2 end.

(** The items a stage has printed. *)
Definition done_by (t : stage) (o : output) : Z := Z.of_nat (length (lines_of (worker_name t) o)).

(** May the stage print its next item? *)
Definition may_print (t : stage) (o : output) : bool :=
  match t with
  | Stage1 => (done_by Stage1 o <? MAX_ITEMS) && (done_by Stage1 o <? done_by Stage2 o + QUEUE_LENGTH)
  | Stage2 => (done_by Stage2 o <? done_by Stage1 o) && (done_by Stage2 o <? done_by Stage3 o + QUEUE_LENGTH)
  | Stage3 => done_by Stage3 o <? done_by Stage2 o
  end.

#[export] Instance contract : System output stage := {
  exec t o := if may_print t o then Some (o ++ [(value t, worker_name t)]) else None;
  initial o := o = []
}.

(** ** The refinement *)

(** Numbers of lines after one more. *)
Lemma done_by_snoc t u o :
  done_by t (o ++ [(value u, worker_name u)]) = done_by t o + (if decide (t = u) then 1 else 0).
Proof. unfold done_by. rewrite lines_of_snoc, length_app, Nat2Z.inj_add. f_equal. by destruct t, u. Qed.

(** A step of the program prints nothing, or the next line of one stage. *)
Lemma step_output t s s' :
  invariant s -> exec t s = Some s' ->
  out s' = out s \/ exists u, out s' = out s ++ [(value u, worker_name u)].
Proof.
  intros (k1 & k2 & k3 & I) H. pose proof (inv_c1 _ _ _ _ I) as Hc1.
  pose proof (inv_c2 _ _ _ _ I) as Hc2. pose proof (inv_c3 _ _ _ _ I) as Hc3. destruct t; cbn in H.
  - unfold main_thread in H. left.
    repeat (case_match; simplify_eq; try done).
  - unfold worker_1 in H. destruct (w1 s) eqn:E; try done.
    all: try (left; simplify_option_eq; done).
    right. exists Stage1. cbn in Hc1. rewrite Hc1 in H. injection H as <-. done.
  - unfold worker_2 in H. destruct (w2 s) eqn:E; try done.
    all: try (left; simplify_option_eq; done).
    right. exists Stage2. destruct Hc2 as (_ & Hc & _). rewrite Hc in H by done. injection H as <-. done.
  - unfold worker_3 in H. destruct (w3 s) eqn:E; try done.
    all: try (left; simplify_option_eq; done).
    right. exists Stage3. destruct Hc3 as (_ & Hc). rewrite Hc in H by done. injection H as <-. done.
Qed.

(** The bounds of the contract hold of the output of every state. *)
Lemma output_bounds s :
  invariant s ->
  done_by Stage3 (out s) <= done_by Stage2 (out s) <= done_by Stage1 (out s)
  /\ done_by Stage1 (out s) <= MAX_ITEMS
  /\ done_by Stage1 (out s) <= done_by Stage2 (out s) + QUEUE_LENGTH
  /\ done_by Stage2 (out s) <= done_by Stage3 (out s) + QUEUE_LENGTH.
Proof.
  intros (k1 & k2 & k3 & I). pose proof (stage_bounds _ _ _ _ I).
  change (done_by Stage1 (out s)) with (printed "worker_1" s).
  change (done_by Stage2 (out s)) with (printed "worker_2" s).
  change (done_by Stage3 (out s)) with (printed "worker_3" s).
  by rewrite (printed_1 _ _ _ _ I), (printed_2 _ _ _ _ I), (printed_3 _ _ _ _ I).
Qed.

(** (C30) The program refines its contract: every step of a thread either
    leaves the output alone or is the step of the contract that prints the
    next line of a stage, so that every output the program can have, at any
    moment of any interleaving, is one the contract allows. *)
Theorem pipeline_refines_contract :
  (forall t s s', reachable s -> exec t s = Some s' ->
     out s' = out s \/ exists u, exec u (out s) = Some (out s'))
  /\ (forall s, reachable s -> @reachable _ _ contract (out s)).
Proof.
  assert (forall t s s', reachable s -> exec t s = Some s' ->
     out s' = out s \/ exists u, exec u (out s) = Some (out s')) as Hstep.
  { intros t s s' Hr He. pose proof (reachable_inv _ Hr) as I. pose proof (invariant_exec _ _ _ I He) as I'.
    destruct (step_output _ _ _ I He) as [|[u Hu]]; [by left|]. right. exists u.
    pose proof (output_bounds _ I) as B. pose proof (output_bounds _ I') as B'.
    rewrite Hu in B'. rewrite !done_by_snoc in B'. cbn. rewrite Hu.
    assert (may_print u (out s) = true) as ->; [|done].
    destruct u; unfold may_print; rewrite ?andb_true_iff, ?Z.ltb_lt; repeat case_decide; (done || lia). }
  split; [done|]. intros s Hr.
  destruct (simulation_reachable (S2 := output) (fun s o => o = out s)) with (s1 := s) as (o & Ho & ->); [| |done|done].
  - intros s0 ->. by exists [].
  - intros t s1 s1' o Hr1 -> He. exists (out s1'). split; [|done].
    destruct (Hstep _ _ _ Hr1 He) as [->|[u Hu]]; [constructor|]. apply reach_one. by exists u.
Qed.

(** The output of a complete run. *)
Theorem pipeline_refines_contract_witness :
  @reachable _ _ contract (out (state_after (run_greedy 300 init)))
  /\ length (out (state_after (run_greedy 300 init))) = 30%nat.
Proof.
  split; [|vm_compute; reflexivity]. apply (proj2 pipeline_refines_contract).
  apply (reachable_after (run_greedy 300 init)). vm_compute. reflexivity.
Defined.
