(* ===== verification/Affinity.v ===== *)
(** * rt_kernel_lock/src/wk_kernel_lock.c: the calls behind a step

    The threads of [KernelLock] set their affinity and priority in one step
    that may fail; this file has the function behind it, and the trace
    message. *)

From S2P Require Import Prelude CInt CString Libc.

Local Open Scope string_scope.
Local Open Scope list_scope.
Local Open Scope Z_scope.

Definition debug : Z := 1.

(** The result is that of the last call made. *)
Definition set_affinity_prio (cpu prio : Z) : prog Z :=
  ret ← call (Sched_setaffinity 0 [cpu]);
  if negb (ret =? 0) then Ret ret
  else
    ret ← call (Sched_setscheduler_rr prio);
    Ret ret.

Definition print_debug (str : string) : prog unit :=
  if negb (debug =? 0) then call (Printf ("%s" +:+ NL) [PStr (Some str)]) else Ret tt.

(** It answers 0, the step of [KernelLock] that succeeds, exactly when both
    calls do; the priority is not touched when the affinity was refused. *)
Lemma set_affinity_prio_ok {W} (h : handler W) (cpu prio : Z) (w : W) :
  let r1 := h _ (Sched_setaffinity 0 [cpu]) w in
  let r2 := h _ (Sched_setscheduler_rr prio) r1.2 in
  exists ret w' tr, run (traced h) (set_affinity_prio cpu prio) (w, []) = (Done ret, (w', tr))
    /\ (ret = 0 <-> r1.1 = 0 /\ r2.1 = 0)
    /\ (r1.1 <> 0 -> tr = [Ev (Sched_setaffinity 0 [cpu]) r1.1]).
Proof.
  intros r1 r2. unfold set_affinity_prio. step_run. fold r1.
  destruct (Z.eqb_spec r1.1 0) as [E|E]; cbn [negb]; step_run; do 3 eexists; (split; [reflexivity|]).
  - split; [by subst r2; intuition|done].
  - split; [by intuition|done].
Qed.
