(* ===== verification/Kernel.v ===== *)
(** * Processes that run together

    [run] (Libc) executes one program against an environment; here several
    processes run side by side, with [fork], [wait] and [exit], in every
    order.  A kernel says how an ordinary call of a process may be answered in a
    shared state, and which calls end their process by a signal (n leaves the
    status -n); a call without an answer blocks.

    Programs are trees, so every execution is finite.  What a
    process does is specified by a protocol, [wp], on the tree alone, whatever
    the others do; an invariant of what the processes know, of the shared state
    and of the log then gives safety and freedom from deadlock. *)

From S2P Require Import Prelude CInt Libc.
From stdpp Require Export relations.

Local Open Scope list_scope.
Local Open Scope Z_scope.

(** Calls whose answer is left open have one. *)
#[export] Instance timespec_inhabited : Inhabited timespec := populate (Timespec 0 0).
#[export] Instance spec_float_inhabited : Inhabited SpecFloat.spec_float := populate SpecFloat.S754_nan.

(** ** Processes *)

Record proc := Proc { pid : Z; ppid : Z; code : prog Z }.
Record zombie := Zombie { zpid : Z; zppid : Z; status : Z }.

(** [log]: the calls made, by whom, with their answers. *)
Record config (S : Type) := Config {
  procs : list proc; zombies : list zombie; kstate : S; log : list (Z * ev)
}.
Arguments Config {S} procs zombies kstate log.
Arguments procs {S} c.
Arguments zombies {S} c.
Arguments kstate {S} c.
Arguments log {S} c.

Record kernel (S : Type) := {
  answers : Z -> forall X, sys X -> S -> X -> S -> Prop;
  kills : Z -> forall X, sys X -> S -> Z -> Prop;
  forked : Z -> Z -> S -> S;
  reaped : Z -> Z -> S -> S;
  exited : Z -> S -> S
}.
Arguments answers {S} k p X e s x s'.
Arguments kills {S} k p X e s st.
Arguments forked {S} k p c s.
Arguments reaped {S} k p c s.
Arguments exited {S} k p s.

(** The calls that make, await and identify processes are not the kernel
    parameter's. *)
Definition ordinary {X} (e : sys X) : bool :=
  match e with Fork | Wait | Waitpid _ => false | _ => true end.

Definition pids {S} (c : config S) : list Z := map pid (procs c) ++ map zpid (zombies c).

(** The status a process leaves, if it is at its end. *)
Definition ended (p : prog Z) : option Z :=
  match p with Ret s => Some s | Exit s => Some s | _ => None end.

Section semantics.
Context {S : Type} (K : kernel S).
Implicit Types c : config S.

(** The children of [p] numbered [child], or all of them. *)
Definition kid (p child : Z) (r : proc) : Prop := pid r = child /\ ppid r = p.
Definition dead_kid (p child : Z) (z : zombie) : Prop := zpid z = child /\ zppid z = p.

(** Forks succeed; [wait] takes any child that has ended, [waitpid] the one it
    names, and both answer -1 to a process without such a child. *)
Inductive step : config S -> config S -> Prop :=
  | step_call a b p q X (e : sys X) k x zs s s' l :
      ordinary e = true -> answers K p X e s x s' ->
      step (Config (a ++ Proc p q (Vis e k) :: b) zs s l)
           (Config (a ++ Proc p q (k x) :: b) zs s' (l ++ [(p, Ev e x)]))
  | step_fork a b p q k child zs s l :
      0 < child -> child ∉ pids (Config (a ++ Proc p q (Vis Fork k) :: b) zs s l) ->
      step (Config (a ++ Proc p q (Vis Fork k) :: b) zs s l)
           (Config (a ++ Proc p q (k child) :: Proc child p (k 0) :: b) zs (forked K p child s)
              (l ++ [(p, Ev Fork child)]))
  | step_wait a b p q k z za zb s l :
      zppid z = p ->
      step (Config (a ++ Proc p q (Vis Wait k) :: b) (za ++ z :: zb) s l)
           (Config (a ++ Proc p q (k (zpid z)) :: b) (za ++ zb) (reaped K p (zpid z) s)
              (l ++ [(p, Ev Wait (zpid z))]))
  | step_wait_none a b p q k zs s l :
      Forall (fun z => zppid z <> p) zs -> Forall (fun r => ppid r <> p) (a ++ b) ->
      step (Config (a ++ Proc p q (Vis Wait k) :: b) zs s l)
           (Config (a ++ Proc p q (k (-1)) :: b) zs s (l ++ [(p, Ev Wait (-1))]))
  | step_waitpid a b p q child k z za zb s l :
      zppid z = p -> zpid z = child ->
      step (Config (a ++ Proc p q (Vis (Waitpid child) k) :: b) (za ++ z :: zb) s l)
           (Config (a ++ Proc p q (k child) :: b) (za ++ zb) (reaped K p child s)
              (l ++ [(p, Ev (Waitpid child) child)]))
  | step_waitpid_none a b p q child k zs s l :
      Forall (fun z => ~ dead_kid p child z) zs ->
      Forall (fun r => ~ kid p child r) (a ++ Proc p q (Vis (Waitpid child) k) :: b) ->
      step (Config (a ++ Proc p q (Vis (Waitpid child) k) :: b) zs s l)
           (Config (a ++ Proc p q (k (-1)) :: b) zs s (l ++ [(p, Ev (Waitpid child) (-1))]))
  | step_kill a b p q X (e : sys X) k st zs s l :
      ordinary e = true -> kills K p X e s st ->
      step (Config (a ++ Proc p q (Vis e k) :: b) zs s l)
           (Config (a ++ b) (zs ++ [Zombie p q st]) (exited K p s) l)
  | step_exit a b p q code st zs s l :
      ended code = Some st ->
      step (Config (a ++ Proc p q code :: b) zs s l)
           (Config (a ++ b) (zs ++ [Zombie p q st]) (exited K p s) l).

(** The log only grows. *)
Lemma step_log c c' : step c c' -> log c `prefix_of` log c'.
Proof. destruct 1; cbn [Kernel.log]; by apply prefix_app_r || done. Qed.

Lemma steps_log c c' : rtc step c c' -> log c `prefix_of` log c'.
Proof. induction 1 as [|c1 c2 c3 Hs _ IH]; [done|]. etrans; [by eapply step_log|done]. Qed.

(** A process that can go on; a configuration in which none can is stuck. *)
Definition moves (rs : list proc) (r : proc) (zs : list zombie) (s : S) : Prop :=
  match code r with
  | Ret _ | Exit _ => True
  | Undef _ | Fuel => False
  | Vis e _ =>
      match e with
      | Fork | Wait => True
      | Waitpid child => (exists z, z ∈ zs /\ dead_kid (pid r) child z) \/ Forall (fun r' => ~ kid (pid r) child r') rs
      | e => (exists x s', answers K (pid r) _ e s x s') \/ exists st, kills K (pid r) _ e s st
      end
  end.

Lemma step_moves c c' : step c c' -> exists r, r ∈ procs c /\ moves (procs c) r (zombies c) (kstate c).
Proof.
  assert (forall a b (r : proc), r ∈ a ++ r :: b) as Hin by (intros; apply elem_of_app; right; by left).
  destruct 1 as [a b p q X e k x zs s s' l Ho Ha|a b p q k child zs s l H0 Hf
    |a b p q k z za zb s l Hz|a b p q k zs s l Hz Hn|a b p q child k z za zb s l Hz Hc|a b p q child k zs s l Hz Hn
    |a b p q X e k st zs s l Ho Hk|a b p q cd st zs s l He]; eexists; (split; [apply Hin|]); cbn; try done.
  - destruct e; try discriminate Ho; left; eauto.
  - left. exists z. split; [|done]. apply elem_of_app. right. by left.
  - by right.
  - destruct e; try discriminate Ho; right; eauto.
  - by destruct cd.
Qed.

(** ** Every execution is finite *)

Definition child_of {A} (p q : prog A) : Prop :=
  match p with @Vis _ X _ k => exists x : X, q = k x | _ => False end.

Inductive shrinks : list (prog Z) -> list (prog Z) -> Prop :=
  | shrinks_step a b p q : child_of p q -> shrinks (a ++ p :: b) (a ++ q :: b)
  | shrinks_fork a b p q r : child_of p q -> child_of p r -> shrinks (a ++ p :: b) (a ++ q :: r :: b)
  | shrinks_end a b p : shrinks (a ++ p :: b) (a ++ b).

Lemma cons_middle_inv {A} (a b l1 l2 : list A) x :
  a ++ x :: b = l1 ++ l2 ->
  (exists b1, l1 = a ++ x :: b1 /\ b = b1 ++ l2) \/ (exists a2, a = l1 ++ a2 /\ l2 = a2 ++ x :: b).
Proof.
  revert l1. induction a as [|y a IH]; intros [|z l1] H; cbn in H.
  - right. by exists [].
  - injection H as -> ->. left. by exists l1.
  - right. exists (y :: a). by rewrite <- H.
  - injection H as -> H. destruct (IH l1 H) as [(b1 & -> & ->)|(a2 & -> & ->)].
    + left. by exists b1.
    + right. by exists a2.
Qed.

(** A step of two groups of processes is a step of one of them. *)
Lemma shrinks_app_inv l1 l2 l' :
  shrinks (l1 ++ l2) l' ->
  (exists l1', shrinks l1 l1' /\ l' = l1' ++ l2) \/ (exists l2', shrinks l2 l2' /\ l' = l1 ++ l2').
Proof.
  intros H. remember (l1 ++ l2) as l eqn:E.
  destruct H as [a b p q Hq|a b p q r Hq Hr|a b p]; symmetry in E; symmetry in E;
    apply cons_middle_inv in E as [(b1 & -> & ->)|(a2 & -> & ->)].
  - left. exists (a ++ q :: b1). rewrite <- app_assoc. split; [by constructor|done].
  - right. exists (a2 ++ q :: b). rewrite <- app_assoc. split; [by constructor|done].
  - left. exists (a ++ q :: r :: b1). rewrite <- app_assoc. split; [by constructor|done].
  - right. exists (a2 ++ q :: r :: b). rewrite <- app_assoc. split; [by constructor|done].
  - left. exists (a ++ b1). rewrite <- app_assoc. split; [by constructor|done].
  - right. exists (a2 ++ b). rewrite <- app_assoc. split; [by constructor|done].
Qed.

Lemma shrinks_sn_app l1 l2 : sn shrinks l1 -> sn shrinks l2 -> sn shrinks (l1 ++ l2).
Proof.
  intros H1. revert l2. induction H1 as [l1 H1 IH1]. intros l2 H2. pose proof H2 as H2'.
  induction H2 as [l2 H2 IH2]. constructor. intros l' Hs. unfold flip in Hs.
  destruct (shrinks_app_inv _ _ _ Hs) as [(l1' & Hs' & ->)|(l2' & Hs' & ->)].
  - by apply IH1.
  - apply IH2; [done|]. by apply H2.
Qed.

Lemma shrinks_single_inv p l' :
  shrinks [p] l' ->
  (exists q, child_of p q /\ l' = [q]) \/ (exists q r, child_of p q /\ child_of p r /\ l' = [q; r]) \/ l' = [].
Proof.
  intros H. remember [p] as l eqn:E.
  destruct H as [a b p' q Hq|a b p' q r Hq Hr|a b p']; apply app_singleton in E as [[-> E]|[_ E]];
    try discriminate E; injection E as -> ->; eauto 8.
Qed.

Lemma shrinks_nil_sn : sn shrinks [].
Proof.
  constructor. intros l' Hs. unfold flip in Hs. remember [] as l eqn:E.
  destruct Hs; by destruct a.
Qed.

Lemma shrinks_sn l : sn shrinks l.
Proof.
  assert (forall p, sn shrinks [p]) as Hp.
  { assert (forall p, (forall q, child_of p q -> sn shrinks [q]) -> sn shrinks [p]) as Hstep.
    { intros p Hc. constructor. intros l' Hs. unfold flip in Hs.
      destruct (shrinks_single_inv _ _ Hs) as [(q & Hq & ->)|[(q & r & Hq & Hr & ->)| ->]].
      - by apply Hc.
      - apply (shrinks_sn_app [q] [r]); by apply Hc.
      - apply shrinks_nil_sn. }
    induction p as [a|s|why| |X e k IH]; apply Hstep; intros q Hq.
    1-4: destruct Hq.
    destruct Hq as [x ->]. apply IH. }
  induction l as [|p l IH]; [apply shrinks_nil_sn|]. by apply (shrinks_sn_app [p] l).
Qed.

Lemma step_shrinks c c' : step c c' -> shrinks (map code (procs c)) (map code (procs c')).
Proof.
  destruct 1; cbn [procs]; rewrite !map_app; cbn [map code];
    try (apply shrinks_step; by eexists); try (apply shrinks_fork; by eexists); apply shrinks_end.
Qed.

Theorem executions_finite c : sn step c.
Proof.
  assert (forall l, sn shrinks l -> forall c, l = map code (procs c) -> sn step c) as H.
  { induction 1 as [l _ IH]. intros c0 ->. constructor. intros c' Hs. unfold flip in Hs.
    eapply IH; [|reflexivity]. apply step_shrinks in Hs. exact Hs. }
  exact (H _ (shrinks_sn _) c eq_refl).
Qed.
End semantics.

(** ** Protocols

    What a process may do is said of its [view], what it knows: the calls it
    [may] make, what it [learns] from an answer, the status it [leaves]. *)

Record protocol (V : Type) := {
  may : forall X, sys X -> V -> Prop;
  learns : forall X, sys X -> V -> X -> V -> Prop;
  leaves : Z -> V -> Prop
}.
Arguments may {V} p X e v.
Arguments learns {V} p X e v x v'.
Arguments leaves {V} p s v.

Section wp.
Context {V : Type} (P : protocol V).

(** [p] keeps to the protocol from [v] on, whatever it is answered, and ends
    by itself in [Q]. *)
Fixpoint wp {A} (p : prog A) (v : V) (Q : A -> V -> Prop) : Prop :=
  match p with
  | Ret a => Q a v
  | Exit s => leaves P s v
  | Undef _ | Fuel => False
  | Vis e k => may P _ e v /\ forall x v', learns P _ e v x v' -> wp (k x) v' Q
  end.

Lemma wp_mono {A} (p : prog A) v (Q R : A -> V -> Prop) :
  wp p v Q -> (forall a v', Q a v' -> R a v') -> wp p v R.
Proof.
  revert v. induction p as [a|s|why| |X e k IH]; intros v H HQR; cbn in *; auto.
  destruct H as [Hm H]. split; [done|]. intros x v' Hl. eauto.
Qed.

Lemma wp_bind {A B} (p : prog A) (f : A -> prog B) v Q R :
  wp p v Q -> (forall a v', Q a v' -> wp (f a) v' R) -> wp (p ≫= f) v R.
Proof.
  revert v. induction p as [a|s|why| |X e k IH]; intros v H Hf; cbn in *; auto.
  destruct H as [Hm H]. split; [done|]. intros x v' Hl. eapply IH; eauto.
Qed.

Lemma wp_ret {A} (a : A) v (Q : A -> V -> Prop) : Q a v -> wp (Ret a) v Q.
Proof. done. Qed.

Lemma wp_call {X} (e : sys X) v (Q : X -> V -> Prop) :
  may P _ e v -> (forall x v', learns P _ e v x v' -> Q x v') -> wp (call e) v Q.
Proof. intros Hm Hq. split; [done|]. intros x v' Hl. by apply Hq. Qed.

Lemma wp_step {X A} (e : sys X) (f : X -> prog A) v Q :
  may P _ e v -> (forall x v', learns P _ e v x v' -> wp (f x) v' Q) -> wp (call e ≫= f) v Q.
Proof. intros Hm Hf. split; [done|]. exact Hf. Qed.

Lemma wp_for {T} (body : Z -> T -> prog T) (Inv : Z -> T -> V -> Prop) n i s v :
  (forall j s v, i <= j < i + Z.of_nat n -> Inv j s v -> wp (body j s) v (Inv (j + 1))) ->
  Inv i s v -> wp (for_ n i body s) v (Inv (i + Z.of_nat n)).
Proof.
  revert i s v. induction n as [|n IH]; intros i s v Hb Hi; cbn [for_].
  { apply wp_ret. by rewrite Z.add_0_r. }
  eapply wp_bind; [apply Hb; [lia|exact Hi]|]. intros s' v' Hi'.
  replace (i + Z.of_nat (Datatypes.S n)) with (i + 1 + Z.of_nat n) by lia. apply IH; [|done].
  intros j t w Hj. apply Hb. lia.
Qed.
End wp.

(** ** Programs under a kernel *)

Record knows (V : Type) := Knows { kpid : Z; kppid : Z; view : V }.
Arguments Knows {V} kpid kppid view.
Arguments kpid {V} k.
Arguments kppid {V} k.
Arguments view {V} k.

Section adequacy.
Context {S V : Type} (K : kernel S) (P : protocol V).
Variable Inv : list (knows V) -> list zombie -> S -> list (Z * ev) -> Prop.

Definition fresh_for (child : Z) (ws : list (knows V)) (zs : list zombie) : Prop :=
  0 < child /\ child ∉ map kpid ws ++ map zpid zs.

(** The kernel keeps the invariant and what it answers fits the protocol. *)
Record respects : Prop := {
  r_call a b p q v X (e : sys X) x zs s s' l :
    Inv (a ++ Knows p q v :: b) zs s l -> ordinary e = true -> may P X e v -> answers K p X e s x s' ->
    exists v', learns P X e v x v' /\ Inv (a ++ Knows p q v' :: b) zs s' (l ++ [(p, Ev e x)]);
  r_fork a b p q v child zs s l :
    Inv (a ++ Knows p q v :: b) zs s l -> may P _ Fork v ->
    fresh_for child (a ++ Knows p q v :: b) zs ->
    exists v1 v2, learns P _ Fork v child v1 /\ learns P _ Fork v 0 v2
      /\ Inv (a ++ Knows p q v1 :: Knows child p v2 :: b) zs (forked K p child s) (l ++ [(p, Ev Fork child)]);
  r_wait a b p q v z za zb s l :
    Inv (a ++ Knows p q v :: b) (za ++ z :: zb) s l -> may P _ Wait v -> zppid z = p ->
    exists v', learns P _ Wait v (zpid z) v'
      /\ Inv (a ++ Knows p q v' :: b) (za ++ zb) (reaped K p (zpid z) s) (l ++ [(p, Ev Wait (zpid z))]);
  r_wait_none a b p q v zs s l :
    Inv (a ++ Knows p q v :: b) zs s l -> may P _ Wait v ->
    Forall (fun z => zppid z <> p) zs -> Forall (fun r => kppid r <> p) (a ++ b) ->
    exists v', learns P _ Wait v (-1) v' /\ Inv (a ++ Knows p q v' :: b) zs s (l ++ [(p, Ev Wait (-1))]);
  r_waitpid a b p q v z za zb s l :
    Inv (a ++ Knows p q v :: b) (za ++ z :: zb) s l -> may P _ (Waitpid (zpid z)) v -> zppid z = p ->
    exists v', learns P _ (Waitpid (zpid z)) v (zpid z) v'
      /\ Inv (a ++ Knows p q v' :: b) (za ++ zb) (reaped K p (zpid z) s) (l ++ [(p, Ev (Waitpid (zpid z)) (zpid z))]);
  r_waitpid_none a b p q v child zs s l :
    Inv (a ++ Knows p q v :: b) zs s l -> may P _ (Waitpid child) v ->
    Forall (fun z => ~ dead_kid p child z) zs ->
    Forall (fun r => ~ (kpid r = child /\ kppid r = p)) (a ++ Knows p q v :: b) ->
    exists v', learns P _ (Waitpid child) v (-1) v'
      /\ Inv (a ++ Knows p q v' :: b) zs s (l ++ [(p, Ev (Waitpid child) (-1))]);
  r_kill a b p q v X (e : sys X) st zs s l :
    Inv (a ++ Knows p q v :: b) zs s l -> may P X e v -> kills K p X e s st ->
    Inv (a ++ b) (zs ++ [Zombie p q st]) (exited K p s) l;
  r_exit a b p q v st zs s l :
    Inv (a ++ Knows p q v :: b) zs s l -> leaves P st v ->
    Inv (a ++ b) (zs ++ [Zombie p q st]) (exited K p s) l
}.

(** A call that will not block. *)
Definition enabled (p : Z) {X} (e : sys X) (zs : list zombie) (s : S) : Prop :=
  match e with
  | Fork => True
  | Wait => exists z, z ∈ zs /\ zppid z = p
  | Waitpid child => exists z, z ∈ zs /\ zppid z = p /\ zpid z = child
  | e => exists x s', answers K p _ e s x s'
  end.

(** Some process can go on, whatever permitted call it makes next. *)
Definition progresses : Prop :=
  forall ws zs s l, Inv ws zs s l -> ws <> [] ->
    exists a p q v b, ws = a ++ Knows p q v :: b /\ forall X (e : sys X), may P X e v -> enabled p e zs s.

Definition agrees (r : proc) (w : knows V) : Prop :=
  pid r = kpid w /\ ppid r = kppid w /\ wp P (code r) (view w) (leaves P).

Definition good (c : config S) : Prop :=
  exists ws, Forall2 agrees (procs c) ws /\ Inv ws (zombies c) (kstate c) (log c).

Lemma agrees_pids rs ws : Forall2 agrees rs ws -> map pid rs = map kpid ws.
Proof. induction 1 as [|r w rs ws [H _] _ IH]; [done|]. cbn. by rewrite H, IH. Qed.

Lemma agrees_ppids (F : Z -> Prop) rs ws :
  Forall2 agrees rs ws -> Forall (fun r => F (ppid r)) rs -> Forall (fun w => F (kppid w)) ws.
Proof.
  induction 1 as [|r w rs ws (_ & H & _) _ IH]; intros Hf; constructor; inversion Hf; subst.
  - by rewrite <- H.
  - by apply IH.
Qed.

Lemma agrees_kids p child rs ws :
  Forall2 agrees rs ws -> Forall (fun r => ~ kid p child r) rs -> Forall (fun w => ~ (kpid w = child /\ kppid w = p)) ws.
Proof.
  induction 1 as [|r w rs ws (H1 & H2 & _) _ IH]; intros Hf; constructor; inversion Hf; subst; [|by apply IH].
  unfold kid in *. by rewrite <- H1, <- H2.
Qed.

(** The processes of a configuration around one of them. *)
Lemma good_middle a r b zs s l :
  good (Config (a ++ r :: b) zs s l) ->
  exists wa wb v, Forall2 agrees a wa /\ Forall2 agrees b wb
    /\ wp P (code r) v (leaves P) /\ Inv (wa ++ Knows (pid r) (ppid r) v :: wb) zs s l.
Proof.
  intros (ws & Hw & HI). apply Forall2_app_inv_l in Hw as (wa & wb & Ha & Hb & ->).
  apply Forall2_cons_inv_l in Hb as ([p q v] & wb' & (Hp & Hq & Hwp) & Hb & ->).
  cbn [kpid kppid view procs zombies kstate log] in *. subst. by exists wa, wb', v.
Qed.

Lemma good_intro a r b wa v wb zs s l :
  Forall2 agrees a wa -> Forall2 agrees b wb -> wp P (code r) v (leaves P) ->
  Inv (wa ++ Knows (pid r) (ppid r) v :: wb) zs s l -> good (Config (a ++ r :: b) zs s l).
Proof.
  intros Ha Hb Hwp HI. exists (wa ++ Knows (pid r) (ppid r) v :: wb). split; [|done].
  apply Forall2_app; [done|]. by constructor.
Qed.

Lemma step_good c c' : respects -> step K c c' -> good c -> good c'.
Proof.
  intros R Hs Hg. destruct Hs as [a b p q X e k x zs s s' l Ho Ha|a b p q k child zs s l H0 Hf
    |a b p q k z za zb s l Hz|a b p q k zs s l Hz Hn|a b p q child k z za zb s l Hz Hc|a b p q child k zs s l Hz Hn
    |a b p q X e k st zs s l Ho Hk|a b p q cd st zs s l He];
    apply good_middle in Hg as (wa & wb & v & Hwa & Hwb & Hwp & HI); cbn [pid ppid code] in *.
  - destruct Hwp as [Hm Hk]. destruct (r_call R _ _ _ _ _ _ _ _ _ _ _ _ HI Ho Hm Ha) as (v' & Hl & HI').
    apply (good_intro _ _ _ wa v' wb); [done..|by apply Hk|done].
  - destruct Hwp as [Hm Hk]. unfold pids in Hf. cbn [procs zombies] in Hf.
    destruct (r_fork R _ _ _ _ _ child _ _ _ HI Hm) as (v1 & v2 & Hl1 & Hl2 & HI').
    { split; [done|]. rewrite map_app in Hf |- *. cbn [map pid kpid] in Hf |- *.
      by rewrite <- (agrees_pids _ _ Hwa), <- (agrees_pids _ _ Hwb). }
    apply (good_intro _ _ _ wa v1 (Knows child p v2 :: wb)); [done| |by apply Hk|done].
    constructor; [|done]. split_and!; [done..|]. by apply Hk.
  - destruct Hwp as [Hm Hk]. destruct (r_wait R _ _ _ _ _ _ _ _ _ _ HI Hm Hz) as (v' & Hl & HI').
    apply (good_intro _ _ _ wa v' wb); [done..|by apply Hk|done].
  - destruct Hwp as [Hm Hk]. destruct (r_wait_none R _ _ _ _ _ _ _ _ HI Hm Hz) as (v' & Hl & HI').
    { apply Forall_app in Hn as [Hna Hnb]. apply Forall_app.
      split; by eapply (agrees_ppids (fun x => x <> p)). }
    apply (good_intro _ _ _ wa v' wb); [done..|by apply Hk|done].
  - destruct Hwp as [Hm Hk]. subst child.
    destruct (r_waitpid R _ _ _ _ _ _ _ _ _ _ HI Hm Hz) as (v' & Hl & HI').
    apply (good_intro _ _ _ wa v' wb); [done..|by apply Hk|done].
  - destruct Hwp as [Hm Hk]. destruct (r_waitpid_none R _ _ _ _ _ _ _ _ _ HI Hm Hz) as (v' & Hl & HI').
    { apply Forall_app in Hn as [Hna Hnb]. inversion Hnb as [|? ? Hn0 Hnb']; subst.
      apply Forall_app. split; [|constructor; [done|]]; by eapply agrees_kids. }
    apply (good_intro _ _ _ wa v' wb); [done..|by apply Hk|done].
  - destruct Hwp as [Hm _]. exists (wa ++ wb). split; [by apply Forall2_app|].
    by eapply (r_kill R).
  - assert (leaves P st v) as Hl by (destruct cd; cbn in *; by simplify_eq).
    exists (wa ++ wb). split; [by apply Forall2_app|]. by apply (r_exit R _ _ _ _ _ _ _ _ _ HI Hl).
Qed.

(** A number that no process has. *)
Lemma fresh_pid (l : list Z) : exists n, 0 < n /\ n ∉ l.
Proof.
  assert (exists n, 0 < n /\ Forall (fun x => x < n) l) as (n & Hn & Hl).
  { induction l as [|x l (n & Hn & Hl)]; [by exists 1|]. exists (Z.max n (x + 1)). split; [lia|].
    constructor; [lia|]. eapply Forall_impl; [exact Hl|]. cbn. lia. }
  exists n. split; [done|]. intros Hin. rewrite Forall_forall in Hl. specialize (Hl _ Hin). lia.
Qed.

(** An enabled call can be made. *)
Lemma enabled_step a p q X (e : sys X) (k : X -> prog Z) b zs s l :
  enabled p e zs s -> exists c', step K (Config (a ++ Proc p q (Vis e k) :: b) zs s l) c'.
Proof.
  intros He. destruct (ordinary e) eqn:Ho.
  { assert (exists x s', answers K p X e s x s') as (x & s' & Hx) by (destruct e; done).
    eexists. by eapply step_call. }
  destruct e; try discriminate Ho; cbn in He.
  - destruct (fresh_pid (pids (Config (a ++ Proc p q (Vis Fork k) :: b) zs s l))) as (n & Hn & Hf).
    eexists. by apply (step_fork K a b p q k n).
  - destruct He as (z & Hz & Hzp). apply list_elem_of_split in Hz as (za & zb & ->).
    eexists. by eapply step_wait.
  - destruct He as (z & Hz & Hzp & Hzc). apply list_elem_of_split in Hz as (za & zb & ->).
    eexists. by eapply step_waitpid.
Qed.

Lemma good_progress c : progresses -> good c -> procs c = [] \/ exists c', step K c c'.
Proof.
  intros Hp (ws & Hw & HI). destruct c as [ps zs s l]. cbn [procs zombies kstate log] in *.
  destruct ps as [|r0 ps]; [by left|right].
  destruct (Hp _ _ _ _ HI) as (wa & p & q & v & wb & -> & He); [intros ->; inversion Hw|].
  apply Forall2_app_inv_r in Hw as (a & b & Ha & Hb & Hab).
  apply Forall2_cons_inv_r in Hb as ([p' q' cd] & b' & (Hpp & Hqq & Hwp) & Hb & ->).
  rewrite Hab. cbn [pid ppid code kpid kppid view] in *. subst p' q'.
  destruct cd as [st|st|why| |X e k]; [eexists; by eapply step_exit..|done|done|].
  destruct Hwp as [Hm _]. by apply enabled_step, He.
Qed.

(** The invariant holds for ever. *)
Lemma steps_good c c' : respects -> rtc (step K) c c' -> good c -> good c'.
Proof. intros R. induction 1 as [|c1 c2 c3 Hs _ IH]; [done|]. intros Hg. by eapply IH, step_good. Qed.

(** A process that waits: it is at a permitted call that is not enabled. *)
Definition blocked (zs : list zombie) (s : S) (r : proc) (w : knows V) : Prop :=
  agrees r w /\ exists X (e : sys X) k, code r = Vis e k /\ may P X e (view w) /\ ~ enabled (pid r) e zs s.

(** Where nothing can move, every process waits. *)
Lemma stuck_blocked c :
  good c -> (forall c', ~ step K c c') ->
  exists ws, Forall2 (blocked (zombies c) (kstate c)) (procs c) ws /\ Inv ws (zombies c) (kstate c) (log c).
Proof.
  intros (ws & Hw & HI) Hstuck. exists ws. split; [|done]. apply Forall2_same_length_lookup.
  split; [by eapply Forall2_length|]. intros i r w Hr Hi. pose proof (Forall2_lookup_lr _ _ _ _ _ _ Hw Hr Hi) as Ha.
  split; [done|]. apply list_elem_of_lookup_2, list_elem_of_split in Hr as (a & b & Hps).
  destruct c as [ps zs s l]. cbn [procs zombies kstate log] in *. subst ps.
  destruct r as [p q cd], Ha as (_ & _ & Hwp). cbn [code pid] in *.
  destruct cd as [st|st|why| |X e k]; [exfalso; by eapply Hstuck, step_exit..|done|done|].
  exists X, e, k. split_and!; [done|apply Hwp|]. intros He. by destruct (enabled_step a p q X e k b zs s l He) as [c' Hs%Hstuck].
Qed.

(** From a good configuration every execution is finite, stays good, and stops
    only when all processes have ended. *)
Theorem adequacy c :
  respects -> progresses -> good c ->
  sn (step K) c
  /\ forall c', rtc (step K) c c' -> good c' /\ (procs c' = [] \/ exists c'', step K c' c'').
Proof.
  intros R Hp Hg. split; [apply executions_finite|]. intros c' Hr.
  assert (good c') as Hg' by (by eapply steps_good). split; [done|]. by apply good_progress.
Qed.

(** It can always be brought to an end. *)
Corollary completes c :
  respects -> progresses -> good c -> exists c', rtc (step K) c c' /\ procs c' = [].
Proof.
  intros R Hp. pose proof (executions_finite K c) as Hsn.
  induction Hsn as [c _ IH]. intros Hg.
  destruct (good_progress c Hp Hg) as [E|[c1 Hs]]; [by exists c|].
  destruct (IH c1 Hs) as (c' & Hr & E); [by eapply step_good|].
  exists c'. split; [by eapply rtc_l|done].
Qed.
End adequacy.

(** ** A process with two children

    The first process, number 1, may have two children; a child stands in the
    list right after it, the younger before the elder. *)

Inductive child (V : Type) := Unborn | Alive (p : Z) (v : V) | Gone.
Arguments Unborn {V}.
Arguments Alive {V} p v.
Arguments Gone {V}.

Section family.
Context {V : Type}.
Implicit Types (m : option V) (elder younger : child V).

Definition main_list m : list (knows V) := option_list (Knows 1 0 <$> m).
Definition child_list (c : child V) : list (knows V) := match c with Alive p w => [Knows p 1 w] | _ => [] end.
Definition alive (c : child V) : nat := length (child_list c).

(** A process of the family is the main one or a child. *)
Lemma member_inv a b p q v m younger elder :
  a ++ Knows p q v :: b = main_list m ++ child_list younger ++ child_list elder ->
  (m = Some v /\ p = 1 /\ q = 0 /\ a = [] /\ b = child_list younger ++ child_list elder)
  \/ (younger = Alive p v /\ q = 1 /\ a = main_list m /\ b = child_list elder)
  \/ (elder = Alive p v /\ q = 1 /\ a = main_list m ++ child_list younger /\ b = []).
Proof.
  intros H. apply cons_middle_inv in H as [(b1 & H & ->)|(a2 & -> & H)].
  - left. destruct m as [u|]; [|by destruct a]. cbn in H. symmetry in H.
    apply app_singleton in H as [[-> [= -> -> -> ->]]|[_ ?]]; done.
  - right. symmetry in H. apply cons_middle_inv in H as [(b1 & H & ->)|(a3 & -> & H)].
    + left. destruct younger as [|p' u|]; try by destruct a2. cbn in H. symmetry in H.
      apply app_singleton in H as [[-> [= -> -> -> ->]]|[_ ?]]; [|done]. by rewrite app_nil_r.
    + right. destruct elder as [|p' u|]; try by destruct a3. cbn in H. symmetry in H.
      apply app_singleton in H as [[-> [= -> -> -> ->]]|[_ ?]]; [|done]. by rewrite app_nil_r.
Qed.

(** No two processes have the same number. *)
Lemma distinct m elder younger :
  NoDup (map kpid (main_list m ++ child_list younger ++ child_list elder)) ->
  (forall p v, is_Some m -> elder = Alive p v -> p <> 1) /\ (forall p v, is_Some m -> younger = Alive p v -> p <> 1)
  /\ (forall p v p' v', elder = Alive p v -> younger = Alive p' v' -> p <> p').
Proof.
  rewrite !map_app. intros H. apply NoDup_app in H as (_ & H1 & H2). apply NoDup_app in H2 as (_ & H2 & _).
  split_and!.
  - intros p v [u ->] -> ->. apply (H1 1); [by left|]. apply elem_of_app. right. by left.
  - intros p v [u ->] -> ->. apply (H1 1); [by left|]. apply elem_of_app. left. by left.
  - intros p v p' v' -> -> ->. apply (H2 p'); by left.
Qed.
Lemma NoDup_app_drop (x y z : list Z) : NoDup (x ++ y ++ z) -> NoDup (x ++ z).
Proof.
  rewrite !NoDup_app. intros (H1 & H2 & _ & _ & H3). split_and!; [done| |done].
  intros u Hu Hz. apply (H2 u Hu). apply elem_of_app. by right.
Qed.
End family.
