(* ===== verification/Routine.v ===== *)
(** * Calls that are nobody else's concern

    Most calls of a process under a kernel (Kernel) touch neither the shared state
    nor the other processes.  A protocol says which they are and what it knows
    of their answers ([Routine]); the functions of the library that make only
    such calls then keep to any protocol of this kind. *)

From S2P Require Import Prelude CInt CString Libc CFloat Utils Calibrate Kernel.

Local Open Scope list_scope.
Local Open Scope Z_scope.

(** A routine call may be made at any time; its answer is [granted] and the view
    stays. *)
Class Routine {V} (P : protocol V) (routine : forall X, sys X -> bool)
    (granted : forall X, sys X -> X -> Prop) : Prop := {
  routine_may X (e : sys X) v : routine X e = true -> may P X e v;
  routine_learns X (e : sys X) v x v' : routine X e = true -> learns P X e v x v' -> granted X e x /\ v' = v
}.

(** Sleeping is routine. *)
Class Sleeps (routine : forall X, sys X -> bool) : Prop := {
  sleeps_time : routine _ Gettimeofday = true;
  sleeps_nanosleep t : routine _ (Nanosleep t) = true
}.

(** So is counting until the alarm, which arrives. *)
Class Counts (routine : forall X, sys X -> bool) (granted : forall X, sys X -> X -> Prop) : Prop := {
  counts_sigemptyset : routine _ Sigemptyset = true /\ forall x, granted _ Sigemptyset x -> x = 0;
  counts_sigaction s : routine _ (Sigaction s) = true /\ forall x, granted _ (Sigaction s) x -> x = 0;
  counts_setitimer i v : routine _ (Setitimer_real i v) = true /\ forall x, granted _ (Setitimer_real i v) x -> x = 0;
  counts_reads : routine _ Run_reads = true /\ forall x, granted _ Run_reads x -> alarm_seen x = true
}.

(** A [counter] stops at the alarm. *)
Lemma counter_loop_stops reads n : alarm_seen reads = true -> exists k, counter_loop reads n = Some k.
Proof.
  revert n. induction reads as [|[] reads IH]; intros n Ha; [done| |by eexists]. cbn [counter_loop].
  case_if; [by eexists|]. by apply IH.
Qed.

Section routine.
Context {V : Type} {P : protocol V} {routine : forall X, sys X -> bool} {granted : forall X, sys X -> X -> Prop}.
Context `{HR : !Routine P routine granted}.
Implicit Types v : V.

Lemma wp_routine {X A} (e : sys X) (f : X -> prog A) v Q :
  routine X e = true -> (forall x, granted X e x -> wp P (f x) v Q) -> wp P (call e ≫= f) v Q.
Proof using HR.
  intros He Hf. apply wp_step; [by apply routine_may|].
  intros x v' Hl. destruct (routine_learns _ _ _ _ _ He Hl) as [Hg ->]. by apply Hf.
Qed.

Lemma wp_routine_last (e : sys unit) v (Q : unit -> V -> Prop) : routine unit e = true -> Q tt v -> wp P (call e) v Q.
Proof using HR.
  intros He HQ. apply wp_call; [by apply routine_may|].
  intros [] v' Hl. by destruct (routine_learns _ _ _ _ _ He Hl) as [_ ->].
Qed.

Lemma wp_hog n v (Q : unit -> V -> Prop) : routine _ (Busy (Z.max 1 n)) = true -> Q tt v -> wp P (hog n) v Q.
Proof using HR. apply wp_routine_last. Qed.

Section sleeping.
Context `{HS : !Sleeps routine}.

Lemma wp_do_sleep ms v (Q : Z -> V -> Prop) : (forall r, Q r v) -> wp P (do_sleep ms) v Q.
Proof using HR HS.
  intros HQ. unfold do_sleep. case_if; [by apply wp_ret|].
  apply wp_routine; [apply sleeps_time|]. intros _ _. apply wp_routine; [apply sleeps_nanosleep|]. intros r _.
  case_if; [by apply wp_ret|]. apply wp_routine; [apply sleeps_time|]. intros _ _. by apply wp_ret.
Qed.

Lemma wp_sleep_then {A} ms (f : Z -> prog A) v Q :
  (forall r, wp P (f r) v Q) -> wp P (do_sleep ms ≫= f) v Q.
Proof using HR HS.
  intros Hf. eapply wp_bind; [by apply (wp_do_sleep _ _ (fun _ v' => v' = v))|]. intros r ? ->. apply Hf.
Qed.
End sleeping.

Section counting.
Context `{HC : !Counts routine granted}.

Lemma wp_counter {A} n (f : Z -> prog A) v Q : (forall k, wp P (f k) v Q) -> wp P (counter n ≫= f) v Q.
Proof using HR HC.
  intros Hf. destruct counts_reads as [Hr Hg]. apply (wp_bind _ _ _ _ (fun _ v' => v' = v)).
  - unfold counter. apply wp_routine; [done|]. intros reads Ha.
    by destruct (counter_loop_stops reads n (Hg _ Ha)) as [k ->].
  - intros k ? ->. apply Hf.
Qed.

(** [if (r) error(...)] on a call that succeeds. *)
Lemma wp_or_error {A} (e : sys Z) msg (f : unit -> prog A) v Q :
  (routine _ e = true /\ forall x, granted _ e x -> x = 0) -> wp P (f tt) v Q ->
  wp P (call e ≫= fun r => or_error r msg ≫= f) v Q.
Proof using HR. intros [He Hg] Hf. apply wp_routine; [done|]. by intros x ->%Hg. Qed.

Lemma wp_calibrate us v (Q : Z -> V -> Prop) : (forall n, Q n v) -> wp P (calibrate us) v Q.
Proof using HR HC.
  intros HQ. unfold calibrate. apply wp_or_error; [apply counts_sigemptyset|].
  apply wp_or_error; [apply counts_sigaction|]. apply wp_or_error; [apply counts_setitimer|].
  apply wp_counter. intros _. eapply wp_bind.
  { apply (wp_for P _ (fun _ _ v' => v' = v)); [|done]. intros j s ? _ ->. apply wp_counter. intros k. by apply wp_ret. }
  intros r ? ->. apply wp_or_error; [apply counts_setitimer|]. by apply wp_ret.
Qed.

Lemma wp_calibrate_then {A} us (f : Z -> prog A) v Q :
  (forall n, wp P (f n) v Q) -> wp P (calibrate us ≫= f) v Q.
Proof using HR HC.
  intros Hf. eapply wp_bind; [by apply (wp_calibrate _ _ (fun _ v' => v' = v))|]. intros r ? ->. apply Hf.
Qed.
End counting.

(** [if (r < 0) throw(...)] on an answer that is none. *)
Lemma wp_check {A} r msg (f : unit -> prog A) v Q :
  0 <= r -> wp P (f tt) v Q -> wp P ((if r <? 0 then throw msg else Ret tt) ≫= f) v Q.
Proof. intros Hr Hf. by rewrite (proj2 (Z.ltb_ge r 0) Hr). Qed.
End routine.

(** Steps through routine calls. *)
Ltac wp_routines := repeat (apply wp_routine; [done|]; intros ? ?).
