(* ===== verification/PipetteRun.v ===== *)
(** * wk-pipette as a family of processes

    The whole of [Pipette.main] under a kernel with processes and one pipe:
    the main process, the producer and the consumer in every interleaving,
    over a pipe of bounded or unbounded size, from the first call to the last
    exit.  How much a transfer moves is up to the kernel ([Transfers]). *)

From S2P Require Import Prelude CInt CString Libc CFloat Utils Getopt Kernel Routine Pipette.

Local Open Scope string_scope.
Local Open Scope list_scope.
Local Open Scope Z_scope.

(** ** The kernel: one pipe *)

(** [pipe]: its descriptors and the bytes in it; [holds]: who has which end
    open. *)
Record pipes := Pipes { pipe : option (Z * Z * list Z); holds : list (Z * Z) }.

(** How many bytes a [write] of [bs] may put in a pipe that holds [buf], and a
    [read] of [n] bytes take out; without such a number the call blocks. *)
Class Transfers (can_write : list Z -> list Z -> nat -> Prop) (can_read : list Z -> Z -> nat -> Prop) : Prop := {
  write_some buf bs k : can_write buf bs k -> bs <> [] -> (0 < k <= length bs)%nat;
  write_empty bs : bs <> [] -> exists k, can_write [] bs k;
  read_some buf n k : can_read buf n k -> 0 < n -> buf <> [] -> (0 < k <= length buf)%nat /\ Z.of_nat k <= n;
  read_full buf n : 0 < n -> buf <> [] -> exists k, can_read buf n k
}.

Section kernel.
Variables (can_write : list Z -> list Z -> nat -> Prop) (can_read : list Z -> Z -> nat -> Prop).

(** A [write] needs a reader, a [read] of an empty pipe waits while there is a
    writer.  Memory is granted; other calls are answered anyhow. *)
Definition pipe_answers (p : Z) X (e : sys X) (st : pipes) : X -> pipes -> Prop :=
  match e in sys X return X -> pipes -> Prop with
  | Pipe => fun x st' =>
      exists r w, x = (0, (r, w)) /\ r <> w /\ pipe st = None
        /\ st' = Pipes (Some (r, w, [])) ((p, r) :: (p, w) :: holds st)
  | Write fd bs => fun n st' =>
      exists r buf k, pipe st = Some (r, fd, buf) /\ (p, fd) ∈ holds st /\ (exists q, (q, r) ∈ holds st)
        /\ can_write buf bs k /\ n = Z.of_nat k /\ st' = Pipes (Some (r, fd, buf ++ take k bs)) (holds st)
  | Read fd n => fun x st' =>
      exists w buf, pipe st = Some (fd, w, buf) /\ (p, fd) ∈ holds st
        /\ ((buf <> [] /\ exists k, can_read buf n k /\ x = (Z.of_nat k, take k buf)
               /\ st' = Pipes (Some (fd, w, drop k buf)) (holds st))
            \/ (buf = [] /\ (forall q, (q, w) ∉ holds st) /\ x = (0, []) /\ st' = st))
  | Close fd => fun x st' =>
      x = 0 /\ (p, fd) ∈ holds st /\ st' = Pipes (pipe st) (filter (fun h => h <> (p, fd)) (holds st))
  | Calloc _ _ => fun x st' => is_Some x /\ st' = st
  | _ => fun _ st' => st' = st
  end.

(** A [write] without a reader raises SIGPIPE, signal 13. *)
Definition pipe_kills (p : Z) X (e : sys X) (st : pipes) (status : Z) : Prop :=
  match e with
  | Write fd _ => exists r buf, pipe st = Some (r, fd, buf) /\ (p, fd) ∈ holds st
      /\ (forall q, (q, r) ∉ holds st) /\ status = -13
  | _ => False
  end.

(** The child has the parent's descriptors; those of a process that ends are
    closed. *)
Definition pipe_forked (p child : Z) (st : pipes) : pipes :=
  Pipes (pipe st) (holds st ++ omap (fun '(q, fd) => if q =? p then Some (child, fd) else None) (holds st)).

Definition pipe_exited (p : Z) (st : pipes) : pipes :=
  Pipes (pipe st) (filter (fun h => h.1 <> p) (holds st)).

Definition pipe_kernel : kernel pipes := {|
  answers := fun p X e st x st' => pipe_answers p X e st x st';
  kills := fun p X e st status => pipe_kills p X e st status;
  forked := pipe_forked;
  reaped := fun _ _ st => st;
  exited := pipe_exited
|}.
End kernel.

(** ** The protocol *)

(** What a process of the program knows.  [Half] is the main process between
    its two forks; [Both n], when [n] calls of [wait] are to come; [Born_p] and
    [Born_c] are the children before they close the other end. *)
Inductive pview :=
  | Starting
  | Piped (r w : Z)
  | Half (r w : Z)
  | Both (n : nat)
  | Born_p (r w : Z)
  | Born_c (r w : Z)
  | Producing (w : Z) (rest : list Z)
  | Consuming (r : Z) (stream : list Z) (said : list (Z * Z * Z)).

Section protocol.
Variables (all : list Z) (told : list (Z * Z * Z)).

(** A call that tells something goes into what the consumer has said. *)
Definition tell (rep : option (Z * Z * Z)) (v : pview) : pview :=
  match v with Consuming r s said => Consuming r s (said ++ option_list rep) | v => v end.

Definition pmay X (e : sys X) (v : pview) : Prop :=
  match e with
  | Pipe => v = Starting
  | Fork => exists r w, v = Piped r w \/ v = Half r w
  | Wait => exists n, v = Both (S n)
  | Waitpid _ => False
  | Write fd bs => exists rest, v = Producing fd rest /\ bs <> [] /\ bs `prefix_of` rest
  | Read fd n => exists stream said, v = Consuming fd stream said /\ 0 < n /\ stream <> []
  | Close fd => (exists w, v = Born_p fd w) \/ (exists r, v = Born_c r fd)
  | e => (exists r s said, v = Consuming r s said) \/ forall x, report (Ev e x) = None
  end.

Definition plearns X (e : sys X) (v : pview) : X -> pview -> Prop :=
  match e in sys X return X -> pview -> Prop with
  | Pipe => fun x v' => exists r w, x = (0, (r, w)) /\ v' = Piped r w
  | Fork => fun x v' =>
      match v with
      | Piped r w => (x = 0 /\ v' = Born_p r w) \/ (0 < x /\ v' = Half r w)
      | Half r w => (x = 0 /\ v' = Born_c r w) \/ (0 < x /\ v' = Both 2)
      | _ => False
      end
  | Wait => fun _ v' => exists n, v = Both (S n) /\ v' = Both n
  | Write fd bs => fun x v' =>
      exists rest k, v = Producing fd rest /\ (0 < k <= length bs)%nat
        /\ x = Z.of_nat k /\ v' = Producing fd (drop k rest)
  | Read fd n => fun x v' =>
      exists stream said k, v = Consuming fd stream said /\ (0 < k <= length stream)%nat /\ Z.of_nat k <= n
        /\ x = (Z.of_nat k, take k stream) /\ v' = Consuming fd (drop k stream) said
  | Close fd => fun _ v' =>
      (exists w, v = Born_p fd w /\ v' = Producing w all) \/ (exists r, v = Born_c r fd /\ v' = Consuming r all [])
  | Calloc n m => fun x v' => is_Some x /\ v' = tell None v
  | e => fun x v' => v' = tell (report (Ev e x)) v
  end.

Definition pleaves (status : Z) (v : pview) : Prop :=
  status = 0 /\ (v = Both 0 \/ (exists w, v = Producing w []) \/ (exists r, v = Consuming r [] told)).

Definition pipette_protocol : protocol pview := {|
  may := pmay; learns := fun X e v x v' => plearns X e v x v'; leaves := pleaves
|}.

#[local] Notation P := pipette_protocol.

Lemma tell_none v : tell None v = v.
Proof. destruct v; cbn; by rewrite ?app_nil_r. Qed.

(** ** The programs keep to it *)

(** A call that neither tells anything nor concerns the processes or the
    pipe. *)
Definition quiet {X} (e : sys X) : bool :=
  match e with
  | Pipe | Fork | Wait | Waitpid _ | Write _ _ | Read _ _ | Close _ | Calloc _ _ | Vasprintf _ _ => false
  | _ => true
  end.

#[export] Instance pipette_routine : Routine P (@quiet) (fun _ _ _ => True).
Proof.
  split.
  - intros X e v He. destruct e; try discriminate He; cbn; right; done.
  - intros X e v x v' He Hl. split; [done|]. destruct e; try discriminate He; cbn in Hl; by rewrite Hl, tell_none.
Qed.
#[export] Instance quiet_sleeps : Sleeps (@quiet).
Proof. by split. Qed.

Lemma wp_calloc {A} n m (f : option Z -> prog A) v Q :
  (forall a, wp P (f (Some a)) v Q) -> wp P (call (Calloc n m) ≫= f) v Q.
Proof.
  intros Hf. apply wp_step; [by right|]. intros x v' [[a ->] ->]. rewrite tell_none. apply Hf.
Qed.

Lemma wp_do_sleep_rrobin id turn rr ms v (Q : unit -> pview -> Prop) :
  Q tt v -> wp P (do_sleep_rrobin id turn rr ms) v Q.
Proof.
  intros HQ. unfold do_sleep_rrobin. repeat case_if; try by apply wp_ret.
  all: eapply wp_bind; [by apply (wp_do_sleep _ _ (fun _ v' => v' = v))|]; intros _ ? ->; by apply wp_ret.
Qed.

(** [msg] tells when the program is verbose. *)
Definition said_of (verbose : Z) (f : string) (args : list parg) : option (Z * Z * Z) :=
  if verbose =? 0 then None else report (Ev (Vasprintf f args) None).

Lemma wp_msg verbose f args v (Q : unit -> pview -> Prop) :
  (exists r s said, v = Consuming r s said) \/ report (Ev (Vasprintf f args) None) = None ->
  Q tt (tell (said_of verbose f args) v) -> wp P (msg verbose f args) v Q.
Proof.
  intros Hv HQ. unfold msg, said_of in *. destruct (verbose =? 0); cbn [negb].
  { apply wp_ret. by rewrite tell_none in HQ. }
  apply wp_step; [destruct Hv; [by left|by right]|].
  intros x v' Hl. cbn in Hl. subst v'.
  destruct x as [[p s]|]; [|by apply wp_ret]. apply wp_routine; [done|]. intros _ _.
  apply wp_call; [by right|]. intros [] v' Hl. cbn in Hl. rewrite tell_none in Hl. by subst v'.
Qed.

(** [write]: a non-empty prefix of what is left to write. *)
Lemma wp_write_ {A} fd bs rest (f : Z * list Z -> prog A) Q :
  bs <> [] ->
  (forall k, (0 < k <= length bs)%nat -> wp P (f (Z.of_nat k, bs)) (Producing fd (drop k (bs ++ rest))) Q) ->
  wp P (write_ fd bs ≫= f) (Producing fd (bs ++ rest)) Q.
Proof.
  intros Hbs Hf. unfold write_. eapply wp_bind; [|intros a v' H; exact H].
  apply wp_step; [exists (bs ++ rest); split; [done|]; split; [done|by eexists]|].
  intros x v' (rest' & k & [= <-] & Hk & -> & ->). apply wp_ret. by apply Hf.
Qed.

Lemma wp_transfer_write fd fuel buf size len rest (Q : Z * list Z -> pview -> Prop) :
  Z.of_nat (length buf) = size -> 0 <= len <= size -> size <= INT_MAX ->
  size - len <= Z.of_nat fuel -> Q (size, buf) (Producing fd rest) ->
  wp P (do_transfer fuel write_ fd buf size len) (Producing fd (drop (Z.to_nat len) buf ++ rest)) Q.
Proof.
  intros Hb Hl Hs Hf HQ. revert len Hl Hf. induction fuel as [|fuel IH]; intros len Hl Hf; cbn [do_transfer].
  { assert (len = size) as -> by lia. rewrite Z.ltb_irrefl, drop_ge by lia. by apply wp_ret. }
  case_if; cycle 1.
  { assert (len = size) as -> by lia. rewrite drop_ge by lia. by apply wp_ret. }
  destruct (chunk_value size len) as (-> & Hc & Hlc); [lia..|]. cbv zeta.
  pose proof (slice_length buf len (chunk_of size len) ltac:(lia) ltac:(lia) ltac:(lia)) as Hsl.
  set (bs := slice buf len (chunk_of size len)) in *.
  assert (drop (Z.to_nat len) buf = bs ++ drop (Z.to_nat (chunk_of size len)) (drop (Z.to_nat len) buf)) as Hd
    by (symmetry; apply take_drop).
  rewrite Hd, <- app_assoc. apply wp_write_; [intros E0; rewrite E0 in Hsl; cbn in Hsl; lia|].
  intros k Hk. case_if; [lia|].
  assert (patch buf len bs = buf) as ->.
  { unfold patch. rewrite Hsl. subst bs. unfold slice.
    rewrite <- (drop_drop buf _ (Z.to_nat len)). rewrite take_drop. apply take_drop. }
  rewrite s32_id by clia. rewrite app_assoc, <- Hd, drop_app_le by (rewrite length_drop; lia).
  rewrite drop_drop. replace (Z.to_nat len + k)%nat with (Z.to_nat (len + Z.of_nat k)) by lia.
  apply IH; lia.
Qed.

(** [read]: a non-empty prefix of what is to come, which fills the front of
    the slice. *)
Lemma wp_read_ {A} fd (b stream : list Z) said (f : Z * list Z -> prog A) Q :
  b <> [] -> stream <> [] ->
  (forall k, (0 < k <= length stream)%nat -> (k <= length b)%nat ->
     wp P (f (Z.of_nat k, take k stream ++ drop k b)) (Consuming fd (drop k stream) said) Q) ->
  wp P (read_ fd b ≫= f) (Consuming fd stream said) Q.
Proof.
  intros Hb Hs Hf. assert (0 < length b)%nat by (destruct b; [done|cbn; lia]).
  unfold read_. eapply wp_bind; [|intros a v' H'; exact H'].
  apply wp_step; [exists stream, said; split_and!; [done|lia|done]|].
  intros [x d] v' (stream' & said' & k & [= <- <-] & Hk & Hkn & [= -> ->] & ->).
  apply wp_ret. case_if; [lia|]. rewrite (take_ge (take k stream)) by (rewrite length_take; lia).
  rewrite length_take, Nat.min_l by lia. apply Hf; lia.
Qed.

Lemma wp_transfer_read fd fuel buf size len (d stream : list Z) said (Q : Z * list Z -> pview -> Prop) :
  Z.of_nat (length buf) = size -> 0 <= len <= size -> size <= INT_MAX ->
  size - len <= Z.of_nat fuel -> Z.of_nat (length d) = size - len ->
  Q (size, take (Z.to_nat len) buf ++ d) (Consuming fd stream said) ->
  wp P (do_transfer fuel read_ fd buf size len) (Consuming fd (d ++ stream) said) Q.
Proof.
  revert buf len d. induction fuel as [|fuel IH]; intros buf len d Hb Hl Hs Hf Hd HQ; cbn [do_transfer].
  { assert (len = size) as -> by lia. destruct d; [|cbn in Hd; lia].
    rewrite Z.ltb_irrefl. apply wp_ret. by rewrite take_ge, app_nil_r in HQ by lia. }
  case_if; cycle 1.
  { assert (len = size) as -> by lia. destruct d; [|cbn in Hd; lia].
    apply wp_ret. by rewrite take_ge, app_nil_r in HQ by lia. }
  destruct (chunk_value size len) as (-> & Hc & Hlc); [lia..|]. cbv zeta.
  pose proof (slice_length buf len (chunk_of size len) ltac:(lia) ltac:(lia) ltac:(lia)) as Hsl.
  apply wp_read_; [intros E0; rewrite E0 in Hsl; cbn in Hsl; lia|destruct d; [cbn in Hd; lia|done]|].
  intros k Hk Hkb. case_if; [lia|]. rewrite s32_id by clia.
  assert (k <= length d)%nat as Hkd by (unfold chunk_of in *; lia).
  rewrite take_app_le, drop_app_le by lia.
  assert (length (take k d) = k) as Hlk by (rewrite length_take; lia).
  rewrite <- Hlk at 2.
  rewrite patch_front by (rewrite ?Hlk; lia).
  assert (length (take (Z.to_nat len) buf ++ take k d) = Z.to_nat (len + Z.of_nat k)) as Hlen
    by (rewrite length_app, !length_take; lia).
  apply IH; [|lia..| |].
  - rewrite app_assoc, length_app, Hlen, length_drop, Hlk. lia.
  - rewrite length_drop. lia.
  - rewrite app_assoc, <- Hlen, take_app_length, <- app_assoc, take_drop. exact HQ.
Qed.

Lemma wp_for_ret {T} (body : Z -> T -> prog (T * option Z)) (Inv : Z -> T -> pview -> Prop) n i s v
    (Q : T * option Z -> pview -> Prop) :
  (forall j s v, i <= j < i + Z.of_nat n -> Inv j s v ->
     wp P (body j s) v (fun '(s', r) v' => r = None /\ Inv (j + 1) s' v')) ->
  Inv i s v -> (forall s' v', Inv (i + Z.of_nat n) s' v' -> Q (s', None) v') ->
  wp P (for_ret n i body s) v Q.
Proof.
  revert i s v. induction n as [|n IH]; intros i s v Hb Hi HQ; cbn [for_ret].
  { apply wp_ret, HQ. by rewrite Z.add_0_r. }
  eapply wp_bind; [apply Hb; [lia|exact Hi]|]. intros [s' r] v' [-> Hi'].
  apply IH; [|done|].
  - intros j t w Hj. apply Hb. lia.
  - intros t w Ht. apply HQ. by replace (i + Z.of_nat (Datatypes.S n)) with (i + 1 + Z.of_nat n) by lia.
Qed.
End protocol.

(** ** The three processes *)

(** What the consumer of a configuration has told after [i] blocks. *)
Definition told_after (v : vars) (i : Z) : list (Z * Z * Z) :=
  if verbose v =? 0 then [] else map (expected (size v)) (seqZ 0 i).

(** A configuration that the program accepts and whose sums do not
    overflow. *)
Definition runnable (v : vars) : Prop :=
  0 < size v <= INT_MAX / 128 /\ 0 < count v /\ count v * size v <= INT_MAX.

Definition stream_of (v : vars) : list Z := blocks 0 (Z.to_nat (count v)) (size v).
Definition protocol_of (v : vars) : protocol pview := pipette_protocol (stream_of v) (told_after v (count v)).

Section processes.
Variable v : vars.
Hypothesis Hv : runnable v.
#[local] Notation P := (protocol_of v).

Lemma runnable_bounds : 0 < size v <= INT_MAX /\ 0 < count v <= INT_MAX.
Proof using Hv. destruct Hv as (Hs & Hn & Ht). change (INT_MAX / 128) with 16777215 in Hs. unfold INT_MAX in *. nia. Qed.

Lemma wp_producer w :
  wp P (producer (verbose v) w (size v) (count v) (delay_prod v) (rrobin v)) (Producing w (stream_of v))
    (fun r v' => r = 0 /\ v' = Producing w []).
Proof using Hv.
  pose proof runnable_bounds as [Hs Hn]. unfold producer. apply wp_calloc. intros a.
  eapply wp_bind; [apply (wp_msg _ _ _ _ _ _ (fun _ v' => v' = Producing w (stream_of v))); [by right|done]|].
  intros _ ? ->.
  eapply wp_bind.
  { apply (wp_for_ret _ _ _ (fun i _ v' => v' = Producing w (blocks i (Z.to_nat (count v - i)) (size v))))
      with (Q := fun s' v' => s'.2 = None /\ v' = Producing w []).
    - intros i buf ? Hi ->. replace (Z.to_nat (count v - i)) with (S (Z.to_nat (count v - (i + 1)))) by lia.
      cbn [blocks]. eapply wp_bind; [by apply (wp_do_sleep_rrobin _ _ _ _ _ _ _ (fun _ v' =>
        v' = Producing w (memset i (size v) ++ blocks (i + 1) (Z.to_nat (count v - (i + 1))) (size v))))|].
      intros _ ? ->. eapply wp_bind.
      { apply (wp_transfer_write _ _ w _ (memset i (size v)) (size v) 0
          (blocks (i + 1) (Z.to_nat (count v - (i + 1))) (size v))
          (fun r v' => r = (size v, memset i (size v))
             /\ v' = Producing w (blocks (i + 1) (Z.to_nat (count v - (i + 1))) (size v))));
          rewrite ?length_memset; lia || done. }
      intros ? ? [-> ->]. case_if; [lia|].
      eapply wp_bind; [apply (wp_msg _ _ _ _ _ _ (fun _ v' =>
        v' = Producing w (blocks (i + 1) (Z.to_nat (count v - (i + 1))) (size v)))); [by right|done]|].
      intros _ ? ->. by apply wp_ret.
    - unfold stream_of. by rewrite Z.sub_0_r.
    - intros s' ? ->. split; [done|]. by replace (count v - (0 + Z.of_nat (Z.to_nat (count v)))) with 0 by lia. }
  intros [s' e] ? [He ->]. cbn in He. subst e.
  eapply wp_bind; [apply (wp_msg _ _ _ _ _ _ (fun _ v' => v' = Producing w [])); [by right|done]|].
  intros _ ? ->. by apply wp_ret.
Qed.

Lemma told_after_S i : 0 <= i < count v ->
  told_after v i ++ option_list (said_of (verbose v) "consumer %d exp=%d act=%d"
    [PInt i; PInt (s32 (i * size v)); PInt (checksum (memset i (size v)))]) = told_after v (i + 1).
Proof using Hv.
  pose proof Hv as (Hs & Hn & Ht). pose proof runnable_bounds. intros Hi. unfold told_after, said_of.
  destruct (verbose v =? 0); [done|].
  assert (0 <= i * size v <= INT_MAX) by nia.
  rewrite checksum_block, s32_id by (lia || clia).
  replace (i + 1) with (Z.of_nat (S (Z.to_nat i))) by lia. by rewrite seqZ_S, map_app, Z2Nat.id by lia.
Qed.

Lemma wp_consumer r :
  wp P (consumer (verbose v) r (size v) (count v) (delay_cons v) (rrobin v)) (Consuming r (stream_of v) [])
    (fun s v' => s = 0 /\ v' = Consuming r [] (told_after v (count v))).
Proof using Hv.
  pose proof runnable_bounds as [Hs Hn]. unfold consumer. apply wp_calloc. intros a.
  eapply wp_bind; [apply (wp_msg _ _ _ _ _ _ (fun _ v' => v' = Consuming r (stream_of v) [])); [by right|]|].
  { unfold said_of. by destruct (verbose v =? 0). }
  intros _ ? ->.
  eapply wp_bind.
  { apply (wp_for_ret _ _ _ (fun i buf v' => Z.of_nat (length buf) = size v
        /\ v' = Consuming r (blocks i (Z.to_nat (count v - i)) (size v)) (told_after v i)))
      with (Q := fun s' v' => s'.2 = None /\ v' = Consuming r [] (told_after v (count v))).
    - intros i buf ? Hi [Hb ->]. replace (Z.to_nat (count v - i)) with (S (Z.to_nat (count v - (i + 1)))) by lia.
      cbn [blocks]. eapply wp_bind; [by apply (wp_do_sleep_rrobin _ _ _ _ _ _ _ (fun _ v' =>
        v' = Consuming r (memset i (size v) ++ blocks (i + 1) (Z.to_nat (count v - (i + 1))) (size v))
               (told_after v i)))|].
      intros _ ? ->. eapply wp_bind.
      { apply (wp_transfer_read _ _ r _ buf (size v) 0 (memset i (size v))
          (blocks (i + 1) (Z.to_nat (count v - (i + 1))) (size v)) (told_after v i)
          (fun x v' => x = (size v, memset i (size v))
             /\ v' = Consuming r (blocks (i + 1) (Z.to_nat (count v - (i + 1))) (size v)) (told_after v i)));
          rewrite ?length_memset; lia || done. }
      intros ? ? [-> ->]. case_if; [lia|].
      eapply wp_bind; [apply (wp_msg _ _ _ _ _ _ (fun _ v' =>
        v' = Consuming r (blocks (i + 1) (Z.to_nat (count v - (i + 1))) (size v)) (told_after v (i + 1)))); [by left; eauto|]|].
      { cbn [tell]. by rewrite told_after_S by lia. }
      intros _ ? ->. apply wp_ret. rewrite length_memset. split_and!; [done|lia|done].
    - unfold stream_of, told_after. rewrite length_replicate, Z.sub_0_r. split; [lia|]. by destruct (verbose v =? 0).
    - intros s' ? [_ ->]. split; [done|].
      replace (0 + Z.of_nat (Z.to_nat (count v))) with (count v) by lia. by rewrite Z.sub_diag. }
  intros [s' e] ? [He ->]. cbn in He. subst e.
  eapply wp_bind; [apply (wp_msg _ _ _ _ _ _ (fun _ v' => v' = Consuming r [] (told_after v (count v)))); [by right|]|].
  { unfold said_of. destruct (verbose v =? 0); cbn; by rewrite app_nil_r. }
  intros _ ? ->. by apply wp_ret.
Qed.
End processes.

Section program.
Variable v0 : vars.
Hypotheses (Hr : in_range v0) (Hneg : negative v0 = false) (Hv : runnable (with_defaults v0)).
#[local] Notation v := (with_defaults v0).
#[local] Notation P := (protocol_of v).

Lemma wp_ARG_CHECK b cond f w (Q : unit -> pview -> Prop) : cond = false -> Q tt w -> wp P (ARG_CHECK b cond f) w Q.
Proof. intros -> HQ. by apply wp_ret. Qed.

Lemma wp_parse_opts (Q : vars -> pview -> Prop) :
  Q v Starting -> wp P (parse_opts (words (settings v0)) (Vars 0 0 0 0 0 0)) Starting Q.
Proof using Hr Hneg.
  intros HQ. unfold parse_opts. rewrite read_options by done.
  set (v1 := if size v0 =? 0 then set_size v0 DEFAULT_BLOCK_SIZE else v0).
  apply (wp_bind _ (Ret v0) _ _ (fun x w => x = v0 /\ w = Starting)); [by apply wp_ret|]. intros ? ? [-> ->].
  apply (wp_bind _ _ _ _ (fun x w => x = v1 /\ w = Starting)).
  { subst v1. case_if; [|by apply wp_ret]. apply wp_routine; [done|]. intros _ _. by apply wp_ret. }
  intros ? ? [-> ->].
  apply (wp_bind _ _ _ _ (fun x w => x = v /\ w = Starting)).
  { unfold with_defaults. fold v1. cbv zeta. case_if; [|by apply wp_ret].
    apply wp_routine; [done|]. intros _ _. by apply wp_ret. }
  intros ? ? [-> ->].
  assert (negative v = false) as Hn by (rewrite <- Hneg; apply negative_defaults).
  unfold negative in Hn. rewrite !orb_false_iff in Hn. destruct Hn as (((H1 & H2) & H3) & H4).
  assert (INT_MAX <? total v = false) as H5.
  { apply Z.ltb_ge. unfold total. pose proof (s32_range (size v * count v)). clia. }
  rewrite H1, H2, H3, H4, H5. cbn. exact HQ.
Qed.

Lemma wp_children r w : 
  wp P (call (Close r);; producer (verbose v) w (size v) (count v) (delay_prod v) (rrobin v)) (Born_p r w) (leaves P)
  /\ wp P (call (Close w);; consumer (verbose v) r (size v) (count v) (delay_cons v) (rrobin v)) (Born_c r w) (leaves P).
Proof using Hv.
  split; (apply wp_step; [cbn; eauto|]); intros x v' [(? & [= <-] & ->)|(? & [= <-] & ->)].
  - eapply wp_mono; [by apply wp_producer|]. intros s ? [-> ->]. split; [done|]. right. left. by exists w.
  - eapply wp_mono; [by apply wp_consumer|]. intros s ? [-> ->]. split; [done|]. right. right. by exists r.
Qed.

Lemma wp_main : wp P (main (words (settings v0))) Starting (leaves P).
Proof using Hr Hneg Hv.
  unfold main. apply wp_calloc. intros a.
  eapply wp_bind; [apply (wp_parse_opts (fun x w => x = v /\ w = Starting)); done|]. intros ? ? [-> ->].
  apply wp_step; [done|]. intros [ret [rfd wfd]] v' (r & w & [= -> -> ->] & ->). cbn [Z.ltb].
  destruct (wp_children r w) as [Hp Hc].
  apply wp_step; [cbn; eauto|]. intros x v' [[-> ->]|[Hx ->]]; [exact Hp|].
  rewrite (proj2 (Z.eqb_neq x 0)) by lia.
  apply wp_step; [cbn; eauto|]. intros y v' [[-> ->]|[Hy ->]]; [exact Hc|].
  rewrite (proj2 (Z.eqb_neq y 0)) by lia.
  eapply wp_bind.
  { apply (wp_for P _ (fun i _ u => u = Both (2 - Z.to_nat i))); [|done].
    intros j s u Hj ->. apply wp_step.
    - exists (1 - Z.to_nat j)%nat. f_equal. lia.
    - intros z u (n & E & ->). apply wp_ret. injection E as E. f_equal. lia. }
  intros _ u ->. apply wp_ret. split; [done|]. by left.
Qed.
End program.

(** ** The invariant *)

Section invariant.
Variables (all : list Z) (told : list (Z * Z * Z)).
#[local] Notation P := (pipette_protocol all told).

(** What the producer has still to write, what the consumer has still to read
    and what it has told. *)
Definition to_write (c : child pview) : list Z :=
  match c with Unborn | Alive _ (Born_p _ _) => all | Alive _ (Producing _ rest) => rest | _ => [] end.
Definition to_read (c : child pview) : list Z :=
  match c with Unborn | Alive _ (Born_c _ _) => all | Alive _ (Consuming _ s _) => s | _ => [] end.
Definition told_by (c : child pview) : list (Z * Z * Z) :=
  match c with Alive _ (Consuming _ _ said) => said | Gone => told | _ => [] end.

(** The children of each stage of the main process. *)
Definition phase (m : option pview) (prod cons : child pview) (zs : list zombie) : Prop :=
  match m with
  | Some Starting | Some (Piped _ _) => prod = Unborn /\ cons = Unborn /\ zs = []
  | Some (Half _ _) => prod <> Unborn /\ cons = Unborn /\ (alive prod + length zs = 1)%nat
  | Some (Both n) => prod <> Unborn /\ cons <> Unborn /\ (alive prod + alive cons + length zs = n)%nat
  | None => prod = Gone /\ cons = Gone /\ zs = [Zombie 1 0 0]
  | _ => False
  end.

(** The ends that the processes use are those of the pipe, and they have them
    open. *)
Definition main_ends (r w : Z) (st : pipes) (m : option pview) : Prop :=
  match m with
  | Some u => (1, r) ∈ holds st /\ (1, w) ∈ holds st
      /\ match u with Piped r' w' | Half r' w' => r' = r /\ w' = w | _ => True end
  | None => True
  end.
Definition prod_ends (r w : Z) (st : pipes) (c : child pview) : Prop :=
  match c with
  | Alive p (Born_p r' w') => r' = r /\ w' = w /\ (p, r) ∈ holds st /\ (p, w) ∈ holds st
  | Alive p (Producing w' _) => w' = w /\ (p, w) ∈ holds st
  | Alive _ _ => False
  | _ => True
  end.
Definition cons_ends (r w : Z) (st : pipes) (c : child pview) : Prop :=
  match c with
  | Alive p (Born_c r' w') => r' = r /\ w' = w /\ (p, r) ∈ holds st /\ (p, w) ∈ holds st
  | Alive p (Consuming r' _ _) => r' = r /\ (p, r) ∈ holds st
  | Alive _ _ => False
  | _ => True
  end.

(** What has been written and not read is in the pipe. *)
Definition flow (m : option pview) (prod cons : child pview) (st : pipes) : Prop :=
  match m with
  | Some Starting => pipe st = None
  | _ => exists r w buf, r <> w /\ pipe st = Some (r, w, buf) /\ buf ++ to_write prod = to_read cons
      /\ main_ends r w st m /\ prod_ends r w st prod /\ cons_ends r w st cons
  end.

Definition pinv (ws : list (knows pview)) (zs : list zombie) (st : pipes) (log : list (Z * ev)) : Prop :=
  exists m prod cons, ws = main_list m ++ child_list cons ++ child_list prod /\ NoDup (map kpid ws)
    /\ phase m prod cons zs /\ (is_Some m -> Forall (fun z => zppid z = 1) zs)
    /\ flow m prod cons st /\ reports (map snd log) = told_by cons.

Lemma reports_snoc (log : list (Z * ev)) p e : reports (map snd (log ++ [(p, e)])) = reports (map snd log) ++ option_list (report e).
Proof. rewrite map_app, reports_app. by f_equal. Qed.

Lemma pinv_start : pinv [Knows 1 0 Starting] [] (Pipes None []) [].
Proof. exists (Some Starting), Unborn, Unborn. split_and!; try done. apply NoDup_singleton. Qed.

(** All processes have ended. *)
Lemma pinv_end zs st (log : list (Z * ev)) :
  pinv [] zs st log ->
  reports (map snd log) = told /\ zs = [Zombie 1 0 0] /\ exists r w, pipe st = Some (r, w, []).
Proof.
  intros (m & prod & cons & Hws & _ & Hph & _ & Hfl & Hlog).
  destruct m as [u|]; [by destruct u|]. destruct Hph as (-> & -> & ->).
  destruct Hfl as (r & w & buf & _ & Hp & Hb & _). apply app_nil in Hb as [-> _].
  split_and!; [done..|]. by exists r, w.
Qed.

(** ** The kernel respects it *)
Section respected.
Context {can_write : list Z -> list Z -> nat -> Prop} {can_read : list Z -> Z -> nat -> Prop}
  `{!Transfers can_write can_read}.
#[local] Notation K := (pipe_kernel can_write can_read).

(** The phases, one by one. *)
Ltac solve_phase :=
  repeat match goal with
    | m : option pview |- _ => destruct m as [[]|]
    | H : phase _ _ _ _ |- _ => cbn in H
    | H : _ /\ _ |- _ => destruct H
    end;
  try done; cbn in *; split_and!; (done || lia).

(** Calls that concern neither the pipe nor the processes. *)
Definition passive {X} (e : sys X) : bool :=
  match e with
  | Pipe | Fork | Wait | Waitpid _ | Write _ _ | Read _ _ | Close _ => false
  | _ => true
  end.

Lemma passive_answer p X (e : sys X) st x st' v :
  passive e = true -> pipe_answers can_write can_read p X e st x st' ->
  st' = st /\ plearns all X e v x (tell (report (Ev e x)) v).
Proof. intros He Ha. destruct e; try discriminate He; cbn in *; by intuition. Qed.

Lemma passive_may X (e : sys X) x v :
  passive e = true -> pmay X e v -> (exists r s said, v = Consuming r s said) \/ report (Ev e x) = None.
Proof. intros He Hm. destruct e; try discriminate He; cbn in *; destruct Hm; auto. Qed.

(** With a child alive there is a pipe, and the main process has not
    ended. *)
Definition piped (m : option pview) (prod cons : child pview) (st : pipes) (r w : Z) (buf : list Z) : Prop :=
  r <> w /\ pipe st = Some (r, w, buf) /\ buf ++ to_write prod = to_read cons
  /\ main_ends r w st m /\ prod_ends r w st prod /\ cons_ends r w st cons.

Lemma flow_prod m p v cons zs st :
  phase m (Alive p v) cons zs -> flow m (Alive p v) cons st ->
  is_Some m /\ m <> Some Starting /\ exists r w buf, piped m (Alive p v) cons st r w buf.
Proof. destruct m as [[]|]; cbn; try done; intros (? & ? & ?) Hf; try done; eauto. Qed.

Lemma flow_cons m prod p v zs st :
  phase m prod (Alive p v) zs -> flow m prod (Alive p v) st ->
  is_Some m /\ m <> Some Starting /\ exists r w buf, piped m prod (Alive p v) st r w buf.
Proof. destruct m as [[]|]; cbn; try done; intros (? & ? & ?) Hf; try done; eauto. Qed.

Lemma flow_intro m prod cons st r w buf :
  m <> Some Starting -> piped m prod cons st r w buf -> flow m prod cons st.
Proof. intros Hm Hp. destruct m as [[]|]; try done; by exists r, w, buf. Qed.

(** The ends of a process stay open through the calls of the others. *)
Definition keeps (st st' : pipes) (p : Z) : Prop := forall fd, (p, fd) ∈ holds st -> (p, fd) ∈ holds st'.

Lemma main_ends_keep r w st st' m : keeps st st' 1 -> main_ends r w st m -> main_ends r w st' m.
Proof. intros Hk. destruct m as [u|]; [|done]. intros (H1 & H2 & H3). split_and!; auto. Qed.

Lemma prod_ends_keep r w st st' c :
  (forall p v, c = Alive p v -> keeps st st' p) -> prod_ends r w st c -> prod_ends r w st' c.
Proof.
  intros Hk. destruct c as [|p v|]; [done| |done]. specialize (Hk p v eq_refl). unfold keeps in Hk.
  destruct v; cbn; intuition.
Qed.

Lemma cons_ends_keep r w st st' c :
  (forall p v, c = Alive p v -> keeps st st' p) -> cons_ends r w st c -> cons_ends r w st' c.
Proof.
  intros Hk. destruct c as [|p v|]; [done| |done]. specialize (Hk p v eq_refl). unfold keeps in Hk.
  destruct v; cbn; intuition.
Qed.

Lemma close_keeps p fd q st : q <> p -> keeps st (Pipes (pipe st) (filter (fun h => h <> (p, fd)) (holds st))) q.
Proof. intros Hq fd' Hin. cbn. apply list_elem_of_filter. split; [congruence|done]. Qed.

Lemma close_other p fd fd' st :
  fd' <> fd -> (p, fd') ∈ holds st -> (p, fd') ∈ filter (fun h => h <> (p, fd)) (holds st).
Proof. intros Hq Hin. apply list_elem_of_filter. split; [congruence|done]. Qed.

Lemma exit_keeps p q st : q <> p -> keeps st (pipe_exited p st) q.
Proof. intros Hq fd Hin. cbn. by apply list_elem_of_filter. Qed.

Lemma fork_keeps p c q st : keeps st (pipe_forked p c st) q.
Proof. intros fd Hin. cbn. apply elem_of_app. by left. Qed.

Lemma fork_child p c fd st : (p, fd) ∈ holds st -> (c, fd) ∈ holds (pipe_forked p c st).
Proof.
  intros Hin. cbn. apply elem_of_app. right. apply list_elem_of_omap. exists (p, fd).
  by rewrite Z.eqb_refl.
Qed.

(** The view of a process tells which one it is. *)
Lemma position a p q v b m cons prod zs st :
  a ++ Knows p q v :: b = main_list m ++ child_list cons ++ child_list prod ->
  phase m prod cons zs -> flow m prod cons st ->
  match v with
  | Producing _ _ | Born_p _ _ => prod = Alive p v /\ q = 1 /\ a = main_list m ++ child_list cons /\ b = []
  | Consuming _ _ _ | Born_c _ _ => cons = Alive p v /\ q = 1 /\ a = main_list m /\ b = child_list prod
  | _ => m = Some v /\ p = 1 /\ q = 0 /\ a = [] /\ b = child_list cons ++ child_list prod
  end.
Proof.
  intros Hws Hph Hfl. destruct (member_inv _ _ _ _ _ _ _ _ Hws) as [(-> & H)|[(-> & H)|(-> & H)]].
  - destruct v; try done; by destruct Hph.
  - destruct (flow_cons _ _ _ _ _ _ Hph Hfl) as (_ & _ & r & w & buf & _ & _ & _ & _ & _ & He). by destruct v.
  - destruct (flow_prod _ _ _ _ _ _ Hph Hfl) as (_ & _ & r & w & buf & _ & _ & _ & _ & He & _). by destruct v.
Qed.

(** What a call tells goes into the log and into the consumer's view. *)
Lemma pinv_tell a p q v b zs st log e :
  pinv (a ++ Knows p q v :: b) zs st log ->
  (exists r s said, v = Consuming r s said) \/ report e = None ->
  pinv (a ++ Knows p q (tell (report e) v) :: b) zs st (log ++ [(p, e)]).
Proof.
  intros (m & prod & cons & Hws & Hnd & Hph & Hz & Hfl & Hlog) Hv.
  assert (report e = None -> pinv (a ++ Knows p q (tell (report e) v) :: b) zs st (log ++ [(p, e)])) as Hnone.
  { intros E. exists m, prod, cons. rewrite reports_snoc, E, tell_none. split_and!; [done..|].
    cbn. by rewrite app_nil_r. }
  destruct Hv as [(r & s & said & ->)|E]; [|by apply Hnone].
  destruct (position _ _ _ _ _ _ _ _ _ _ Hws Hph Hfl) as (-> & -> & -> & ->).
  exists m, prod, (Alive p (Consuming r s (said ++ option_list (report e)))).
  split_and!; [done| |solve_phase|done|by destruct m as [[]|]|].
  - rewrite !map_app in Hnd |- *. exact Hnd.
  - by rewrite reports_snoc, Hlog.
Qed.

Lemma call_passive a b p q v X (e : sys X) x zs st st' log :
  pinv (a ++ Knows p q v :: b) zs st log -> passive e = true -> pmay X e v ->
  pipe_answers can_write can_read p X e st x st' ->
  exists v', plearns all X e v x v' /\ pinv (a ++ Knows p q v' :: b) zs st' (log ++ [(p, Ev e x)]).
Proof.
  intros HI He Hm Ha. destruct (passive_answer _ _ _ _ _ _ v He Ha) as [-> Hl].
  exists (tell (report (Ev e x)) v). split; [done|]. apply pinv_tell; [done|]. by apply passive_may.
Qed.

Lemma call_pipe a b p q v x zs st st' log :
  pinv (a ++ Knows p q v :: b) zs st log -> pmay _ Pipe v ->
  pipe_answers can_write can_read p _ Pipe st x st' ->
  exists v', plearns all _ Pipe v x v' /\ pinv (a ++ Knows p q v' :: b) zs st' (log ++ [(p, Ev Pipe x)]).
Proof.
  intros (m & prod & cons & Hws & Hnd & Hph & Hz & Hfl & Hlog) Hm (r & w & -> & Hrw & Hp & ->).
  cbn in Hm. subst v. exists (Piped r w). split; [cbn; eauto|].
  destruct (position _ _ _ _ _ _ _ _ _ _ Hws Hph Hfl) as (-> & -> & -> & -> & ->).
  destruct Hph as (-> & -> & ->). exists (Some (Piped r w)), Unborn, Unborn. split_and!; try done.
  - exists r, w, []. split_and!; try done. cbn. split_and!; [by left|by right; left|done..].
  - by rewrite reports_snoc, Hlog.
Qed.

Lemma call_write a b p q v fd bs x zs st st' log :
  pinv (a ++ Knows p q v :: b) zs st log -> pmay _ (Write fd bs) v ->
  pipe_answers can_write can_read p _ (Write fd bs) st x st' ->
  exists v', plearns all _ (Write fd bs) v x v'
    /\ pinv (a ++ Knows p q v' :: b) zs st' (log ++ [(p, Ev (Write fd bs) x)]).
Proof using Type*.
  intros (m & prod & cons & Hws & Hnd & Hph & Hz & Hfl & Hlog) (rest & -> & Hbs & [rest' ->])
    (r & buf & k & Hp & Hhw & Hhr & Hk & -> & ->).
  pose proof (write_some _ _ _ Hk Hbs) as Hkb.
  exists (Producing fd (drop k (bs ++ rest'))). split; [cbn; eauto 10|].
  destruct (position _ _ _ _ _ _ _ _ _ _ Hws Hph Hfl) as (-> & -> & -> & ->).
  destruct (flow_prod _ _ _ _ _ _ Hph Hfl) as (_ & Hm & r' & w & buf' & Hrw & Hp' & Hflow & Hme & Hpe & Hce).
  rewrite Hp in Hp'. injection Hp' as <- <- <-.
  exists m, (Alive p (Producing fd (drop k (bs ++ rest')))), cons.
  split_and!; [by rewrite <- app_assoc| |solve_phase|done| |].
  - rewrite !map_app in Hnd |- *. exact Hnd.
  - apply (flow_intro _ _ _ _ r fd (buf ++ take k bs)); [done|]. split_and!; try done.
    rewrite <- Hflow. cbn [to_write]. rewrite <- app_assoc. f_equal.
    rewrite drop_app_le by lia. by rewrite app_assoc, take_drop.
  - by rewrite reports_snoc, Hlog, app_nil_r.
Qed.

Lemma call_read a b p q v fd n x zs st st' log :
  pinv (a ++ Knows p q v :: b) zs st log -> pmay _ (Read fd n) v ->
  pipe_answers can_write can_read p _ (Read fd n) st x st' ->
  exists v', plearns all _ (Read fd n) v x v'
    /\ pinv (a ++ Knows p q v' :: b) zs st' (log ++ [(p, Ev (Read fd n) x)]).
Proof using Type*.
  intros (m & prod & cons & Hws & Hnd & Hph & Hz & Hfl & Hlog) (stream & said & -> & Hn & Hs)
    (w & buf & Hp & Hh & Ha).
  destruct (position _ _ _ _ _ _ _ _ _ _ Hws Hph Hfl) as (-> & -> & -> & ->).
  destruct (flow_cons _ _ _ _ _ _ Hph Hfl) as (Hsome & Hm & r' & w' & buf' & Hrw & Hp' & Hflow & Hme & Hpe & Hce).
  rewrite Hp in Hp'. injection Hp' as <- <- <-. cbn [to_read] in Hflow.
  destruct Ha as [(Hb & k & Hk & -> & ->)|(-> & Hno & _)]; cycle 1.
  { exfalso. destruct m as [u|]; [|by destruct Hsome]. destruct Hme as (_ & Hw & _). by eapply Hno. }
  destruct (read_some _ _ _ Hk Hn Hb) as [Hkb Hkn].
  assert (length buf <= length stream)%nat by (rewrite <- Hflow, length_app; lia).
  exists (Consuming fd (drop k stream) said). split.
  { exists stream, said, k. split_and!; [done|lia|lia|done| |done]. by rewrite <- Hflow, take_app_le by lia. }
  exists m, prod, (Alive p (Consuming fd (drop k stream) said)).
  split_and!; [done| |solve_phase|done| |].
  - rewrite !map_app in Hnd |- *. exact Hnd.
  - apply (flow_intro _ _ _ _ fd w (drop k buf)); [done|]. split_and!; try done.
    cbn [to_read]. by rewrite <- Hflow, drop_app_le by lia.
  - by rewrite reports_snoc, Hlog, app_nil_r.
Qed.

Lemma call_close a b p q v fd x zs st st' log :
  pinv (a ++ Knows p q v :: b) zs st log -> pmay _ (Close fd) v ->
  pipe_answers can_write can_read p _ (Close fd) st x st' ->
  exists v', plearns all _ (Close fd) v x v'
    /\ pinv (a ++ Knows p q v' :: b) zs st' (log ++ [(p, Ev (Close fd) x)]).
Proof using Type*.
  intros (m & prod & cons & Hws & Hnd & Hph & Hz & Hfl & Hlog) Hm (-> & Hh & ->).
  destruct Hm as [[w ->]|[r ->]];
    destruct (position _ _ _ _ _ _ _ _ _ _ Hws Hph Hfl) as (-> & -> & -> & ->).
  - destruct (flow_prod _ _ _ _ _ _ Hph Hfl)
      as (Hsome & Hm & r' & w' & buf & Hrw & Hp & Hflow & Hme & (<- & <- & Hr & Hw) & Hce).
    pose proof Hnd as Hd. rewrite <- app_assoc in Hd. apply (distinct _ (Alive p _)) in Hd as (Hd1 & Hd2 & Hd3).
    exists (Producing w all). split; [cbn; eauto|].
    exists m, (Alive p (Producing w all)), cons. split_and!; [by rewrite <- app_assoc| |solve_phase|done| |].
    + rewrite !map_app in Hnd |- *. exact Hnd.
    + apply (flow_intro _ _ _ _ fd w buf); [done|]. split_and!; [done..| | |].
      * eapply main_ends_keep; [|exact Hme]. apply close_keeps, not_eq_sym. by eapply Hd1.
      * split; [done|]. apply close_other; [congruence|done].
      * eapply cons_ends_keep; [|exact Hce]. intros p' u ->. apply close_keeps, not_eq_sym. by eapply Hd3.
    + by rewrite reports_snoc, Hlog, app_nil_r.
  - destruct (flow_cons _ _ _ _ _ _ Hph Hfl)
      as (Hsome & Hm & r' & w' & buf & Hrw & Hp & Hflow & Hme & Hpe & (<- & <- & Hr & Hw)).
    pose proof Hnd as Hd. apply (distinct _ prod (Alive p _)) in Hd as (Hd1 & Hd2 & Hd3).
    exists (Consuming r all []). split; [cbn; eauto|].
    exists m, prod, (Alive p (Consuming r all [])). split_and!; [done| |solve_phase|done| |].
    + rewrite !map_app in Hnd |- *. exact Hnd.
    + apply (flow_intro _ _ _ _ r fd buf); [done|]. split_and!; [done..| | |].
      * eapply main_ends_keep; [|exact Hme]. apply close_keeps, not_eq_sym. by eapply Hd2.
      * eapply prod_ends_keep; [|exact Hpe]. intros p' u ->. apply close_keeps. by eapply Hd3.
      * split; [done|]. by apply close_other.
    + by rewrite reports_snoc, Hlog, app_nil_r.
Qed.

Lemma call_fork a b p q v child zs st log :
  pinv (a ++ Knows p q v :: b) zs st log -> pmay _ Fork v -> fresh_for child (a ++ Knows p q v :: b) zs ->
  exists v1 v2, plearns all _ Fork v child v1 /\ plearns all _ Fork v 0 v2
    /\ pinv (a ++ Knows p q v1 :: Knows child p v2 :: b) zs (pipe_forked p child st) (log ++ [(p, Ev Fork child)]).
Proof using Type*.
  intros (m & prod & cons & Hws & Hnd & Hph & Hz & Hfl & Hlog) (r & w & Hv) [Hc0 Hfresh].
  assert (child ∉ map kpid (a ++ Knows p q v :: b)) as Hf
    by (intros Hin; apply Hfresh; apply elem_of_app; by left).
  destruct Hv as [->| ->]; destruct (position _ _ _ _ _ _ _ _ _ _ Hws Hph Hfl) as (-> & -> & -> & -> & ->);
    destruct Hfl as (r' & w' & buf & Hrw & Hp & Hflow & (H1 & H2 & <- & <-) & Hpe & Hce).
  - destruct Hph as (-> & -> & ->). exists (Half r w), (Born_p r w). split_and!; [cbn; auto..|].
    exists (Some (Half r w)), (Alive child (Born_p r w)), Unborn. split_and!; try done.
    + cbn in Hf |- *. apply NoDup_cons. split; [|by apply NoDup_singleton].
      intros E%list_elem_of_singleton. apply Hf. rewrite <- E. by left.
    + exists r, w, buf. split_and!; try done; cbn; split_and!; try done;
        first [by apply fork_child|by apply fork_keeps].
    + by rewrite reports_snoc, Hlog.
  - destruct Hph as (Hp1 & -> & Hcnt). exists (Both 2), (Born_c r w). split_and!; [cbn; auto..|].
    exists (Some (Both 2)), prod, (Alive child (Born_c r w)). split_and!; try done.
    + cbn in Hf, Hnd |- *. apply NoDup_cons in Hnd as [Hn1 Hn2]. apply NoDup_cons.
      rewrite !not_elem_of_cons in *. split_and!; [by intuition..|]. apply NoDup_cons. split; [by intuition|done].
    + cbn in Hcnt |- *. split_and!; [done|done|lia].
    + intros _. by apply Hz.
    + exists r, w, buf. split_and!; [done..| | |].
      * cbn. split_and!; [by apply fork_keeps..|done].
      * eapply prod_ends_keep; [|exact Hpe]. intros. apply fork_keeps.
      * cbn. split_and!; [done..| |]; by apply fork_child.
    + by rewrite reports_snoc, Hlog.
Qed.

Lemma call_wait a b p q v z za zb st log :
  pinv (a ++ Knows p q v :: b) (za ++ z :: zb) st log -> pmay _ Wait v ->
  exists v', plearns all _ Wait v (zpid z) v'
    /\ pinv (a ++ Knows p q v' :: b) (za ++ zb) st (log ++ [(p, Ev Wait (zpid z))]).
Proof.
  intros (m & prod & cons & Hws & Hnd & Hph & Hz & Hfl & Hlog) (n & ->).
  destruct (position _ _ _ _ _ _ _ _ _ _ Hws Hph Hfl) as (-> & -> & -> & -> & ->).
  exists (Both n). split; [cbn; eauto|]. exists (Some (Both n)), prod, cons. split_and!; try done.
  - destruct Hph as (H1 & H2 & H3). cbn. rewrite length_app in H3 |- *. cbn in H3. split_and!; [done..|lia].
  - intros _. specialize (Hz ltac:(eauto)). apply Forall_app in Hz as [Hza Hzb]. inversion Hzb. by apply Forall_app.
  - by rewrite reports_snoc, Hlog, app_nil_r.
Qed.

(** While it still waits, the main process has a child. *)
Lemma call_wait_none a b p q v zs st log :
  pinv (a ++ Knows p q v :: b) zs st log -> pmay _ Wait v ->
  Forall (fun z => zppid z <> p) zs -> Forall (fun r => kppid r <> p) (a ++ b) -> False.
Proof.
  intros (m & prod & cons & Hws & Hnd & Hph & Hz & Hfl & Hlog) (n & ->) Hnz Hn.
  destruct (position _ _ _ _ _ _ _ _ _ _ Hws Hph Hfl) as (-> & -> & -> & -> & ->).
  destruct Hph as (_ & _ & Hc). destruct zs as [|z zs].
  - unfold alive in Hc. cbn in Hn. rewrite !Forall_app in Hn. destruct Hn as [Hn1 Hn2].
    destruct cons; [|by inversion Hn1|]; (destruct prod; [|by inversion Hn2|]); discriminate Hc.
  - specialize (Hz ltac:(eauto)). inversion Hz; inversion Hnz; congruence.
Qed.

Lemma flow_exit_main r w buf n prod cons st :
  piped (Some (Both n)) prod cons st r w buf -> prod = Gone -> cons = Gone ->
  flow None prod cons (pipe_exited 1 st).
Proof. intros (Hrw & Hp & Hf & _) -> ->. exists r, w, buf. by split_and!. Qed.

(** The main process keeps the pipe open for reading. *)
Lemma never_killed a b p q v X (e : sys X) status zs st log :
  pinv (a ++ Knows p q v :: b) zs st log -> pmay X e v -> pipe_kills p X e st status -> False.
Proof.
  intros (m & prod & cons & Hws & Hnd & Hph & Hz & Hfl & Hlog) Hm Hk.
  destruct e; try done. destruct Hm as (rest & -> & _), Hk as (r & buf & Hp & _ & Hno & _).
  destruct (position _ _ _ _ _ _ _ _ _ _ Hws Hph Hfl) as (-> & _ & _ & _).
  destruct (flow_prod _ _ _ _ _ _ Hph Hfl) as (Hs & _ & r' & w & buf' & _ & Hp' & _ & Hme & _).
  rewrite Hp in Hp'. injection Hp' as <- <- <-.
  destruct m as [u|]; [|by destruct Hs]. by destruct Hme as (Hr & _); eapply Hno.
Qed.

(** A child that ends becomes a zombie. *)
Lemma phase_exit_prod m p v cons zs z :
  phase m (Alive p v) cons zs -> phase m Gone cons (zs ++ [z]).
Proof.
  destruct m as [[]|]; cbn; rewrite ?length_app; try done; intros (? & ? & ?); try done;
    split_and!; done || (cbn; lia).
Qed.

Lemma phase_exit_cons m prod p v zs z :
  phase m prod (Alive p v) zs -> phase m prod Gone (zs ++ [z]).
Proof.
  destruct m as [[]|]; cbn; rewrite ?length_app; try done; intros (? & ? & ?); try done;
    split_and!; done || (cbn; lia).
Qed.

Lemma call_exit a b p q v status zs st log :
  pinv (a ++ Knows p q v :: b) zs st log -> pleaves told status v ->
  pinv (a ++ b) (zs ++ [Zombie p q status]) (pipe_exited p st) log.
Proof.
  intros (m & prod & cons & Hws & Hnd & Hph & Hz & Hfl & Hlog) [-> Hl].
  destruct Hl as [->|Hl]; [|destruct Hl as [[w ->]|[r ->]]];
    pose proof (position _ _ _ _ _ _ _ _ _ _ Hws Hph Hfl) as Hpos.
  - destruct Hpos as (-> & -> & -> & -> & ->).
    destruct Hph as (H1 & H2 & H3).
    assert (prod = Gone /\ cons = Gone /\ zs = []) as (-> & -> & ->).
    { unfold alive in H3. destruct prod, cons, zs; try done; cbn in H3; lia. }
    exists None, Gone, Gone. split_and!; try done; [by apply NoDup_nil|].
    destruct Hfl as (r & w & buf & Hf). by eapply flow_exit_main.
  - destruct Hpos as (-> & -> & -> & ->).
    destruct (flow_prod _ _ _ _ _ _ Hph Hfl) as (Hs & Hm & r & w' & buf & Hrw & Hp & Hflow & Hme & Hpe & Hce).
    pose proof Hnd as Hd. rewrite <- app_assoc in Hd. apply (distinct _ (Alive p _)) in Hd as (Hd1 & _ & Hd3).
    rewrite app_nil_r. exists m, Gone, cons.
    split_and!; [cbn [child_list]; by rewrite app_nil_r| | | | |done].
    + rewrite !map_app in *. apply NoDup_app in Hnd as (Hnd & _ & _). exact Hnd.
    + apply (phase_exit_prod _ _ _ _ _ _ Hph).
    + intros _. apply Forall_app. split; [by apply Hz|by constructor].
    + apply (flow_intro _ _ _ _ r w' buf); [done|]. split_and!; [done..| |done|].
      * eapply main_ends_keep; [|exact Hme]. apply exit_keeps, not_eq_sym. by eapply Hd1.
      * eapply cons_ends_keep; [|exact Hce]. intros p' u ->. apply exit_keeps, not_eq_sym. by eapply Hd3.
  - destruct Hpos as (-> & -> & -> & ->).
    destruct (flow_cons _ _ _ _ _ _ Hph Hfl) as (Hs & Hm & r' & w & buf & Hrw & Hp & Hflow & Hme & Hpe & Hce).
    pose proof Hnd as Hd. apply (distinct _ prod (Alive p _)) in Hd as (_ & Hd2 & Hd3).
    exists m, prod, Gone. split_and!; [done| | | | |done].
    + rewrite !map_app in *. by apply (NoDup_app_drop _ [p]) in Hnd.
    + apply (phase_exit_cons _ _ _ _ _ _ Hph).
    + intros _. apply Forall_app. split; [by apply Hz|by constructor].
    + apply (flow_intro _ _ _ _ r' w buf); [done|]. split_and!; [done..| | |done].
      * eapply main_ends_keep; [|exact Hme]. apply exit_keeps, not_eq_sym. by eapply Hd2.
      * eapply prod_ends_keep; [|exact Hpe]. intros p' u ->. apply exit_keeps. by eapply Hd3.
Qed.

Lemma pipe_respects : respects K P pinv.
Proof using Type*.
  split.
  - intros a b p q v X e x zs st st' log HI He Hm Ha. destruct (passive e) eqn:Hpas.
    { by eapply call_passive. }
    destruct e; try discriminate He; try discriminate Hpas;
      [by eapply call_close|by eapply call_read|by eapply call_write|by eapply call_pipe].
  - intros a b p q v child zs st log HI Hm Hf. by eapply call_fork.
  - intros a b p q v z za zb st log HI Hm _. by eapply call_wait.
  - intros a b p q v zs st log HI Hm Hz Hn. exfalso. by eapply call_wait_none.
  - done.
  - done.
  - intros a b p q v X e st zs s log HI Hm Hk. exfalso. by eapply never_killed.
  - intros a b p q v st zs s log HI Hl. by eapply call_exit.
Qed.

(** ** Some process can always go on *)

Lemma passive_enabled p X (e : sys X) zs st : passive e = true -> enabled K p e zs st.
Proof.
  intros He. destruct e; try discriminate He; cbn;
    first [by exists (Some 0), st|by exists inhabitant, st].
Qed.

(** A consumer that can read, or has read all. *)
Lemma consumer_enabled m prod p u st r w buf zs X (e : sys X) :
  piped m prod (Alive p u) st r w buf ->
  (forall r' stream said, u = Consuming r' stream said -> buf <> [] \/ stream = []) ->
  pmay X e u -> enabled K p e zs st.
Proof using Type*.
  intros (Hrw & Hp & _ & _ & _ & Hce) Hb Hm. destruct (passive e) eqn:He; [by apply passive_enabled|].
  destruct e; try discriminate He; cbn in Hm.
  - destruct Hm as [[w' ->]|[r' ->]]; [by destruct Hce|].
    destruct Hce as (-> & -> & _ & Hw). eexists 0, _. by split_and!.
  - destruct Hm as (stream & said & -> & Hn & Hs). destruct Hce as [-> Hr].
    destruct (Hb _ _ _ eq_refl) as [Hne|]; [|done].
    destruct (read_full buf n Hn Hne) as [k Hk].
    eexists _, _. exists w, buf. split_and!; [done..|]. left. split; [done|]. by exists k.
  - destruct Hm as (rest & -> & _). by destruct Hce.
  - subst u. by destruct Hce.
  - done.
  - destruct Hm as [n ->]. by destruct Hce.
  - done.
Qed.

(** A producer, when the pipe is empty and has a reader. *)
Lemma producer_enabled m p u cons st r w zs X (e : sys X) :
  is_Some m -> piped m (Alive p u) cons st r w [] -> pmay X e u -> enabled K p e zs st.
Proof using Type*.
  intros [um ->] (Hrw & Hp & _ & Hme & Hpe & _) Hm. destruct (passive e) eqn:He; [by apply passive_enabled|].
  destruct e; try discriminate He; cbn in Hm.
  - destruct Hm as [[w' ->]|[r' ->]]; [|by destruct Hpe].
    destruct Hpe as (-> & -> & Hr & _). eexists 0, _. by split_and!.
  - destruct Hm as (stream & said & -> & _). by destruct Hpe.
  - destruct Hm as (rest & -> & Hne & _). destruct Hpe as [-> Hw].
    destruct (write_empty bytes Hne) as [k Hk]. destruct Hme as (Hr & _).
    eexists _, _. exists r, [], k. split_and!; try done. by exists 1.
  - subst u. by destruct Hpe.
  - done.
  - destruct Hm as [n ->]. by destruct Hpe.
  - done.
Qed.

(** The main process, as long as no child is needed. *)
Lemma main_enabled u prod cons zs st X (e : sys X) :
  phase (Some u) prod cons zs -> flow (Some u) prod cons st -> Forall (fun z => zppid z = 1) zs ->
  (forall n, u = Both (S n) -> zs <> []) -> pmay X e u -> enabled K 1 e zs st.
Proof using Type*.
  intros Hph Hfl Hz Hn Hm. destruct (passive e) eqn:He; [by apply passive_enabled|].
  destruct e; try discriminate He; cbn in Hm.
  - destruct Hm as [[w' ->]|[r' ->]]; by destruct Hph.
  - destruct Hm as (stream & said & -> & _); by destruct Hph.
  - destruct Hm as (rest & -> & _); by destruct Hph.
  - subst u. cbn in Hfl. eexists _, _. exists 0, 1. by split_and!.
  - done.
  - destruct Hm as [n ->]. destruct zs as [|z zs]; [by destruct (Hn n)|].
    exists z. split; [by left|]. by inversion Hz.
  - done.
Qed.

(** The consumer if the pipe is not empty, else the producer, else the main
    process. *)
Lemma pipe_progresses : progresses K P pinv.
Proof using Type*.
  intros ws zs st log (m & prod & cons & -> & Hnd & Hph & Hz & Hfl & Hlog) Hne.
  destruct cons as [|p u|].
  - destruct m as [u|]; [|by destruct Hph as (? & ? & ?)].
    exists [], 1, 0, u, (child_list prod). split; [done|]. intros X e.
    apply (main_enabled u prod Unborn); [done..|by eauto|]. intros n ->. by destruct Hph as (? & ? & ?).
  - destruct (flow_cons _ _ _ _ _ _ Hph Hfl) as (Hm & _ & r & w & buf & Hpi).
    assert ((forall r' stream said, u = Consuming r' stream said -> buf <> [] \/ stream = [])
      \/ exists r' stream said, u = Consuming r' stream said /\ buf = [] /\ stream <> []) as [Hb|Hb].
    { destruct buf; [|by left; left]. destruct u as [| | | | | | |r' [|x stream] said]; try (by left).
      - left. intros ? ? ? [= <- <- <-]. by right.
      - right. by exists r', (x :: stream), said. }
    { exists (main_list m), p, 1, u, (child_list prod). split; [done|]. intros X e. by eapply consumer_enabled. }
    destruct Hb as (r' & stream & said & -> & -> & Hs). pose proof Hpi as (_ & _ & Hflow & _).
    destruct prod as [|p' u'|].
    + destruct m as [[]|]; cbn in Hph; by intuition.
    + exists (main_list m ++ child_list (Alive p (Consuming r' stream said))), p', 1, u', [].
      split; [by rewrite <- app_assoc|]. intros X e. by eapply producer_enabled.
    + by destruct Hs.
  - destruct m as [[]|]; try (exfalso; cbn in Hph; by intuition); [|by destruct Hph as (-> & _ & _)].
    destruct Hph as (Hp & Hc & Hlen). destruct prod as [|p u|]; [done| |].
    + destruct Hfl as (r & w & buf & Hpi). pose proof Hpi as (_ & _ & Hflow & _).
      apply app_nil in Hflow as [-> _].
      exists (main_list (Some (Both n))), p, 1, u, []. split; [done|]. intros X e.
      eapply producer_enabled; [|exact Hpi]. by eexists.
    + exists [], 1, 0, (Both n), []. split; [done|]. intros X e.
      apply (main_enabled (Both n) Gone Gone); [done..|by eauto|]. intros n' [= ->].
      by destruct zs.
Qed.
End respected.
End invariant.

(** ** The program *)

Lemma reports_prefix (l1 l2 : list (Z * ev)) :
  l1 `prefix_of` l2 -> reports (map snd l1) `prefix_of` reports (map snd l2).
Proof. intros [l ->]. rewrite map_app, reports_app. by eexists. Qed.

Lemma told_agree v n i x y : 0 < size v -> (i, x, y) ∈ told_after v n -> x = y <-> i < 128.
Proof.
  unfold told_after. intros Hs. destruct (verbose v =? 0); [by intros ?%not_elem_of_nil|].
  intros Hin. rewrite (expected_agree (size v) n i x y); [lia|lia|done].
Qed.

Definition start (args : list string) : config pipes :=
  Config [Proc 1 0 (main args)] [] (Pipes None []) [].

(** (C16) wk-pipette with its three processes, over a pipe of any size that
    transfers whatever it likes: every interleaving is finite, can only stop
    when all processes have ended, and leaves nothing but the main process with
    status 0 and an empty pipe.  What the consumer reports is at every moment
    the beginning of the list of all blocks, in order, each with the sum of its
    signed bytes, and at the end the whole of it; the sums compared agree
    exactly for the blocks below 128. *)
Theorem pipette_runs (can_write : list Z -> list Z -> nat -> Prop) (can_read : list Z -> Z -> nat -> Prop)
    (HT : Transfers can_write can_read) (v0 : vars) (Hr : in_range v0) (Hneg : negative v0 = false)
    (Hv : runnable (with_defaults v0)) :
  let K := pipe_kernel can_write can_read in
  let v := with_defaults v0 in
  sn (step K) (start (words (settings v0)))
  /\ forall c, rtc (step K) (start (words (settings v0))) c ->
    let said := reports (map snd (log c)) in
    said `prefix_of` told_after v (count v)
    /\ (forall i x y, (i, x, y) ∈ said -> (x = y <-> i < 128))
    /\ (procs c <> [] -> exists c', step K c c')
    /\ (procs c = [] ->
          zombies c = [Zombie 1 0 0] /\ said = told_after v (count v)
          /\ exists r w, pipe (kstate c) = Some (r, w, [])).
Proof.
  intros K v. set (told := told_after v (count v)).
  set (P := protocol_of v). set (Inv := pinv (stream_of v) told).
  assert (respects K P Inv) as HR by (by apply pipe_respects).
  assert (progresses K P Inv) as HP by (by apply pipe_progresses).
  assert (good P Inv (start (words (settings v0)))) as Hg.
  { exists [Knows 1 0 Starting]. split; [|by apply pinv_start].
    constructor; [|constructor]. split_and!; [done..|]. by apply wp_main. }
  destruct (adequacy K P Inv _ HR HP Hg) as [Hsn Hreach]. split; [done|].
  assert (forall c, good P Inv c -> procs c = [] -> reports (map snd (log c)) = told
    /\ zombies c = [Zombie 1 0 0] /\ exists r w, pipe (kstate c) = Some (r, w, [])) as Hend.
  { intros c (ws & Hw & HI) E. rewrite E in Hw. inversion Hw; subst ws. by eapply pinv_end. }
  intros c Hc said. destruct (Hreach c Hc) as [Hgc Hprog].
  assert (said `prefix_of` told) as Hpre.
  { destruct (completes K P Inv c HR HP Hgc) as (c' & Hc' & E).
    destruct (Hreach c') as [Hg' _]; [by etrans|]. destruct (Hend c' Hg' E) as [<- _].
    apply reports_prefix. by eapply steps_log. }
  split_and!; [done| | |].
  - intros i x y Hin. apply (told_agree v (count v)); [apply Hv|]. destruct Hpre as [t Ht].
    fold told. rewrite Ht. apply elem_of_app. by left.
  - intros Hne. by destruct Hprog.
  - intros E. destruct (Hend c Hgc E) as (? & ? & ?). by split_and!.
Qed.

(** A pipe of 65536 bytes that transfers as much as it can. *)
Definition fills (buf bs : list Z) (k : nat) : Prop :=
  (0 < k)%nat /\ Z.of_nat k = Z.min (Z.of_nat (length bs)) (65536 - Z.of_nat (length buf)).
Definition drains (buf : list Z) (n : Z) (k : nat) : Prop :=
  Z.of_nat k = Z.min n (Z.of_nat (length buf)).

#[export] Instance full_transfers : Transfers fills drains.
Proof.
  assert (forall l : list Z, l <> [] -> (0 < length l)%nat) as Hl by (intros []; cbn; [done|lia]).
  split; unfold fills, drains.
  - intros. lia.
  - intros bs Hbs%Hl. exists (Z.to_nat (Z.min (Z.of_nat (length bs)) 65536)). cbn. lia.
  - intros buf n k Hk Hn Hb%Hl. lia.
  - intros buf n Hn Hb%Hl. exists (Z.to_nat (Z.min n (Z.of_nat (length buf)))). lia.
Qed.

(** 130 blocks of 5000 bytes. *)
Theorem pipette_runs_witness :
  let K := pipe_kernel fills drains in
  let c0 := start (words (settings (Vars 0 0 5000 130 0 1))) in
  sn (step K) c0
  /\ forall c, rtc (step K) c0 c -> procs c = [] ->
       reports (map snd (log c)) = map (expected 5000) (seqZ 0 130).
Proof.
  destruct (pipette_runs fills drains full_transfers (Vars 0 0 5000 130 0 1)) as [Hsn H].
  - vm_compute. intuition discriminate.
  - reflexivity.
  - vm_compute. intuition discriminate.
  - split; [exact Hsn|]. intros c Hc E. destruct (H c Hc) as (_ & _ & _ & Hend).
    destruct (Hend E) as (_ & Hs & _). exact Hs.
Defined.
