(* ===== verification/Providers.v ===== *)
(** * The tracepoint providers: src/tp.h and ust/*/*_tp_provider.h

    The declarations of the events, as data: the parameters of each event and
    the fields it is recorded with.  The tracing library expands them; what is
    shown here is that the declarations fit together, and that whatever the
    programs record is declared, with arguments of the declared types. *)

From S2P Require Import Prelude CInt CString Libc CFloat Utils Calibrate Getopt Traces.
From S2P Require Import Perfuser Heartbeat Cputemp Workers Tasks.

Local Open Scope string_scope.
Local Open Scope list_scope.
Local Open Scope Z_scope.

(** ** Declarations *)

(** The types of the parameters and the fields. *)
Inductive ctype :=
  | Int | Long | Size_t | Bool | Pthread_t | Char | Double | Float
  | Ptr (t : ctype) | Void | Ucontext_t.

#[export] Instance ctype_eq_dec : EqDecision ctype.
Proof. solve_decision. Defined.

(** The length of a sequence: a parameter, or [sizeof] of what one points
    to. *)
Inductive length_of := Len (arg : string) | Sizeof (arg : string).

(** The macros of the fields: the type, the name of the field, the parameter. *)
Inductive field :=
  | ctf_integer (t : ctype) (name arg : string)
  | ctf_integer_hex (t : ctype) (name arg : string)
  | ctf_integer_network (t : ctype) (name arg : string)
  | ctf_integer_network_hex (t : ctype) (name arg : string)
  | ctf_float (t : ctype) (name arg : string)
  | ctf_string (name arg : string)
  | ctf_array (t : ctype) (name arg : string) (length : Z)
  | ctf_array_text (t : ctype) (name arg : string) (length : Z)
  | ctf_sequence (t : ctype) (name arg : string) (lt : ctype) (length : length_of)
  | ctf_sequence_text (t : ctype) (name arg : string) (lt : ctype) (length : length_of).

Record event := TRACEPOINT_EVENT {
  provider : string; event_name : string; TP_ARGS : list (ctype * string); TP_FIELDS : list field
}.

Record header := Header {
  TRACEPOINT_PROVIDER : string; TRACEPOINT_INCLUDE_FILE : string; events : list event
}.

Definition tp : header := Header "unwind" "./tp.h" [
  TRACEPOINT_EVENT "unwind" "online"
    [(Ptr Void, "addr"); (Size_t, "depth")]
    [ctf_sequence (Ptr Void) "addr" "addr" Size_t (Len "depth")];
  TRACEPOINT_EVENT "unwind" "offline"
    [(Ptr Char, "sp"); (Size_t, "size"); (Ptr Ucontext_t, "uc")]
    [ctf_sequence Char "stack" "sp" Size_t (Len "size");
     ctf_sequence Char "ucontext" "uc" Size_t (Sizeof "uc")];
  TRACEPOINT_EVENT "unwind" "offline_fast"
    [(Ptr Char, "sp"); (Ptr Ucontext_t, "uc")]
    [ctf_array Char "stack" "sp" 8126;
     ctf_sequence Char "ucontext" "uc" Size_t (Sizeof "uc")]].

Definition cyg_tp_provider : header := Header "cyg" "./cyg_tp_provider.h" [
  TRACEPOINT_EVENT "cyg" "entry" [(Ptr Void, "addr")] [ctf_integer_hex (Ptr Void) "func" "addr"];
  TRACEPOINT_EVENT "cyg" "exit" [] []].

Definition bossthread_tp_provider : header := Header "bossthread" "./bossthread_tp_provider.h" [
  TRACEPOINT_EVENT "bossthread" "id" [(Pthread_t, "self")] [ctf_integer Pthread_t "id" "self"]].

Definition threadtree_tp_provider : header := Header "threadtree" "./threadtree_tp_provider.h" [
  TRACEPOINT_EVENT "threadtree" "start" [(Long, "_id")] [ctf_integer_hex Int "id" "_id"];
  TRACEPOINT_EVENT "threadtree" "fork" [(Long, "_id"); (Long, "_child")]
    [ctf_integer_hex Int "id" "_id"; ctf_integer_hex Int "child" "_child"];
  TRACEPOINT_EVENT "threadtree" "exit" [(Long, "_id")] [ctf_integer_hex Int "id" "_id"]].

Definition cputemp_tp_provider : header := Header "cputemp" "./cputemp_tp_provider.h" [
  TRACEPOINT_EVENT "cputemp" "temp" [(Double, "temp")] [ctf_float Double "sue" "temp"]].

Definition burnust_tp_provider : header := Header "burnust" "./burnust_tp_provider.h" [
  TRACEPOINT_EVENT "burnust" "count" [(Int, "count")] [ctf_integer Int "count" "count"]].

Definition heartbeat_tp_provider : header := Header "heartbeat" "./heartbeat_tp_provider.h" [
  TRACEPOINT_EVENT "heartbeat" "msg" [(Ptr Char, "text")] [ctf_string "msg" "text"]].

Definition ust_tests_hello : header := Header "ust_tests_hello" "./ust_tests_hello.h" [
  TRACEPOINT_EVENT "ust_tests_hello" "tptest"
    [(Int, "anint"); (Int, "netint"); (Ptr Long, "values"); (Ptr Char, "text"); (Size_t, "textlen");
     (Double, "doublearg"); (Float, "floatarg"); (Bool, "boolarg")]
    [ctf_integer Int "intfield" "anint";
     ctf_integer_hex Int "intfield2" "anint";
     ctf_integer Long "longfield" "anint";
     ctf_integer_network Int "netintfield" "netint";
     ctf_integer_network_hex Int "netintfieldhex" "netint";
     ctf_array Long "arrfield1" "values" 3;
     ctf_array_text Char "arrfield2" "text" 10;
     ctf_sequence Char "seqfield1" "text" Size_t (Len "textlen");
     ctf_sequence_text Char "seqfield2" "text" Size_t (Len "textlen");
     ctf_string "stringfield" "text";
     ctf_float Float "floatfield" "floatarg";
     ctf_float Double "doublefield" "doublearg";
     ctf_integer Bool "boolfield" "boolarg"];
  TRACEPOINT_EVENT "ust_tests_hello" "tptest_sighandler" [] []].

Definition headers : list header :=
  [tp; cyg_tp_provider; bossthread_tp_provider; threadtree_tp_provider; cputemp_tp_provider;
   burnust_tp_provider; heartbeat_tp_provider; ust_tests_hello].

(** ** Well-formed declarations *)

Definition field_name (f : field) : string :=
  match f with
  | ctf_integer _ n _ | ctf_integer_hex _ n _ | ctf_integer_network _ n _ | ctf_integer_network_hex _ n _
  | ctf_float _ n _ | ctf_string n _ | ctf_array _ n _ _ | ctf_array_text _ n _ _
  | ctf_sequence _ n _ _ _ | ctf_sequence_text _ n _ _ _ => n
  end.

Definition type_of (ps : list (ctype * string)) (x : string) : option ctype :=
  fst <$> List.find (fun p => bool_decide (p.2 = x)) ps.

(** The integer types, with their ranges. *)
Definition range (t : ctype) : option (Z * Z) :=
  match t with
  | Int => Some (INT_MIN, INT_MAX)
  | Long => Some (- 2 ^ 63, 2 ^ 63 - 1)
  | Size_t | Pthread_t | Ptr _ => Some (0, 2 ^ 64 - 1)
  | Bool => Some (0, 1)
  | Char => Some (-128, 127)
  | Double | Float | Void | Ucontext_t => None
  end.

Definition is_integer (t : ctype) : bool := bool_decide (is_Some (range t)).
Definition is_float (t : option ctype) : bool := bool_decide (t = Some Double \/ t = Some Float).

(** A block of memory: a pointer to the elements, or to something that is
    recorded as bytes. *)
Definition is_block (t : ctype) (p : option ctype) : bool :=
  match p with
  | Some (Ptr p) => bool_decide (p = t) || bool_decide (p = Void) || bool_decide (t = Char)
  | _ => false
  end.

Definition length_ok (ps : list (ctype * string)) (l : length_of) : bool :=
  match l with
  | Len y => bool_decide (type_of ps y = Some Size_t)
  | Sizeof y => match type_of ps y with Some (Ptr _) => true | _ => false end
  end.

(** A field is of a type that can be made from its parameter. *)
Definition field_ok (ps : list (ctype * string)) (f : field) : bool :=
  match f with
  | ctf_integer t _ x | ctf_integer_hex t _ x | ctf_integer_network t _ x | ctf_integer_network_hex t _ x =>
      is_integer t && match type_of ps x with Some p => is_integer p | None => false end
  | ctf_float t _ x => is_float (Some t) && is_float (type_of ps x)
  | ctf_string _ x => bool_decide (type_of ps x = Some (Ptr Char))
  | ctf_array t _ x n | ctf_array_text t _ x n => is_block t (type_of ps x) && (0 <? n)
  | ctf_sequence t _ x lt l | ctf_sequence_text t _ x lt l =>
      is_block t (type_of ps x) && bool_decide (lt = Size_t) && length_ok ps l
  end.

Definition event_ok (p : string) (e : event) : bool :=
  bool_decide (provider e = p) && bool_decide (NoDup (map snd (TP_ARGS e)))
  && bool_decide (NoDup (map field_name (TP_FIELDS e))) && forallb (field_ok (TP_ARGS e)) (TP_FIELDS e).

Definition header_ok (h : header) : bool :=
  forallb (event_ok (TRACEPOINT_PROVIDER h)) (events h) && bool_decide (NoDup (map event_name (events h))).

(** An integer field that does not hold every value of its parameter. *)
Definition narrows (ps : list (ctype * string)) (f : field) : bool :=
  match f with
  | ctf_integer t _ x | ctf_integer_hex t _ x | ctf_integer_network t _ x | ctf_integer_network_hex t _ x =>
      match range t, type_of ps x ≫= range with
      | Some (a, b), Some (c, d) => negb ((a <=? c) && (d <=? b))
      | _, _ => false
      end
  | _ => false
  end.

Definition narrow_fields : list (string * string * string) :=
  h ← headers; e ← events h; f ← filter (fun f => narrows (TP_ARGS e) f) (TP_FIELDS e);
  [(provider e, event_name e, field_name f)].

(** ** Recorded values *)

(** The value of an integer parameter in a field of type [t]: C's conversion. *)
Definition convert (t : ctype) (z : Z) : Z :=
  match t with
  | Int => s32 z
  | Long => s64 z
  | Size_t | Pthread_t | Ptr _ => u64 z
  | Bool => if z =? 0 then 0 else 1
  | Char => s8 z
  | _ => z
  end.

(** ** Calls that fit a declaration

    The programs give an integer, a pointer to memory and a thread as a
    number, a text as a string; an array whose elements an event records is
    given by its elements. *)

Definition within (t : ctype) (z : Z) : bool :=
  match range t with Some (a, b) => (a <=? z) && (z <=? b) | None => false end.

Definition fits (t : ctype) (a : parg) : bool :=
  match t, a with
  | Ptr Char, PStr s => bool_decide (is_Some s)
  | (Double | Float), PDouble _ => true
  | t, PInt z => within t z
  | _, _ => false
  end.

(** How many elements of an array an event records; the parameter that says
    so is the next one. *)
Inductive elements := Fixed (t : ctype) (n : Z) | Counted (t : ctype).

Definition elements_in (x : string) (f : field) : option elements :=
  match f with
  | ctf_array Long _ y n => if String.eqb x y then Some (Fixed Long n) else None
  | ctf_sequence (Ptr Void) _ y _ (Len _) => if String.eqb x y then Some (Counted (Ptr Void)) else None
  | _ => None
  end.

Definition elements_of (fs : list field) (x : string) : option elements := head (omap (elements_in x) fs).

Fixpoint args_fit (fs : list field) (ps : list (ctype * string)) (args : list parg) : bool :=
  match ps with
  | [] => bool_decide (length args = O)
  | (t, x) :: ps =>
      match elements_of fs x with
      | None => match args with a :: args => fits t a && args_fit fs ps args | [] => false end
      | Some (Fixed t n) =>
          (n <=? Z.of_nat (length args)) && forallb (fits t) (take (Z.to_nat n) args)
          && args_fit fs ps (drop (Z.to_nat n) args)
      | Some (Counted t) =>
          let n := (length args - length ps)%nat in
          forallb (fits t) (take n args)
          && match drop n args with PInt d :: _ => d =? Z.of_nat n | _ => false end
          && args_fit fs ps (drop n args)
      end
  end.

Definition declared (p n : string) (args : list parg) : bool :=
  existsb (fun h => existsb (fun e =>
    bool_decide (provider e = p) && bool_decide (event_name e = n)
    && args_fit (TP_FIELDS e) (TP_ARGS e) args) (events h)) headers.

Definition declared_call X (e : sys X) : Prop :=
  match e with
  | Tracepoint_args p n args => declared p n args = true
  | Tracepoint p n args => declared p n (map PInt args) = true
  | _ => True
  end.

(** What the programs get from the system: threads and addresses are in the
    range of their types, and a backtrace has as many addresses as it says. *)
Definition proper X (e : sys X) : X -> Prop :=
  match e in sys X return X -> Prop with
  | Pthread_self => fun x => 0 <= x < 2 ^ 63
  | Getcontext | Unw_get_ip => fun x => 0 <= x < 2 ^ 64
  | Unw_backtrace _ => fun x => x.1 = Z.of_nat (length x.2) /\ Forall (fun a => 0 <= a < 2 ^ 64) x.2
  | _ => fun _ => True
  end.

(** ** Every call of a program *)

(** All calls satisfy [ok] when the answers satisfy [answer]; the result
    satisfies [Q]. *)
Fixpoint upholds {A} (ok : forall X, sys X -> Prop) (answer : forall X, sys X -> X -> Prop)
    (p : prog A) (Q : A -> Prop) : Prop :=
  match p with
  | Ret a => Q a
  | Exit _ | Undef _ | Fuel => True
  | Vis e k => ok _ e /\ forall x, answer _ e x -> upholds ok answer (k x) Q
  end.

Section upholds.
Context {ok : forall X, sys X -> Prop} {answer : forall X, sys X -> X -> Prop}.
#[local] Notation up := (upholds ok answer).

Lemma upholds_bind {A B} (p : prog A) (f : A -> prog B) Q R :
  up p Q -> (forall a, Q a -> up (f a) R) -> up (p ≫= f) R.
Proof.
  intros Hp Hf. induction p as [a|s|why| |X e k IH]; cbn in *; auto.
  destruct Hp as [Ho Hk]. split; [done|]. intros x Hx. by apply IH, Hk.
Qed.

Lemma upholds_call {X B} (e : sys X) (f : X -> prog B) Q :
  ok _ e -> (forall x, answer _ e x -> up (f x) Q) -> up (call e ≫= f) Q.
Proof. intros He Hf. by split. Qed.

Lemma upholds_for {T} (body : Z -> T -> prog T) (Inv : Z -> T -> Prop) n i s :
  Inv i s -> (forall j s, i <= j < i + Z.of_nat n -> Inv j s -> up (body j s) (Inv (j + 1))) ->
  up (for_ n i body s) (Inv (i + Z.of_nat n)).
Proof.
  revert i s. induction n as [|n IH]; intros i s H0 Hb; cbn [for_].
  { by rewrite Z.add_0_r. }
  eapply upholds_bind; [apply Hb; [lia|done]|]. intros s' Hs'.
  replace (i + Z.of_nat (S n)) with (i + 1 + Z.of_nat n) by lia. apply IH; [done|].
  intros j t Hj. apply Hb. lia.
Qed.

(** A handler of which [answer] holds makes only calls of which [ok] holds. *)
Lemma upholds_run {W A} (h : handler W) (p : prog A) Q w tr :
  (forall X (e : sys X) w, answer _ e (h _ e w).1) -> up p Q ->
  exists tr', (run (traced h) p (w, tr)).2.2 = tr ++ tr' /\ Forall (fun '(Ev e _) => ok _ e) tr'.
Proof.
  intros Hh. revert w tr. induction p as [a|s|why| |X e k IH]; intros w tr Hp;
    try (exists []; by rewrite app_nil_r).
  destruct Hp as [Ho Hk]. cbn [run].
  assert (traced h X e (w, tr) = ((h X e w).1, ((h X e w).2, tr ++ [Ev e (h X e w).1]))) as ->
    by (unfold traced; cbn [fst snd]; by destruct (h X e w)).
  destruct (IH (h X e w).1 (h X e w).2 (tr ++ [Ev e (h X e w).1]) (Hk _ (Hh _ _ _))) as (tr' & Hr & Hf).
  exists (Ev e (h X e w).1 :: tr'). rewrite Hr, <- app_assoc. split; [done|]. by constructor.
Qed.
End upholds.

(** ** The programs *)

(** All events of a program are declared. *)
Definition traces_declared {A} (p : prog A) : Prop := upholds declared_call proper p (fun _ => True).

Lemma td_bind {A B} (p : prog A) (f : A -> prog B) :
  traces_declared p -> (forall a, traces_declared (f a)) -> traces_declared (p ≫= f).
Proof. intros Hp Hf. by eapply upholds_bind; [exact Hp|intros a _; apply Hf]. Qed.

Lemma td_call {X B} (e : sys X) (f : X -> prog B) :
  declared_call X e -> (forall x, proper X e x -> traces_declared (f x)) -> traces_declared (call e ≫= f).
Proof. apply upholds_call. Qed.

Lemma td_last {X} (e : sys X) : declared_call X e -> traces_declared (call e).
Proof. intros He. by split. Qed.

Lemma td_for {T} (body : Z -> T -> prog T) n i s :
  (forall j s, i <= j < i + Z.of_nat n -> traces_declared (body j s)) -> traces_declared (for_ n i body s).
Proof.
  intros Hb. apply (upholds_for body (fun _ _ => True)); [done|]. intros j t Hj _. by apply Hb.
Qed.

(** Steps through the calls and the branches of a program. *)
Ltac td_step :=
  first [ done | apply td_call; [done|intros ? ?] | apply td_last; done | apply td_bind; [|intros ?]
        | progress case_if
        | match goal with |- traces_declared (match ?x with _ => _ end) => destruct x end
        | match goal with |- traces_declared (match ?x with _ => _ end ≫= _) => destruct x end ].
Ltac td := repeat td_step.

Lemma td_opt_loop {S} (body : found -> S -> prog S) l s :
  (forall f s, traces_declared (body f s)) -> traces_declared (opt_loop body l s).
Proof.
  intros Hb. revert s. induction l as [|f l IH]; intros s; cbn [opt_loop]; [done|].
  apply td_bind; [apply Hb|]. apply IH.
Qed.

Lemma td_usage {A} l : traces_declared (usage_text (A := A) l).
Proof.
  apply td_bind; [|done]. induction l as [|[f a] l IH]; cbn [eprint_all]; [done|].
  apply td_call; [done|]. intros _ _. exact IH.
Qed.

#[local] Arguments within : simpl never.

Lemma within_range t a b z : range t = Some (a, b) -> a <= z <= b -> within t z = true.
Proof. intros H Hz. unfold within. rewrite H. apply andb_true_iff. split; apply Z.leb_le; lia. Qed.

(** The threads of heartbeat have a message, the default one at least. *)
Lemma td_heartbeat o : traces_declared (Heartbeat.heartbeat_thread (Some (Heartbeat.defaults o))).
Proof.
  apply td_call; [done|]. intros id _. apply td_call; [done|]. intros _ _. apply td_for. intros j [] _.
  unfold Heartbeat.beat. cbn [message Heartbeat.defaults]. td.
Qed.

Lemma declared_by i j h e args :
  headers !! i = Some h -> events h !! j = Some e -> args_fit (TP_FIELDS e) (TP_ARGS e) args = true ->
  declared (provider e) (event_name e) args = true.
Proof.
  intros Hh He Ha. unfold declared. apply existsb_exists. exists h.
  split; [by eapply list_elem_of_In, list_elem_of_lookup_2|].
  apply existsb_exists. exists e. split; [by eapply list_elem_of_In, list_elem_of_lookup_2|].
  rewrite Ha, !bool_decide_true by done. reflexivity.
Qed.

Lemma declared_count n : INT_MIN <= n <= INT_MAX -> declared "burnust" "count" [PInt n] = true.
Proof.
  intros Hn. apply (declared_by 5 0 _ _ _ eq_refl eq_refl). cbn.
  by rewrite (within_range Int INT_MIN INT_MAX).
Qed.

Lemma td_burnust arg : traces_declared (Burnust.burnust_thread arg).
Proof.
  destruct arg as [o|]; [|done]. apply td_call; [done|]. intros id _. apply td_call; [done|]. intros _ _.
  apply td_for. intros i [] Hi. apply td_for. intros j [] Hj. unfold Burnust.burn. case_if; [done|].
  apply td_bind; [td|]. intros _. apply td_call; [|td]. apply declared_count. clia.
Qed.

Lemma td_cputemp t1 t2 t3 err fuel argv : traces_declared (Cputemp.main t1 t2 t3 err fuel argv).
Proof.
  assert (forall chip sub v, traces_declared (get_input_value err chip sub v)) as Hin
    by (intros; unfold get_input_value, sub_error; td).
  assert (forall chip sub, traces_declared (get_value chip sub)) as Hval
    by (intros; unfold get_value, sub_error; td).
  assert (forall buf v, traces_declared (show_temp buf v)) as Hshow.
  { intros. unfold show_temp. td. }
  assert (forall chip f l buf, traces_declared (print_chip_temp t2 t3 err chip f l buf)) as Hprint.
  { intros chip [[feat nm] ty] l buf. unfold print_chip_temp, print_label. td. }
  assert (forall buf chip, traces_declared (do_a_print t1 t2 t3 err fuel chip buf)) as Hdo.
  { intros buf chip. unfold do_a_print, sprintf_chip_name, print_chip, get_label_size. td.
    generalize 11 as m. generalize 0 as i. induction fuel as [|fuel IH]; intros i m; cbn [label_sizes]; td. }
  assert (forall depth buf i cnt, traces_declared (chips t1 t2 t3 err depth fuel i cnt buf)) as Hchips.
  { intros depth. induction depth as [|depth IH]; intros buf i cnt; cbn [chips]; td. }
  assert (forall buf, traces_declared (do_the_real_work t1 t2 t3 err fuel buf)) as Hwork
    by (intros; apply Hchips).
  unfold Cputemp.main. apply td_bind.
  { apply td_opt_loop. intros f [r t]. unfold Cputemp.parse_opt, print_short_help, print_long_help, print_version, with_arg.
    td. }
  intros [r t]. td. apply td_for. intros j [e b] _. unfold observe_once. td.
Qed.

Lemma td_bossthread info : traces_declared (Bossthread.worker info).
Proof.
  apply td_call; [done|]. intros self Hs.
  assert (declared "bossthread" "id" [PInt self] = true) as Hd.
  { apply (declared_by 2 0 _ _ _ eq_refl eq_refl). cbn. rewrite (within_range Pthread_t 0 (2 ^ 64 - 1)); [done..|].
    cbn in Hs. lia. }
  apply td_call; [done|]. intros _ _. destruct (Bossthread.count_loop _ _ _); td.
Qed.

Lemma td_functrace f site : 0 <= f < 2 ^ 64 ->
  traces_declared (Functrace.cyg_profile_func_enter f site)
  /\ traces_declared (Functrace.cyg_profile_func_exit f site).
Proof.
  intros Hf. split; apply td_last; [|done]. apply (declared_by 1 0 _ _ _ eq_refl eq_refl). cbn.
  rewrite (within_range (Ptr Void) 0 (2 ^ 64 - 1)); [done..|lia].
Qed.

Lemma td_hello_event i : 0 <= i <= INT_MAX -> declared "ust_tests_hello" "tptest" (Hello.event i) = true.
Proof.
  intros Hi. apply (declared_by 7 0 _ _ _ eq_refl eq_refl). cbn.
  rewrite !(within_range Int INT_MIN INT_MAX); [done..|apply s32_range|done|clia].
Qed.

Lemma td_hello argv sig : traces_declared (Hello.main argv) /\ traces_declared (Hello.inthandler sig).
Proof.
  split; [|unfold Hello.inthandler; td]. unfold Hello.main, Hello.init_int_handler. td.
  all: apply td_for; intros j [] _; apply td_for; intros i [] Hi; apply td_call; [|td].
  all: apply td_hello_event; unfold Hello.NB_ITERATIONS in Hi; clia.
Qed.

Lemma declared_thread j e self :
  events threadtree_tp_provider !! j = Some e -> TP_ARGS e = [(Long, "_id")] -> 0 <= self < 2 ^ 63 ->
  declared (provider e) (event_name e) [PInt self] = true.
Proof.
  intros He Ht Hs. apply (declared_by 3 j _ e _ eq_refl He). rewrite Ht.
  destruct j as [|[|[|]]]; try discriminate He; injection He as <-; try discriminate Ht; cbn;
    rewrite (within_range Long (- 2 ^ 63) (2 ^ 63 - 1)); done || lia.
Qed.

Lemma td_threadtree wait_task argv thd s :
  (forall t, traces_declared (wait_task t)) -> (forall i, 0 <= thd i < 2 ^ 63) ->
  traces_declared (Tasks.main thd wait_task argv) /\ traces_declared (Tasks.spawn_stage thd s)
  /\ traces_declared Tasks.do_something.
Proof.
  intros Hrun Hthd.
  assert (forall s, traces_declared (Tasks.spawn_stage thd s)) as Hs.
  { intros [s'|]; [|done]. apply td_for. intros i [] _.
    do 2 (apply td_call; [done|intros _ _]). apply td_call; [done|].
    intros self Hself. apply td_call; [|td]. apply (declared_by 3 1 _ _ _ eq_refl eq_refl). cbn.
    pose proof (Hthd i). cbn in Hself.
    rewrite !(within_range Long (- 2 ^ 63) (2 ^ 63 - 1)); done || lia. }
  split_and!; [|done|unfold Tasks.do_something; td].
  assert (forall n size, traces_declared (Tasks.calloc n size)) as Hc by (intros; unfold Tasks.calloc; td).
  assert (forall n nb curr, traces_declared (make_stages n nb curr)) as Hm.
  { induction n as [|n IH]; intros nb curr; cbn [make_stages]; td. }
  assert (forall l i, traces_declared (dump_stages i l)) as Hd.
  { induction l as [|x l IH]; intros i; cbn [dump_stages]; td. }
  assert (forall l, traces_declared (free_stages l)) as Hf.
  { induction l as [|x l IH]; cbn [free_stages]; unfold Tasks.free_array; td. }
  unfold Tasks.main, Tasks.parse_opts, make_task. td.
  - apply td_opt_loop. intros f [r o]. unfold Tasks.parse_opt, Tasks.usage. td.
  - apply td_last. apply (declared_thread 0 _ _ eq_refl eq_refl). assumption.
  - apply td_last. apply (declared_thread 2 _ _ eq_refl eq_refl). assumption.
Qed.

(** The addresses of a backtrace, and their number. *)
Definition addresses (l : list Z) : Prop := Forall (fun a => 0 <= a < 2 ^ 64) l.

Lemma declared_online l : addresses l -> Z.of_nat (length l) <= MAX_DEPTH ->
  declared "unwind" "online" (map PInt (l ++ [Z.of_nat (length l)])) = true.
Proof.
  intros Hl Hd. apply (declared_by 0 0 _ _ _ eq_refl eq_refl). rewrite map_app.
  assert (forallb (fits (Ptr Void)) (map PInt l) = true) as Hfit.
  { rewrite forallb_forall. intros a (z & <- & Hz)%in_map_iff. rewrite <- list_elem_of_In in Hz.
    apply (within_range (Ptr Void) 0 (2 ^ 64 - 1)); [done|]. pose proof (proj1 (Forall_forall _ _) Hl z Hz). cbn in *. lia. }
  cbn [args_fit TP_ARGS TP_FIELDS elements_of omap list_omap elements_in String.eqb Ascii.eqb Bool.eqb head].
  rewrite length_app, length_map, Nat.add_sub.
  rewrite take_app_length', drop_app_length' by (by rewrite length_map).
  rewrite Hfit. cbn. rewrite Z.eqb_refl, (within_range Size_t 0 (2 ^ 64 - 1)); [done..|].
  unfold MAX_DEPTH in Hd. lia.
Qed.

Lemma upholds_unwind_loop fuel l :
  addresses l -> Z.of_nat (length l) <= MAX_DEPTH ->
  upholds declared_call proper (unwind_loop fuel l (Z.of_nat (length l)))
    (fun '(addr, depth) => addresses addr /\ depth = Z.of_nat (length addr) /\ depth <= MAX_DEPTH).
Proof.
  revert l. induction fuel as [|fuel IH]; intros l Hl Hd; cbn [unwind_loop]; case_if; try done.
  - apply upholds_call; [done|]. intros r _. case_if; [done|]. by split_and!.
  - apply upholds_call; [done|]. intros r _. case_if; [|by split_and!]. apply upholds_call; [done|]. intros ip Hip.
    unfold store_addr. case_if; [|done]. rewrite Nat2Z.id, firstn_all.
    change (Z.of_nat (length l) + 1) with (Z.of_nat (length l) + Z.of_nat (length [ip])).
    rewrite <- Nat2Z.inj_add, <- length_app. apply IH; [|rewrite length_app; cbn; lia].
    apply Forall_app. split; [done|]. by constructor.
Qed.

Lemma td_unwind type : traces_declared (do_unwind type).
Proof.
  assert (forall uc, 0 <= u64 uc < 2 ^ 64) as Hu
    by (intros; pose proof (u64_range uc); clia).
  assert (traces_declared do_unwind_backtrace) as Hback.
  { apply td_call; [done|]. intros [d addr] [Hd Ha]. cbn in Hd, Ha. subst d. unfold assert_. case_if; [|done].
    apply td_last. by apply declared_online. }
  unfold do_unwind. repeat (case_if; [try done|]); try done.
  - apply td_call; [done|]. intros _ _. apply td_call; [done|]. intros _ _.
    eapply upholds_bind; [apply (upholds_unwind_loop _ []); [constructor|vm_compute; discriminate]|]. intros [addr d] (Ha & -> & Hd).
    apply td_last. by apply declared_online.
  - apply td_call; [done|]. intros uc Huc. apply td_last. apply (declared_by 0 1 _ _ _ eq_refl eq_refl). cbn in Huc |- *.
    rewrite !(within_range _ 0 (2 ^ 64 - 1)); try done; specialize (Hu (uc - STACK_SIZE)); lia.
  - apply td_call; [done|]. intros uc Huc. apply td_last. apply (declared_by 0 2 _ _ _ eq_refl eq_refl). cbn in Huc |- *.
    rewrite !(within_range _ 0 (2 ^ 64 - 1)); try done; specialize (Hu (uc - STACK_SIZE)); lia.
Qed.

Lemma td_rec fuel depth type :
  traces_declared (rec1 fuel depth type) /\ traces_declared (rec2 fuel depth type).
Proof.
  pose proof td_unwind as Hu. revert depth.
  induction fuel as [|fuel IH]; intros depth; [done|]. cbn [rec1 rec2].
  split; (apply td_bind; [|td]; case_if; [apply td_bind; [apply IH|td]|apply Hu]).
Qed.

(** ** The profiles of perfuser *)
Section profile.
Context {Args : Type} (prof : profile Args).
Hypothesis Hfunc : forall a, traces_declared (func prof a).

Lemma td_profile_init : upholds declared_call proper (profile_init prof) (fun p => func p = func prof).
Proof.
  unfold profile_init. apply upholds_call; [done|]. intros p _.
  eapply upholds_bind; [|by intros d _].
  instantiate (1 := fun _ => True). destruct p as [a|]; [by split|]. by case_if.
Qed.

Lemma td_profile_func : upholds declared_call proper (profile_func prof) (fun p => func p = func prof).
Proof using Hfunc.
  unfold profile_func. eapply upholds_bind; [apply Hfunc|]. intros [x a] _.
  eapply upholds_bind; [|by intros [d a'] _].
  apply (td_for _ _ _ (data prof, a)). intros j [d a'] _. unfold store_ts. td.
Qed.

Lemma td_profile_stats : traces_declared (profile_stats prof).
Proof.
  assert (forall d i, traces_declared (delta_at d i)) as Hd by (intros; unfold delta_at, load_ts; td).
  unfold profile_stats. destruct (data prof); [done| |]; td; apply td_for; intros; td.
Qed.

Lemma td_profile_save : traces_declared (profile_save prof).
Proof.
  assert (forall d i, traces_declared (delta_at d i)) as Hd by (intros; unfold delta_at, load_ts; td).
  unfold profile_save. td. apply td_for. intros. td.
Qed.
End profile.

Lemma td_profile_combo {Args} (prof : profile Args) :
  (forall a, traces_declared (func prof a)) -> traces_declared (profile_combo prof).
Proof.
  intros Hf. unfold profile_combo. eapply upholds_bind; [apply td_profile_init|]. intros p1 E1.
  eapply upholds_bind; [apply td_profile_func; by rewrite E1|]. intros p2 _.
  apply td_bind; [apply td_profile_stats|]. intros p3. apply td_bind; [apply td_profile_save|].
  intros _. unfold profile_destroy. td.
Qed.

(** ** perfuser *)

Lemma td_calibrate us : traces_declared (calibrate us).
Proof.
  assert (forall e m, traces_declared (or_error e m)) as He by (intros; unfold or_error, error; td).
  assert (forall n, traces_declared (Calibrate.counter n)) as Hc by (intros; unfold Calibrate.counter; td).
  unfold calibrate. td.
Qed.

Lemma td_do_one a : traces_declared (do_one a).
Proof.
  assert (forall b, traces_declared (assert_ b)) as Has by (intros; unfold assert_; td).
  assert (forall n, traces_declared (Perfuser.hog n)) as Hh by (intros; unfold Perfuser.hog; td).
  assert (forall a c, traces_declared (signal_handler a c)) as Hs by (intros; unfold signal_handler; td).
  assert (forall a c, traces_declared (open_counter a c)) as Ho by (intros; unfold open_counter, Utils.gettid; td).
  assert (forall a c, traces_declared (do_work a c)) as Hw.
  { intros. unfold do_work, deliver, close_counter. td; apply td_for; intros; apply Hs. }
  unfold do_one, before_run, after_run, print_status. td; apply td_for; intros; td.
Qed.

Lemma td_unwind_one a : traces_declared (do_unwind_overhead_one a).
Proof.
  assert (forall b, traces_declared (rec b)) as Hrec
    by (intros; unfold rec; apply td_bind; [apply td_rec|td]).
  unfold do_unwind_overhead_one. apply td_bind; [td|]. intros b.
  eapply upholds_bind; [apply td_profile_init|]. intros p E. cbn in E.
  eapply upholds_bind; [apply td_profile_func; by rewrite E|]. intros p' _.
  apply td_bind; [apply td_profile_stats|]. intros p''. td.
Qed.

Lemma td_loop n (F : Z -> Perfuser.args -> prog Perfuser.args) a :
  (forall i b, traces_declared (F i b)) -> traces_declared (for_ n 0 F a).
Proof. intros HF. apply td_for. intros. apply HF. Qed.

Lemma td_experiment e a : traces_declared (exp_func e a).
Proof.
  pose proof td_do_one as Hdo. pose proof td_unwind_one as Hun.
  assert (forall b, traces_declared (assert_ b)) as Has by (intros; unfold assert_; td).
  assert (forall a c, traces_declared (open_counter a c)) as Ho by (intros; unfold open_counter, Utils.gettid; td).
  destruct e; cbn [exp_func].
  - apply td_loop. auto.
  - unfold do_sampling_overhead. apply td_loop. intros i b. destruct (_ !! _); [|done]. by apply td_loop.
  - unfold do_unwind_overhead_all. apply td_loop. intros. apply td_loop. auto.
  - apply td_unwind_one.
  - unfold do_perf_event_open_overhead, profile_stats_print. apply td_bind; [|td].
    apply td_profile_combo. intros bc. cbn [func]. unfold perf_event_open_benchmark, close_counter. td.
  - unfold do_perf_ioctl, profile_stats_print. apply td_bind; [unfold Utils.gettid; td|]. intros tid.
    apply td_call; [done|]. intros fd _.
    apply td_bind; [by apply td_profile_combo|]. intros p1. apply td_call; [done|]. intros _ _.
    apply td_bind; [|intros p2; td]. apply td_profile_combo. intros x. cbn [func]. unfold perf_ioctl_benchmark. td.
Qed.

Lemma td_perfuser argv : traces_declared (Perfuser.main argv).
Proof.
  pose proof td_experiment as He.
  assert (forall e m, traces_declared (or_error e m)) as Herr by (intros; unfold or_error, error; td).
  assert (forall b, traces_declared (assert_ b)) as Has by (intros; unfold assert_; td).
  assert (forall A, traces_declared (Perfuser.usage (A := A))) as Hu by (intros; apply td_usage).
  assert (traces_declared (Perfuser.parse_opts argv)) as Hp.
  { unfold Perfuser.parse_opts. td. apply td_opt_loop. intros f b. unfold Perfuser.parse_opt, with_arg. td. }
  unfold Perfuser.main, install_sighand, stats_header. td. apply td_for. intros. apply He.
Qed.

(** ** The declarations and the calls fit *)

(** The programs and threads that record events. *)
Inductive tracing : forall A, prog A -> Prop :=
  | wk_perfuser argv : tracing Z (Perfuser.main argv)
  | wk_cputemp t1 t2 t3 err fuel argv : tracing Z (Cputemp.main t1 t2 t3 err fuel argv)
  | wk_heartbeat o : tracing unit (Heartbeat.heartbeat_thread (Some (Heartbeat.defaults o)))
  | wk_burnust arg : tracing unit (Burnust.burnust_thread arg)
  | bossthread info : tracing _ (Bossthread.worker info)
  | functrace_entry f site : 0 <= f < 2 ^ 64 -> tracing unit (Functrace.cyg_profile_func_enter f site)
  | functrace_exit f site : 0 <= f < 2 ^ 64 -> tracing unit (Functrace.cyg_profile_func_exit f site)
  | hello_openmp argv : tracing Z (Hello.main argv)
  | hello_handler sig : tracing unit (Hello.inthandler sig)
  | threadtree thd wait_task argv : (forall i, 0 <= thd i < 2 ^ 63) ->
      (forall t, tracing unit (wait_task t)) -> tracing Z (Tasks.main thd wait_task argv)
  | threadtree_stage thd s : (forall i, 0 <= thd i < 2 ^ 63) -> tracing unit (Tasks.spawn_stage thd s)
  | threadtree_work : tracing unit Tasks.do_something
  | one_after_the_other A B (p : prog A) (f : A -> prog B) :
      tracing A p -> (forall a, tracing B (f a)) -> tracing B (p ≫= f).

Lemma tracing_declared A (p : prog A) : tracing A p -> traces_declared p.
Proof.
  induction 1 as [argv|t1 t2 t3 err fuel argv|o|arg|info|f site Hf|f site Hf|argv|sig|thd wait_task argv Hthd _ IH|thd s Hthd| |A B p f _ IHp _ IHf].
  - apply td_perfuser.
  - apply td_cputemp.
  - apply td_heartbeat.
  - apply td_burnust.
  - apply td_bossthread.
  - by apply (td_functrace f site).
  - by apply (td_functrace f site).
  - by apply (td_hello argv 0).
  - by apply (td_hello [] sig).
  - by apply (td_threadtree wait_task argv thd None).
  - by apply (td_threadtree (fun _ => Ret tt) [] thd s).
  - by apply (td_threadtree (fun _ => Ret tt) [] (fun _ => 0) None).
  - by apply td_bind.
Qed.

(** A thread of the C library is an address far above 2^31: no such number
    survives the fields of threadtree. *)
Lemma thread_id_cut id : 2 ^ 31 <= id < 2 ^ 63 -> convert Int id <> id.
Proof. intros H E. pose proof (s32_range id) as Hr. cbn in E. rewrite E in Hr. clia. Qed.

(** (C40) The eight providers are well formed (names, parameters, lengths and
    types fit together), and their integer fields hold every value of their
    parameters but for the four of threadtree, which keep 32 of the 64 bits of
    a thread.  Whatever the command line and the system answer, every event
    that the programs record is declared by its provider, with arguments in
    the range of the declared types; a heartbeat always has a text, and an
    unwound stack as many addresses as it says. *)
Theorem tracepoints_declared {W A} (h : handler W) (w : W) (p : prog A)
    (Hh : forall X (e : sys X) w, proper X e (h X e w).1) (Hp : tracing A p) :
  forallb header_ok headers = true
  /\ narrow_fields = [("threadtree", "start", "id"); ("threadtree", "fork", "id");
                      ("threadtree", "fork", "child"); ("threadtree", "exit", "id")]
  /\ Forall (fun '(Ev e _) => declared_call _ e) (run (traced h) p (w, [])).2.2.
Proof.
  split; [by vm_compute|]. split; [by vm_compute|].
  destruct (upholds_run h p _ w [] Hh (tracing_declared _ _ Hp)) as (tr & -> & Hf). exact Hf.
Qed.

(** A thread of wk-heartbeat that records three events. *)
Theorem tracepoints_declared_witness :
  let o := Heartbeat.Opts None 0 3 1 0 1 in
  let tr := (run (traced (default_handler (W := unit)))
               (Heartbeat.heartbeat_thread (Some (Heartbeat.defaults o))) (tt, [])).2.2 in
  Forall (fun '(Ev e _) => declared_call _ e) tr
  /\ omap (fun x => match x with Point p n args => Some (p, n, args) | _ => None end) (observed tr)
     = replicate 3 ("heartbeat", "msg", [PStr (Some "heartbeat")]).
Proof.
  intros o tr. split; [|by vm_compute].
  refine (proj2 (proj2 (tracepoints_declared default_handler tt _ _ (wk_heartbeat o)))).
  intros X e w. destruct e; cbn; try exact I; split; try reflexivity; try discriminate; try constructor.
Defined.
