(* ===== verification/Cpm3Run.v ===== *)
(** * cpm3 as a family of processes

    The whole of [Cpm3.main] under a kernel with processes and one connection
    between two sockets: the master, the server and the client in every
    interleaving, with receives of any size and with SIGPIPE, from the first
    call to the last exit.  The master starts the client 10 ms after the
    server; what happens when that is not enough is a parameter, [refuses]. *)

From S2P Require Import Prelude CInt CString Libc CFloat Utils Calibrate Kernel Routine Cpm3.

Local Open Scope string_scope.
Local Open Scope list_scope.
Local Open Scope Z_scope.

(** ** The kernel: one connection *)

(** An end of the connection is a process and its descriptor; [stream] is under
    way from the server to the client. *)
Record sockets := Sockets {
  listening : bool; client_end : option (Z * Z); server_end : option (Z * Z);
  stream : list Z; client_gone : bool; server_gone : bool
}.

Definition listens st := Sockets true (client_end st) (server_end st) (stream st) (client_gone st) (server_gone st).
Definition connects st e := Sockets (listening st) (Some e) (server_end st) (stream st) (client_gone st) (server_gone st).
Definition accepts st e := Sockets (listening st) (client_end st) (Some e) (stream st) (client_gone st) (server_gone st).
Definition carries st l := Sockets (listening st) (client_end st) (server_end st) l (client_gone st) (server_gone st).

(** The program's other calls succeed where it depends on it; the alarm of the
    calibration arrives. *)
Definition granted {X} (e : sys X) : X -> Prop :=
  match e in sys X return X -> Prop with
  | Calloc _ _ | Malloc _ => fun x => is_Some x
  | Gethostbyname _ => fun x => is_Some x
  | Socket => fun x => 0 <= x
  | Setsockopt_reuse _ | Bind _ _ _ | Sigemptyset | Sigaction _ | Setitimer_real _ _ => fun x => x = 0
  | Run_reads => fun x => alarm_seen x = true
  | _ => fun _ => True
  end.

(** The calls of the connection. *)
Definition passive {X} (e : sys X) : bool :=
  match e with
  | Fork | Wait | Waitpid _ | Listen _ _ | Accept _ | Connect _ _ _ | Send _ _ | Recv _ _ => false
  | _ => true
  end.

Definition owns (e : option (Z * Z)) (p : Z) : bool :=
  match e with Some (q, _) => q =? p | None => false end.

Section kernel.
(** Is there room for a message; may a connection be refused? *)
Variables (can_send : list Z -> list Z -> Prop) (refuses : Prop).

(** Nobody to connect to: the call is refused, or it waits.  [recv] takes any
    piece of what is under way, and waits without; what is sent to a client
    that is gone is lost, with or without an error. *)
Definition net_answers (p : Z) X (e : sys X) (st : sockets) : X -> sockets -> Prop :=
  match e in sys X return X -> sockets -> Prop with
  | Listen _ _ => fun x st' => x = 0 /\ st' = listens st
  | Connect fd _ _ => fun x st' =>
      (x = 0 /\ listening st = true /\ client_end st = None /\ st' = connects st (p, fd))
      \/ (x = -1 /\ listening st = false /\ refuses /\ st' = st)
  | Accept _ => fun x st' =>
      0 <= x /\ is_Some (client_end st) /\ server_end st = None /\ st' = accepts st (p, x)
  | Send fd bs => fun x st' =>
      server_end st = Some (p, fd)
      /\ ((client_gone st = false /\ can_send (stream st) bs /\ x = Z.of_nat (length bs)
             /\ st' = carries st (stream st ++ bs))
          \/ (client_gone st = true /\ st' = st))
  | Recv fd n => fun x st' =>
      client_end st = Some (p, fd)
      /\ ((exists k, (0 < k <= length (stream st))%nat /\ Z.of_nat k <= n
             /\ x = (Z.of_nat k, take k (stream st)) /\ st' = carries st (drop k (stream st)))
          \/ (stream st = [] /\ server_gone st = true /\ x = (0, []) /\ st' = st))
  | e => fun x st' => granted e x /\ st' = st
  end.

(** A [send] to a client that is gone may raise SIGPIPE, signal 13. *)
Definition net_kills (p : Z) X (e : sys X) (st : sockets) (status : Z) : Prop :=
  match e with
  | Send fd _ => server_end st = Some (p, fd) /\ client_gone st = true /\ status = -13
  | _ => False
  end.

Definition net_exited (p : Z) (st : sockets) : sockets :=
  Sockets (listening st) (client_end st) (server_end st) (stream st)
    (client_gone st || owns (client_end st) p) (server_gone st || owns (server_end st) p).

Definition net_kernel : kernel sockets := {|
  answers := fun p X e st x st' => net_answers p X e st x st';
  kills := fun p X e st status => net_kills p X e st status;
  forked := fun _ _ st => st;
  reaped := fun _ _ st => st;
  exited := net_exited
|}.
End kernel.

(** ** The protocol *)

Inductive cview :=
  | M_start | M_server (s : Z) | M_both (s c : Z) | M_last (s : Z) | M_end
  | S_start | S_listening (fd : Z) | S_serving (fd : Z) (rest : list Z)
  | C_start | C_running (fd : Z) (asks : list Z).

Section protocol.
(** The bytes of all messages. *)
Variable all : list Z.

Definition cmay X (e : sys X) (v : cview) : Prop :=
  match e with
  | Fork => v = M_start \/ exists s, v = M_server s
  | Wait => False
  | Waitpid p => (exists s, v = M_both s p) \/ v = M_last p
  | Listen _ _ => v = S_start
  | Accept fd => v = S_listening fd
  | Send fd bs => exists rest, v = S_serving fd rest /\ bs `prefix_of` rest /\ (0 < length bs)%nat
      /\ Z.of_nat (length bs) <= SIZE
  | Connect _ _ _ => v = C_start
  | Recv fd n => exists asks, v = C_running fd (n :: asks) /\ 0 < n
  | _ => True
  end.

Definition clearns X (e : sys X) (v : cview) : X -> cview -> Prop :=
  match e in sys X return X -> cview -> Prop with
  | Fork => fun x v' =>
      match v with
      | M_start => (x = 0 /\ v' = S_start) \/ (0 < x /\ v' = M_server x)
      | M_server s => (x = 0 /\ v' = C_start) \/ (0 < x /\ v' = M_both s x)
      | _ => False
      end
  | Wait => fun _ _ => False
  | Waitpid p => fun _ v' => (exists s, v = M_both s p /\ v' = M_last s) \/ (v = M_last p /\ v' = M_end)
  | Listen fd _ => fun x v' => v' = S_listening fd
  | Accept fd => fun x v' => 0 <= x /\ v' = S_serving x all
  | Send fd bs => fun _ v' => exists rest, v = S_serving fd rest /\ v' = S_serving fd (drop (length bs) rest)
  | Connect fd _ _ => fun x v' => x = 0 /\ v' = C_running fd client_asks
  | Recv fd n => fun x v' => exists asks, v = C_running fd (n :: asks) /\ v' = C_running fd asks
  | e => fun x v' => granted e x /\ v' = v
  end.

Definition cleaves (status : Z) (v : cview) : Prop :=
  status = 0 /\ (v = M_end \/ (exists fd, v = S_serving fd []) \/ (exists fd, v = C_running fd [])).

Definition cpm3_protocol : protocol cview := {|
  may := cmay; learns := fun X e v x v' => clearns X e v x v'; leaves := cleaves
|}.

#[local] Notation P := cpm3_protocol.

(** ** The programs keep to it *)

Lemma net_passive_may X (e : sys X) v : passive e = true -> cmay X e v.
Proof. by destruct e. Qed.

Lemma passive_learns X (e : sys X) v x v' : passive e = true -> clearns X e v x v' <-> granted e x /\ v' = v.
Proof. by destruct e. Qed.

#[export] Instance cpm3_routine : Routine P (@passive) (@granted).
Proof. split; [apply net_passive_may|]. intros X e v x v' He Hl. by apply (passive_learns X e v x v' He). Qed.
#[export] Instance passive_sleeps : Sleeps (@passive).
Proof. by split. Qed.
#[export] Instance passive_counts : Counts (@passive) (@granted).
Proof. by split. Qed.

Lemma wp_make_ctx garbage v (Q : ctx -> cview -> Prop) :
  Q (Ctx 0 None 0 (take (Z.to_nat SIZE) garbage) SIZE 0) v -> wp P (make_ctx garbage SIZE) v Q.
Proof.
  intros HQ. unfold make_ctx. apply wp_routine; [done|]. intros x [a ->].
  apply wp_routine; [done|]. intros y [b ->]. by apply wp_ret.
Qed.

Lemma wp_free c v (Q : unit -> cview -> Prop) : Q tt v -> wp P (free_ctx c) v Q.
Proof. intros HQ. unfold free_ctx. apply wp_routine; [done|]. intros _ _. by apply wp_routine_last. Qed.

Lemma wp_make_server_socket (Q : Z -> cview -> Prop) :
  (forall fd, Q fd (S_serving fd all)) -> wp P make_server_socket S_start Q.
Proof.
  intros HQ. unfold make_server_socket.
  apply wp_routine; [done|]. intros fd Hfd. apply wp_check; [exact Hfd|].
  apply wp_routine; [done|]. intros r ->. apply wp_check; [done|].
  apply wp_routine; [done|]. intros h [addr ->].
  apply wp_routine; [done|]. intros r ->. apply wp_check; [done|].
  apply wp_routine; [done|]. intros _ _.
  apply wp_step; [done|]. intros x v' Hl. cbn in Hl. subst v'.
  apply wp_step; [done|]. intros nfd v' [Hn ->]. apply wp_check; [done|]. apply wp_ret, HQ.
Qed.

Lemma wp_make_client_socket (Q : Z -> cview -> Prop) :
  (forall fd, Q fd (C_running fd client_asks)) -> wp P make_client_socket C_start Q.
Proof.
  intros HQ. unfold make_client_socket.
  apply wp_routine; [done|]. intros fd Hfd. apply wp_check; [exact Hfd|].
  apply wp_routine; [done|]. intros h [addr ->].
  apply wp_step; [done|]. intros r v' [-> ->]. apply wp_check; [done|]. apply wp_ret, HQ.
Qed.

(** ** The rounds *)

Lemma wp_send c n id fd rest :
  sock c = fd -> Z.of_nat (length (buf c)) = SIZE -> 0 < n <= SIZE ->
  wp P (do_send c n id) (S_serving fd (take (Z.to_nat n) (buf c) ++ rest)) (fun _ v' => v' = S_serving fd rest).
Proof.
  intros <- Hb Hn. unfold do_send.
  assert (length (take (Z.to_nat n) (buf c)) = Z.to_nat n) as Hl by (rewrite length_take; lia).
  apply wp_step.
  { eexists. split; [done|]. split; [by eexists|]. rewrite Hl. lia. }
  intros x v' (rest' & [= <-] & ->). rewrite drop_app_length. apply wp_routine; [done|]. intros _ _. by apply wp_hog.
Qed.

Lemma wp_server_run c fd rest :
  sock c = fd -> size c = SIZE -> Z.of_nat (length (buf c)) = SIZE ->
  wp P (do_server_run c) (S_serving fd (concat (round (buf c)) ++ rest)) (fun _ v' => v' = S_serving fd rest).
Proof.
  intros Hf Hs Hb. unfold do_server_run. rewrite Hs. change (Z.shiftr SIZE 1) with 512.
  unfold round. cbn [concat]. rewrite app_nil_r, <- !app_assoc.
  change (take 1024 (buf c)) with (take (Z.to_nat SIZE) (buf c)).
  change (take 512 (buf c)) with (take (Z.to_nat 512) (buf c)).
  do 4 (eapply wp_bind; [by apply wp_send|]; intros _ ? ->).
  apply wp_sleep_then. intros _. by apply wp_ret.
Qed.

Lemma wp_recv c n id fd asks :
  sock c = fd -> 0 < n ->
  wp P (do_recv c n id) (C_running fd (n :: asks)) (fun c' v' => same c c' /\ v' = C_running fd asks).
Proof.
  intros <- Hn. unfold do_recv. apply wp_step; [by eexists|].
  intros [k bytes] v' (asks' & [= <-] & ->). apply wp_routine; [done|]. intros _ _.
  eapply wp_bind; [by apply (wp_hog _ _ (fun _ v' => v' = C_running (sock c) asks))|]. intros _ ? ->. by apply wp_ret.
Qed.

Lemma wp_client_run c fd asks :
  sock c = fd -> size c = SIZE ->
  wp P (do_client_run c) (C_running fd ([1024; 1024; 512; 512] ++ asks))
    (fun c' v' => (sock c' = fd /\ size c' = SIZE) /\ v' = C_running fd asks).
Proof.
  intros Hf Hs. unfold do_client_run. rewrite Hs. change (Z.shiftr SIZE 1) with 512.
  assert (forall c1 c2, sock c1 = fd /\ size c1 = SIZE -> same c1 c2 -> sock c2 = fd /\ size c2 = SIZE) as Hsame
    by (intros c1 c2 [<- <-] (-> & -> & _); done).
  pose proof (conj Hf Hs) as H0.
  eapply wp_bind; [by apply wp_recv|]. intros c1 ? [H1%(Hsame _ _ H0) ->].
  eapply wp_bind; [apply wp_recv; [apply H1|done]|]. intros c2 ? [H2%(Hsame _ _ H1) ->].
  eapply wp_bind; [apply wp_recv; [apply H2|done]|]. intros c3 ? [H3%(Hsame _ _ H2) ->].
  eapply wp_bind; [apply wp_recv; [apply H3|done]|]. intros c4 ? [H4%(Hsame _ _ H3) ->].
  apply wp_sleep_then. intros _. by apply wp_ret.
Qed.

(** ** The processes *)

Section programs.
Variables (garbage : list Z) (unit_ : Z).
Hypothesis Hg : SIZE <= Z.of_nat (length garbage).
Hypothesis Hall : all = concat (round (take (Z.to_nat SIZE) garbage)) ++ concat (round (take (Z.to_nat SIZE) garbage))
  ++ concat (round (take (Z.to_nat SIZE) garbage)).

Lemma wp_server : wp P (server garbage unit_) S_start (fun _ v => exists fd, v = S_serving fd []).
Proof using Hg Hall.
  assert (Z.of_nat (length (take (Z.to_nat SIZE) garbage)) = SIZE) as Hl by (rewrite length_take; unfold SIZE in *; lia).
  unfold server. eapply wp_bind; [by apply (wp_make_ctx _ _ (fun c v => size c = SIZE /\ buf c = take (Z.to_nat SIZE) garbage /\ v = S_start))|].
  intros c ? (Hs & Hb & ->).
  eapply wp_bind; [by apply (wp_make_server_socket (fun fd v => v = S_serving fd all))|]. intros fd ? ->.
  rewrite Hall, <- Hb.
  set (c' := set_mili (set_who (set_sock c fd) SERVER) unit_).
  assert (buf c' = buf c) as <- by done. assert (Z.of_nat (length (buf c')) = SIZE) as Hl' by (cbn; by rewrite Hb).
  eapply wp_bind; [by apply wp_server_run|]. intros _ ? ->.
  eapply wp_bind; [by apply wp_server_run|]. intros _ ? ->.
  rewrite <- (app_nil_r (concat _)).
  eapply wp_bind; [by apply (wp_server_run (set_mili c' 0))|]. intros _ ? ->.
  apply wp_routine; [done|]. intros _ _. apply wp_free. by exists fd.
Qed.

Lemma wp_client : wp P (client garbage unit_) C_start (fun _ v => exists fd, v = C_running fd []).
Proof.
  unfold client. eapply wp_bind; [by apply (wp_make_ctx _ _ (fun c v => size c = SIZE /\ v = C_start))|].
  intros c ? (Hs & ->).
  eapply wp_bind; [by apply (wp_make_client_socket (fun fd v => v = C_running fd client_asks))|]. intros fd ? ->.
  unfold client_asks.
  eapply wp_bind; [by apply wp_client_run|]. intros c1 ? [[H1 H1'] ->].
  eapply wp_bind; [by apply wp_client_run|]. intros c2 ? [[H2 H2'] ->].
  rewrite <- (app_nil_r [1024; 1024; 512; 512]).
  eapply wp_bind; [by apply wp_client_run|]. intros c3 ? [[H3 H3'] ->].
  apply wp_routine; [done|]. intros _ _. apply wp_free. by exists fd.
Qed.
End programs.

Lemma wp_spawn (f : prog unit) v w (Q : Z -> cview -> Prop) :
  cmay Z Fork v -> wp P f w (fun _ => cleaves 0) ->
  (forall x v', clearns Z Fork v x v' -> (x = 0 /\ v' = w) \/ (0 < x /\ Q x v')) ->
  wp P (spawn f) v Q.
Proof.
  intros Hm Hf HQ. unfold spawn. apply wp_step; [done|]. intros x v' Hl.
  destruct (HQ x v' Hl) as [[-> ->]|[Hx Hq]].
  - eapply wp_bind; [exact Hf|]. intros [] u Hu. exact Hu.
  - case_if; [lia|]. case_if; [lia|]. by apply wp_ret.
Qed.

Lemma wp_master garbage (Hg : SIZE <= Z.of_nat (length garbage))
    (Hall : all = concat (round (take (Z.to_nat SIZE) garbage)) ++ concat (round (take (Z.to_nat SIZE) garbage))
      ++ concat (round (take (Z.to_nat SIZE) garbage))) :
  wp P (main garbage) M_start (leaves P).
Proof.
  unfold main. eapply wp_bind; [by apply (wp_calibrate _ _ (fun _ v => v = M_start))|]. intros n ? ->.
  eapply wp_bind with (Q := fun _ v => v = M_end); [|intros _ ? ->; split; [done|by left]].
  unfold master.
  eapply wp_bind; [apply (wp_spawn _ M_start S_start (fun s v => v = M_server s)); [by left| |]|].
  { eapply wp_mono; [by apply wp_server|]. intros _ ? [fd ->]. split; [done|]. right. left. by exists fd. }
  { intros x v' [?|[? ->]]; [by left|by right]. }
  intros s ? ->. apply wp_sleep_then. intros _.
  eapply wp_bind; [apply (wp_spawn _ (M_server s) C_start (fun c v => v = M_both s c)); [right; by exists s| |]|].
  { eapply wp_mono; [by apply wp_client|]. intros _ ? [fd ->]. split; [done|]. right. right. by exists fd. }
  { intros x v' [?|[? ->]]; [by left|by right]. }
  intros c ? ->. apply wp_step; [left; by exists s|]. intros _ v' [(? & [= <-] & ->)|[? _]]; [|done].
  apply wp_step; [by right|]. intros _ v' [(? & [=] & _)|[_ ->]]. by apply wp_ret.
Qed.
End protocol.

(** ** The invariant *)

Lemma asks_short asked n asks : asked ++ n :: asks = client_asks -> zsum asked < zsum client_asks.
Proof.
  intros H. assert (Forall (Z.lt 0) (asked ++ n :: asks)) as Hp by (rewrite H; repeat constructor).
  apply Forall_app in Hp as [_ Hp]. inversion Hp as [|? ? Hn Hr]; subst. rewrite <- H, zsum_app, zsum_cons.
  assert (0 <= zsum asks); [|lia]. apply zsum_nonneg. eapply Forall_impl; [exact Hr|]. cbn. lia.
Qed.

Section invariant.
Variable all : list Z.
Hypothesis Hall : Z.of_nat (length all) = zsum client_asks.
#[local] Notation P := (cpm3_protocol all).

Definition is_gone (c : child cview) : bool := match c with Gone => true | _ => false end.

(** The child [p], and what is left of it when it has ended. *)
Definition born (p : Z) (c : child cview) : Prop :=
  match c with Unborn => False | Alive q _ => q = p | Gone => True end.
Definition dead (p : Z) (c : child cview) : list Z := if is_gone c then [p] else [].

Definition phase (m : option cview) (server client : child cview) (zs : list zombie) : Prop :=
  match m with
  | Some M_start => server = Unborn /\ client = Unborn /\ zs = []
  | Some (M_server s) => born s server /\ client = Unborn /\ map zpid zs ≡ₚ dead s server
  | Some (M_both s c) => s <> c /\ born s server /\ born c client
      /\ map zpid zs ≡ₚ dead s server ++ dead c client
  | Some (M_last s) => born s server /\ client = Gone /\ map zpid zs ≡ₚ dead s server
  | Some M_end => server = Gone /\ client = Gone /\ zs = []
  | None => server = Gone /\ client = Gone /\ zs = [Zombie 1 0 0]
  | _ => False
  end.

(** What the server has still to send. *)
Definition to_send (c : child cview) : list Z :=
  match c with Alive _ (S_serving _ rest) => rest | Gone => [] | _ => all end.

Definition server_ok (c : child cview) (st : sockets) : Prop :=
  match c with
  | Unborn | Alive _ S_start => listening st = false /\ server_end st = None
  | Alive _ (S_listening _) => listening st = true /\ server_end st = None
  | Alive p (S_serving fd _) => listening st = true /\ server_end st = Some (p, fd)
  | Gone => listening st = true
  | _ => False
  end.

(** The asks of the log and those to come are those of the client. *)
Definition client_ok (c : child cview) (st : sockets) (asked : list Z) : Prop :=
  match c with
  | Unborn | Alive _ C_start => client_end st = None /\ asked = []
  | Alive p (C_running fd asks) => client_end st = Some (p, fd) /\ asked ++ asks = client_asks
  | Gone => is_Some (client_end st) /\ asked = client_asks
  | _ => False
  end.

(** What has been received is the beginning of all messages; as long as the
    client is there, the rest is under way or still to be sent. *)
Definition flow (server client : child cview) (st : sockets) (got : list Z) : Prop :=
  got `prefix_of` all /\ (client <> Gone -> got ++ stream st ++ to_send server = all).

Definition cinv (ws : list (knows cview)) (zs : list zombie) (st : sockets) (log : list (Z * ev)) : Prop :=
  exists m server client,
    ws = main_list m ++ child_list client ++ child_list server /\ NoDup (map kpid ws)
    /\ phase m server client zs /\ (is_Some m -> Forall (fun z => zppid z = 1) zs)
    /\ server_ok server st /\ client_ok client st (map fst (received (map snd log)))
    /\ client_gone st = is_gone client /\ server_gone st = is_gone server
    /\ flow server client st (bytes_received (map snd log))
    /\ Forall fair (received (map snd log)).

(** The view of a process tells which one it is. *)
Lemma net_position a p q v b m client server zs st asked :
  a ++ Knows p q v :: b = main_list m ++ child_list client ++ child_list server ->
  phase m server client zs -> server_ok server st -> client_ok client st asked ->
  match v with
  | S_start | S_listening _ | S_serving _ _ => server = Alive p v /\ q = 1 /\ a = main_list m ++ child_list client /\ b = []
  | C_start | C_running _ _ => client = Alive p v /\ q = 1 /\ a = main_list m /\ b = child_list server
  | _ => m = Some v /\ p = 1 /\ q = 0 /\ a = [] /\ b = child_list client ++ child_list server
  end.
Proof.
  intros Hws Hph Hs Hc. destruct (member_inv _ _ _ _ _ _ _ _ Hws) as [(-> & H)|[(-> & H)|(-> & H)]].
  - by destruct v.
  - by destruct v.
  - by destruct v.
Qed.

(** A call that receives nothing is not seen in the log. *)
Lemma received_snoc (log : list (Z * ev)) p e :
  received (map snd (log ++ [(p, e)])) = received (map snd log) ++ option_list (recv_ev e).
Proof. rewrite map_app, received_app. f_equal. Qed.

Lemma bytes_received_snoc (log : list (Z * ev)) p e :
  bytes_received (map snd (log ++ [(p, e)])) = bytes_received (map snd log) ++ concat (map snd (option_list (recv_ev e))).
Proof. unfold bytes_received. by rewrite received_snoc, map_app, concat_app. Qed.

Lemma unseen (log : list (Z * ev)) p e : recv_ev e = None ->
  received (map snd (log ++ [(p, e)])) = received (map snd log)
  /\ bytes_received (map snd (log ++ [(p, e)])) = bytes_received (map snd log).
Proof. intros H. rewrite received_snoc, bytes_received_snoc, H. cbn. by rewrite !app_nil_r. Qed.

Lemma phase_server m p v v' client zs : phase m (Alive p v) client zs -> phase m (Alive p v') client zs.
Proof. destruct m as [[]|]; cbn; try done; by intros (? & ?). Qed.

Lemma phase_client m server p v v' zs : phase m server (Alive p v) zs -> phase m server (Alive p v') zs.
Proof. destruct m as [[]|]; cbn; try done; by intros (? & ? & ?). Qed.

(** A child is there only while the main process is. *)
Lemma phase_main m server client zs : phase m server client zs -> m <> None \/ server = Gone /\ client = Gone.
Proof. destruct m; [by left|]. intros (? & ? & _). by right. Qed.

Lemma names_server m client p (v v' : cview) :
  NoDup (map kpid ((main_list m ++ child_list client) ++ Knows p 1 v :: [])) ->
  NoDup (map kpid (main_list m ++ child_list client ++ child_list (Alive p v'))).
Proof. rewrite <- app_assoc, !map_app. done. Qed.

Lemma names_client m server p (v v' : cview) :
  NoDup (map kpid (main_list m ++ Knows p 1 v :: child_list server)) ->
  NoDup (map kpid (main_list m ++ child_list (Alive p v') ++ child_list server)).
Proof. rewrite !map_app. done. Qed.

(** ** The kernel respects it *)
Section respected.
Variable can_send : list Z -> list Z -> Prop.
Hypothesis Hroom : forall bs, Z.of_nat (length bs) <= SIZE -> can_send [] bs.
#[local] Notation K := (net_kernel can_send False).

(** A step of the server, and one of the client. *)
Lemma server_moves m p v v' client zs (st st' : sockets) (log : list (Z * ev)) e b q a :
  a = main_list m ++ child_list client -> b = [] -> q = 1 ->
  NoDup (map kpid (a ++ Knows p q v :: b)) -> phase m (Alive p v) client zs -> (is_Some m -> Forall (fun z => zppid z = 1) zs) ->
  recv_ev e = None -> Forall fair (received (map snd log)) ->
  client_ok client st' (map fst (received (map snd log))) ->
  client_gone st' = is_gone client -> server_gone st' = false ->
  server_ok (Alive p v') st' -> flow (Alive p v') client st' (bytes_received (map snd log)) ->
  cinv (a ++ Knows p q v' :: b) zs st' (log ++ [(p, e)]).
Proof.
  intros -> -> -> Hnd Hph Hz He Hf Hc Hcg Hsg Hs Hfl. destruct (unseen log p e He) as [E1 E2].
  exists m, (Alive p v'), client. rewrite E1, E2. split_and!; try done.
  - by rewrite <- app_assoc.
  - rewrite <- app_assoc. by eapply names_server.
  - by eapply phase_server.
Qed.

Lemma net_call_passive a b p q v X (e : sys X) x zs st st' log :
  cinv (a ++ Knows p q v :: b) zs st log -> passive e = true -> net_answers can_send False p X e st x st' ->
  exists v', clearns all X e v x v' /\ cinv (a ++ Knows p q v' :: b) zs st' (log ++ [(p, Ev e x)]).
Proof.
  intros (m & server & client & Hws & Hnd & Hph & Hz & Hs & Hc & Hcg & Hsg & Hfl & Hf) He Ha.
  assert (granted e x /\ st' = st) as [Hg ->] by (destruct e; try discriminate He; exact Ha).
  assert (recv_ev (Ev e x) = None) as Hr by (destruct e; try discriminate He; done).
  exists v. split; [by apply passive_learns|]. destruct (unseen log p _ Hr) as [E1 E2].
  exists m, server, client. rewrite E1, E2. by split_and!.
Qed.

Lemma call_listen a b p q v fd n x zs st st' log :
  cinv (a ++ Knows p q v :: b) zs st log -> cmay _ (Listen fd n) v ->
  net_answers can_send False p _ (Listen fd n) st x st' ->
  exists v', clearns all _ (Listen fd n) v x v' /\ cinv (a ++ Knows p q v' :: b) zs st' (log ++ [(p, Ev (Listen fd n) x)]).
Proof.
  intros (m & server & client & Hws & Hnd & Hph & Hz & Hs & Hc & Hcg & Hsg & Hfl & Hf) Hm [-> ->].
  cbn in Hm. subst v. exists (S_listening fd). split; [done|].
  destruct (net_position _ _ _ _ _ _ _ _ _ _ _ Hws Hph Hs Hc) as (-> & Hq & Ha & Hb). destruct Hs as [H1 H2].
  eapply server_moves; done.
Qed.

Lemma call_accept a b p q v fd x zs st st' log :
  cinv (a ++ Knows p q v :: b) zs st log -> cmay _ (Accept fd) v ->
  net_answers can_send False p _ (Accept fd) st x st' ->
  exists v', clearns all _ (Accept fd) v x v' /\ cinv (a ++ Knows p q v' :: b) zs st' (log ++ [(p, Ev (Accept fd) x)]).
Proof.
  intros (m & server & client & Hws & Hnd & Hph & Hz & Hs & Hc & Hcg & Hsg & Hfl & Hf) Hm (Hx & Hce & Hse & ->).
  cbn in Hm. subst v. exists (S_serving x all). split; [done|].
  destruct (net_position _ _ _ _ _ _ _ _ _ _ _ Hws Hph Hs Hc) as (-> & Hq & Ha & Hb). destruct Hs as [H1 H2].
  eapply server_moves; done.
Qed.

Lemma call_send a b p q v fd bs x zs st st' log :
  cinv (a ++ Knows p q v :: b) zs st log -> cmay _ (Send fd bs) v ->
  net_answers can_send False p _ (Send fd bs) st x st' ->
  exists v', clearns all _ (Send fd bs) v x v' /\ cinv (a ++ Knows p q v' :: b) zs st' (log ++ [(p, Ev (Send fd bs) x)]).
Proof.
  intros (m & server & client & Hws & Hnd & Hph & Hz & Hs & Hc & Hcg & Hsg & Hfl & Hf)
    (rest & -> & [rest' ->] & Hlen) (Hse & Hst).
  exists (S_serving fd (drop (length bs) (bs ++ rest'))). split; [by eexists|]. rewrite drop_app_length.
  destruct (net_position _ _ _ _ _ _ _ _ _ _ _ Hws Hph Hs Hc) as (-> & Hq & Ha & Hb).
  destruct Hfl as [Hpre Heq], Hs as [H1 H2].
  destruct Hst as [(Hg & _ & _ & ->)|[Hg ->]].
  - eapply server_moves; try done. split; [done|]. intros Hn. rewrite <- (Heq Hn). cbn. by rewrite <- app_assoc.
  - eapply server_moves; try done. split; [done|]. intros Hn. rewrite Hcg in Hg. by destruct client.
Qed.

Lemma call_connect a b p q v fd addr port x zs st st' log :
  cinv (a ++ Knows p q v :: b) zs st log -> cmay _ (Connect fd addr port) v ->
  net_answers can_send False p _ (Connect fd addr port) st x st' ->
  exists v', clearns all _ (Connect fd addr port) v x v'
    /\ cinv (a ++ Knows p q v' :: b) zs st' (log ++ [(p, Ev (Connect fd addr port) x)]).
Proof.
  intros (m & server & client & Hws & Hnd & Hph & Hz & Hs & Hc & Hcg & Hsg & Hfl & Hf) Hm Ha.
  destruct Ha as [(-> & Hl & Hce & ->)|(_ & _ & [] & _)].
  cbn in Hm. subst v. exists (C_running fd client_asks). split; [done|].
  destruct (net_position _ _ _ _ _ _ _ _ _ _ _ Hws Hph Hs Hc) as (-> & -> & -> & ->).
  exists m, server, (Alive p (C_running fd client_asks)).
  destruct (unseen log p (Ev (Connect fd addr port) 0) eq_refl) as [E1 E2]. rewrite E1, E2.
  destruct Hc as [_ Hc]. split_and!; try done.
  - by eapply names_client.
  - by eapply phase_client.
  - cbn. by rewrite Hc.
  - destruct Hfl as [Hpre Heq]. split; [done|]. intros _. by apply Heq.
Qed.

(** A client that has not asked for everything is owed something. *)
Lemma owed p fd n asks server st (log : list (Z * ev)) :
  client_ok (Alive p (C_running fd (n :: asks))) st (map fst (received (map snd log))) ->
  flow server (Alive p (C_running fd (n :: asks))) st (bytes_received (map snd log)) ->
  Forall fair (received (map snd log)) -> stream st = [] -> server = Gone -> False.
Proof using Hall.
  intros [_ Hc] [_ Heq] Hf Hnil ->. specialize (Heq ltac:(done)). rewrite Hnil in Heq. cbn in Heq.
  rewrite app_nil_r in Heq. pose proof (fair_total _ Hf) as Ht. fold (bytes_received (map snd log)) in Ht.
  pose proof (asks_short _ _ _ Hc). rewrite Heq in Ht. lia.
Qed.

Lemma call_recv a b p q v fd n x zs st st' log :
  cinv (a ++ Knows p q v :: b) zs st log -> cmay _ (Recv fd n) v ->
  net_answers can_send False p _ (Recv fd n) st x st' ->
  exists v', clearns all _ (Recv fd n) v x v' /\ cinv (a ++ Knows p q v' :: b) zs st' (log ++ [(p, Ev (Recv fd n) x)]).
Proof using Hall.
  intros (m & server & client & Hws & Hnd & Hph & Hz & Hs & Hc & Hcg & Hsg & Hfl & Hf)
    (asks & -> & Hn) (Hce & Hst).
  exists (C_running fd asks). split; [by eexists|].
  destruct (net_position _ _ _ _ _ _ _ _ _ _ _ Hws Hph Hs Hc) as (-> & -> & -> & ->).
  destruct Hst as [(k & Hk & Hkn & -> & ->)|(Hnil & Hg & -> & ->)]; cycle 1.
  { exfalso. rewrite Hsg in Hg. destruct server; try discriminate Hg. by eapply owed. }
  destruct Hfl as [Hpre Heq], Hc as [_ Hc]. specialize (Heq ltac:(done)).
  set (st' := carries st (drop k (stream st))). set (new := take k (stream st)).
  assert (length new = k) as Hnew by (subst new; rewrite length_take; lia).
  exists m, server, (Alive p (C_running fd asks)). rewrite received_snoc, bytes_received_snoc.
  assert (concat (map snd (option_list (recv_ev (Ev (Recv fd n) (Z.of_nat k, new))))) = new) as ->
    by (cbn; by rewrite app_nil_r).
  split_and!; try done.
  - by eapply names_client.
  - by eapply phase_client.
  - cbn. rewrite map_app, <- app_assoc. by split.
  - split; [|intros _; cbn; rewrite <- Heq, <- !app_assoc; f_equal; subst new; by rewrite app_assoc, take_drop].
    exists (drop k (stream st) ++ to_send server). rewrite <- Heq, <- !app_assoc. f_equal.
    subst new. by rewrite app_assoc, take_drop.
  - apply Forall_app. split; [done|]. constructor; [|constructor]. unfold fair. cbn. rewrite Hnew. lia.
Qed.

Lemma net_call_fork a b p q v child zs st log :
  cinv (a ++ Knows p q v :: b) zs st log -> cmay _ Fork v -> fresh_for child (a ++ Knows p q v :: b) zs ->
  exists v1 v2, clearns all _ Fork v child v1 /\ clearns all _ Fork v 0 v2
    /\ cinv (a ++ Knows p q v1 :: Knows child p v2 :: b) zs st (log ++ [(p, Ev Fork child)]).
Proof.
  intros (m & server & client & Hws & Hnd & Hph & Hz & Hs & Hc & Hcg & Hsg & Hfl & Hf) Hm [Hc0 Hfresh].
  rewrite not_elem_of_app in Hfresh. destruct Hfresh as [Hfw Hfz].
  destruct (unseen log p (Ev Fork child) eq_refl) as [E1 E2].
  destruct Hm as [->|[s ->]]; destruct (net_position _ _ _ _ _ _ _ _ _ _ _ Hws Hph Hs Hc) as (-> & -> & -> & -> & ->).
  - destruct Hph as (-> & -> & ->). exists (M_server child), S_start. split_and!; [cbn; auto..|].
    exists (Some (M_server child)), (Alive child S_start), Unborn. rewrite E1, E2. split_and!; try done.
    cbn in Hfw |- *. apply NoDup_cons. split; [|by apply NoDup_singleton].
    intros E%list_elem_of_singleton. apply Hfw. rewrite <- E. by left.
  - destruct Hph as (Hborn & -> & Hperm). exists (M_both s child), C_start. split_and!; [cbn; auto..|].
    exists (Some (M_both s child)), server, (Alive child C_start). rewrite E1, E2. split_and!; try done.
    + cbn in Hfw, Hnd |- *. apply NoDup_cons in Hnd as [Hn1 Hn2]. apply NoDup_cons.
      rewrite !not_elem_of_cons in *. split_and!; [by intuition..|]. apply NoDup_cons. split; [by intuition|done].
    + cbn. split_and!; [|done|done|by rewrite app_nil_r]. intros <-.
      destruct server as [|p' u|]; [done| |].
      * apply Hfw. cbn in Hborn |- *. subst p'. right. by left.
      * apply Hfz. rewrite Hperm. by left.
    + intros _. by apply Hz.
    + destruct Hfl as [Hpre Heq]. split; [done|]. intros _. by apply Heq.
Qed.

Lemma call_waitpid a b p q v z za zb st log :
  cinv (a ++ Knows p q v :: b) (za ++ z :: zb) st log -> cmay _ (Waitpid (zpid z)) v ->
  exists v', clearns all _ (Waitpid (zpid z)) v (zpid z) v'
    /\ cinv (a ++ Knows p q v' :: b) (za ++ zb) st (log ++ [(p, Ev (Waitpid (zpid z)) (zpid z))]).
Proof.
  intros (m & server & client & Hws & Hnd & Hph & Hz & Hs & Hc & Hcg & Hsg & Hfl & Hf) Hm.
  destruct (unseen log p (Ev (Waitpid (zpid z)) (zpid z)) eq_refl) as [E1 E2].
  assert (forall l k, map zpid (za ++ z :: zb) ≡ₚ l ++ zpid z :: k -> map zpid (za ++ zb) ≡ₚ l ++ k) as Hcancel.
  { intros l k. rewrite !map_app. cbn [map]. rewrite <- !Permutation_middle. by intros ?%Permutation_cons_inv. }
  assert (is_Some m -> Forall (fun z => zppid z = 1) (za ++ zb)) as Hz'.
  { intros Hm'. specialize (Hz Hm'). apply Forall_app in Hz as [Hza Hzb]. inversion Hzb. by apply Forall_app. }
  destruct Hm as [[s ->]| ->]; destruct (net_position _ _ _ _ _ _ _ _ _ _ _ Hws Hph Hs Hc) as (-> & -> & -> & -> & ->).
  - destruct Hph as (Hne & Hb1 & Hb2 & Hperm). exists (M_last s). split; [cbn; eauto|].
    assert (client = Gone) as ->.
    { assert (zpid z ∈ dead s server ++ dead (zpid z) client) as Hin
        by (rewrite <- Hperm, map_app; apply elem_of_app; right; by left).
      destruct client as [|? ?|]; [done| |done]. exfalso. cbn in Hin. rewrite app_nil_r in Hin.
      destruct server as [|? ?|]; cbn in Hin; [by apply not_elem_of_nil in Hin..|].
      apply list_elem_of_singleton in Hin. congruence. }
    exists (Some (M_last s)), server, Gone. rewrite E1, E2. split_and!; try done.
    + split_and!; [done..|]. rewrite <- (app_nil_r (dead s server)). by apply Hcancel.
    + intros _. by apply Hz'.
  - destruct Hph as (Hb1 & -> & Hperm). exists M_end. split; [cbn; auto|].
    assert (server = Gone) as ->.
    { assert (zpid z ∈ dead (zpid z) server) as Hin
        by (rewrite <- Hperm, map_app; apply elem_of_app; right; by left).
      destruct server as [|? ?|]; [done| |done]. by apply not_elem_of_nil in Hin. }
    exists (Some M_end), Gone, Gone. rewrite E1, E2. split_and!; try done.
    + split_and!; [done..|]. apply (Hcancel [] []) in Hperm. apply Permutation_nil_r in Hperm.
      by apply map_eq_nil in Hperm.
    + intros _. by apply Hz'.
Qed.

(** The awaited process is there: it runs or is a zombie. *)
Lemma call_waitpid_none a b p q v child zs st log :
  cinv (a ++ Knows p q v :: b) zs st log -> cmay _ (Waitpid child) v ->
  Forall (fun z => ~ dead_kid p child z) zs ->
  Forall (fun r => ~ (kpid r = child /\ kppid r = p)) (a ++ Knows p q v :: b) -> False.
Proof.
  intros (m & server & client & Hws & Hnd & Hph & Hz & Hs & Hc & Hcg & Hsg & Hfl & Hf) Hm Hnz Hnw.
  assert (forall s c, s = Alive child c -> In (Knows child 1 c) (a ++ Knows p q v :: b) -> p = 1 -> False) as Hlive.
  { intros s c _ Hin%list_elem_of_In ->. rewrite Forall_forall in Hnw. by apply (Hnw _ Hin). }
  assert (is_Some m -> p = 1 -> child ∈ map zpid zs -> False) as Hdead.
  { intros Hm' -> Hin. apply list_elem_of_fmap in Hin as (z & -> & Hin). specialize (Hz Hm').
    rewrite Forall_forall in Hz, Hnz. apply (Hnz _ Hin). split; [done|]. by apply Hz. }
  rewrite Hws in Hlive.
  destruct Hm as [[s ->]| ->]; destruct (net_position _ _ _ _ _ _ _ _ _ _ _ Hws Hph Hs Hc) as (-> & -> & -> & -> & ->).
  - destruct Hph as (Hne & Hb1 & Hb2 & Hperm). destruct client as [|c u|]; [done| |].
    + cbn in Hb2. subst c. eapply Hlive; [done| |done]. right. by left.
    + apply Hdead; [by eexists|done|]. rewrite Hperm. apply elem_of_app. right. by left.
  - destruct Hph as (Hb1 & -> & Hperm). destruct server as [|s u|]; [done| |].
    + cbn in Hb1. subst s. eapply Hlive; [done| |done]. right. by left.
    + apply Hdead; [by eexists|done|]. rewrite Hperm. by left.
Qed.

(** A child that ends becomes a zombie. *)
Lemma phase_server_ends m p v client zs q status :
  phase m (Alive p v) client zs -> phase m Gone client (zs ++ [Zombie p q status]).
Proof.
  destruct m as [[]|]; cbn; rewrite ?map_app; try by intuition.
  - intros (-> & -> & H). split_and!; [done..|]. apply Permutation_nil_r in H as ->. done.
  - intros (Hne & -> & Hb & H). split_and!; [done..|]. rewrite H. cbn. by rewrite Permutation_app_comm.
  - intros (-> & -> & H). split_and!; [done..|]. apply Permutation_nil_r in H as ->. done.
Qed.

Lemma phase_client_ends m server p v zs q status :
  phase m server (Alive p v) zs -> phase m server Gone (zs ++ [Zombie p q status]).
Proof.
  destruct m as [[]|]; cbn; rewrite ?map_app; try by intuition.
  intros (Hne & Hb & -> & H). split_and!; [done..|]. by rewrite H, app_nil_r.
Qed.

(** The server ends when it has sent everything or when there is no client to
    send to. *)
Lemma server_exits a b p q v status zs st log rest fd :
  cinv (a ++ Knows p q v :: b) zs st log -> v = S_serving fd rest -> rest = [] \/ client_gone st = true ->
  cinv (a ++ b) (zs ++ [Zombie p q status]) (net_exited p st) log.
Proof.
  intros (m & server & client & Hws & Hnd & Hph & Hz & Hs & Hc & Hcg & Hsg & Hfl & Hf) -> Hend.
  destruct (net_position _ _ _ _ _ _ _ _ _ _ _ Hws Hph Hs Hc) as (-> & -> & -> & ->).
  pose proof Hnd as Hd. rewrite <- app_assoc in Hd. apply (distinct _ (Alive p _)) in Hd as (Hd1 & _ & Hd3).
  rewrite app_nil_r. exists m, Gone, client. destruct Hs as [Hl Hse]. split_and!; try done.
  - cbn [child_list]. by rewrite app_nil_r.
  - rewrite !map_app in *. by apply NoDup_app in Hnd as (Hnd & _ & _).
  - by eapply phase_server_ends.
  - intros Hm. apply Forall_app. split; [by apply Hz|by constructor].
  - cbn. rewrite Hcg. destruct client as [|p' []|]; cbn in Hc |- *; try done; destruct Hc as [-> _]; try done.
    apply Z.eqb_neq, not_eq_sym. by eapply Hd3.
  - cbn. rewrite Hse. cbn. by rewrite Z.eqb_refl, orb_true_r.
  - destruct Hfl as [Hpre Heq]. split; [done|]. intros Hn. destruct Hend as [->|Hg]; [by apply Heq|].
    rewrite Hcg in Hg. by destruct client.
Qed.

Lemma client_exits a b p q v status zs st log fd :
  cinv (a ++ Knows p q v :: b) zs st log -> v = C_running fd [] ->
  cinv (a ++ b) (zs ++ [Zombie p q status]) (net_exited p st) log.
Proof.
  intros (m & server & client & Hws & Hnd & Hph & Hz & Hs & Hc & Hcg & Hsg & Hfl & Hf) ->.
  destruct (net_position _ _ _ _ _ _ _ _ _ _ _ Hws Hph Hs Hc) as (-> & -> & -> & ->).
  pose proof Hnd as Hd. apply (distinct _ server (Alive p _)) in Hd as (_ & Hd2 & Hd3).
  exists m, server, Gone. destruct Hc as [Hce Hc]. rewrite app_nil_r in Hc. split_and!; try done.
  - rewrite !map_app in *. cbn [map kpid] in Hnd |- *. by apply (NoDup_app_drop _ [p]) in Hnd.
  - by eapply phase_client_ends.
  - intros Hm. apply Forall_app. split; [by apply Hz|by constructor].
  - cbn. rewrite Hce. cbn. by rewrite Z.eqb_refl, orb_true_r.
  - cbn. rewrite Hsg. destruct server as [|p' []|]; cbn in Hs |- *; try done; destruct Hs as [_ ->]; try done.
    apply Z.eqb_neq. by eapply Hd3.
  - destruct Hfl as [Hpre _]. by split.
Qed.

Lemma net_call_exit a b p q v status zs st log :
  cinv (a ++ Knows p q v :: b) zs st log -> cleaves status v ->
  cinv (a ++ b) (zs ++ [Zombie p q status]) (net_exited p st) log.
Proof.
  intros HI [-> Hv]. destruct Hv as [->|Hv]; [|destruct Hv as [[fd ->]|[fd ->]]].
  - destruct HI as (m & server & client & Hws & Hnd & Hph & Hz & Hs & Hc & Hcg & Hsg & Hfl & Hf).
    destruct (net_position _ _ _ _ _ _ _ _ _ _ _ Hws Hph Hs Hc) as (-> & -> & -> & -> & ->).
    destruct Hph as (-> & -> & ->). exists None, Gone, Gone. split_and!; try done.
    + by apply NoDup_nil.
    + cbn. by rewrite Hcg.
    + cbn. by rewrite Hsg.
  - eapply server_exits; [done|reflexivity|by left].
  - by eapply client_exits.
Qed.

Lemma call_kill a b p q v X (e : sys X) status zs st log :
  cinv (a ++ Knows p q v :: b) zs st log -> cmay X e v -> net_kills p X e st status ->
  cinv (a ++ b) (zs ++ [Zombie p q status]) (net_exited p st) log.
Proof.
  intros HI Hm Hk. destruct e; try done. destruct Hm as (rest & -> & _), Hk as (_ & Hg & _).
  eapply server_exits; [done|reflexivity|by right].
Qed.

Lemma net_respects : respects K P cinv.
Proof using Hall.
  split.
  - intros a b p q v X e x zs st st' log HI He Hm Ha. destruct (passive e) eqn:Hpas.
    { by eapply net_call_passive. }
    destruct e; try discriminate He; try discriminate Hpas;
      [by eapply call_listen|by eapply call_accept|by eapply call_connect|by eapply call_send|by eapply call_recv].
  - intros a b p q v child zs st log HI Hm Hf. by eapply net_call_fork.
  - done.
  - done.
  - intros a b p q v z za zb st log HI Hm _. by eapply call_waitpid.
  - intros a b p q v child zs st log HI Hm Hz Hn. exfalso. by eapply call_waitpid_none.
  - intros a b p q v X e st zs s log HI Hm Hk. by eapply call_kill.
  - intros a b p q v st zs s log HI Hl. by eapply net_call_exit.
Qed.

(** ** Some process can always go on *)

Lemma net_passive_enabled p X (e : sys X) zs st : passive e = true -> enabled K p e zs st.
Proof.
  intros He. destruct e; try discriminate He; cbn;
    first [ by exists (Some 0), st; split; [eexists|] | by exists (Some []), st; split; [eexists|]
          | by exists 0, st; split | by exists [false], st; split | by exists inhabitant, st ].
Qed.

Lemma server_enabled p u client st zs X (e : sys X) :
  server_ok (Alive p u) st -> client_gone st = is_gone client ->
  (forall fd rest, u = S_serving fd rest -> stream st = [] \/ client = Gone) ->
  (forall fd, u = S_listening fd -> is_Some (client_end st)) ->
  cmay X e u -> enabled K p e zs st.
Proof using Hroom.
  intros Hs Hg Hroom' Hconn Hm. destruct (passive e) eqn:He; [by apply net_passive_enabled|].
  destruct e; try discriminate He; cbn in Hm.
  - subst u. by exists 0, (listens st).
  - subst u. destruct Hs as [_ Hs]. exists 0, (accepts st (p, 0)). split_and!; try done. by eapply Hconn.
  - subst u. by destruct Hs.
  - destruct Hm as [->|[s ->]]; by destruct Hs.
  - done.
  - destruct Hm as [[s ->]| ->]; by destruct Hs.
  - destruct Hm as (rest & -> & _ & Hl & Hlen). destruct Hs as [_ Hs].
    destruct (client_gone st) eqn:Hcg; [by exists 0, st; split; [|right]|].
    destruct (Hroom' _ _ eq_refl) as [Hnil| ->]; [|done].
    eexists _, _. split; [exact Hs|]. left. split_and!; try done. rewrite Hnil. by apply Hroom.
  - destruct Hm as (asks & -> & _). by destruct Hs.
Qed.

Lemma client_enabled p u st asked zs X (e : sys X) :
  client_ok (Alive p u) st asked -> (u = C_start -> listening st = true) ->
  (forall fd n asks, u = C_running fd (n :: asks) -> stream st <> []) ->
  cmay X e u -> enabled K p e zs st.
Proof using Type.
  clear Hall. intros Hc Hl Hs Hm. destruct (passive e) eqn:He; [by apply net_passive_enabled|].
  destruct e; try discriminate He; cbn in Hm.
  - subst u. by destruct Hc.
  - subst u. by destruct Hc.
  - subst u. destruct Hc as [Hc _]. exists 0, (connects st (p, fd)). left. split_and!; try done. by apply Hl.
  - destruct Hm as [->|[s ->]]; by destruct Hc.
  - done.
  - destruct Hm as [[s ->]| ->]; by destruct Hc.
  - destruct Hm as (rest & -> & _). by destruct Hc.
  - destruct Hm as (asks & -> & Hn). destruct Hc as [Hc _]. specialize (Hs _ _ _ eq_refl).
    destruct (stream st) as [|b l] eqn:E; [done|].
    exists (Z.of_nat 1, take 1 (stream st)), (carries st (drop 1 (stream st))). split; [done|]. left.
    exists 1%nat. rewrite E. cbn. split_and!; done || lia.
Qed.

Lemma net_main_enabled u server client st zs X (e : sys X) :
  phase (Some u) server client zs -> Forall (fun z => zppid z = 1) zs ->
  (forall s c, u = M_both s c -> c ∈ map zpid zs) -> (forall s, u = M_last s -> s ∈ map zpid zs) ->
  cmay X e u -> enabled K 1 e zs st.
Proof using Type.
  intros Hph Hz Hboth Hlast Hm. destruct (passive e) eqn:He; [by apply net_passive_enabled|].
  assert (forall p, p ∈ map zpid zs -> enabled K 1 (Waitpid p) zs st) as Hw.
  { intros p Hin. apply list_elem_of_fmap in Hin as (z & -> & Hin). exists z. split_and!; [done| |done].
    by apply (proj1 (Forall_forall _ _) Hz). }
  destruct e; try discriminate He; cbn in Hm; try (by subst u; destruct Hph); try done.
  - destruct Hm as [[s ->]| ->]; apply Hw; [by eapply Hboth|by apply Hlast].
  - by destruct Hm as (rest & -> & _).
  - by destruct Hm as (asks & -> & _).
Qed.

(** The client if it has something to read, else the server, else the
    master. *)
Lemma net_progresses : progresses K P cinv.
Proof using Hall Hroom.
  intros ws zs st log (m & server & client & -> & Hnd & Hph & Hz & Hs & Hc & Hcg & Hsg & Hfl & Hf) Hne.
  destruct m as [u|]; [|by destruct Hph as (-> & -> & _)]. specialize (Hz ltac:(by eexists)).
  assert ((forall s c, u = M_both s c -> c ∈ map zpid zs) -> (forall s, u = M_last s -> s ∈ map zpid zs) ->
    exists a p q v b, main_list (Some u) ++ child_list client ++ child_list server = a ++ Knows p q v :: b
      /\ forall X (e : sys X), cmay X e v -> enabled K p e zs st) as Hmain.
  { intros H1 H2. exists [], 1, 0, u, (child_list client ++ child_list server). split; [done|]. intros X e.
    by eapply net_main_enabled. }
  assert (forall p v, server = Alive p v -> (forall fd rest, v = S_serving fd rest -> stream st = [] \/ client = Gone) ->
    (forall fd, v = S_listening fd -> is_Some (client_end st)) ->
    exists a p q v b, main_list (Some u) ++ child_list client ++ child_list server = a ++ Knows p q v :: b
      /\ forall X (e : sys X), cmay X e v -> enabled K p e zs st) as Hserver.
  { intros p v -> H1 H2. exists (main_list (Some u) ++ child_list client), p, 1, v, [].
    split; [by rewrite <- app_assoc|]. intros X e. by eapply server_enabled. }
  destruct u as [|s|s c|s| | | | | |]; try (by apply Hmain); try (by destruct Hph).
  - destruct Hph as (Hsc & Hb1 & Hb2 & Hperm). destruct client as [|p u|]; [done| |].
    + assert ((u = C_start -> listening st = true) /\ (forall fd n asks, u = C_running fd (n :: asks) -> stream st <> [])
        \/ (u = C_start /\ listening st = false)
        \/ exists fd n asks, u = C_running fd (n :: asks) /\ stream st = []) as [[H1 H2]|[[-> Hl]|(fd & n & asks & -> & Hnil)]].
      { destruct u as [| | | | | | | | |fd [|n asks]]; try (by left).
        - destruct (listening st) eqn:E; [by left|by right; left].
        - destruct (stream st) eqn:E; [right; right; by exists fd, n, asks|left]. split; [done|]. by intros. }
      * exists (main_list (Some (M_both s c))), p, 1, u, (child_list server). split; [done|].
        intros X e. by eapply client_enabled.
      * destruct server as [|p' v|]; [done| |cbn in Hs; congruence].
        eapply Hserver; [done|intros ? ? ->; destruct Hs; congruence|intros ? ->; destruct Hs; congruence].
      * destruct server as [|p' v|]; [done| |exfalso; by eapply owed].
        eapply Hserver; [done|by left|]. intros fd' _. destruct Hc as [-> _]. by eexists.
    + destruct server as [|p' v|]; [done| |].
      * eapply Hserver; [done|by right|]. intros fd' _. by destruct Hc.
      * apply Hmain; [|done]. intros ? ? [= <- <-]. rewrite Hperm. cbn. right. by left.
  - destruct Hph as (Hb1 & -> & Hperm). destruct server as [|p' v|]; [done| |].
    + eapply Hserver; [done|by right|]. intros fd' _. by destruct Hc.
    + apply Hmain; [done|]. intros ? [= <-]. rewrite Hperm. by left.
Qed.
End respected.

Lemma cinv_start : cinv [Knows 1 0 M_start] [] (Sockets false None None [] false false) [].
Proof.
  exists (Some M_start), Unborn, Unborn. split_and!; try done; [apply NoDup_singleton|].
  split; [apply prefix_nil|done].
Qed.

Lemma cinv_facts ws zs st (log : list (Z * ev)) :
  cinv ws zs st log ->
  bytes_received (map snd log) `prefix_of` all /\ Forall fair (received (map snd log))
  /\ (ws = [] -> zs = [Zombie 1 0 0] /\ map fst (received (map snd log)) = client_asks).
Proof.
  intros (m & server & client & -> & _ & Hph & _ & _ & Hc & _ & _ & [Hpre _] & Hf). split_and!; [done..|].
  intros E. destruct m as [u|]; [done|]. destruct Hph as (-> & -> & ->). by destruct Hc.
Qed.
End invariant.

(** ** The program *)

Definition start (garbage : list Z) : config sockets :=
  Config [Proc 1 0 (main garbage)] [] (Sockets false None None [] false false) [].

(** The bytes of the three rounds. *)
Definition messages (garbage : list Z) : list Z :=
  let b := take (Z.to_nat SIZE) garbage in concat (round b) ++ concat (round b) ++ concat (round b).

Lemma messages_length garbage :
  SIZE <= Z.of_nat (length garbage) -> Z.of_nat (length (messages garbage)) = zsum client_asks.
Proof.
  intros Hg. assert (length (take (Z.to_nat SIZE) garbage) = 1024%nat) as Hl
    by (rewrite length_take; unfold SIZE in *; lia).
  unfold messages. set (b := take _ garbage) in *. unfold round. cbn [concat].
  by rewrite !length_app, !length_take, Hl.
Qed.

(** ** When the connection is refused *)
Section race.
Variable can_send : list Z -> list Z -> Prop.
#[local] Notation K := (net_kernel can_send True).

(** [c] can come to a state in which processes wait for ever. *)
Definition may_hang (c : config sockets) : Prop :=
  exists c', rtc (step K) c c' /\ procs c' <> [] /\ forall c'', ~ step K c' c''.

Lemma hang_step c c1 : step K c c1 -> may_hang c1 -> may_hang c.
Proof. intros Hs (c' & Hr & Hc). exists c'. split; [by eapply rtc_l|done]. Qed.

Lemma hang_call a b p q X (e : sys X) (x : X) s' (k : X -> prog Z) zs s l :
  ordinary e = true -> net_answers can_send True p X e s x s' ->
  (forall l', may_hang (Config (a ++ Proc p q (k x) :: b) zs s' l')) ->
  may_hang (Config (a ++ Proc p q (Vis e k) :: b) zs s l).
Proof. intros Ho Ha H. eapply hang_step; [by apply (step_call K a b p q X e k x)|apply H]. Qed.

Lemma hang_fork child a b p q (k : Z -> prog Z) zs s l :
  0 < child -> child ∉ pids (Config (a ++ Proc p q (Vis Fork k) :: b) zs s l) ->
  (forall l', may_hang (Config (a ++ Proc p q (k child) :: Proc child p (k 0) :: b) zs s l')) ->
  may_hang (Config (a ++ Proc p q (Vis Fork k) :: b) zs s l).
Proof. intros Hc Hf H. eapply hang_step; [by apply (step_fork K a b p q k child)|apply H]. Qed.

Lemma hang_exit a b p q (code : prog Z) st zs s l :
  ended code = Some st -> may_hang (Config (a ++ b) (zs ++ [Zombie p q st]) (net_exited p s) l) ->
  may_hang (Config (a ++ Proc p q code :: b) zs s l).
Proof. intros He H. eapply hang_step; [by apply (step_exit K a b p q)|exact H]. Qed.

Lemma hang_waitpid a b p q child (k : Z -> prog Z) st zs s l :
  (forall l', may_hang (Config (a ++ Proc p q (k child) :: b) zs s l')) ->
  may_hang (Config (a ++ Proc p q (Vis (Waitpid child) k) :: b) (Zombie child p st :: zs) s l).
Proof.
  intros H. eapply hang_step; [by apply (step_waitpid K a b p q child k (Zombie child p st) [] zs)|apply H].
Qed.

(** The server waits in [accept] for the client that has given up, the master
    for the server. *)
Lemma hang_here p q n (k : Z -> prog Z) fd (k' : Z -> prog Z) st l :
  client_end st = None ->
  may_hang (Config [Proc p q (Vis (Waitpid n) k); Proc n p (Vis (Accept fd) k')] [] st l).
Proof.
  intros Hn. eexists. split; [reflexivity|]. split; [done|]. intros c Hs.
  apply step_moves in Hs as (r & Hin & Hm). cbn in Hin.
  apply elem_of_cons in Hin as [->|[->|Hin%not_elem_of_nil]%elem_of_cons]; [| |done].
  - destruct Hm as [(z & ?%not_elem_of_nil & _)|Hm]; [done|]. cbn in Hm.
    rewrite Forall_forall in Hm. eapply (Hm (Proc n p _)); [right; by left|done].
  - destruct Hm as [(x & s' & _ & [y Hy] & _)|(? & [])]. cbn in Hy. congruence.
Qed.

(** The next call of a process, answered with [x]. *)
Ltac answered a b x := eapply (hang_call a b _ _ _ _ x); [reflexivity|first [by repeat split|by split; [eexists|]]|intros ?; cbn [app]].

Lemma race_hangs garbage : may_hang (start garbage).
Proof.
  unfold start.
  do 3 answered (@nil proc) (@nil proc) 0.
  do 11 answered (@nil proc) (@nil proc) [false].
  answered (@nil proc) (@nil proc) 0.
  eapply (hang_fork 2 []); [done|by vm_compute; intros ?%list_elem_of_singleton|intros l; cbn [app]].
  (* the master sleeps and starts the client *)
  match goal with |- may_hang (Config (_ :: ?b) _ _ _) => set (server_ := b) end.
  answered (@nil proc) server_ (0, 0). answered (@nil proc) server_ 0. answered (@nil proc) server_ (0, 0).
  eapply (hang_fork 3 []); [done|by vm_compute; intros [?|?%list_elem_of_singleton]%elem_of_cons|intros l1; cbn [app]].
  (* the client finds nobody and gives up *)
  match goal with |- may_hang (Config (?m :: _) _ _ _) => set (master_ := m) end.
  do 2 answered [master_] server_ (Some 0).
  answered [master_] server_ 0. answered [master_] server_ (Some (@nil Z)).
  eapply (hang_call [master_] server_ _ _ _ _ (-1)); [reflexivity|by right|intros ?; cbn [app]].
  answered [master_] server_ tt.
  eapply (hang_exit [master_] server_); [reflexivity|cbn [app net_exited]].
  (* the master awaits it *)
  subst master_. eapply (hang_waitpid [] server_). intros ?. cbn [app].
  (* the server comes up to accept *)
  match goal with |- may_hang (Config (?m :: _) _ _ _) => set (master_ := m) end. subst server_.
  do 2 answered [master_] (@nil proc) (Some 0).
  do 2 answered [master_] (@nil proc) 0. answered [master_] (@nil proc) (Some (@nil Z)).
  answered [master_] (@nil proc) 0. answered [master_] (@nil proc) tt.
  answered [master_] (@nil proc) 0.
  subst master_. by apply hang_here.
Qed.
End race.

(** (C35) cpm3 with its three processes.  If a connection waits until the server
    listens, every interleaving is finite, can only stop when all processes
    have ended, and leaves nothing but the master with status 0, even when
    the server is killed by SIGPIPE; at every moment what the client has
    received is the beginning of the server's messages, at least a byte and at
    most what it asked for each time, and at the end it has received its twelve
    messages, so that it never waits for bytes that nobody sends.  If
    the client can come first and is refused, the program can hang: the
    client gives up, the server waits for it and the master for the server. *)
Theorem cpm3_runs (can_send : list Z -> list Z -> Prop) (garbage : list Z)
    (Hroom : forall bs, Z.of_nat (length bs) <= SIZE -> can_send [] bs)
    (Hg : SIZE <= Z.of_nat (length garbage)) :
  (let K := net_kernel can_send False in
   sn (step K) (start garbage)
   /\ forall c, rtc (step K) (start garbage) c ->
     let got := map snd (log c) in
     bytes_received got `prefix_of` messages garbage /\ Forall fair (received got)
     /\ (procs c <> [] -> exists c', step K c c')
     /\ (procs c = [] -> zombies c = [Zombie 1 0 0] /\ map fst (received got) = client_asks))
  /\ (let K := net_kernel can_send True in
      exists c, rtc (step K) (start garbage) c /\ procs c <> [] /\ forall c', ~ step K c c').
Proof.
  split; [|apply race_hangs]. intros K. set (all := messages garbage).
  set (P := cpm3_protocol all). set (Inv := cinv all).
  assert (Z.of_nat (length all) = zsum client_asks) as Hall by (by apply messages_length).
  assert (respects K P Inv) as HR by (by apply net_respects).
  assert (progresses K P Inv) as HP by (by apply net_progresses).
  assert (good P Inv (start garbage)) as Hgood.
  { exists [Knows 1 0 M_start]. split; [|by apply cinv_start].
    constructor; [|constructor]. split_and!; [done..|]. by apply wp_master. }
  destruct (adequacy K P Inv _ HR HP Hgood) as [Hsn Hreach]. split; [done|].
  intros c Hc got. destruct (Hreach c Hc) as [(ws & Hw & HI) Hprog].
  destruct (cinv_facts _ _ _ _ _ HI) as (H1 & H2 & H3). split_and!; [done..| |].
  - intros Hne. by destruct Hprog.
  - intros E. apply H3. rewrite E in Hw. by inversion Hw.
Qed.

(** Socket buffers of 4096 bytes. *)
Definition buffered (stream bs : list Z) : Prop := Z.of_nat (length stream) + Z.of_nat (length bs) <= 4096.

Theorem cpm3_runs_witness :
  let K := net_kernel buffered False in
  sn (step K) (start (replicate 1024 7))
  /\ forall c, rtc (step K) (start (replicate 1024 7)) c -> procs c = [] ->
       map fst (received (map snd (log c))) = client_asks.
Proof.
  destruct (cpm3_runs buffered (replicate 1024 7)) as [[Hsn H] _].
  - intros bs Hbs. unfold buffered, SIZE in *. cbn. lia.
  - rewrite length_replicate. unfold SIZE. lia.
  - split; [exact Hsn|]. intros c Hc E. destruct (H c Hc) as (_ & _ & _ & Hend). by destruct (Hend E).
Defined.
