(* ===== verification/RpcRun.v ===== *)
(** * wk-rpc-client and wk-rpc-server, together

    The whole of [Rpc.client_main] and [Rpc.server_main], two processes at the ends
    of one connection, in every interleaving: the client that comes before
    the server listens is refused; else requests and answers alternate until
    the client closes, and the server comes back to wait for another client. *)

From S2P Require Import Prelude CInt CString Libc CFloat Utils Getopt Calibrate Kernel Routine Rpc.

Local Open Scope string_scope.
Local Open Scope list_scope.
Local Open Scope Z_scope.

#[local] Arguments encode m : simpl never.

(** ** The kernel: one connection *)

(** An end: the process and its descriptor, the bytes that have come and have
    not been read, and whether it has been closed.  [reset]: something came to
    a closed end, or an end was closed before all was read. *)
Record half := Half { owner : option (Z * Z); inbox : list Z; closed : bool }.
Record wires := Wires { listening : bool; client : half; server : half; reset : bool }.

Definition nobody : half := Half None [] false.
Definition owned h p fd := Half (Some (p, fd)) (inbox h) (closed h).
Definition gets h bytes := Half (owner h) (inbox h ++ bytes) (closed h).
Definition leaves_with h n := Half (owner h) (drop n (inbox h)) (closed h).
Definition closes h := Half (owner h) (inbox h) true.

(** A call on the end [mine] of the connection.  A message that is written
    comes whole, and a [read] takes all that has come, up to its size; nothing
    says how soon.  A [poll] without a limit waits. *)
Definition transfer (p : Z) X (e : sys X) (mine peer : half) (rst : bool) : X -> half -> half -> bool -> Prop :=
  match e in sys X return X -> half -> half -> bool -> Prop with
  | Read fd n => fun x mine' peer' rst' =>
      owner mine = Some (p, fd) /\ closed mine = false /\ peer' = peer /\ rst' = rst
      /\ ((rst = false /\ inbox mine <> []
             /\ x = (Z.of_nat (length (take (Z.to_nat n) (inbox mine))), take (Z.to_nat n) (inbox mine))
             /\ mine' = leaves_with mine (Z.to_nat n))
          \/ (rst = false /\ inbox mine = [] /\ closed peer = true /\ x = (0, []) /\ mine' = mine)
          \/ (rst = true /\ x = (-1, []) /\ mine' = mine))
  | Write fd bytes => fun x mine' peer' rst' =>
      owner mine = Some (p, fd) /\ closed mine = false /\ rst = false /\ mine' = mine
      /\ x = Z.of_nat (length bytes)
      /\ peer' = (if closed peer then peer else gets peer bytes) /\ rst' = closed peer
  | Poll_in fd t => fun x mine' peer' rst' =>
      owner mine = Some (p, fd) /\ closed mine = false /\ mine' = mine /\ peer' = peer /\ rst' = rst
      /\ ((x = 1 /\ (inbox mine <> [] \/ closed peer = true \/ rst = true)) \/ (x = 0 /\ 0 <= t))
  | Close fd => fun x mine' peer' rst' =>
      owner mine = Some (p, fd) /\ closed mine = false /\ x = 0 /\ mine' = closes mine /\ peer' = peer
      /\ rst' = rst || negb (bool_decide (inbox mine = []))
  | _ => fun _ _ _ _ => False
  end.

Definition on_wire (p : Z) X (e : sys X) (st : wires) (x : X) (st' : wires) : Prop :=
  exists mine peer rst,
    (transfer p X e (client st) (server st) (reset st) x mine peer rst
       /\ st' = Wires (listening st) mine peer rst)
    \/ (transfer p X e (server st) (client st) (reset st) x mine peer rst
          /\ st' = Wires (listening st) peer mine rst).

(** The programs' other calls succeed where they depend on it; the alarm of the
    calibration arrives. *)
Definition granted {X} (e : sys X) : X -> Prop :=
  match e in sys X return X -> Prop with
  | Malloc _ => fun x => is_Some x
  | Fopen _ _ => fun x => is_Some x
  | Gethostbyname _ => fun x => is_Some x
  | Socket => fun x => 0 <= x
  | Setsockopt_reuse _ | Bind _ _ _ | Sigemptyset | Sigaction _ | Setitimer_real _ _ => fun x => x = 0
  | Run_reads => fun x => alarm_seen x = true
  | _ => fun _ => True
  end.

(** A connection is refused before the server listens, and waits for
    [accept] from then on. *)
Definition wire_answers (p : Z) X (e : sys X) (st : wires) : X -> wires -> Prop :=
  match e in sys X return X -> wires -> Prop with
  | Listen _ _ => fun x st' => x = 0 /\ st' = Wires true (client st) (server st) (reset st)
  | Connect fd _ _ => fun x st' =>
      (x = 0 /\ listening st = true /\ owner (client st) = None
         /\ st' = Wires true (owned (client st) p fd) (server st) (reset st))
      \/ (x = -1 /\ listening st = false /\ st' = st)
  | Accept _ => fun x st' =>
      0 <= x /\ is_Some (owner (client st)) /\ owner (server st) = None
      /\ st' = Wires (listening st) (client st) (owned (server st) p x) (reset st)
  | Read fd n => on_wire p _ (Read fd n) st
  | Write fd bytes => on_wire p _ (Write fd bytes) st
  | Poll_in fd t => on_wire p _ (Poll_in fd t) st
  | Close fd => on_wire p _ (Close fd) st
  | e => fun x st' => granted e x /\ st' = st
  end.

(** A [write] on a connection that has been reset raises SIGPIPE, signal 13. *)
Definition wire_kills (p : Z) X (e : sys X) (st : wires) (status : Z) : Prop :=
  match e with
  | Write fd _ => reset st = true /\ (owner (client st) = Some (p, fd) \/ owner (server st) = Some (p, fd))
      /\ status = -13
  | _ => False
  end.

(** The end of a process that ends is closed. *)
Definition dropped (p : Z) (h : half) : half :=
  match owner h with Some (q, _) => if q =? p then closes h else h | None => h end.

Definition wire_exited (p : Z) (st : wires) : wires :=
  Wires (listening st) (dropped p (client st)) (dropped p (server st)) (reset st).

Definition wire_kernel : kernel wires := {|
  answers := fun p X e st x st' => wire_answers p X e st x st';
  kills := fun p X e st status => wire_kills p X e st status;
  forked := fun _ _ st => st;
  reaped := fun _ _ st => st;
  exited := wire_exited
|}.

(** ** The protocol *)

(** What each of the two knows.  The server: the requests it has [seen], those
    [to_come] (with the message of zeros that the end of the connection looks
    like), and the work it [did].  The client: the requests it has not made. *)
Inductive rview :=
  | S_boot | S_listening
  | S_reading (fd : Z) (seen to_come : list message) (did : list work)
  | S_working (fd : Z) (seen : list message) (m : message) (to_come : list message) (did : list work)
  | S_served (fd : Z) (seen : list message) (did : list work)
  | S_waiting (seen : list message) (did : list work)
  | C_start | C_asking (fd : Z) (reqs : list message)
  | C_waiting (fd : Z) (m : message) (reqs : list message)
  | C_closed | C_refused.

(** The work done is what the requests cost, at some price of a turn. *)
Definition paid (seen : list message) (did : list work) : Prop :=
  exists count, did = concat (map (cost count) seen).

Definition tell (w : option work) (v : rview) : rview :=
  match v with S_working fd seen m l did => S_working fd seen m l (did ++ option_list w) | v => v end.

Section protocol.
(** The requests of the client. *)
Variable R : list message.

Definition rmay X (e : sys X) (v : rview) : Prop :=
  match e with
  | Fork | Wait | Waitpid _ => False
  | Listen _ _ => v = S_boot
  | Accept _ => match v with S_listening | S_waiting _ _ => True | _ => False end
  | Connect _ _ _ => v = C_start
  | Read fd n => n = sizeof_message /\
      match v with S_reading fd' _ (_ :: _) _ | C_waiting fd' _ _ => fd' = fd | _ => False end
  | Write fd bytes =>
      match v with
      | S_working fd' seen m _ did => fd' = fd /\ bytes = encode (answer m) /\ paid (seen ++ [m]) did
      | C_asking fd' (m :: _) => fd' = fd /\ bytes = encode m
      | _ => False
      end
  | Poll_in fd t => t < 0 /\ exists m reqs, v = C_waiting fd m reqs
  | Close fd => (exists seen did, v = S_served fd seen did) \/ v = C_asking fd []
  | Busy _ | Nanosleep _ => match v with S_working _ _ _ _ _ | C_waiting _ _ _ => True | _ => False end
  | _ => True
  end.

Definition rlearns X (e : sys X) (v : rview) : X -> rview -> Prop :=
  match e in sys X return X -> rview -> Prop with
  | Listen _ _ => fun _ v' => v' = S_listening
  | Accept _ => fun x v' => v = S_listening /\ 0 <= x /\ v' = S_reading x [] (served R) []
  | Connect fd _ _ => fun x v' => (x = 0 /\ v' = C_asking fd R) \/ (x = -1 /\ v' = C_refused)
  | Read fd n => fun x v' => 0 <= x.1 /\
      match v with
      | S_reading _ seen (m :: l) did => read_into zero_message x.2 = m /\ v' = S_working fd seen m l did
      | C_waiting _ m reqs => read_into zero_message x.2 = answer m /\ v' = C_asking fd reqs
      | _ => False
      end
  | Write fd bytes => fun x v' => 0 <= x /\
      match v with
      | S_working _ seen m l did =>
          v' = if 0 <? cnt m then S_reading fd (seen ++ [m]) l did else S_served fd (seen ++ [m]) did
      | C_asking _ (m :: reqs) => v' = C_waiting fd m reqs
      | _ => False
      end
  | Poll_in _ _ => fun x v' => x <> 0 /\ v' = v
  | Close fd => fun _ v' =>
      match v with
      | S_served _ seen did => v' = S_waiting seen did
      | _ => v' = C_closed
      end
  | Fork | Wait | Waitpid _ => fun _ _ => False
  | Busy n => fun x v' => v' = tell (work_of (Ev (Busy n) x)) v
  | Nanosleep t => fun x v' => v' = tell (work_of (Ev (Nanosleep t) x)) v
  | e => fun x v' => granted e x /\ v' = v
  end.

Definition rleaves (status : Z) (v : rview) : Prop :=
  (v = C_closed /\ status = 0) \/ (v = C_refused /\ status = -1).

Definition rpc_protocol : protocol rview := {|
  may := rmay; learns := fun X e v x v' => rlearns X e v x v'; leaves := rleaves
|}.

#[local] Notation P := rpc_protocol.

Definition local_call {X} (e : sys X) : bool :=
  match e with
  | Fork | Wait | Waitpid _ | Listen _ _ | Accept _ | Connect _ _ _ | Read _ _ | Write _ _ | Poll_in _ _
  | Close _ | Busy _ | Nanosleep _ => false
  | _ => true
  end.

#[export] Instance rpc_routine : Routine P (@local_call) (@granted).
Proof. split; intros X e; by destruct e. Qed.
#[export] Instance rpc_counts : Counts (@local_call) (@granted).
Proof. by split. Qed.

(** ** The server keeps to it *)

(** A turn of work adds to what has been done. *)
Lemma wp_toil {X A} (e : sys X) (f : X -> prog A) fd seen m l did w Q :
  (forall x, work_of (Ev e x) = w) -> match e with Busy _ | Nanosleep _ => True | _ => False end ->
  (forall x, wp P (f x) (S_working fd seen m l (did ++ option_list w)) Q) ->
  wp P (call e ≫= f) (S_working fd seen m l did) Q.
Proof.
  intros Hw He Hf. apply wp_step; [by destruct e|]. intros x v' Hl.
  assert (v' = S_working fd seen m l (did ++ option_list w)) as ->; [|done].
  rewrite <- (Hw x). by destruct e.
Qed.

Lemma wp_serve count m0 fd seen m l did :
  wp P (serve count m0) (S_working fd seen m l did) (fun _ v => v = S_working fd seen m l (did ++ cost count m0)).
Proof.
  unfold serve, cost. case_if.
  { unfold hog. split; [done|]. intros x v' Hl. cbn in Hl. subst v'. done. }
  case_if; [|by apply wp_ret; rewrite app_nil_r]. unfold do_sleep. case_if.
  { apply wp_ret. by rewrite app_nil_r. }
  set (t := Timespec _ _).
  eapply (wp_bind _ _ _ _ (fun _ v => v = S_working fd seen m l (did ++ [Slept t]))); [|intros ? ? ->; by apply wp_ret].
  apply wp_routine; [done|]. intros _ _. apply (wp_toil (Nanosleep t) _ _ _ _ _ _ (Some (Slept t))); [done..|]. intros r.
  case_if; [by apply wp_ret|]. wp_routines. by apply wp_ret.
Qed.

Lemma cost_snoc count seen m :
  concat (map (cost count) seen) ++ cost count m = concat (map (cost count) (seen ++ [m])).
Proof. rewrite map_app, concat_app. cbn. by rewrite app_nil_r. Qed.

(** One message: read, work, answer. *)
Lemma wp_message count fd seen m l (f : message -> prog unit) Q :
  (0 < cnt m -> wp P (f (answer m)) (S_reading fd (seen ++ [m]) l (concat (map (cost count) (seen ++ [m])))) Q) ->
  (cnt m <= 0 -> wp P (f (answer m)) (S_served fd (seen ++ [m]) (concat (map (cost count) (seen ++ [m])))) Q) ->
  wp P ('(r, bytes) ← call (Read fd sizeof_message);
        (if r <? 0 then throw (Some "ERROR reading from socket") else Ret tt);;
        let msg := read_into zero_message bytes in
        serve count msg;;
        let msg := set_ret msg 42 in
        r ← call (Write fd (encode msg));
        (if r <? 0 then throw (Some "ERROR writing to socket") else Ret tt);;
        f msg)
    (S_reading fd seen (m :: l) (concat (map (cost count) seen))) Q.
Proof.
  intros H1 H2. apply wp_step; [done|]. intros [r bytes] v' (Hr & Hm & ->). cbn [fst snd] in *. subst m.
  apply wp_check; [done|]. cbv zeta. set (m := read_into zero_message bytes) in *.
  eapply wp_bind; [apply wp_serve|]. intros _ ? ->. rewrite cost_snoc.
  apply wp_step; [by split_and!; [..|exists count]|]. intros x v' [Hx ->]. apply wp_check; [done|].
  destruct (Z.ltb_spec 0 (cnt m)); [by apply H1|by apply H2].
Qed.

Lemma wp_session count fd fuel inbox seen :
  (length inbox < fuel)%nat ->
  wp P (session fuel count fd) (S_reading fd seen (served inbox) (concat (map (cost count) seen)))
    (fun _ v => v = S_served fd (seen ++ served inbox) (concat (map (cost count) (seen ++ served inbox)))).
Proof.
  revert inbox seen. induction fuel as [|fuel IH]; intros inbox seen Hf; [lia|].
  destruct inbox as [|m inbox]; cbn [served session].
  - apply (wp_message count fd seen zero_message [] (fun msg => if 0 <? cnt msg then session fuel count fd else Ret tt));
      [done|]. intros _. by apply wp_ret.
  - apply (wp_message count fd seen m _ (fun msg => if 0 <? cnt msg then session fuel count fd else Ret tt));
      intros Hc; cbn [cnt answer set_ret].
    + rewrite (proj2 (Z.ltb_lt 0 (cnt m)) Hc). rewrite (cons_middle m seen (served inbox)), app_assoc.
      apply IH. cbn in Hf. lia.
    + rewrite (proj2 (Z.ltb_ge 0 (cnt m)) Hc). by apply wp_ret.
Qed.

(** The server, for one client and the beginning of the next turn. *)
Lemma wp_server_main fuel addr port argv :
  (length R < fuel)%nat ->
  wp P (server_main 2 fuel (addr :: port :: argv);; Ret 0) S_boot (leaves P).
Proof.
  intros Hf. unfold server_main. eapply wp_bind with (Q := fun _ _ => False); [|done].
  apply wp_routine; [done|]. intros _ _. apply wp_calibrate_then. intros c. cbv zeta.
  apply wp_routine; [done|]. intros sockfd Hs. apply wp_check; [exact Hs|].
  apply wp_routine; [done|]. intros r ->. apply wp_check; [done|].
  apply wp_routine; [done|]. intros h [h_addr ->].
  apply wp_routine; [done|]. intros r ->. apply wp_check; [done|].
  apply wp_routine; [done|]. intros _ _.
  apply wp_step; [done|]. intros r v' Hl. cbn in Hl. subst v'. cbn [accept_loop].
  apply wp_step; [done|]. intros fd v' (_ & Hfd & ->). apply wp_check; [done|].
  eapply wp_bind; [by apply (wp_session (c / 10) fd fuel R [])|]. intros _ ? ->.
  apply wp_step; [left; by eexists _, _|]. intros x v' Hl. cbn in Hl. subst v'.
  apply wp_step; [done|]. by intros fd' v' [? _].
Qed.

(** ** The client keeps to it *)
Section the_client.
Variable o : opts.
Hypothesis (Hrep : 0 <= repeat o <= INT_MAX) (Hpoll : poll o <= 0).

Lemma requests_cons i :
  0 <= i < repeat o -> drop (Z.to_nat i) (requests o) = request o i :: drop (Z.to_nat (i + 1)) (requests o).
Proof.
  intros Hi. replace (Z.to_nat (i + 1)) with (S (Z.to_nat i)) by lia. apply drop_S.
  unfold requests. rewrite list_lookup_fmap, lookup_seqZ_lt by lia. cbn. f_equal. f_equal. lia.
Qed.

Lemma wp_poll_loop fuel fd t m reqs (Q : unit -> rview -> Prop) :
  (0 < fuel)%nat -> t < 0 -> Q tt (C_waiting fd m reqs) -> wp P (poll_loop fuel fd t) (C_waiting fd m reqs) Q.
Proof.
  intros Hf Ht HQ. destruct fuel as [|fuel]; [lia|]. cbn [poll_loop].
  apply wp_step; [by split; [|eexists _, _]|]. intros x v' [Hx ->]. case_if; [done|]. by apply wp_ret.
Qed.

Lemma wp_rpc_command fuel fd m ans reqs :
  (0 < fuel)%nat ->
  wp P (rpc_command fuel o fd m ans) (C_asking fd (m :: reqs)) (fun _ v => v = C_asking fd reqs).
Proof using Hpoll.
  intros Hf. unfold rpc_command. apply wp_step; [done|]. intros r v' [Hr ->]. case_if; [lia|].
  eapply (wp_bind _ _ _ _ (fun _ v => v = C_waiting fd m reqs)).
  { case_if; [|by apply wp_ret]. split; [done|]. intros x v' Hl. exact Hl. }
  intros _ ? ->. eapply (wp_bind _ _ _ _ (fun _ v => v = C_waiting fd m reqs)).
  { case_if; [|by apply wp_ret]. apply wp_poll_loop; [done| |done]. destruct (Z.eqb_spec (poll o) 0); [done|lia]. }
  intros _ ? ->. apply wp_step; [done|]. intros [r' bytes] v' (Hr' & _ & ->). cbn [fst] in Hr'. case_if; [lia|].
  eapply (wp_bind _ _ _ _ (fun _ v => v = C_asking fd reqs)).
  { case_if; [|by apply wp_ret]. by apply wp_routine_last. }
  intros _ ? ->. by apply wp_ret.
Qed.

Lemma wp_alloc_data v (Q : tsbuf -> rview -> Prop) :
  (forall p, Q (BArr p (replicate (Z.to_nat (repeat o)) (Timespec 0 0))) v) -> wp P (alloc_data (repeat o)) v Q.
Proof using Hrep.
  intros HQ. unfold alloc_data, sizeof_timespec. rewrite (u64_id (repeat o)), u64_id by clia. cbv zeta.
  apply wp_routine; [done|]. intros x [p ->]. wp_routines. rewrite Z.div_mul by done. by apply wp_ret.
Qed.

Lemma wp_gaps f p ts n v (Q : unit -> rview -> Prop) :
  Z.of_nat (length ts) = n + 1 -> 0 <= n -> Q tt v ->
  wp P (for_ (Z.to_nat n) 0 (fun i _ =>
           t1 ← load_ts (BArr p ts) (i + 1);
           t0 ← load_ts (BArr p ts) i;
           let ts := time_sub t1 t0 in
           call (Fprintf f ("%d,%ld.%09ld" +:+ NL) [PInt i; PInt (tv_sec ts); PInt (tv_nsec ts)])) tt) v Q.
Proof.
  intros Hl Hn HQ. eapply wp_mono; [apply (wp_for P _ (fun _ _ v' => v' = v)); [|done]|by intros [] ? ->].
  intros i [] ? Hi ->.
  assert (forall j, 0 <= j <= n -> exists t, load_ts (BArr p ts) j = Ret t) as Hload.
  { intros j Hj. unfold load_ts. case_if; [lia|].
    destruct (lookup_lt_is_Some_2 ts (Z.to_nat j)) as [t ->]; [lia|]. by eexists. }
  destruct (Hload (i + 1) ltac:(lia)) as [t1 ->], (Hload i ltac:(lia)) as [t0 ->].
  apply (wp_routine_last (Fprintf f _ _)); done.
Qed.

Lemma wp_rpc_experiment fuel fd :
  (0 < fuel)%nat ->
  wp P (rpc_experiment fuel o fd) (C_asking fd (requests o)) (fun _ v => v = C_asking fd []).
Proof using Hrep Hpoll.
  intros Hf. unfold rpc_experiment.
  eapply wp_bind; [apply (wp_alloc_data _ (fun d v =>
    (exists p l, d = BArr p l /\ length l = Z.to_nat (repeat o)) /\ v = C_asking fd (requests o)))|].
  { intros p. split; [|done]. eexists _, _. split; [done|]. by rewrite length_replicate. }
  intros d ? [(p & l & -> & Hl) ->].
  eapply wp_bind.
  { apply (wp_for P _ (fun i d v => (exists l, d = BArr p l /\ length l = Z.to_nat (repeat o))
      /\ v = C_asking fd (drop (Z.to_nat i) (requests o)))); [|split; [by eexists|done]].
    intros i d ? Hi [(l' & -> & Hl') ->]. apply wp_routine; [done|]. intros t _.
    rewrite requests_cons by lia. unfold store_ts.
    replace ((0 <=? i) && (i <? Z.of_nat (length l'))) with true by lia.
    apply (wp_bind _ (Ret _) _ _ (fun d v => (exists l, d = BArr p l /\ length l = Z.to_nat (repeat o))
      /\ v = C_asking fd (request o i :: drop (Z.to_nat (i + 1)) (requests o)))).
    { split; [|done]. eexists. split; [done|]. by rewrite length_insert. }
    intros d ? [Hd ->]. eapply wp_bind; [by apply wp_rpc_command|]. intros _ ? ->. by apply wp_ret. }
  clear l Hl. intros d ? [(l & -> & Hl) ->]. rewrite Z.add_0_l, Z2Nat.id by lia.
  rewrite drop_ge by (unfold requests; rewrite length_map, length_seqZ; lia).
  eapply wp_bind with (Q := fun _ v => v = C_asking fd []); [|intros _ ? ->; by apply wp_ret].
  case_if; [|by apply wp_ret]. apply wp_routine; [done|]. intros x [f ->]. rewrite s32_id by clia.
  eapply wp_bind; [apply (wp_gaps f p l _ _ (fun _ v => v = C_asking fd [])); [lia|lia|done]|].
  intros _ ? ->. apply (wp_routine_last (Fclose f)); done.
Qed.

Lemma wp_rpc_terminate fd (Q : Z -> rview -> Prop) : Q 0 C_closed -> wp P (rpc_terminate fd) (C_asking fd []) Q.
Proof. intros HQ. unfold rpc_terminate. apply wp_step; [by right|]. intros x v' Hl. cbn in Hl. by subst v'. Qed.
End the_client.

Lemma wp_rpc_calibrate v (Q : Z -> rview -> Prop) : (forall n, Q n v) -> wp P rpc_calibrate v Q.
Proof.
  intros HQ. unfold rpc_calibrate. apply wp_routine; [done|]. intros home _. cbv zeta.
  apply wp_routine; [done|]. intros _ _. apply wp_routine; [done|]. intros [] _.
  - apply wp_routine; [done|]. intros x [f ->]. wp_routines. by apply wp_ret.
  - apply wp_calibrate_then. intros c. apply wp_routine; [done|]. intros x [f ->]. wp_routines. by apply wp_ret.
Qed.

(** Connected, or refused. *)
Lemma wp_rpc_connect o (Q : Z * Z -> rview -> Prop) :
  is_Some (Rpc.server o) -> (forall fd, Q (0, fd) (C_asking fd R)) -> (forall fd, Q (-1, fd) C_refused) ->
  wp P (rpc_connect o) C_start Q.
Proof.
  intros [name Hname] H1 H2. unfold rpc_connect. apply wp_routine; [done|]. intros fd Hfd. cbn in Hfd.
  case_if; [lia|]. rewrite Hname. apply wp_routine; [done|]. intros h [h_addr ->].
  apply wp_step; [done|]. intros r v' [[-> ->]|[-> ->]]; cbn [Z.ltb Z.compare].
  - by apply wp_ret.
  - apply wp_routine; [done|]. intros _ _. by apply wp_ret.
Qed.
End protocol.

(** ** The options of the client *)

Definition typed (o : opts) : Prop := in_s32 (ocmd o) /\ in_s32 (delay o) /\ in_s32 (repeat o).

Lemma command_typed c t : in_s32 c -> in_s32 (command c t).
Proof. intros Hc. unfold command. repeat case_if; done || clia. Qed.

Lemma parse_opt_typed {W} (h : handler W) f o :
  has_its_arg optstring options f -> typed o -> returns h (parse_opt f o) typed.
Proof.
  intros Hf (Hc & Hd & Hr). destruct o as [a d c n s p x r v]. cbn [ocmd delay repeat] in *. unfold parse_opt.
  destruct (opt f) as [b0 b1 b2 b3 b4 b5 b6 b7] eqn:E. repeat case_match; subst;
    first [apply returns_usage | by apply returns_ret
          | apply returns_with_arg; [apply Hf; by rewrite E|]; intros t; split_and!; cbn;
            first [apply atoi_range|by apply command_typed|done]].
Qed.

Lemma parsed_typed argv n o : parse_opts argv n = Ret o -> typed o /\ is_Some (Rpc.server o).
Proof.
  intros E. assert (returns (default_handler (W := unit)) (parse_opts argv n) (fun o => typed o /\ is_Some (Rpc.server o))) as H.
  { unfold parse_opts. apply (returns_bind _ _ _ typed).
    - apply returns_opt_loop; [|apply parse_opt_typed]. split_and!; by vm_compute.
    - intros o' Ho. destruct (Rpc.server o') eqn:Es; [apply returns_ret; split; [done|by eexists]|].
      apply returns_call. intros _. apply returns_usage. }
  specialize (H tt). rewrite E in H. exact H.
Qed.

Lemma requests_good o : typed o -> 0 <= repeat o -> Forall (fun m => in_ints m /\ 0 < cnt m) (requests o).
Proof.
  intros (Hc & Hd & Hr) H0. unfold requests. apply Forall_map, Forall_forall. intros i Hi%elem_of_seqZ.
  unfold compose, in_ints, request. cbn. rewrite s32_id by clia. split_and!; try done; clia.
Qed.

(** The whole client. *)
Lemma wp_client_main fuel argv o :
  parse_opts argv 0 = Ret o -> 0 <= repeat o -> poll o <= 0 -> (0 < fuel)%nat ->
  wp (rpc_protocol (requests o)) (client_main fuel argv) C_start (leaves (rpc_protocol (requests o))).
Proof.
  intros Hargv H0 Hpoll Hf. destruct (parsed_typed _ _ _ Hargv) as [(_ & _ & Hr) Hs].
  unfold client_main. rewrite Hargv. set (Q := leaves _).
  apply (wp_bind _ (Ret o) _ _ (fun x v => x = o /\ v = C_start)); [done|]. intros ? ? [-> ->].
  eapply wp_bind; [by apply (wp_rpc_calibrate _ _ (fun _ v => v = C_start))|]. intros c ? ->. cbv zeta.
  apply wp_routine; [done|]. intros _ _. set (o' := Opts _ _ _ _ _ _ _ _ _).
  eapply wp_bind; [apply (wp_rpc_connect _ o' (fun '(r, fd) v =>
    (r = 0 /\ v = C_asking fd (requests o)) \/ (r = -1 /\ v = C_refused))); [done|by left|by right]|].
  intros [r fd] v [[-> ->]|[-> ->]]; cbn [Z.ltb Z.compare].
  - eapply wp_bind; [apply (wp_rpc_experiment (requests o') o'); [change (0 <= repeat o <= INT_MAX); clia|done|done]|]. intros _ ? ->.
    eapply wp_bind; [by apply (wp_rpc_terminate _ _ (fun _ v => v = C_closed))|]. intros _ ? ->. by left.
  - by right.
Qed.

(** ** What the log tells *)

(** The calls of one process, and the messages it read. *)
Definition own (p : Z) (log : list (Z * ev)) : list ev := omap (fun '(q, e) => if q =? p then Some e else None) log.

Definition read_of (e : ev) : option message :=
  match e with Ev (Read _ _) x => Some (read_into zero_message x.2) | _ => None end.
Definition messages_read (p : Z) (log : list (Z * ev)) : list message := omap read_of (own p log).

Lemma own_snoc p (log : list (Z * ev)) q e : own p (log ++ [(q, e)]) = own p log ++ if q =? p then [e] else [].
Proof. unfold own. rewrite omap_app. cbn. by destruct (q =? p). Qed.

Lemma messages_read_snoc p (log : list (Z * ev)) q e :
  messages_read p (log ++ [(q, e)]) = messages_read p log ++ if q =? p then option_list (read_of e) else [].
Proof. unfold messages_read. rewrite own_snoc, omap_app. by destruct (q =? p); cbn; [destruct (read_of e)|]. Qed.

Lemma works_snoc p (log : list (Z * ev)) q e :
  works (own p (log ++ [(q, e)])) = works (own p log) ++ if q =? p then option_list (work_of e) else [].
Proof. rewrite own_snoc, works_app. f_equal. destruct (q =? p); cbn; [|done]. by destruct (work_of e). Qed.

(** ** The invariant *)

(** The requests the server has read, those it has still to read, what it did. *)
Definition handled (v : rview) : list message :=
  match v with
  | S_reading _ seen _ _ | S_served _ seen _ | S_waiting seen _ => seen
  | S_working _ seen m _ _ => seen ++ [m]
  | _ => []
  end.
Definition did_of (v : rview) : list work :=
  match v with S_reading _ _ _ did | S_served _ _ did | S_waiting _ did | S_working _ _ _ _ did => did | _ => [] end.
Definition is_working (v : rview) : bool := match v with S_working _ _ _ _ _ => true | _ => false end.

(** The requests the client has not had answered, and its end when it has
    ended. *)
Definition pending (R : list message) (v : rview) : list message :=
  match v with C_start | C_refused => R | C_asking _ reqs => reqs | C_waiting _ m reqs => m :: reqs | _ => [] end.
Definition last_status (v : rview) : Z := match v with C_refused => -1 | _ => 0 end.

(** The server alone, in [accept]. *)
Definition awaits_a_client (c : config wires) : Prop :=
  exists fd k, procs c = [Proc 1 0 (Vis (Accept fd) k)].

Section invariant.
Variable R : list message.
Hypothesis HR : Forall (fun m => in_ints m /\ 0 < cnt m) R.
#[local] Notation P := (rpc_protocol R).

(** The server before its next request, when the client has [reqs] to make or
    to have answered; [so] is the server's end. *)
Definition ready (sv : rview) (reqs : list message) (so : option (Z * Z)) : Prop :=
  (sv = S_listening /\ reqs = R /\ so = None)
  \/ exists fd seen did, sv = S_reading fd seen (served reqs) did /\ so = Some (1, fd).

(** Requests and answers alternate: the two processes and the wires between
    them. *)
Inductive together : rview -> rview -> wires -> Prop :=
  | T_apart sv cv b :
      sv = (if b : bool then S_listening else S_boot) -> cv = C_start \/ cv = C_refused ->
      together sv cv (Wires b nobody nobody false)
  | T_idle sv fd reqs so :
      ready sv reqs so ->
      together sv (C_asking fd reqs) (Wires true (Half (Some (2, fd)) [] false) (Half so [] false) false)
  | T_asked sv fd m reqs so :
      ready sv (m :: reqs) so ->
      together sv (C_waiting fd m reqs)
        (Wires true (Half (Some (2, fd)) [] false) (Half so (encode m) false) false)
  | T_at_work sfd seen did fd m reqs :
      together (S_working sfd seen m (served reqs) did) (C_waiting fd m reqs)
        (Wires true (Half (Some (2, fd)) [] false) (Half (Some (1, sfd)) [] false) false)
  | T_answered sfd seen did fd m reqs :
      together (S_reading sfd seen (served reqs) did) (C_waiting fd m reqs)
        (Wires true (Half (Some (2, fd)) (encode (answer m)) false) (Half (Some (1, sfd)) [] false) false)
  | T_left sv fd so :
      ready sv [] so ->
      together sv C_closed (Wires true (Half (Some (2, fd)) [] true) (Half so [] false) false)
  | T_nobody sfd seen did fd :
      together (S_working sfd seen zero_message [] did) C_closed
        (Wires true (Half (Some (2, fd)) [] true) (Half (Some (1, sfd)) [] false) false)
  | T_served sfd seen did fd :
      together (S_served sfd seen did) C_closed
        (Wires true (Half (Some (2, fd)) [] true) (Half (Some (1, sfd)) [] false) true)
  | T_over seen did sfd fd :
      together (S_waiting seen did) C_closed
        (Wires true (Half (Some (2, fd)) [] true) (Half (Some (1, sfd)) [] true) true).

(** The log and what the two know. *)
Definition to_come (v : rview) : list message :=
  match v with
  | S_reading _ _ l _ | S_working _ _ _ l _ => l
  | S_served _ _ _ | S_waiting _ _ => []
  | _ => served R
  end.

Definition booked (sv cv : rview) (log : list (Z * ev)) : Prop :=
  messages_read 1 log = handled sv /\ works (own 1 log) = did_of sv /\ handled sv ++ to_come sv = served R
  /\ (is_working sv = false -> paid (handled sv) (did_of sv))
  /\ exists answered, R = answered ++ pending R cv /\ messages_read 2 log = map answer answered.

Definition rinv (ws : list (knows rview)) (zs : list zombie) (st : wires) (log : list (Z * ev)) : Prop :=
  exists sv cv (gone : bool),
    ws = Knows 1 0 sv :: (if gone then [] else [Knows 2 0 cv])
    /\ zs = (if gone then [Zombie 2 0 (last_status cv)] else [])
    /\ (gone = true -> cv = C_closed \/ cv = C_refused)
    /\ together sv cv st /\ booked sv cv log.

Lemma served_cons m reqs : 0 < cnt m -> served (m :: reqs) = m :: served reqs.
Proof. intros Hm. cbn. by rewrite (proj2 (Z.ltb_lt 0 (cnt m)) Hm). Qed.

Lemma pending_good sv cv log : booked sv cv log -> Forall (fun m => in_ints m /\ 0 < cnt m) (pending R cv).
Proof using HR. intros (_ & _ & _ & _ & answered & E & _). rewrite E in HR. by apply Forall_app in HR as [_ ?]. Qed.

(** The process in the middle is the server or the client. *)
Lemma rpc_position (a b : list (knows rview)) p q v sv cv (gone : bool) :
  a ++ Knows p q v :: b = Knows 1 0 sv :: (if gone then [] else [Knows 2 0 cv]) ->
  (a = [] /\ p = 1 /\ q = 0 /\ v = sv /\ b = (if gone then [] else [Knows 2 0 cv]))
  \/ (a = [Knows 1 0 sv] /\ p = 2 /\ q = 0 /\ v = cv /\ b = [] /\ gone = false).
Proof.
  destruct a as [|w a]; intros [= -> H]; [left; by subst|right].
  destruct gone; [by destruct a|]. apply app_singleton in H as [[-> [= -> -> -> ->]]|[_ ?]]; done.
Qed.

(** ** The kernel respects it *)
#[local] Notation K := wire_kernel.

(** A call that is no business of the other leaves its mark on nothing. *)
Lemma booked_quiet sv cv sv' cv' (log : list (Z * ev)) p e :
  read_of e = None -> (work_of e = None \/ p = 2) ->
  handled sv' = handled sv -> did_of sv' = did_of sv -> to_come sv' = to_come sv ->
  is_working sv' = is_working sv -> pending R cv' = pending R cv ->
  booked sv cv log -> booked sv' cv' (log ++ [(p, e)]).
Proof.
  intros Hr Hw Eh Ed Et Ei Ep. unfold booked. rewrite !messages_read_snoc, works_snoc, Hr, Eh, Ed, Et, Ei, Ep.
  assert ((if p =? 1 then option_list (work_of e) else []) = []) as -> by (destruct Hw as [-> | ->]; [by case_if|done]).
  cbn. assert (forall b : bool, (if b then @nil message else []) = []) as Hnil by (by intros []).
  by rewrite !Hnil, !app_nil_r.
Qed.

Lemma rpc_server_moves (gone : bool) sv' cv st' zs log' :
  zs = (if gone then [Zombie 2 0 (last_status cv)] else []) -> (gone = true -> cv = C_closed \/ cv = C_refused) ->
  together sv' cv st' -> booked sv' cv log' ->
  rinv ([] ++ Knows 1 0 sv' :: (if gone then [] else [Knows 2 0 cv])) zs st' log'.
Proof. intros -> Hg HT HB. by exists sv', cv, gone. Qed.

Lemma rpc_client_moves sv cv' st' log' :
  together sv cv' st' -> booked sv cv' log' -> rinv ([Knows 1 0 sv] ++ Knows 2 0 cv' :: []) [] st' log'.
Proof. intros HT HB. by exists sv, cv', false. Qed.

(** What a call of type [e] has to satisfy. *)
Definition keeps (X : Type) (e : sys X) : Prop :=
  forall a b p q v x zs st st' (log : list (Z * ev)),
    rinv (a ++ Knows p q v :: b) zs st log -> rmay X e v -> wire_answers p X e st x st' ->
    exists v', rlearns R X e v x v' /\ rinv (a ++ Knows p q v' :: b) zs st' (log ++ [(p, Ev e x)]).

Ltac where_is Hws := apply rpc_position in Hws as [(-> & -> & -> & -> & ->)|(-> & -> & -> & -> & -> & ->)].

Lemma keeps_local X (e : sys X) : local_call e = true -> keeps X e.
Proof.
  intros He a b p q v x zs st st' log (sv & cv & gone & Hws & -> & Hg & HT & HB) Hm Ha.
  assert (granted e x /\ st' = st) as [Hx ->] by (by destruct e).
  exists v. split; [by destruct e|].
  assert (read_of (Ev e x) = None /\ work_of (Ev e x) = None) as [H1 H2] by (by destruct e).
  exists sv, cv, gone. split_and!; try done. apply (booked_quiet sv cv); auto.
Qed.

Lemma sides sv cv st :
  together sv cv st ->
  match sv with C_start | C_asking _ _ | C_waiting _ _ _ | C_closed | C_refused => False | _ => True end
  /\ match cv with C_start | C_asking _ _ | C_waiting _ _ _ | C_closed | C_refused => True | _ => False end.
Proof.
  assert (forall reqs so, ready sv reqs so -> match sv with S_listening | S_reading _ _ _ _ => True | _ => False end) as Hr
    by (by intros reqs so [(-> & _)|(? & ? & ? & -> & _)]).
  destruct 1; try done; try (match goal with H : ready _ _ _ |- _ => apply Hr in H; by destruct sv end).
  subst sv. destruct b; destruct_or?; by subst cv.
Qed.

(** The cases of [together] that a view leaves. *)
Ltac cases HT := inv HT;
  repeat match goal with
  | H : ready _ _ _ |- _ => destruct H as [(? & ? & ?)|(? & ? & ? & ? & ?)]
  | H : _ = (if ?b then _ else _) |- _ => destruct b
  | H : _ \/ _ |- _ => destruct H
  end; simplify_eq/=; try done.

Lemma keeps_toil X (e : sys X) : match e with Busy _ | Nanosleep _ => True | _ => False end -> keeps X e.
Proof.
  intros He a b p q v x zs st st' log (sv & cv & gone & Hws & -> & Hg & HT & HB) Hm Ha.
  assert (st' = st) as -> by (destruct e; by destruct Ha).
  exists (tell (work_of (Ev e x)) v). split; [by destruct e|].
  assert (read_of (Ev e x) = None) as Hr by (by destruct e). destruct (sides _ _ _ HT) as [Hs Hc]. where_is Hws.
  - assert (exists fd seen m l did, sv = S_working fd seen m l did) as (fd & seen & m & l & did & ->)
      by (destruct e; try done; destruct sv; try done; by eexists _, _, _, _, _).
    eapply rpc_server_moves; [done..|cases HT; by econstructor|].
    destruct HB as (Hh & Hd & He' & _ & Hans). unfold booked. rewrite !messages_read_snoc, works_snoc, Hr, Hh, Hd.
    cbn. rewrite !app_nil_r. split_and!; done.
  - replace (tell (work_of (Ev e x)) cv) with cv by (by destruct cv).
    apply rpc_client_moves; [done|]. apply (booked_quiet sv cv); auto.
Qed.

Lemma keeps_listen fd n : keeps Z (Listen fd n).
Proof.
  intros a b p q v x zs st st' log (sv & cv & gone & Hws & -> & Hg & HT & HB) Hm [-> ->].
  exists S_listening. split; [done|]. destruct (sides _ _ _ HT) as [Hs Hc]. cbn in Hm.
  where_is Hws; [subst sv|by subst cv].
  eapply rpc_server_moves; [done..| |apply (booked_quiet S_boot cv); auto].
  cases HT; apply (T_apart S_listening _ true); auto.
Qed.

Lemma keeps_connect fd addr port : keeps Z (Connect fd addr port).
Proof.
  intros a b p q v x zs st st' log (sv & cv & gone & Hws & -> & Hg & HT & HB) Hm Ha.
  destruct (sides _ _ _ HT) as [Hs Hc]. cbn in Hm. where_is Hws; [by subst sv|subst cv].
  destruct Ha as [(-> & Hl & _ & ->)|(-> & Hl & ->)].
  - exists (C_asking fd R). split; [by left|]. apply rpc_client_moves; [|apply (booked_quiet sv C_start); auto].
    cases HT. apply (T_idle S_listening fd R None). by left.
  - exists C_refused. split; [by right|]. apply rpc_client_moves; [|apply (booked_quiet sv C_start); auto].
    cases HT. apply (T_apart S_boot C_refused false); auto.
Qed.

Lemma keeps_accept fd : keeps Z (Accept fd).
Proof.
  intros a b p q v x zs st st' log (sv & cv & gone & Hws & -> & Hg & HT & HB) Hm (Hx & Hce & Hse & ->).
  destruct (sides _ _ _ HT) as [Hs Hc]. where_is Hws; [|by destruct cv].
  assert (sv = S_listening) as -> by (destruct sv; try done; cases HT).
  exists (S_reading x [] (served R) []). split; [done|].
  eapply rpc_server_moves; [done..| |].
  - cases HT; try (by destruct Hce); unfold owned; cbn; constructor; right; exists x, [], []; split; congruence.
  - destruct HB as (Hh & Hd & He' & Hp & Hans). unfold booked. rewrite !messages_read_snoc, works_snoc, Hh, Hd.
    split_and!; try done. cbn. by rewrite app_nil_r.
Qed.

(** The wires when the caller is the server or the client. *)
Definition wire_case (p : Z) X (e : sys X) (st : wires) (x : X) (st' : wires) (at_client : bool) : Prop :=
  exists mine peer rst,
    if at_client
    then transfer p X e (client st) (server st) (reset st) x mine peer rst /\ st' = Wires (listening st) mine peer rst
    else transfer p X e (server st) (client st) (reset st) x mine peer rst /\ st' = Wires (listening st) peer mine rst.

Lemma owners sv cv st p fd :
  together sv cv st ->
  (owner (client st) = Some (p, fd) -> p = 2) /\ (owner (server st) = Some (p, fd) -> p = 1).
Proof using HR. intros HT. split; intros E; cases HT. Qed.

(** Who calls on the wires stands at his end. *)
Lemma at_end sv cv st p X (e : sys X) x st' :
  together sv cv st -> on_wire p X e st x st' -> wire_case p X e st x st' (p =? 2).
Proof using HR.
  intros HT (mine & peer & rst & [[H ->]|[H ->]]); exists mine, peer, rst.
  - assert (exists fd, owner (client st) = Some (p, fd)) as [fd Ho] by (destruct e; try done; eexists; exact (proj1 H)).
    by pose proof (proj1 (owners _ _ _ _ _ HT) Ho) as ->.
  - assert (exists fd, owner (server st) = Some (p, fd)) as [fd Ho] by (destruct e; try done; eexists; exact (proj1 H)).
    by pose proof (proj2 (owners _ _ _ _ _ HT) Ho) as ->.
Qed.

Lemma take_encode m : take (Z.to_nat sizeof_message) (encode m) = encode m.
Proof. apply take_ge. by rewrite length_encode. Qed.
Lemma drop_encode m : drop (Z.to_nat sizeof_message) (encode m) = [].
Proof. apply drop_ge. by rewrite length_encode. Qed.
Lemma encode_some m : encode m <> [].
Proof. intros E%(f_equal length). by rewrite length_encode in E. Qed.

Lemma good_here sv cv log m reqs :
  booked sv cv log -> pending R cv = m :: reqs -> in_ints m /\ 0 < cnt m.
Proof using HR. intros HB E. apply pending_good in HB. rewrite E in HB. by inv HB. Qed.

Lemma answer_ints m : in_ints m -> in_ints (answer m).
Proof. intros (? & ? & ? & ?). unfold in_ints, answer, set_ret. cbn. split_and!; done || clia. Qed.

(** A request read by the server. *)
Lemma booked_request sfd seen m l did cv log fd x :
  read_into zero_message x.2 = m ->
  booked (S_reading sfd seen (m :: l) did) cv log ->
  booked (S_working sfd seen m l did) cv (log ++ [(1, Ev (Read fd sizeof_message) x)]).
Proof.
  intros Hx (Hh & Hd & He & Hp & Hans). unfold booked. rewrite !messages_read_snoc, works_snoc, Hh, Hd.
  cbn. rewrite Hx, !app_nil_r. split_and!; try done. by rewrite <- app_assoc.
Qed.

(** An answer read by the client. *)
Lemma booked_answer sv m reqs log fd fd' x :
  read_into zero_message x.2 = answer m ->
  booked sv (C_waiting fd m reqs) log ->
  booked sv (C_asking fd reqs) (log ++ [(2, Ev (Read fd' sizeof_message) x)]).
Proof.
  intros Hx (Hh & Hd & He & Hp & answered & Ha & Hl). unfold booked. rewrite !messages_read_snoc, works_snoc, Hh, Hd, Hl.
  cbn. rewrite Hx, !app_nil_r. split_and!; try done. exists (answered ++ [m]).
  cbn in Ha. rewrite <- app_assoc, map_app. by split.
Qed.

Lemma keeps_read fd n : keeps (Z * list Z) (Read fd n).
Proof using HR.
  intros a b p q v x zs st st' log (sv & cv & gone & Hws & -> & Hg & HT & HB) [-> Hm] Ha.
  apply (at_end _ _ _ _ _ _ _ _ HT) in Ha. destruct (sides _ _ _ HT) as [Hs Hc]. where_is Hws; cbn in Ha.
  - destruct Ha as (mine & peer & rst & (Ho & Hcl & -> & -> & Ha) & ->).
    destruct sv as [| |fd' seen [|m l] did| | | | | | | |]; try done. subst fd'. exists (S_working fd seen m l did).
    destruct Ha as [(Hr & Hin & -> & ->)|[(Hr & Hin & Hcp & -> & ->)|(Hr & -> & ->)]]; [| |by cases HT].
    + assert (exists fd2 reqs, cv = C_waiting fd2 m reqs /\ l = served reqs
        /\ st = Wires true (Half (Some (2, fd2)) [] false) (Half (Some (1, fd)) (encode m) false) false)
        as (fd2 & reqs & -> & -> & ->).
      { cases HT. destruct (good_here _ _ _ _ _ HB eq_refl) as [_ Hp].
        rewrite (proj2 (Z.ltb_lt 0 _) Hp). by eexists _, _. }
      destruct (good_here _ _ _ _ _ HB eq_refl) as [Hi _].
      cbn [client server inbox leaves_with owner closed listening reset]. rewrite take_encode. cbn [rlearns fst snd].
      split; [split; [lia|by rewrite read_into_message]|].
      eapply rpc_server_moves; [done..| |apply booked_request; [by apply read_into_message|done]].
      unfold leaves_with. cbn [inbox owner closed]. rewrite drop_encode. by constructor.
    + assert (cv = C_closed /\ m = zero_message /\ l = []) as (-> & -> & ->) by (by cases HT).
      split; [done|]. eapply rpc_server_moves; [done..| |by apply booked_request]. cases HT. by constructor.
  - destruct Ha as (mine & peer & rst & (Ho & Hcl & -> & -> & Ha) & ->).
    destruct cv as [| | | | | | | |fd' m reqs| |]; try done. subst fd'. exists (C_asking fd reqs).
    destruct (good_here _ _ _ _ _ HB eq_refl) as [Hi%answer_ints _].
    destruct Ha as [(Hr & Hin & -> & ->)|[(Hr & Hin & Hcp & -> & ->)|(Hr & -> & ->)]]; [|by cases HT..].
    assert (exists sfd seen did, sv = S_reading sfd seen (served reqs) did /\ st = Wires true
      (Half (Some (2, fd)) (encode (answer m)) false) (Half (Some (1, sfd)) [] false) false)
      as (sfd & seen & did & -> & ->) by (cases HT; by eexists _, _, _).
    cbn [client server inbox leaves_with owner closed listening reset]. rewrite take_encode. cbn [rlearns fst snd].
    split; [split; [lia|by rewrite read_into_message]|].
    apply rpc_client_moves; [|eapply booked_answer; [by apply read_into_message|done]].
    unfold leaves_with. cbn [inbox owner closed]. rewrite drop_encode. constructor. right. by exists sfd, seen, did.
Qed.

(** A message answered by the server. *)
Lemma booked_answered sfd seen m l did cv log sv' fd bytes x :
  paid (seen ++ [m]) did ->
  sv' = (if 0 <? cnt m then S_reading sfd (seen ++ [m]) l did else S_served sfd (seen ++ [m]) did) ->
  (cnt m <= 0 -> l = []) ->
  booked (S_working sfd seen m l did) cv log -> booked sv' cv (log ++ [(1, Ev (Write fd bytes) x)]).
Proof.
  intros Hpd -> Hl (Hh & Hd & He & Hp & Hans). unfold booked. rewrite !messages_read_snoc, works_snoc, Hh, Hd.
  cbn. rewrite !app_nil_r. destruct (Z.ltb_spec 0 (cnt m)) as [Hm|Hm]; cbn; split_and!; try done.
  by rewrite <- He, (Hl Hm).
Qed.

Lemma keeps_write fd bytes : keeps Z (Write fd bytes).
Proof using HR.
  intros a b p q v x zs st st' log (sv & cv & gone & Hws & -> & Hg & HT & HB) Hm Ha.
  apply (at_end _ _ _ _ _ _ _ _ HT) in Ha. destruct (sides _ _ _ HT) as [Hs Hc]. where_is Hws; cbn in Ha.
  - destruct Ha as (mine & peer & rst & (Ho & Hcl & Hr & -> & -> & -> & ->) & ->).
    destruct sv as [| | |fd' seen m l did| | | | | | |]; try done. destruct Hm as (-> & -> & Hpd).
    exists (if 0 <? cnt m then S_reading fd (seen ++ [m]) l did else S_served fd (seen ++ [m]) did).
    split; [split; [lia|done]|].
    eapply rpc_server_moves; [done..| |eapply booked_answered; [done..| |done]].
    + cases HT; [|by constructor]. destruct (good_here _ _ _ _ _ HB eq_refl) as [_ Hp].
      rewrite (proj2 (Z.ltb_lt 0 _) Hp). constructor.
    + intros Hle. cases HT. destruct (good_here _ _ _ _ _ HB eq_refl) as [_ Hp]. lia.
  - destruct Ha as (mine & peer & rst & (Ho & Hcl & Hr & -> & -> & -> & ->) & ->).
    destruct cv as [| | | | | | |fd' [|m reqs]| | |]; try done. destruct Hm as [-> ->]. exists (C_waiting fd m reqs).
    split; [split; [lia|done]|]. apply rpc_client_moves; [|by apply (booked_quiet sv (C_asking fd (m :: reqs))); auto].
    inv HT. cbn. by constructor.
Qed.

Lemma keeps_poll fd t : keeps Z (Poll_in fd t).
Proof using HR.
  intros a b p q v x zs st st' log (sv & cv & gone & Hws & -> & Hg & HT & HB) (Ht & m & reqs & ->) Ha.
  exists (C_waiting fd m reqs). apply (at_end _ _ _ _ _ _ _ _ HT) in Ha. destruct (sides _ _ _ HT) as [Hs Hc].
  apply rpc_position in Hws as [(-> & -> & -> & <- & ->)|(-> & -> & -> & <- & -> & ->)]; [done|]. cbn in Ha.
  destruct Ha as (mine & peer & rst & (Ho & Hcl & -> & -> & -> & Hx) & ->). split; [split; [lia|done]|].
  apply rpc_client_moves; [by destruct st|]. by apply (booked_quiet sv (C_waiting fd m reqs)); auto.
Qed.

Lemma keeps_close fd : keeps Z (Close fd).
Proof using HR.
  intros a b p q v x zs st st' log (sv & cv & gone & Hws & -> & Hg & HT & HB) Hm Ha.
  apply (at_end _ _ _ _ _ _ _ _ HT) in Ha. destruct (sides _ _ _ HT) as [Hs Hc]. where_is Hws; cbn in Ha.
  - destruct Ha as (mine & peer & rst & (Ho & Hcl & -> & -> & -> & ->) & ->).
    destruct Hm as [(seen & did & ->)| ->]; [|done]. exists (S_waiting seen did). split; [done|].
    eapply rpc_server_moves; [done..|cases HT; by constructor|].
    by apply (booked_quiet (S_served fd seen did) cv); auto.
  - destruct Ha as (mine & peer & rst & (Ho & Hcl & -> & -> & -> & ->) & ->).
    destruct Hm as [(seen & did & ->)| ->]; [done|]. exists C_closed. split; [done|].
    apply rpc_client_moves; [|by apply (booked_quiet sv (C_asking fd [])); auto]. inv HT. by constructor.
Qed.

Lemma keeps_all X (e : sys X) : ordinary e = true -> keeps X e.
Proof using HR.
  intros He. destruct (local_call e) eqn:Hl; [by apply keeps_local|].
  destruct e; try discriminate Hl; try discriminate He;
    first [apply keeps_read|apply keeps_write|apply keeps_close|apply keeps_poll|apply keeps_listen
          |apply keeps_accept|apply keeps_connect|by apply keeps_toil].
Qed.

(** A client that ends has left the wires. *)
Lemma exit_same sv cv st : together sv cv st -> cv = C_closed \/ cv = C_refused -> wire_exited 2 st = st.
Proof using HR. intros HT Hcv. cases HT; done. Qed.

(** Nobody writes on a connection that was reset. *)
Lemma never_reset sv cv st X (e : sys X) p status :
  together sv cv st -> wire_kills p X e st status -> rmay X e sv \/ rmay X e cv -> False.
Proof using HR.
  intros HT Hk Hm. destruct e; try done. destruct Hk as (Hr & _ & _). cases HT.
Qed.

Lemma wire_respects : respects K P rinv.
Proof using HR.
  split.
  - intros a b p q v X e x zs st st' log HI He Hm Ha. by eapply keeps_all.
  - done.
  - done.
  - done.
  - done.
  - done.
  - intros a b p q v X e status zs st log (sv & cv & gone & Hws & -> & Hg & HT & HB) Hm Hk. exfalso.
    eapply never_reset; [done..|]. where_is Hws; auto.
  - intros a b p q v status zs st log (sv & cv & gone & Hws & -> & Hg & HT & HB) Hl.
    destruct (sides _ _ _ HT) as [Hs Hc]. where_is Hws; [by destruct Hl as [[-> _]|[-> _]]|].
    assert (cv = C_closed \/ cv = C_refused) as Hcv by (destruct Hl as [[-> _]|[-> _]]; auto).
    exists sv, cv, true. cbn [exited wire_kernel]. rewrite (exit_same _ _ _ HT Hcv). split_and!; try done.
    by destruct Hl as [[-> ->]|[-> ->]].
Qed.

(** ** Who waits, and for whom *)

Lemma local_enabled p X (e : sys X) zs st : local_call e = true -> enabled K p e zs st.
Proof using Type.
  clear HR. intros He. destruct e; try discriminate He; cbn;
    first [ by exists (Some 0), st; split; [eexists|] | by exists (Some []), st; split; [eexists|]
          | by exists 0, st; split | by exists [false], st; split | by exists inhabitant, st ].
Qed.

(** A call on the wires that can be answered. *)
Lemma wire_enabled p X (e : sys X) zs st x mine peer rst :
  transfer p X e (client st) (server st) (reset st) x mine peer rst
  \/ transfer p X e (server st) (client st) (reset st) x mine peer rst -> enabled K p e zs st.
Proof using Type.
  clear HR. intros H. assert (exists st', on_wire p X e st x st') as [st' Hw].
  { destruct H as [H|H]; eexists; exists mine, peer, rst; [left|right]; by split. }
  destruct e; try (by destruct H); by exists x, st'.
Qed.

#[local] Arguments enabled : simpl never.

(** The server waits for a client, or for the client it has. *)
Lemma server_waits sv cv st zs X (e : sys X) :
  together sv cv st -> rmay X e sv -> ~ enabled K 1 e zs st ->
  (match e with Accept _ => True | _ => False end
     /\ (cv = C_start \/ cv = C_refused \/ exists seen did, sv = S_waiting seen did))
  \/ (exists fd reqs, cv = C_asking fd reqs) \/ inbox (client st) <> [].
Proof using HR.
  intros HT Hm Hne. destruct (local_call e) eqn:He; [destruct Hne; by apply local_enabled|].
  destruct (sides _ _ _ HT) as [Hs Hc]. destruct e; try discriminate He; try (by destruct Hm); cbn in Hm.
  - (* nanosleep *) destruct Hne. by exists 0, st.
  - (* close *) destruct Hm as [(seen & did & ->)| ->]; [|done]. destruct Hne. cases HT.
    eapply wire_enabled. right. by split_and!.
  - (* read *) destruct Hm as [-> Hm]. destruct sv as [| |fd' seen [|m l] did| | | | | | | |]; try done. subst fd'.
    cases HT; eauto; try (right; right; apply encode_some); destruct Hne; eapply wire_enabled; right; split_and!; try done.
    + left. by split_and!.
    + right. left. by split_and!.
  - (* write *) destruct sv as [| | |fd' seen m l did| | | | | | |]; try done. destruct Hm as (-> & -> & _).
    destruct Hne. cases HT; eapply wire_enabled; right; by split_and!.
  - (* listen *) subst sv. destruct Hne. eexists 0, _. by split.
  - (* accept *) destruct sv; try done; cases HT; try solve [left; split; [done|]; eauto 6]; eauto 6;
      destruct Hne; eexists 0, _;
      (split_and!; [done|by eexists|done|done]).
  - (* connect *) by subst sv.
  - (* poll *) by destruct Hm as (_ & ? & ? & ->).
  - (* busy *) destruct Hne. by exists tt, st.
Qed.

(** The client waits for an answer. *)
Lemma client_waits sv cv st zs X (e : sys X) :
  together sv cv st -> rmay X e cv -> ~ enabled K 2 e zs st ->
  (exists fd m reqs, cv = C_waiting fd m reqs) /\ inbox (client st) = [].
Proof using HR.
  intros HT Hm Hne. destruct (local_call e) eqn:He; [destruct Hne; by apply local_enabled|].
  destruct (sides _ _ _ HT) as [Hs Hc]. destruct e; try discriminate He; try (by destruct Hm); cbn in Hm.
  - (* nanosleep *) destruct Hne. by exists 0, st.
  - (* close *) destruct Hm as [(seen & did & ->)| ->]; [done|]. destruct Hne. cases HT;
    eapply wire_enabled; left; by split_and!.
  - (* read *) destruct Hm as [-> Hm]. destruct cv as [| | | | | | | |fd' m reqs| |]; try done. subst fd'.
    cases HT; eauto 6. destruct Hne. eapply wire_enabled. left.
    split_and!; try done. left. by split_and!.
  - (* write *) destruct cv as [| | | | | | |fd' [|m reqs]| | |]; try done. destruct Hm as [-> ->].
    destruct Hne. cases HT; eapply wire_enabled; left; by split_and!.
  - (* listen *) by subst cv.
  - (* accept *) by destruct cv.
  - (* connect *) subst cv. destruct Hne. inv HT. destruct b; [eexists 0, _; by left|eexists (-1), _; by right].
  - (* poll *) destruct Hm as (Ht & m & reqs & ->). cases HT; eauto 6. destruct Hne. eapply wire_enabled. left.
    split_and!; try done. left. split; [done|]. by left.
  - (* busy *) destruct Hne. by exists tt, st.
Qed.

(** ** What follows from the invariant *)

Lemma served_app l k : Forall (fun m => in_ints m /\ 0 < cnt m) l -> served (l ++ k) = l ++ served k.
Proof using Type. clear HR. induction 1 as [|m l [_ Hm] _ IH]; [done|]. cbn [app]. by rewrite served_cons, IH. Qed.

(** The server is at most one request ahead of the answers. *)
Lemma one_ahead sv cv st log :
  together sv cv st -> booked sv cv log ->
  exists extra, served (pending R cv) = extra ++ to_come sv /\ (length extra <= 1)%nat.
Proof using HR.
  intros HT HB. assert (forall fd m reqs, cv = C_waiting fd m reqs -> 0 < cnt m) as Hpos
    by (intros fd m reqs ->; by eapply (good_here _ _ _ m)).
  inv HT; repeat match goal with
  | H : ready _ _ _ |- _ => destruct H as [(-> & ? & ->)|(? & ? & ? & -> & ->)]
  | H : _ \/ _ |- _ => destruct H as [-> | ->]
  end; try destruct b; cbn [pending to_come]; try (exists []; split; [cbn [app]; congruence|cbn; lia]);
    try (eexists [_]; split; [by apply served_cons; eapply Hpos|done]); by eexists [_].
Qed.

Lemma in_step sv cv st log :
  together sv cv st -> booked sv cv log ->
  exists answered extra, messages_read 2 log = map answer answered /\ messages_read 1 log = answered ++ extra
    /\ (length extra <= 1)%nat /\ answered ++ extra ++ to_come sv = R ++ [zero_message] /\ R = answered ++ pending R cv.
Proof using HR.
  intros HT HB. destruct (one_ahead _ _ _ _ HT HB) as (extra & He & Hl).
  destruct HB as (Hh & _ & Hc & _ & answered & Ha & Hr). exists answered, extra.
  assert (served R = R ++ [zero_message]) as HRz by (rewrite <- (app_nil_r R) at 1; by apply served_app).
  assert (answered ++ extra ++ to_come sv = served R) as E.
  { rewrite <- He. rewrite Ha at 2. symmetry. apply served_app. rewrite Ha in HR. by apply Forall_app in HR as [? _]. }
  rewrite Hh. split_and!; try done; [|by rewrite E].
  rewrite <- Hc, app_assoc in E. by apply app_inv_tail in E.
Qed.
(** Where nothing moves any more, the client has ended and the server is back
    in [accept]. *)
Lemma stuck_is_over c :
  good P rinv c -> (forall c', ~ step K c c') ->
  awaits_a_client c
  /\ ((zombies c = [Zombie 2 0 0]
         /\ messages_read 2 (log c) = map answer R /\ messages_read 1 (log c) = R ++ [zero_message]
         /\ paid (R ++ [zero_message]) (works (own 1 (log c))))
      \/ (zombies c = [Zombie 2 0 (-1)] /\ messages_read 2 (log c) = [] /\ messages_read 1 (log c) = [])).
Proof using HR.
  intros Hg Hstuck. destruct (stuck_blocked _ _ _ _ Hg Hstuck) as (ws & Hw & sv & cv & gone & -> & Hz & Hgone & HT & HB).
  destruct c as [ps zs st log]. cbn [procs zombies kstate Kernel.log] in *. subst zs.
  apply Forall2_cons_inv_r in Hw as ([p q cd] & rest & [(Hp & Hq & _) (X & e & k & Hcd & Hm & Hne)] & Hw & ->).
  cbn [pid ppid code kpid kppid view] in *. subst p q cd.
  pose proof (server_waits sv cv st _ X e HT Hm Hne) as Hs.
  destruct gone; cycle 1.
  { exfalso. apply Forall2_cons_inv_r in Hw as ([p q cd] & rest' & [(Hp & Hq & _) (X' & e' & k' & Hcd & Hm' & Hne')] & _ & _).
    cbn [pid ppid code kpid kppid view] in *. subst p q cd.
    destruct (client_waits sv cv st _ X' e' HT Hm' Hne') as [(fd & m & reqs & ->) Hin].
    destruct Hs as [[_ [?|[?|(seen & did & ->)]]]|[(? & ? & ?)|?]]; cases HT. }
  apply Forall2_nil_inv_r in Hw as ->. specialize (Hgone eq_refl).
  assert (match e with Accept _ => True | _ => False end /\ (cv = C_refused \/ exists seen did, sv = S_waiting seen did))
    as [He Hend].
  { destruct Hs as [[He [-> |Hs]]|[(fd & reqs & ->)|Hin]]; [by destruct Hgone|done|by destruct Hgone|].
    destruct Hgone as [-> | ->]; cases HT. }
  split; [destruct e; try done; by eexists _, _|].
  destruct (in_step sv cv st log HT HB) as (answered & extra & Ha & Hh & _ & Hall & Hpend).
  destruct Hend as [->|(seen & did & ->)].
  - right. split; [done|]. destruct HB as (Hh' & _). rewrite Ha, Hh'. cbn [pending] in Hpend.
    apply (f_equal length) in Hpend. rewrite length_app in Hpend. destruct answered; [|cbn in Hpend; lia].
    split; [done|]. inv HT. by destruct b.
  - left. assert (cv = C_closed) as -> by cases HT. cbn [pending to_come] in *. rewrite app_nil_r in Hpend.
    rewrite !app_nil_r in Hall. subst answered. rewrite Ha, Hh, Hall. split_and!; try done. destruct HB as (Hh' & Hd & _ & Hpd & _).
    rewrite Hd, <- Hall, <- Hh, Hh'. by apply Hpd.
Qed.

End invariant.

(** ** The programs together *)

(** The server for one client (it would take others), and the client. *)
Definition start (fuel : nat) (sargv cargv : list string) : config wires :=
  Config [Proc 1 0 (server_main 2 fuel sargv;; Ret 0); Proc 2 0 (client_main fuel cargv)] []
    (Wires false nobody nobody false) [].

Lemma rinv_start R : rinv R [Knows 1 0 S_boot; Knows 2 0 C_start] [] (Wires false nobody nobody false) [].
Proof.
  exists S_boot, C_start, false. split_and!; try done; [by apply (T_apart R S_boot C_start false); auto|].
  unfold booked. split_and!; try done; [by exists 0|]. by exists [].
Qed.

(** (C18) The server and the client, each whole, at the ends of one connection:
    every interleaving is finite, and where it stops the server is back in
    [accept] and the client has ended, either with status -1 because it came
    before the server listened, and then nothing was exchanged, or with
    status 0, and then every request was read by the server in order, its work
    done, and answered with [ret] set to 42, and the server has answered one
    more message, of zeros, to nobody.  At every moment the answers the client
    has read are those of the first requests, and the server is at most one
    request ahead. *)
Theorem rpc_runs (fuel : nat) (addr port_ : string) (sargv cargv : list string) (o : opts)
    (Hargv : parse_opts cargv 0 = Ret o) (Hrep : 0 <= repeat o) (Hpoll : poll o <= 0)
    (Hf : (Z.to_nat (repeat o) < fuel)%nat) :
  let K := wire_kernel in
  let c0 := start fuel (addr :: port_ :: sargv) cargv in
  sn (step K) c0
  /\ forall c, rtc (step K) c0 c ->
    (exists answered extra, messages_read 2 (log c) = map answer answered
       /\ messages_read 1 (log c) = answered ++ extra /\ (length extra <= 1)%nat
       /\ answered `prefix_of` requests o /\ answered ++ extra `prefix_of` requests o ++ [zero_message])
    /\ ((forall c', ~ step K c c') ->
        awaits_a_client c
        /\ ((zombies c = [Zombie 2 0 0]
               /\ messages_read 2 (log c) = map answer (requests o)
               /\ messages_read 1 (log c) = requests o ++ [zero_message]
               /\ exists price, works (own 1 (log c)) = concat (map (cost price) (requests o ++ [zero_message])))
            \/ (zombies c = [Zombie 2 0 (-1)] /\ messages_read 2 (log c) = [] /\ messages_read 1 (log c) = []))).
Proof.
  intros K c0. split; [apply executions_finite|]. intros c Hc. destruct (parsed_typed _ _ _ Hargv) as [Ht _].
  pose proof (requests_good o Ht Hrep) as HR.
  assert (good (rpc_protocol (requests o)) (rinv (requests o)) c0) as Hg0.
  { exists [Knows 1 0 S_boot; Knows 2 0 C_start]. split; [|apply rinv_start]. constructor; [|constructor; [|done]].
    - split_and!; [done..|]. apply wp_server_main. unfold requests. by rewrite length_map, length_seqZ.
    - split_and!; [done..|]. apply wp_client_main; try done. lia. }
  pose proof (steps_good K _ _ c0 c (wire_respects _ HR) Hc Hg0) as Hg. split.
  - destruct Hg as (ws & _ & sv & cv & gone & _ & _ & _ & HT & HB).
    destruct (in_step _ HR sv cv _ _ HT HB) as (answered & extra & Ha & Hh & Hl & Hall & Hpend).
    exists answered, extra. split_and!; try done; [by eexists|]. exists (to_come (requests o) sv). by rewrite <- app_assoc.
  - by apply (stuck_is_over _ HR).
Qed.

(** Two pings over the loopback. *)
Theorem rpc_runs_witness :
  let c0 := start 3 ["localhost"; "9876"] ["--server"; "localhost"; "--command=ping"; "--repeat"; "2"] in
  sn (step wire_kernel) c0
  /\ forall c, rtc (step wire_kernel) c0 c -> (forall c', ~ step wire_kernel c c') -> awaits_a_client c.
Proof.
  destruct (rpc_runs 3 "localhost" "9876" [] ["--server"; "localhost"; "--command=ping"; "--repeat"; "2"]
    (Opts 0 10 RPC_PING 0 (Some "localhost") 9876 0 2 0)) as [Hsn H].
  - reflexivity.
  - cbn. lia.
  - cbn. lia.
  - cbn. lia.
  - split; [exact Hsn|]. intros c Hc Hs. apply (H c Hc). exact Hs.
Defined.
