(* ===== verification/Kinship.v ===== *)
(** * The tree of the processes of a family

    What a kernel knows of a family of processes (Process) that fork and wait:
    for each its place in the family, its clock and the children it has still
    to wait for.  The links from child to parent form a tree whose root is the
    first process, the lists of children are those links, and the books of
    the kernel give every process another name. *)

From S2P Require Import Prelude CInt CString Libc Utils Calibrate Kernel Process.
From stdpp Require Import gmap sets.

Local Open Scope list_scope.
Local Open Scope Z_scope.

(** ** The books *)

Record ident := Ident { fam : family; births : nat; clock : Z; kids : list Z }.

(** [names]: the processes made so far, with their pids. *)
Record clockwork := Clockwork { ids : gmap Z ident; names : list (family * Z); told : list span }.

Definition advance (id : ident) (t : Z) : ident := Ident (fam id) (births id) t (kids id).

(** The list without [c]. *)
Definition without (c : Z) (l : list Z) : list Z := filter (fun k => k <> c) l.

(** A child starts where it is forked from. *)
Definition clock_forked (p c : Z) (s : clockwork) : clockwork :=
  match ids s !! p with
  | None => s
  | Some id =>
      let child := fam id ++ [births id] in
      Clockwork (<[c := Ident child O (clock id) []]>
          (<[p := Ident (fam id) (S (births id)) (clock id) (c :: kids id)]> (ids s)))
        (names s ++ [(child, c)]) (told s)
  end.

(** [waitpid] takes the caller to the end of its child. *)
Definition clock_reaped (p c : Z) (s : clockwork) : clockwork :=
  match ids s !! p, ids s !! c with
  | Some id, Some idc =>
      let t := Z.max (clock id) (clock idc) in
      Clockwork (<[p := Ident (fam id) (births id) t (without c (kids id))]> (ids s)) (names s)
        (told s ++ [Span (fam id) Waits (clock id) t])
  | _, _ => s
  end.

(** ** The tree of the processes

    [links]: every process with its parent. *)
Definition links (ws : list (knows (list Z))) (zs : list zombie) : list (Z * Z) :=
  map (fun w => (kpid w, kppid w)) ws ++ map (fun z => (zpid z, zppid z)) zs.

Record tree (ws : list (knows (list Z))) (zs : list zombie) : Prop := {
  t_nodup : NoDup (links ws zs).*1;
  t_pos : Forall (Z.lt 0) (links ws zs).*1;
  t_root : (1, 0) ∈ links ws zs;
  t_up l : l ∈ links ws zs -> l = (1, 0) \/ l.2 ∈ map kpid ws;
  t_kids w k : w ∈ ws -> k ∈ view w <-> (k, kpid w) ∈ links ws zs
}.

(** ** The books of a kernel *)

Definition place (s : clockwork) (k : Z) : option family := fam <$> ids s !! k.

Record booked (s : clockwork) (w : knows (list Z)) (id : ident) : Prop := {
  b_id : ids s !! kpid w = Some id;
  b_kids : kids id = view w;
  b_name : fam id = [] \/ fam id ∈ (names s).*1;
  b_next i : (births id <= i)%nat -> fam id ++ [i] ∉ (names s).*1
}.

Record books (ws : list (knows (list Z))) (zs : list zombie) (s : clockwork) : Prop := {
  k_booked w : w ∈ ws -> exists id, booked s w id;
  k_zombie z : z ∈ zs -> is_Some (ids s !! zpid z);
  k_deep w w' f f' : w ∈ ws -> w' ∈ ws -> kppid w' = kpid w ->
    place s (kpid w) = Some f -> place s (kpid w') = Some f' -> (length f < length f')%nat;
  k_inj w w' f : w ∈ ws -> w' ∈ ws -> place s (kpid w) = Some f -> place s (kpid w') = Some f -> kpid w = kpid w';
  k_names : NoDup (names s).*1;
  k_closed f i : f ++ [i] ∈ (names s).*1 -> f = [] \/ f ∈ (names s).*1;
  k_pos : Forall (Z.lt 0) (names s).*2
}.

(** The order of the processes does not matter. *)
#[export] Instance links_proper : Proper ((≡ₚ) ==> (≡ₚ) ==> (≡ₚ)) links.
Proof. intros ws ws' Hw zs zs' Hz. unfold links. by rewrite Hw, Hz. Qed.

#[export] Instance tree_proper : Proper ((≡ₚ) ==> (≡ₚ) ==> iff) tree.
Proof.
  assert (forall ws ws' zs zs', ws ≡ₚ ws' -> zs ≡ₚ zs' -> tree ws zs -> tree ws' zs') as H.
  { intros ws ws' zs zs' Hw Hz [H1 H2 H3 H4 H5].
    assert (links ws zs ≡ₚ links ws' zs') as Hl by (by rewrite Hw, Hz). split.
    - by rewrite <- Hl.
    - by rewrite <- Hl.
    - by rewrite <- Hl.
    - intros l. rewrite <- Hl, <- Hw. apply H4.
    - intros w k. rewrite <- Hl, <- Hw. apply H5. }
  intros ws ws' Hw zs zs' Hz. split; by apply H.
Qed.

#[export] Instance books_proper : Proper ((≡ₚ) ==> (≡ₚ) ==> eq ==> iff) books.
Proof.
  assert (forall ws ws' zs zs' s, ws ≡ₚ ws' -> zs ≡ₚ zs' -> books ws zs s -> books ws' zs' s) as H.
  { intros ws ws' zs zs' s Hw Hz [H1 H2 H3 H4 H5 H6 H7]. split; try done.
    - intros w. rewrite <- Hw. apply H1.
    - intros z. rewrite <- Hz. apply H2.
    - intros w w' f f'. rewrite <- Hw. apply H3.
    - intros w w' f. rewrite <- Hw. apply H4. }
  intros ws ws' Hw zs zs' Hz s ? <-. split; by apply H.
Qed.

Lemma links_cons w ws zs : links (w :: ws) zs = (kpid w, kppid w) :: links ws zs.
Proof. done. Qed.

Lemma links_zombie z ws zs : links ws (z :: zs) ≡ₚ (zpid z, zppid z) :: links ws zs.
Proof. unfold links. cbn. by rewrite Permutation_middle. Qed.

Lemma links_fst ws zs : (links ws zs).*1 = map kpid ws ++ map zpid zs.
Proof. unfold links. rewrite fmap_app. f_equal; [induction ws|induction zs]; cbn; congruence. Qed.

Lemma link_of w ws zs : w ∈ ws -> (kpid w, kppid w) ∈ links ws zs.
Proof. intros Hw. apply elem_of_app. left. by apply (list_elem_of_fmap_2 (fun w => (kpid w, kppid w))). Qed.

Lemma link_of_zombie z ws zs : z ∈ zs -> (zpid z, zppid z) ∈ links ws zs.
Proof. intros Hz. apply elem_of_app. right. by apply (list_elem_of_fmap_2 (fun z => (zpid z, zppid z))). Qed.

Lemma link_inv k q ws zs :
  (k, q) ∈ links ws zs ->
  (exists w, w ∈ ws /\ kpid w = k /\ kppid w = q) \/ (exists z, z ∈ zs /\ zpid z = k /\ zppid z = q).
Proof.
  intros [Hi|Hi]%elem_of_app; apply list_elem_of_fmap in Hi as (x & [= -> ->] & Hx); [left|right]; by exists x.
Qed.

(** The links determine the tree, up to the views of the processes. *)
Lemma link_pid k q ws zs : (k, q) ∈ links ws zs -> k ∈ (links ws zs).*1.
Proof. intros H. by apply (list_elem_of_fmap_2 fst) in H. Qed.

Lemma link_unique k q q' ws zs : NoDup (links ws zs).*1 -> (k, q) ∈ links ws zs -> (k, q') ∈ links ws zs -> q = q'.
Proof.
  intros Hnd H1 H2. apply list_elem_of_split in H1 as (l1 & l2 & E). rewrite E in *.
  rewrite fmap_app in Hnd. cbn in Hnd. apply NoDup_app in Hnd as (_ & Hn1 & Hn2).
  apply NoDup_cons in Hn2 as [Hn2 _].
  apply elem_of_app in H2 as [H2|[[= ->]|H2]%elem_of_cons]; [exfalso|done|exfalso].
  - apply (Hn1 k); [by apply (list_elem_of_fmap_2 fst) in H2|by left].
  - apply Hn2. by apply (list_elem_of_fmap_2 fst) in H2.
Qed.

Lemma tree_exit p q st ws zs :
  tree (Knows p q [] :: ws) zs -> tree ws (Zombie p q st :: zs).
Proof.
  intros [H1 H2 H3 H4 H5].
  assert (links ws (Zombie p q st :: zs) ≡ₚ links (Knows p q [] :: ws) zs) as E by (by rewrite links_zombie, links_cons).
  split; try (by rewrite E).
  - intros [k r] Hl. rewrite E in Hl. destruct (H4 _ Hl) as [?|Hin]; [by left|right]. cbn in Hin |- *.
    apply elem_of_cons in Hin as [->|Hin]; [|done]. exfalso.
    by apply (H5 (Knows p q []) k) in Hl as ?%not_elem_of_nil; [|left].
  - intros w k Hw. rewrite E. apply H5. by right.
Qed.

Lemma tree_reap p q v z ws zs :
  tree (Knows p q v :: ws) (z :: zs) -> zppid z = p ->
  tree (Knows p q (without (zpid z) v) :: ws) zs.
Proof.
  intros [H1 H2 H3 H4 H5] Hz. set (L := links (Knows p q (without (zpid z) v) :: ws) zs).
  assert (links (Knows p q v :: ws) (z :: zs) ≡ₚ (zpid z, p) :: L) as E by (rewrite links_zombie; by subst p).
  rewrite E in H1, H2, H3. cbn [fmap list_fmap fst] in H1, H2.
  apply NoDup_cons in H1 as [Hfr H1]. inversion H2 as [|? ? Hzp H2']; subst.
  assert (0 < zppid z) as Hp by (by inversion H2').
  split; try done.
  - apply elem_of_cons in H3 as [[= <- ?]|H3]; [lia|done].
  - intros l Hl. apply (H4 l). rewrite E. by right.
  - intros w k [->|Hw]%elem_of_cons; cbn [view kpid].
    + unfold without. rewrite list_elem_of_filter, (H5 (Knows (zppid z) q v) k) by (by left).
      cbn [kpid]. rewrite E, elem_of_cons. split.
      * by intros [Hne [[= ->]|Hl]].
      * intros Hl. split; [|by right]. intros ->. by eapply Hfr, link_pid.
    + rewrite H5 by (by right). rewrite E, elem_of_cons. split; [|by right].
      intros [[= -> Hk]|Hl]; [exfalso|done]. cbn in H1. apply NoDup_cons in H1 as [H1 _]. apply H1.
      rewrite <- Hk. by eapply link_pid, link_of.
Qed.

Lemma tree_fork p q v child ws zs :
  tree (Knows p q v :: ws) zs -> fresh_for child (Knows p q v :: ws) zs ->
  tree (Knows p q (child :: v) :: Knows child p [] :: ws) zs.
Proof.
  intros [H1 H2 H3 H4 H5] [Hc Hfr]. rewrite <- links_fst in Hfr.
  set (L := links (Knows p q v :: ws) zs) in *.
  assert (links (Knows p q (child :: v) :: Knows child p [] :: ws) zs ≡ₚ (child, p) :: L) as E
    by (unfold L; rewrite !links_cons; apply Permutation_swap).
  assert (forall r, (r, child) ∉ L) as Hno.
  { intros r Hl. destruct (H4 _ Hl) as [[= -> ->]|Hin]; [lia|]. apply Hfr. unfold L. rewrite links_fst.
    apply elem_of_app. by left. }
  split.
  - rewrite E. cbn. by apply NoDup_cons.
  - rewrite E. cbn. by constructor.
  - rewrite E. by right.
  - intros l. rewrite E. intros [->|Hl]%elem_of_cons; [right; cbn; by left|].
    destruct (H4 _ Hl) as [?|Hin]; [by left|right]. cbn in Hin |- *.
    apply elem_of_cons in Hin as [->|Hin]; [by left|]. right. by right.
  - intros w k. rewrite E, !elem_of_cons. intros [->|[->|Hw]]; cbn [view kpid].
    + rewrite elem_of_cons, (H5 (Knows p q v) k) by (by left). cbn [kpid]. split.
      * intros [->|?]; [by left|by right].
      * intros [[= ->]|?]; [by left|by right].
    + split; [by intros ?%not_elem_of_nil|]. intros [[= -> <-]|Hl]; [|by destruct (Hno k)].
      exfalso. apply Hfr. by left.
    + rewrite (H5 w k) by (by right). split; [by right|]. intros [[= -> E2]|?]; [exfalso|done].
      cbn in H1. apply NoDup_cons in H1 as [H1 _]. apply H1. rewrite <- E2. by eapply link_pid, link_of.
Qed.

(** The named child is there, alive or dead. *)
Lemma tree_awaited w k ws zs :
  tree ws zs -> w ∈ ws -> k ∈ view w ->
  (exists w', w' ∈ ws /\ kpid w' = k /\ kppid w' = kpid w) \/ (exists z, z ∈ zs /\ dead_kid (kpid w) k z).
Proof. intros HT Hw Hk. apply (t_kids _ _ HT w k Hw) in Hk. by apply link_inv in Hk. Qed.

(** Only the first process is left when all have ended. *)
Lemma tree_over zs : tree [] zs -> exists st, zs = [Zombie 1 0 st].
Proof.
  intros [H1 H2 H3 H4 H5].
  assert (forall z, z ∈ zs -> zpid z = 1 /\ zppid z = 0) as Hz.
  { intros z Hz. destruct (H4 _ (link_of_zombie z [] zs Hz)) as [[= -> ->]|Hin]; [done|]. by apply not_elem_of_nil in Hin. }
  rewrite links_fst in H1. cbn in H1. destruct zs as [|[p q st] [|z' zs]].
  - by apply not_elem_of_nil in H3.
  - exists st. destruct (Hz (Zombie p q st)) as [E1 E2]; [by left|]. cbn in E1, E2. by subst.
  - exfalso. cbn in H1. apply NoDup_cons in H1 as [H1 _]. apply H1.
    destruct (Hz (Zombie p q st)) as [E1 _]; [by left|]. destruct (Hz z') as [E2 _]; [right; by left|].
    cbn in E1. rewrite E1, <- E2. by left.
Qed.

Lemma tree_others p q v ws zs : tree (Knows p q v :: ws) zs -> p ∉ map kpid ws.
Proof.
  intros HT. pose proof (t_nodup _ _ HT) as Hnd. rewrite links_fst in Hnd. cbn in Hnd.
  apply NoDup_cons in Hnd as [Hnd _]. intros Hin. apply Hnd, elem_of_app. by left.
Qed.

Lemma tree_pids ws zs : tree ws zs -> NoDup (map kpid ws).
Proof. intros HT. pose proof (t_nodup _ _ HT) as Hnd. rewrite links_fst in Hnd. by apply NoDup_app in Hnd as (? & _). Qed.

(** Nobody has the new process as a parent. *)
Lemma tree_fresh child ws zs :
  tree ws zs -> fresh_for child ws zs -> Forall (fun w => kppid w <> child) ws.
Proof.
  intros HT [Hc Hfr]. apply Forall_forall. intros w Hw E.
  destruct (t_up _ _ HT _ (link_of w ws zs Hw)) as [[= _ E0]|Hin]; [lia|]. cbn in Hin.
  apply Hfr, elem_of_app. left. by rewrite <- E.
Qed.

(** The clock and the children of a process change. *)
Lemma books_set p q v v' id t l ws zs s :
  books (Knows p q v :: ws) zs s -> p ∉ map kpid ws -> ids s !! p = Some id ->
  books (Knows p q v' :: ws) zs (Clockwork (<[p := Ident (fam id) (births id) t v']> (ids s)) (names s) l).
Proof.
  intros [H1 H2 H3 H4 H5 H6 H7] Hp Hid. set (s' := Clockwork _ _ _).
  assert (forall k, place s' k = place s k) as Hpl.
  { intros k. unfold place, s'. cbn. destruct (decide (k = p)) as [->|Hk]; [by rewrite lookup_insert_eq, Hid|].
    by rewrite lookup_insert_ne. }
  assert (forall w, w ∈ Knows p q v' :: ws -> exists w0, w0 ∈ Knows p q v :: ws /\ kpid w0 = kpid w /\ kppid w0 = kppid w) as Hw.
  { intros w [->|Hw]%elem_of_cons; [exists (Knows p q v); split; [by left|done]|exists w; split; [by right|done]]. }
  split; try done.
  - intros w [->|Hw']%elem_of_cons.
    + destruct (H1 (Knows p q v)) as [id' [Hi Hk Hn Hx]]; [by left|]. cbn [kpid] in Hi.
      rewrite Hid in Hi. injection Hi as <-. eexists. split; [apply lookup_insert_eq|done..].
    + destruct (H1 w) as [id' [Hi Hk Hn Hx]]; [by right|]. exists id'. split; try done. cbn.
      rewrite lookup_insert_ne; [done|]. intros ->. apply Hp. by apply list_elem_of_fmap_2.
  - intros z Hz. cbn. destruct (decide (zpid z = p)) as [->|Hk]; [by rewrite lookup_insert_eq|].
    rewrite lookup_insert_ne by done. by apply H2.
  - intros w w' f f' Hi Hi' E. rewrite !Hpl. destruct (Hw w Hi) as (u & Hu & E1 & E2), (Hw w' Hi') as (u' & Hu' & E1' & E2').
    rewrite <- E1, <- E1'. apply H3; congruence.
  - intros w w' f Hi Hi'. rewrite !Hpl. destruct (Hw w Hi) as (u & Hu & E1 & E2), (Hw w' Hi') as (u' & Hu' & E1' & E2').
    rewrite <- E1, <- E1'. by apply H4.
Qed.

Lemma books_exit p q v st ws zs s :
  books (Knows p q v :: ws) zs s -> books ws (Zombie p q st :: zs) s.
Proof.
  intros [H1 H2 H3 H4 H5 H6 H7]. split; try done.
  - intros w Hw. apply H1. by right.
  - intros z [->|Hz]%elem_of_cons; [|by apply H2]. destruct (H1 (Knows p q v)) as [id [Hi _ _ _]]; [by left|]. by exists id.
  - intros w w' f f' Hw Hw'. apply H3; by right.
  - intros w w' f Hw Hw'. apply H4; by right.
Qed.

Lemma books_forget z ws zs s : books ws (z :: zs) s -> books ws zs s.
Proof. intros [H1 H2 H3 H4 H5 H6 H7]. split; try done. intros z' Hz. apply H2. by right. Qed.

Lemma snoc_neq (f : family) i : f ++ [i] <> f.
Proof. intros E%(f_equal length). rewrite length_app in E. cbn in E. lia. Qed.

Section fork.
Context (p q : Z) (v : list Z) (child : Z) (id : ident) (ws : list (knows (list Z))) (zs : list zombie) (s : clockwork).
#[local] Notation old := (Knows p q v :: ws).
#[local] Notation new := (Knows p q (child :: v) :: Knows child p [] :: ws).
#[local] Notation g := (fam id ++ [births id]).
#[local] Notation s' := (clock_forked p child s).
Hypothesis HB : books old zs s.
Hypothesis Hnd : NoDup (map kpid old).
Hypothesis Hfr : fresh_for child old zs.
Hypothesis Hid : ids s !! p = Some id.
Hypothesis Hno : Forall (fun w => kppid w <> child) old.

Lemma forked_ids : ids s' = <[child := Ident g O (clock id) []]>
  (<[p := Ident (fam id) (S (births id)) (clock id) (child :: kids id)]> (ids s)).
Proof using Hid. unfold clock_forked. by rewrite Hid. Qed.

Lemma forked_all : (names s').*1 = (names s).*1 ++ [g] /\ (names s').*2 = (names s).*2 ++ [child].
Proof using Hid. unfold clock_forked. rewrite Hid. cbn [names]. by rewrite !fmap_app. Qed.

Lemma forked_names f : f ∈ (names s').*1 <-> f ∈ (names s).*1 \/ f = g.
Proof using Hid. rewrite (proj1 forked_all), elem_of_app. by rewrite list_elem_of_singleton. Qed.

Lemma forked_parent : booked s (Knows p q v) id.
Proof using HB Hid.
  destruct (k_booked _ _ _ HB (Knows p q v)) as [id' [Hi Hk Hn Hx]]; [by left|]. cbn [kpid] in Hi.
  rewrite Hid in Hi. injection Hi as <-. by split.
Qed.

(** The name of the child is new, and no name of its children has been given. *)
Lemma forked_new : g ∉ (names s).*1 /\ g <> [] /\ forall i, g ++ [i] ∉ (names s).*1.
Proof using HB Hid.
  destruct forked_parent as [_ _ _ Hx]. assert (g <> []) as Hg by (by destruct (fam id)).
  split_and!; [by apply Hx|done|]. intros i [?|?]%(k_closed _ _ _ HB); [done|]. by apply (Hx (births id)).
Qed.

Lemma forked_ne w : w ∈ old -> kpid w <> child.
Proof using Hfr.
  intros Hw E. destruct Hfr as [_ [Hf _]%not_elem_of_app]. apply Hf. rewrite <- E. by apply list_elem_of_fmap_2.
Qed.

Lemma forked_other w : w ∈ ws -> kpid w <> p /\ kpid w <> child.
Proof using Hnd Hfr.
  intros Hw. split; [|apply forked_ne; by right]. intros E. apply NoDup_cons in Hnd as [Hp _]. apply Hp.
  cbn [kpid]. rewrite <- E. by apply list_elem_of_fmap_2.
Qed.

Lemma forked_place_child : place s' child = Some g.
Proof using Hid. unfold place. by rewrite forked_ids, lookup_insert_eq. Qed.

Lemma forked_place k : k <> child -> place s' k = place s k.
Proof using Hid.
  intros Hk. unfold place. rewrite forked_ids, lookup_insert_ne by done.
  destruct (decide (k = p)) as [->|Hkp]; [by rewrite lookup_insert_eq, Hid|by rewrite lookup_insert_ne].
Qed.

(** A process is the child or was there before. *)
Lemma forked_member w : w ∈ new ->
  kpid w = child /\ kppid w = p
  \/ kpid w <> child /\ exists u, u ∈ old /\ kpid u = kpid w /\ kppid u = kppid w.
Proof using Hfr.
  intros [->|[->|Hw]%elem_of_cons]%elem_of_cons; [right|by left|right].
  - split; [apply (forked_ne (Knows p q v)); by left|]. exists (Knows p q v). split; [by left|done].
  - split; [apply forked_ne; by right|]. exists w. split; [by right|done].
Qed.

Lemma place_named u f : u ∈ old -> place s (kpid u) = Some f -> f = [] \/ f ∈ (names s).*1.
Proof using HB.
  intros Hu Hf. destruct (k_booked _ _ _ HB u Hu) as [idu [Hiu _ Hnu _]]. unfold place in Hf. rewrite Hiu in Hf.
  by injection Hf as <-.
Qed.

Lemma forked_booked w : w ∈ new -> exists idw, booked s' w idw.
Proof using HB Hnd Hfr Hid.
  destruct forked_parent as [_ Hk Hn Hx]. cbn [view] in Hk. destruct forked_new as (Hg & Hg0 & Hgi).
  assert (child <> p) as Hcp by (apply not_eq_sym, (forked_ne (Knows p q v)); by left).
  intros [->|[->|Hw]%elem_of_cons]%elem_of_cons.
  - eexists. split; [rewrite forked_ids; cbn; rewrite lookup_insert_ne by done; apply lookup_insert_eq|cbn; by rewrite Hk| |];
      cbn [fam births].
    + rewrite forked_names. intuition.
    + intros i Hi. rewrite forked_names. intros [Hin|E]; [apply (Hx i); [lia|done]|].
      apply app_inj_2 in E as [_ [= ->]]; [lia|done].
  - eexists. split; [rewrite forked_ids; apply lookup_insert_eq|done| |]; cbn [fam births].
    + rewrite forked_names. auto.
    + intros i _. rewrite forked_names. intros [?|?%snoc_neq]; [by apply (Hgi i)|done].
  - destruct (forked_other w Hw) as [Hwp Hwc], (k_booked _ _ _ HB w) as [idw [Hiw Hkw Hnw Hxw]]; [by right|].
    exists idw. split; [rewrite forked_ids; by rewrite !lookup_insert_ne|done| |].
    + rewrite forked_names. intuition.
    + intros i Hi. rewrite forked_names. intros [Hin|E]; [by apply (Hxw i)|]. apply app_inj_2 in E as [E _]; [|done].
      apply Hwp. apply (k_inj _ _ _ HB w (Knows p q v) (fam id)); [by right|by left|unfold place; cbn [kpid]..];
        [by rewrite Hiw, <- E|by rewrite Hid].
Qed.

Lemma forked_deep w w' f f' :
  w ∈ new -> w' ∈ new -> kppid w' = kpid w ->
  place s' (kpid w) = Some f -> place s' (kpid w') = Some f' -> (length f < length f')%nat.
Proof using HB Hfr Hid Hno.
  intros Hw Hw' E Hf Hf'. assert (p <> child) as Hpc by (apply (forked_ne (Knows p q v)); by left).
  destruct (forked_member w' Hw') as [[E1' E2']|(Hc' & u' & Hu' & E1' & E2')].
  - rewrite E1', forked_place_child in Hf'. injection Hf' as <-.
    rewrite <- E, E2', forked_place in Hf by done. unfold place in Hf. rewrite Hid in Hf. injection Hf as <-.
    rewrite length_app. cbn. lia.
  - destruct (forked_member w Hw) as [[E1 E2]|(Hc1 & u & Hu & E1 & E2)].
    { exfalso. apply (proj1 (Forall_forall _ _) Hno u' Hu'). congruence. }
    rewrite forked_place in Hf, Hf' by done. rewrite <- E1 in Hf. rewrite <- E1' in Hf'.
    eapply (k_deep _ _ _ HB u u'); [done..|congruence|done|done].
Qed.

Lemma forked_inj w w' f :
  w ∈ new -> w' ∈ new -> place s' (kpid w) = Some f -> place s' (kpid w') = Some f -> kpid w = kpid w'.
Proof using HB Hfr Hid.
  intros Hw Hw' Hf Hf'. destruct forked_new as (Hg & Hg0 & _).
  destruct (forked_member w Hw) as [[E1 _]|(Hc1 & u & Hu & E1 & _)],
    (forked_member w' Hw') as [[E1' _]|(Hc1' & u' & Hu' & E1' & _)]; [congruence|exfalso..|].
  - rewrite E1, forked_place_child in Hf. injection Hf as <-. rewrite forked_place, <- E1' in Hf' by done.
    by destruct (place_named _ _ Hu' Hf').
  - rewrite E1', forked_place_child in Hf'. injection Hf' as <-. rewrite forked_place, <- E1 in Hf by done.
    by destruct (place_named _ _ Hu Hf).
  - rewrite forked_place, <- E1 in Hf by done. rewrite forked_place, <- E1' in Hf' by done.
    rewrite <- E1, <- E1'. by eapply (k_inj _ _ _ HB).
Qed.

Lemma books_fork : books new zs s'.
Proof using HB Hnd Hfr Hid Hno.
  destruct forked_new as (Hg & Hg0 & _), forked_parent as [_ _ Hn _].
  split; [apply forked_booked| |apply forked_deep|apply forked_inj|..].
  - intros z Hz. rewrite forked_ids. destruct (decide (zpid z = child)) as [->|Hzc]; [by rewrite lookup_insert_eq|].
    rewrite lookup_insert_ne by done. destruct (decide (zpid z = p)) as [->|Hzp]; [by rewrite lookup_insert_eq|].
    rewrite lookup_insert_ne by done. by apply (k_zombie _ _ _ HB).
  - rewrite (proj1 forked_all). apply NoDup_app.
    split_and!; [apply HB| |apply NoDup_singleton]. by intros f Hf ->%list_elem_of_singleton.
  - intros f i. rewrite !forked_names. intros [[?|?]%(k_closed _ _ _ HB)|E]; [by left|right; by left|].
    apply app_inj_2 in E as [-> _]; [|done]. intuition.
  - rewrite (proj2 forked_all). apply Forall_app.
    split; [apply HB|]. constructor; [apply Hfr|constructor].
Qed.
End fork.
