(* ===== verification/Clock.v ===== *)
(** * Families of processes, in every order

    [timed] (Process) runs the processes of a family one after another, each
    with a clock of its own.  Here the same programs run side by side under a
    kernel (Kernel) which keeps, for every process, its place in the family, its
    clock and its children, and a list of what the processes have told they
    did.  A process waits only for its children and ends when it has
    waited for all; then no interleaving blocks and all of them tell
    what [timed] tells. *)

From S2P Require Import Prelude CInt CString Libc Utils Calibrate Kernel Process Kinship.
From stdpp Require Import gmap sets.

Local Open Scope list_scope.
Local Open Scope Z_scope.

(** ** The kernel *)
Section kernel.
Variable ans : forall X, sys X -> family -> X * Z.
(** The statuses a process may leave. *)
Variable ok : Z -> Prop.

Definition clock_answers (p : Z) X (e : sys X) (s : clockwork) (x : X) (s' : clockwork) : Prop :=
  exists id, ids s !! p = Some id /\ x = (ans X e (fam id)).1 /\
    let t := clock id + (ans X e (fam id)).2 in
    s' = Clockwork (<[p := advance id t]> (ids s)) (names s)
      (told s ++ spans_of (fam id) (activity_of e) (clock id) t).

Definition clock_kernel : kernel clockwork := {|
  answers := clock_answers;
  kills := fun _ _ _ _ _ => False;
  forked := clock_forked;
  reaped := clock_reaped;
  exited := fun _ s => s
|}.

Definition starting (p : prog Z) : config clockwork :=
  Config [Proc 1 0 p] [] (Clockwork {[1 := Ident [] O 0 []]} [] []) [].

(** ** The protocol: the children that are to be waited for *)

Definition jmay X (e : sys X) (v : list Z) : Prop :=
  match e with Wait => False | Waitpid c => c ∈ v | _ => True end.

Definition jlearns X (e : sys X) : list Z -> X -> list Z -> Prop :=
  match e in sys X return list Z -> X -> list Z -> Prop with
  | Fork => fun v x v' => (x = 0 /\ v' = []) \/ (0 < x /\ x ∉ v /\ v' = x :: v)
  | Waitpid c => fun v x v' => x = c /\ v' = without c v
  | e => fun v x v' => v' = v /\ exists me, x = (ans _ e me).1
  end.

Definition join_protocol : protocol (list Z) := {| may := jmay; learns := jlearns; leaves := fun st v => ok st /\ v = [] |}.

#[local] Notation K := clock_kernel.
#[local] Notation P := join_protocol.

Lemma jlearns_ordinary X (e : sys X) v x v' :
  ordinary e = true -> jlearns X e v x v' <-> v' = v /\ exists me, x = (ans X e me).1.
Proof. by destruct e. Qed.

Lemma timed_ordinary {A X} m (e : sys X) (k : X -> prog A) me t kids born :
  ordinary e = true -> timed m (Vis e k) me t kids born = after_call m e (fun x => timed m (k x)) me t kids born.
Proof. by destruct e. Qed.

(** ** The invariant *)

Definition jinv (ws : list (knows (list Z))) (zs : list zombie) (s : clockwork) (_ : list (Z * ev)) : Prop :=
  tree ws zs /\ books ws zs s /\ Forall (fun z => ok (status z)) zs.

#[export] Instance jinv_proper : Proper ((≡ₚ) ==> (≡ₚ) ==> eq ==> eq ==> iff) jinv.
Proof. intros ws ws' Hw zs zs' Hz s ? <- l ? <-. unfold jinv. by rewrite Hw, Hz. Qed.

(** ** The kernel keeps the books *)

Lemma jinv_here a p q v b zs s l :
  jinv (a ++ Knows p q v :: b) zs s l -> exists id, ids s !! p = Some id /\ kids id = v.
Proof.
  intros (_ & HB & _). destruct (k_booked _ _ _ HB (Knows p q v)) as [id [Hi Hk _ _]]; [apply elem_of_app; right; by left|].
  by exists id.
Qed.

Lemma clock_respects : respects K P jinv.
Proof.
  split.
  - intros a b p q v X e x zs s s' l HI Ho Hm (id & Hid & -> & ->). exists v.
    split; [apply jlearns_ordinary; eauto|].
    destruct (jinv_here _ _ _ _ _ _ _ _ HI) as (id' & Hid' & Hk). rewrite Hid in Hid'. injection Hid' as <-.
    unfold advance. rewrite Hk. rewrite <- Permutation_middle in *. destruct HI as (HT & HB & HO).
    split_and!; [done| |done]. apply books_set with (v := v); [done|by eapply tree_others|done].
  - intros a b p q v child zs s l HI Hm [Hc Hfr]. exists (child :: v), [].
    destruct (jinv_here _ _ _ _ _ _ _ _ HI) as (id & Hid & Hk). rewrite <- Permutation_middle in HI, Hfr.
    destruct HI as (HT & HB & HO). assert (fresh_for child (Knows p q v :: a ++ b) zs) as Hf by (by split).
    split_and!; [|by left|].
    + right. split_and!; [done| |done]. intros Hin. apply Hfr.
      rewrite <- links_fst. apply (t_kids _ _ HT (Knows p q v)) in Hin; [|by left]. by eapply link_pid.
    + rewrite <- Permutation_middle. rewrite <- (Permutation_middle a b (Knows child p [])).
      split_and!; [by apply tree_fork| |done].
      eapply books_fork; [done|by eapply tree_pids|done..|by eapply tree_fresh].
  - done.
  - done.
  - intros a b p q v z za zb s l HI Hm Hz. exists (without (zpid z) v). split; [done|].
    destruct (jinv_here _ _ _ _ _ _ _ _ HI) as (id & Hid & Hk). rewrite <- !Permutation_middle in *. destruct HI as (HT & HB & HO).
    split_and!; [by apply tree_reap| |by inversion HO]. destruct (k_zombie _ _ _ HB z) as [idz Hz']; [by left|].
    cbn [reaped clock_kernel]. unfold clock_reaped. rewrite Hid, Hz', Hk.
    apply books_set with (v := v); [by eapply books_forget|by eapply tree_others|done].
  - intros a b p q v child zs s l (HT & HB & _) Hm Hz Hw. exfalso.
    destruct (tree_awaited (Knows p q v) child _ _ HT) as [(w & Hin & E)|(z & Hin & E)];
      [apply elem_of_app; right; by left|done|..].
    + rewrite Forall_forall in Hw. by apply (Hw w).
    + rewrite Forall_forall in Hz. by apply (Hz z).
  - done.
  - intros a b p q v st zs s l HI Hl. destruct Hl as [Hst ->]. rewrite <- Permutation_middle in HI.
    destruct HI as (HT & HB & HO). rewrite (Permutation_app_comm zs [_]). cbn.
    split_and!; [by apply tree_exit|by eapply books_exit|by constructor].
Qed.

(** The deepest process can go on: its children have ended. *)
Lemma deepest (f : knows (list Z) -> nat) ws : ws <> [] -> exists w, w ∈ ws /\ forall w', w' ∈ ws -> (f w' <= f w)%nat.
Proof.
  induction ws as [|w ws IH]; [done|]. intros _. destruct (decide (ws = [])) as [->|Hne].
  { exists w. split; [by left|]. by intros w' ->%list_elem_of_singleton. }
  destruct (IH Hne) as (u & Hu & Hmax). destruct (decide (f w <= f u)%nat) as [Hle|Hgt].
  - exists u. split; [by right|]. intros w' [->|Hw']%elem_of_cons; [done|by apply Hmax].
  - exists w. split; [by left|]. intros w' [->|Hw']%elem_of_cons; [done|]. specialize (Hmax _ Hw'). lia.
Qed.

Lemma clock_progresses : progresses K P jinv.
Proof.
  intros ws zs s l (HT & HB & _) Hne.
  destruct (deepest (fun w => length (default [] (place s (kpid w)))) ws Hne) as (w & Hw & Hmax).
  pose proof Hw as Hw0. apply list_elem_of_split in Hw as (a & b & ->). destruct w as [p q v].
  exists a, p, q, v, b. split; [done|]. intros X e Hm.
  destruct (k_booked _ _ _ HB _ Hw0) as [id [Hid Hk _ _]]. cbn [kpid] in Hid.
  destruct (ordinary e) eqn:Ho.
  { assert (exists x s', answers K p X e s x s') as Hx by (do 2 eexists; by exists id). by destruct e. }
  destruct e; try discriminate Ho; [done|done|].
  destruct (tree_awaited _ _ _ _ HT Hw0 Hm) as [(w' & Hw' & E1 & E2)|(z & Hz & E1 & E2)]; [exfalso|by exists z].
  destruct (k_booked _ _ _ HB _ Hw') as [id' [Hid' _ _ _]].
  assert (place s p = Some (fam id)) as Hp1 by (unfold place; by rewrite Hid).
  assert (place s (kpid w') = Some (fam id')) as Hp2 by (unfold place; by rewrite Hid').
  pose proof (k_deep _ _ _ HB (Knows p q v) w' _ _ Hw0 Hw' E2 Hp1 Hp2).
  specialize (Hmax _ Hw'). cbn [kpid] in Hmax. rewrite Hp1, Hp2 in Hmax. cbn in Hmax. lia.
Qed.

(** ** No two children with the same pid

    A pid may be given again once its process has been waited for, not before:
    [apart] says so of a program on a machine. *)

Definition parting : Type := family -> list Z -> nat -> Prop.

Fixpoint apart {A} (m : machine) (p : prog A) : parting :=
  match p with
  | Vis e k =>
      match e in sys X return (X -> parting) -> parting with
      | Fork => fun f me ks born =>
          let c := newpid m (me ++ [born]) in c ∉ ks /\ f 0 (me ++ [born]) [] O /\ f c me (c :: ks) (S born)
      | Waitpid c => fun f me ks born => f c me (without c ks) born
      | e => fun f me ks born => f (answer m _ e me).1 me ks born
      end (fun x => apart m (k x))
  | _ => fun _ _ _ => True
  end.

Lemma apart_ordinary {A X} m (e : sys X) (k : X -> prog A) me ks born :
  ordinary e = true -> apart m (Vis e k) me ks born = apart m (k (answer m X e me).1) me ks born.
Proof. by destruct e. Qed.

Lemma apart_assoc {A B C} m (p : prog A) (f : A -> prog B) (g : B -> prog C) me ks born :
  apart m ((p ≫= f) ≫= g) me ks born <-> apart m (p ≫= (fun x => f x ≫= g)) me ks born.
Proof.
  revert me ks born. induction p as [a|s|w| |X e k IH]; intros me ks born; try done. cbn [mbind prog_bind].
  destruct e; try apply IH. split; intros (H1 & H2 & H3); split_and!; try done; by apply IH.
Qed.

Definition parted (m : machine) (s : clockwork) (r : proc) : Prop :=
  exists id, ids s !! pid r = Some id /\ apart m (code r) (fam id) (kids id) (births id).

Lemma parted_same m s s' rs :
  Forall (fun r => ids s' !! pid r = ids s !! pid r) rs -> Forall (parted m s') rs -> Forall (parted m s) rs.
Proof.
  intros Hi Hp. apply Forall_forall. intros r Hr. rewrite Forall_forall in Hi, Hp.
  destruct (Hp r Hr) as (id & Hid & Ha). exists id. by rewrite <- (Hi r Hr).
Qed.

(** ** What the processes will do

    [E]: how and when each process will end. *)

Definition ends_of (E : Z -> outcome Z * Z) (l : list Z) : list (Z * Z) := map (fun k => (k, (E k).2)) l.
#[local] Arguments ends_of : simpl never.

Definition predicted (m : machine) (E : Z -> outcome Z * Z) (s : clockwork) (r : proc) (l : list span) : Prop :=
  exists id, ids s !! pid r = Some id
    /\ timed m (code r) (fam id) (clock id) (ends_of E (kids id)) (births id) = (E (pid r), l).

Definition ends_with (o : outcome Z) (st : Z) : Prop := o = Done st \/ o = Exited st.

Definition past (E : Z -> outcome Z * Z) (s : clockwork) (z : zombie) : Prop :=
  exists id, ids s !! zpid z = Some id /\ ends_with (E (zpid z)).1 (status z) /\ (E (zpid z)).2 = clock id.

(** The pids of the processes are those of the machine. *)
Definition named (m : machine) (s : clockwork) : Prop := Forall (fun '(f, p) => newpid m f = p) (names s).

(** What has been told and what the processes will tell is [whole]; the first
    process ends in [o] at [t]. *)
Definition foretold (m : machine) (o : outcome Z) (t : Z) (whole : list span) (c : config clockwork) : Prop :=
  exists E todo, Forall2 (predicted m E (kstate c)) (procs c) todo /\ Forall (past E (kstate c)) (zombies c)
    /\ told (kstate c) ++ concat todo ≡ₚ whole /\ E 1 = (o, t).

#[local] Notation good := (Kernel.good P jinv).

(** What the books say of a good configuration. *)
Lemma good_tree c : good c -> exists ws, Forall2 (agrees P) (procs c) ws /\ tree ws (zombies c) /\ books ws (zombies c) (kstate c).
Proof. intros (ws & Hw & HT & HB & _). by exists ws. Qed.

Lemma good_pids c : good c -> NoDup (pids c) /\ 1 ∈ pids c.
Proof.
  intros (ws & Hw & HT & _)%good_tree. unfold pids. rewrite (agrees_pids _ _ _ Hw), <- links_fst.
  split; [apply HT|]. eapply link_pid, HT.
Qed.

Lemma agrees_links rs ws : Forall2 (agrees P) rs ws -> map (fun r => (pid r, ppid r)) rs = map (fun w => (kpid w, kppid w)) ws.
Proof. induction 1 as [|r w rs ws (H1 & H2 & _) _ IH]; [done|]. cbn. by rewrite H1, H2, IH. Qed.

Lemma good_proc a r b zs s l :
  good (Config (a ++ r :: b) zs s l) ->
  exists id, ids s !! pid r = Some id /\ wp P (code r) (kids id) (leaves P)
    /\ forall k, k ∈ kids id ->
      (exists r', r' ∈ a ++ r :: b /\ kid (pid r) k r') \/ (exists z, z ∈ zs /\ dead_kid (pid r) k z).
Proof.
  intros (ws & Hw & HT & HB)%good_tree. cbn [procs zombies kstate] in *. pose proof (agrees_links _ _ Hw) as Hl.
  apply Forall2_app_inv_l in Hw as (wa & wb & Ha & Hb & ->).
  apply Forall2_cons_inv_l in Hb as ([p q v] & wb' & (Hp & Hq & Hwp) & Hb & ->). cbn [kpid kppid view] in *.
  assert (Knows p q v ∈ wa ++ Knows p q v :: wb') as Hin by (apply elem_of_app; right; by left).
  destruct (k_booked _ _ _ HB _ Hin) as [id [Hi Hk _ _]]. cbn [kpid view] in *.
  exists id. rewrite Hp, Hk. split_and!; [done..|]. intros k Hkv.
  destruct (tree_awaited _ _ _ _ HT Hin Hkv) as [(w' & Hw' & <- & E)|?]; [left|by right].
  apply (list_elem_of_fmap_2 (fun w => (kpid w, kppid w))) in Hw'.
  assert ((kpid w', kppid w') ∈ map (fun r => (pid r, ppid r)) (a ++ r :: b)) as Hr by (by rewrite Hl).
  apply list_elem_of_fmap in Hr as (r' & [= -> E'] & Hr'). exists r'. split; [done|]. split; [done|]. by rewrite <- E', E.
Qed.

Lemma good_kids c r id : good c -> r ∈ procs c -> ids (kstate c) !! pid r = Some id -> Forall (fun k => k ∈ pids c) (kids id).
Proof.
  destruct c as [rs zs s l]. cbn [procs kstate]. intros Hg (a & b & ->)%list_elem_of_split Hi.
  destruct (good_proc _ _ _ _ _ _ Hg) as (id' & Hi' & _ & Hk). rewrite Hi in Hi'. injection Hi' as <-.
  apply Forall_forall. intros k [(r' & Hr' & <- & _)|(z & Hz & <- & _)]%Hk; apply elem_of_app; [left|right];
    by apply list_elem_of_fmap_2.
Qed.

Lemma good_zombie c z : good c -> z ∈ zombies c -> is_Some (ids (kstate c) !! zpid z).
Proof. intros (ws & _ & _ & HB)%good_tree Hz. by apply (k_zombie _ _ _ HB). Qed.

(** [waitpid] is never called for nothing. *)
Lemma good_awaits a b p q child k zs s l :
  good (Config (a ++ Proc p q (Vis (Waitpid child) k) :: b) zs s l) ->
  Forall (fun z => ~ dead_kid p child z) zs ->
  Forall (fun r => ~ kid p child r) (a ++ Proc p q (Vis (Waitpid child) k) :: b) -> False.
Proof.
  intros Hg Hz Hno. destruct (good_proc _ _ _ _ _ _ Hg) as (id & _ & [Hm _] & Hk). cbn [pid] in Hk.
  destruct (Hk _ Hm) as [(r & Hr & E)|(z & Hzi & E)];
    [by apply (proj1 (Forall_forall _ _) Hno r)|by apply (proj1 (Forall_forall _ _) Hz z)].
Qed.

(** A process about which nothing has changed. *)
Definition untouched (E E' : Z -> outcome Z * Z) (s s' : clockwork) (k : Z) : Prop :=
  ids s' !! k = ids s !! k /\ E' k = E k.

Lemma past_untouched E E' s s' zs :
  Forall (past E s) zs -> Forall (fun z => untouched E E' s s' (zpid z)) zs -> Forall (past E' s') zs.
Proof.
  intros Hp Hu. apply Forall_forall. intros z Hz. rewrite Forall_forall in Hp, Hu.
  destruct (Hp z Hz) as (id & Hi & H1 & H2), (Hu z Hz) as [E1 E2]. exists id. by rewrite E1, E2.
Qed.

Lemma ends_of_ext E E' l : Forall (fun k => E' k = E k) l -> ends_of E' l = ends_of E l.
Proof. unfold ends_of. induction 1 as [|k l Hk _ IH]; [done|]. cbn. by rewrite Hk, IH. Qed.

Definition undisturbed (E E' : Z -> outcome Z * Z) (s s' : clockwork) (r : proc) : Prop :=
  untouched E E' s s' (pid r) /\ forall id, ids s !! pid r = Some id -> Forall (fun k => E' k = E k) (kids id).

Lemma predicted_undisturbed m E E' s s' rs todo :
  Forall2 (predicted m E s) rs todo -> Forall (undisturbed E E' s s') rs -> Forall2 (predicted m E' s') rs todo.
Proof.
  induction 1 as [|r l rs todo (id & Hi & Ht) _ IH]; intros Hu; [done|].
  inversion Hu as [|? ? [[E1 E2] Hk] Hu']; subst. constructor; [|by apply IH].
  exists id. by rewrite E1, E2, (ends_of_ext E E' (kids id) (Hk id Hi)).
Qed.

(** Where only the ident of [p] changes. *)
Lemma undisturbed_ne E s p id n l rs :
  Forall (fun r => pid r <> p) rs -> Forall (undisturbed E E s (Clockwork (<[p := id]> (ids s)) n l)) rs.
Proof.
  intros Hp. eapply Forall_impl; [exact Hp|]. cbn. intros r Hr. split; [split|]; [|done|by intros; apply Forall_true].
  cbn. by rewrite lookup_insert_ne.
Qed.

Lemma untouched_ne E s p id n l zs :
  Forall (fun z => zpid z <> p) zs ->
  Forall (fun z => untouched E E s (Clockwork (<[p := id]> (ids s)) n l) (zpid z)) zs.
Proof.
  intros Hp. eapply Forall_impl; [exact Hp|]. cbn. intros r Hr. split; [|done]. cbn. by rewrite lookup_insert_ne.
Qed.

(** The pids of the others. *)
Lemma pids_others a r b zs (s : clockwork) l :
  NoDup (pids (Config (a ++ r :: b) zs s l)) ->
  Forall (fun r' => pid r' <> pid r) a /\ Forall (fun r' => pid r' <> pid r) b /\ Forall (fun z => zpid z <> pid r) zs.
Proof.
  unfold pids. cbn [procs zombies]. rewrite map_app. cbn [map]. intros Hnd.
  rewrite <- app_assoc in Hnd. apply NoDup_app in Hnd as (_ & Ha & Hnd). cbn in Hnd. apply NoDup_cons in Hnd as [Hr _].
  apply not_elem_of_app in Hr as [Hb Hz]. split_and!; apply Forall_forall; intros x Hx E.
  - apply (Ha (pid x)); [by apply list_elem_of_fmap_2|]. rewrite E. by left.
  - apply Hb. rewrite <- E. by apply list_elem_of_fmap_2.
  - apply Hz. rewrite <- E. by apply list_elem_of_fmap_2.
Qed.

Lemma foretold_split m o t whole a r b zs s l :
  foretold m o t whole (Config (a ++ r :: b) zs s l) ->
  exists E ta x tb, Forall2 (predicted m E s) a ta /\ predicted m E s r x /\ Forall2 (predicted m E s) b tb
    /\ Forall (past E s) zs /\ told s ++ concat ta ++ x ++ concat tb ≡ₚ whole /\ E 1 = (o, t).
Proof.
  intros (E & todo & Hp & Hz & Hw & H1). cbn [procs zombies kstate] in *.
  apply Forall2_app_inv_l in Hp as (ta & tb & Ha & Hb & ->). apply Forall2_cons_inv_l in Hb as (x & tb' & Hx & Hb & ->).
  rewrite concat_app in Hw. by exists E, ta, x, tb'.
Qed.

Lemma foretold_one m E o t whole a ta r x b tb zs s l :
  Forall2 (predicted m E s) a ta -> predicted m E s r x -> Forall2 (predicted m E s) b tb ->
  Forall (past E s) zs -> told s ++ concat ta ++ x ++ concat tb ≡ₚ whole -> E 1 = (o, t) ->
  foretold m o t whole (Config (a ++ r :: b) zs s l).
Proof.
  intros Ha Hr Hb Hz Hw H1. exists E, (ta ++ x :: tb). cbn [procs zombies kstate]. split_and!; try done.
  - apply Forall2_app; [done|]. by constructor.
  - by rewrite concat_app.
Qed.

Section machine.
Variable np : family -> Z.
#[local] Notation m := (Machine np ans).

Lemma foretold_call o t whole a b p q X (e : sys X) k x zs s s' l l' :
  good (Config (a ++ Proc p q (Vis e k) :: b) zs s l) -> ordinary e = true -> clock_answers p X e s x s' ->
  foretold m o t whole (Config (a ++ Proc p q (Vis e k) :: b) zs s l) ->
  foretold m o t whole (Config (a ++ Proc p q (k x) :: b) zs s' l').
Proof.
  intros Hg Ho (id & Hid & -> & ->) Hf. destruct (good_pids _ Hg) as [Hnd _].
  apply pids_others in Hnd as (Hna & Hnb & Hnz).
  apply foretold_split in Hf as (E & ta & y & tb & Ha & (id' & Hid' & Ht) & Hb & Hz & Hw & H1).
  cbn [pid code] in *. rewrite Hid in Hid'. injection Hid' as <-.
  rewrite timed_ordinary in Ht by done. unfold after_call in Ht. cbn [answer] in Ht.
  destruct (ans X e (fam id)) as [x d]. cbn [fst snd] in *.
  destruct (timed m (k x) _ _ _ _) as [[o1 t1] l1] eqn:Hk. injection Ht as E1 <-.
  eapply (foretold_one m E o t whole a ta _ l1 b tb); try done.
  - eapply predicted_undisturbed; [done|by apply undisturbed_ne].
  - eexists. split; [apply lookup_insert_eq|]. cbn. by rewrite Hk, E1.
  - eapply predicted_undisturbed; [done|by apply undisturbed_ne].
  - eapply past_untouched; [done|by apply untouched_ne].
  - rewrite <- Hw. cbn [told]. rewrite <- !app_assoc. apply Permutation_app_head.
    rewrite !app_assoc. apply Permutation_app_tail, Permutation_app_tail. apply Permutation_app_comm.
Qed.

Lemma after_fork_pos (f : Z -> timing Z) me t ks born c :
  np (me ++ [born]) = c -> 0 < c ->
  after_fork m f me t ks born
  = let '(_, tc, lc) := f 0 (me ++ [born]) t [] O in
    let '(o, t', l) := f c me t ((c, tc) :: ks) (S born) in (o, t', lc ++ l).
Proof. intros E Hc. unfold after_fork. cbn [newpid]. rewrite E. by rewrite (proj2 (Z.ltb_ge c 0)) by lia. Qed.

(** The foresight with the end of a new child. *)
Definition and_child (E : Z -> outcome Z * Z) (child : Z) (r : outcome Z * Z) (j : Z) : outcome Z * Z :=
  if decide (j = child) then r else E j.

Lemma and_child_eq E child r : and_child E child r child = r.
Proof. unfold and_child. by rewrite decide_True. Qed.

Lemma and_child_ne E child r j : j <> child -> and_child E child r j = E j.
Proof. intros H. unfold and_child. by rewrite decide_False. Qed.

(** The other processes do not notice a [fork]. *)
Lemma fork_undisturbed E p child r id s (c : config clockwork) rs :
  good c -> kstate c = s -> ids s !! p = Some id -> child ∉ pids c ->
  (forall x, x ∈ rs -> x ∈ procs c /\ pid x <> p) ->
  Forall (undisturbed E (and_child E child r) s (clock_forked p child s)) rs.
Proof.
  intros Hg <- Hid Hfr Hin. apply Forall_forall. intros x [Hx Hp]%Hin.
  assert (forall k, k ∈ pids c -> and_child E child r k = E k) as Ep by (intros k Hk; apply and_child_ne; by intros ->).
  assert (pid x ∈ pids c) as Hxp by (apply elem_of_app; left; by apply list_elem_of_fmap_2).
  split; [split; [|by apply Ep]|].
  - rewrite (forked_ids _ _ _ _ Hid). rewrite lookup_insert_ne by (by intros ->). by apply lookup_insert_ne, not_eq_sym.
  - intros idx Hi. eapply Forall_impl; [by eapply good_kids|]. exact Ep.
Qed.

Lemma foretold_fork o t whole a b p q (k : Z -> prog Z) child zs s l l' :
  good (Config (a ++ Proc p q (Vis Fork k) :: b) zs s l) ->
  0 < child -> child ∉ pids (Config (a ++ Proc p q (Vis Fork k) :: b) zs s l) ->
  named m (clock_forked p child s) ->
  foretold m o t whole (Config (a ++ Proc p q (Vis Fork k) :: b) zs s l) ->
  foretold m o t whole (Config (a ++ Proc p q (k child) :: Proc child p (k 0) :: b) zs (clock_forked p child s) l').
Proof.
  intros Hg Hc Hfr Hn Hf. destruct (good_pids _ Hg) as [(Hna & Hnb & Hnz)%pids_others H1in].
  assert (Proc p q (Vis Fork k) ∈ a ++ Proc p q (Vis Fork k) :: b) as Hin by (apply elem_of_app; right; by left).
  apply foretold_split in Hf as (E & ta & y & tb & Ha & (id & Hid & Ht) & Hb & Hz & Hw & H1).
  cbn [pid code] in *. cbn [timed] in Ht.
  assert (np (fam id ++ [births id]) = child) as Hnp.
  { unfold named, clock_forked in Hn. rewrite Hid in Hn. cbn in Hn. apply Forall_app in Hn as [_ Hn]. by inversion Hn. }
  rewrite (after_fork_pos _ _ _ _ _ child) in Ht by done.
  destruct (timed m (k 0) _ _ _ _) as [[oc tc] lc] eqn:Hkc. destruct (timed m (k child) _ _ _ _) as [[o1 t1] l1] eqn:Hk.
  injection Ht as E1 <-. set (E' := and_child E child (oc, tc)).
  assert (forall j, j ∈ pids (Config (a ++ Proc p q (Vis Fork k) :: b) zs s l) -> E' j = E j /\ j <> child) as Ep
    by (intros j Hj; assert (j <> child) by (by intros ->); split; [by apply and_child_ne|done]).
  destruct (Ep p) as [Epp Hpc]; [apply elem_of_app; left; by apply (list_elem_of_fmap_2 pid) in Hin|].
  eapply (foretold_one m E' o t whole a ta _ l1 (Proc child p (k 0) :: b) (lc :: tb)).
  - eapply predicted_undisturbed; [done|]. eapply fork_undisturbed; [done..|]. intros x Hx.
    split; [apply elem_of_app; by left|by apply (proj1 (Forall_forall _ _) Hna)].
  - eexists. split; [rewrite (forked_ids _ _ _ _ Hid), lookup_insert_ne by done; apply lookup_insert_eq|].
    cbn [code fam clock kids births pid].
    replace (ends_of E' (child :: kids id)) with ((child, tc) :: ends_of E (kids id)); [by rewrite Hk, Epp, E1|].
    unfold ends_of at 2. cbn [map]. unfold E'. rewrite and_child_eq. f_equal. symmetry. apply ends_of_ext.
    eapply Forall_impl; [by eapply (good_kids _ _ _ Hg Hin)|]. apply Ep.
  - constructor.
    + eexists. split; [rewrite (forked_ids _ _ _ _ Hid); apply lookup_insert_eq|]. cbn [code fam clock kids births pid].
      change (ends_of E' []) with (@nil (Z * Z)). rewrite Hkc. unfold E'. by rewrite and_child_eq.
    + eapply predicted_undisturbed; [done|]. eapply fork_undisturbed; [done..|]. intros x Hx.
      split; [apply elem_of_app; right; by right|by apply (proj1 (Forall_forall _ _) Hnb)].
  - eapply past_untouched; [done|]. apply Forall_forall. intros z Hzin.
    destruct (Ep (zpid z)) as [Ez Hzc]; [apply elem_of_app; right; by apply list_elem_of_fmap_2|]. split; [|done].
    rewrite (forked_ids _ _ _ _ Hid), lookup_insert_ne by done. apply lookup_insert_ne, not_eq_sym.
    by apply (proj1 (Forall_forall _ _) Hnz).
  - rewrite <- Hw. unfold clock_forked. rewrite Hid. cbn [told concat]. do 2 apply Permutation_app_head.
    rewrite !app_assoc. apply Permutation_app_tail, Permutation_app_comm.
  - by rewrite (proj1 (Ep 1 H1in)).
Qed.

Lemma reap_ends E l c : c ∈ l -> reap (ends_of E l) c = Some (E c).2.
Proof.
  unfold ends_of, reap. induction l as [|k l IH]; [by intros ?%not_elem_of_nil|]. cbn.
  destruct (decide (k = c)) as [->|Hne]; [by intros _|]. intros [->|Hin]%elem_of_cons; [done|].
  specialize (IH Hin). by destruct (list_find _ _) as [[j kid']|].
Qed.

Lemma forget_ends E l c : forget (ends_of E l) c = ends_of E (without c l).
Proof.
  unfold forget, ends_of, without. induction l as [|k l IH]; [done|]. cbn [map]. rewrite !filter_cons. cbn [fst].
  destruct (decide (k <> c)); cbn [map]; by rewrite IH.
Qed.

Lemma foretold_waitpid o t whole a b p q child (k : Z -> prog Z) z za zb s l l' :
  good (Config (a ++ Proc p q (Vis (Waitpid child) k) :: b) (za ++ z :: zb) s l) ->
  zppid z = p -> zpid z = child ->
  foretold m o t whole (Config (a ++ Proc p q (Vis (Waitpid child) k) :: b) (za ++ z :: zb) s l) ->
  foretold m o t whole (Config (a ++ Proc p q (k child) :: b) (za ++ zb) (clock_reaped p child s) l').
Proof.
  intros Hg Hzp Hzc Hf. destruct (good_proc _ _ _ _ _ _ Hg) as (id & Hid & [Hm _] & _). cbn [pid] in *. cbn in Hm.
  destruct (good_pids _ Hg) as [Hnd _]. apply pids_others in Hnd as (Hna & Hnb & Hnz).
  apply foretold_split in Hf as (E & ta & y & tb & Ha & (id' & Hid' & Ht) & Hb & Hz & Hw & H1).
  cbn [pid code] in *. rewrite Hid in Hid'. injection Hid' as <-. cbn [timed] in Ht.
  unfold after_waitpid in Ht. rewrite reap_ends, forget_ends in Ht by done.
  destruct (timed m (k child) _ _ _ _) as [[o1 t1] l1] eqn:Hk. injection Ht as E1 <-.
  assert (past E s z) as (idc & Hic & _ & Ec) by (rewrite Forall_forall in Hz; apply Hz, elem_of_app; right; by left).
  rewrite Hzc in Hic, Ec. unfold clock_reaped. rewrite Hid, Hic. rewrite Ec in *.
  apply Forall_app in Hz as [Hza Hzb]. apply Forall_app in Hnz as [Hnza Hnzb].
  inversion Hzb as [|? ? _ Hzb']; subst. inversion Hnzb as [|? ? _ Hnzb']; subst.
  eapply (foretold_one m E o t whole a ta _ l1 b tb); try done.
  - eapply predicted_undisturbed; [done|by apply undisturbed_ne].
  - eexists. split; [apply lookup_insert_eq|]. cbn. by rewrite Hk, E1.
  - eapply predicted_undisturbed; [done|by apply undisturbed_ne].
  - eapply past_untouched; [by apply Forall_app|apply untouched_ne; by apply Forall_app].
  - rewrite <- Hw. cbn [told]. rewrite <- !app_assoc. apply Permutation_app_head.
    cbn. by rewrite Permutation_middle.
Qed.

Lemma foretold_exit o t whole a b p q cd st zs s l l' :
  ended cd = Some st ->
  foretold m o t whole (Config (a ++ Proc p q cd :: b) zs s l) ->
  foretold m o t whole (Config (a ++ b) (zs ++ [Zombie p q st]) s l').
Proof.
  intros He (E & ta & y & tb & Ha & (id & Hid & Ht) & Hb & Hz & Hw & H1)%foretold_split. cbn [pid code] in *.
  assert (y = [] /\ ends_with (E p).1 st /\ (E p).2 = clock id) as (-> & Hst & Hcl).
  { unfold ends_with. destruct cd; try discriminate He; cbn in *; injection He as ->; injection Ht as <- <-; auto. }
  exists E, (ta ++ tb). cbn [procs zombies kstate]. split_and!; [by apply Forall2_app| | |done].
  - apply Forall_app. split; [done|]. constructor; [by exists id|done].
  - by rewrite concat_app.
Qed.

Lemma foretold_step o t whole c c' :
  good c -> step K c c' -> named m (kstate c') -> foretold m o t whole c -> foretold m o t whole c'.
Proof.
  intros Hg Hs Hn Hf. destruct Hs as [a b p q X e k x zs s s' l Ho Ha|a b p q k child zs s l H0 Hfr
    |a b p q k z za zb s l Hz|a b p q k zs s l Hz Hno|a b p q child k z za zb s l Hz Hc|a b p q child k zs s l Hz Hno
    |a b p q X e k st zs s l Ho Hk|a b p q cd st zs s l He].
  - by eapply foretold_call.
  - by eapply foretold_fork.
  - by destruct (good_proc _ _ _ _ _ _ Hg) as (id & _ & [[] _] & _).
  - by destruct (good_proc _ _ _ _ _ _ Hg) as (id & _ & [[] _] & _).
  - by eapply foretold_waitpid.
  - exfalso. by eapply good_awaits.
  - done.
  - by eapply foretold_exit.
Qed.

Lemma step_names c c' : step K c c' -> names (kstate c) `prefix_of` names (kstate c').
Proof.
  destruct 1 as [a b p q X e k x zs s s' l Ho (id & _ & _ & ->)| | | | | | |]; cbn; try done.
  - unfold clock_forked. destruct (ids s !! p); [by apply prefix_app_r|done].
  - unfold clock_reaped. by destruct (ids s !! p), (ids s !! zpid z).
  - unfold clock_reaped. by destruct (ids s !! p), (ids s !! child).
Qed.

Lemma steps_names c c' : rtc (step K) c c' -> names (kstate c) `prefix_of` names (kstate c').
Proof. induction 1 as [|c1 c2 c3 Hs _ IH]; [done|]. etrans; [by eapply step_names|done]. Qed.

Lemma foretold_steps o t whole c c' :
  rtc (step K) c c' -> good c -> named m (kstate c') -> foretold m o t whole c -> foretold m o t whole c'.
Proof.
  induction 1 as [|c1 c2 c3 Hs Hr IH]; [done|]. intros Hg Hn Hf.
  apply IH; [by eapply step_good, Hg; [apply clock_respects|]|done|].
  eapply foretold_step; [done..| |done]. apply steps_names in Hr as [more Hm]. unfold named in *.
  rewrite Hm in Hn. by apply Forall_app in Hn as [Hn _].
Qed.

(** One step back. *)
Lemma parted_middle s s' a r b p :
  Forall (fun x => pid x <> p) a -> Forall (fun x => pid x <> p) b ->
  (forall k, k <> p -> ids s' !! k = ids s !! k) -> parted m s r ->
  Forall (parted m s') a -> Forall (parted m s') b -> Forall (parted m s) (a ++ r :: b).
Proof.
  intros Hna Hnb Hs Hr Ha Hb. apply Forall_app. split; [|constructor; [done|]].
  - apply (parted_same m s s'); [|done]. eapply Forall_impl; [exact Hna|]. cbn. auto.
  - apply (parted_same m s s'); [|done]. eapply Forall_impl; [exact Hnb|]. cbn. auto.
Qed.

Lemma parted_fork a b p q (k : Z -> prog Z) child zs s l :
  good (Config (a ++ Proc p q (Vis Fork k) :: b) zs s l) ->
  child ∉ pids (Config (a ++ Proc p q (Vis Fork k) :: b) zs s l) -> named m (clock_forked p child s) ->
  Forall (parted m (clock_forked p child s)) (a ++ Proc p q (k child) :: Proc child p (k 0) :: b) ->
  Forall (parted m s) (a ++ Proc p q (Vis Fork k) :: b).
Proof.
  intros Hg Hfr Hn Hf. destruct (good_pids _ Hg) as [(Hna & Hnb & _)%pids_others _].
  assert (Proc p q (Vis Fork k) ∈ a ++ Proc p q (Vis Fork k) :: b) as Hin by (apply elem_of_app; right; by left).
  destruct (good_proc _ _ _ _ _ _ Hg) as (id & Hid & _ & _). cbn [pid] in *.
  pose proof (good_kids _ _ id Hg Hin Hid) as Hk.
  assert (np (fam id ++ [births id]) = child) as Hnp.
  { unfold named, clock_forked in Hn. rewrite Hid in Hn. cbn in Hn. apply Forall_app in Hn as [_ Hn]. by inversion Hn. }
  assert (p <> child) as Hpc.
  { intros <-. apply Hfr, elem_of_app. left. by apply (list_elem_of_fmap_2 pid) in Hin. }
  apply Forall_app in Hf as [Ha Hf]. inversion Hf as [|? ? (id1 & Hid1 & H1) Hf']; subst.
  inversion Hf' as [|? ? (id2 & Hid2 & H2) Hb]; subst. cbn [pid code] in *.
  rewrite (forked_ids _ _ _ _ Hid) in Hid1, Hid2. rewrite lookup_insert_eq in Hid2. injection Hid2 as <-.
  rewrite lookup_insert_ne, lookup_insert_eq in Hid1 by done. injection Hid1 as <-.
  assert (forall rs, Forall (fun x => pid x <> p) rs -> (forall x, x ∈ rs -> x ∈ a ++ Proc p q (Vis Fork k) :: b) ->
    Forall (parted m (clock_forked p (np (fam id ++ [births id])) s)) rs -> Forall (parted m s) rs) as Hrs.
  { intros rs Hp Hi. apply parted_same, Forall_forall. intros x Hx. rewrite (forked_ids _ _ _ _ Hid).
    assert (pid x ∈ pids (Config (a ++ Proc p q (Vis Fork k) :: b) zs s l)) as Hxp
      by (apply elem_of_app; left; apply list_elem_of_fmap_2; by apply Hi).
    rewrite lookup_insert_ne by (intros E; by rewrite E in Hfr). apply lookup_insert_ne, not_eq_sym.
    by apply (proj1 (Forall_forall _ _) Hp). }
  apply Forall_app. split; [|constructor].
  - apply Hrs; [done| |done]. intros x Hx. apply elem_of_app. by left.
  - exists id. split; [done|]. cbn. split_and!; [|done|done]. intros Hc. by apply Hfr, (proj1 (Forall_forall _ _) Hk).
  - apply Hrs; [done| |done]. intros x Hx. apply elem_of_app. right. by right.
Qed.

Lemma parted_step c c' :
  good c -> step K c c' -> named m (kstate c') ->
  Forall (parted m (kstate c')) (procs c') -> Forall (parted m (kstate c)) (procs c).
Proof.
  intros Hg Hs Hn Hf. destruct (good_pids _ Hg) as [Hnd _].
  destruct Hs as [a b p q X e k x zs s s' l Ho Ha|a b p q k child zs s l H0 Hfr
    |a b p q k z za zb s l Hz|a b p q k zs s l Hz Hno|a b p q child k z za zb s l Hz Hc|a b p q child k zs s l Hz Hno
    |a b p q X e k st zs s l Ho Hk|a b p q cd st zs s l He];
    try (by destruct (good_proc _ _ _ _ _ _ Hg) as (id & _ & [[] _] & _)); cbn [procs kstate] in *.
  - apply pids_others in Hnd as (Hna & Hnb & _). apply Forall_app in Hf as [Hfa Hf].
    inversion Hf as [|? ? (id' & Hid' & Hap) Hfb]; subst. destruct Ha as (id & Hid & -> & ->).
    cbn [pid code ids] in *. rewrite lookup_insert_eq in Hid'. injection Hid' as <-.
    eapply parted_middle; [done..| |by exists id; cbn [code]; rewrite apart_ordinary|done|done].
    intros j Hj. by apply lookup_insert_ne, not_eq_sym.
  - by eapply parted_fork.
  - destruct (good_proc _ _ _ _ _ _ Hg) as (id & Hid & _ & _).
    destruct (good_zombie _ z Hg) as [idc Hidc]; [apply elem_of_app; right; by left|].
    apply pids_others in Hnd as (Hna & Hnb & _). apply Forall_app in Hf as [Hfa Hf].
    inversion Hf as [|? ? (id' & Hid' & Hap) Hfb]; subst. cbn [pid code kstate] in *.
    eapply parted_middle; [done..| |exists id; split; [done|]|done|done].
    + intros j Hj. cbn. unfold clock_reaped. rewrite Hid, Hidc. by apply lookup_insert_ne, not_eq_sym.
    + cbn in Hid' |- *. unfold clock_reaped in Hid'. rewrite Hid, Hidc in Hid'. cbn in Hid'.
      rewrite lookup_insert_eq in Hid'. by injection Hid' as <-.
  - exfalso. by eapply good_awaits.
  - done.
  - destruct (good_proc _ _ _ _ _ _ Hg) as (id & Hid & _ & _). apply Forall_app in Hf as [Hfa Hfb].
    apply Forall_app. split; [done|]. constructor; [|done]. exists id. split; [done|]. by destruct cd.
Qed.

Lemma parted_steps c c' :
  rtc (step K) c c' -> good c -> named m (kstate c') ->
  Forall (parted m (kstate c')) (procs c') -> Forall (parted m (kstate c)) (procs c).
Proof.
  induction 1 as [|c1 c2 c3 Hs Hr IH]; [done|]. intros Hg Hn Hf.
  eapply parted_step; [done..| |].
  - apply steps_names in Hr as [more Hm]. unfold named in *. rewrite Hm in Hn. by apply Forall_app in Hn as [Hn _].
  - apply IH; [|done..]. by eapply step_good, Hg; [apply clock_respects|].
Qed.
End machine.

(** ** Every interleaving tells the same *)

(** The pids that an execution has given. *)
Definition pid_of (s : clockwork) (f : family) : Z := default 1 ((list_to_map (names s) : gmap family Z) !! f).

Lemma pid_of_named s :
  NoDup (names s).*1 -> Forall (Z.lt 0) (names s).*2 -> named (Machine (pid_of s) ans) s /\ forall f, 0 < pid_of s f.
Proof.
  intros Hnd Hpos. split.
  - apply Forall_forall. intros [f p] Hin. cbn. unfold pid_of. by rewrite (elem_of_list_to_map_1 _ f p).
  - intros f. unfold pid_of. destruct (_ !! f) as [p|] eqn:Hp; [|done].
    apply elem_of_list_to_map_2 in Hp. rewrite Forall_forall in Hpos. apply Hpos. by apply (list_elem_of_fmap_2 snd) in Hp.
Qed.

(** What has been told is part of what [timed] says, and all of it when the
    processes have ended. *)
Definition tells (r : outcome Z * Z * list span) (c : config clockwork) : Prop :=
  let '(o, t, l) := r in
  (exists rest, l ≡ₚ told (kstate c) ++ rest)
  /\ (procs c = [] -> l ≡ₚ told (kstate c)
      /\ exists st, zombies c = [Zombie 1 0 st] /\ ends_with o st /\ (clock <$> ids (kstate c) !! 1) = Some t).

Lemma starting_good p : wp P p [] (leaves P) -> good (starting p).
Proof.
  intros Hwp. exists [Knows 1 0 []]. cbn. split; [constructor; [|constructor]; by split_and!|]. split_and!; [| |done].
  - split; cbn.
    + apply NoDup_singleton.
    + by repeat constructor.
    + by left.
    + intros l ->%list_elem_of_singleton. by left.
    + intros w k ->%list_elem_of_singleton. cbn. split; [by intros ?%not_elem_of_nil|].
      by intros [= _ ?]%list_elem_of_singleton.
  - split; cbn.
    + intros w ->%list_elem_of_singleton. exists (Ident [] O 0 []).
      split; cbn; [apply lookup_insert_eq|done|by left|by intros i _ ?%not_elem_of_nil].
    + by intros z ?%not_elem_of_nil.
    + by intros w w' f f' ->%list_elem_of_singleton ->%list_elem_of_singleton.
    + by intros w w' f ->%list_elem_of_singleton ->%list_elem_of_singleton.
    + apply NoDup_nil_2.
    + by intros f i ?%not_elem_of_nil.
    + constructor.
Qed.

Lemma starting_foretold m p :
  let '(o, t, l) := timed m p [] 0 [] O in foretold m o t l (starting p).
Proof.
  destruct (timed m p [] 0 [] O) as [[o t] l] eqn:E. exists (fun _ => (o, t)), [l]. cbn. split_and!; try done.
  - constructor; [|constructor]. exists (Ident [] O 0 []). split; [apply lookup_insert_eq|done].
  - by rewrite app_nil_r.
Qed.

Lemma foretold_tells m o t l c : good c -> foretold m o t l c -> tells (o, t, l) c.
Proof.
  intros Hg (E & todo & Hp & Hz & Hw & H1). split; [exists (concat todo); by symmetry|]. intros Hnil.
  destruct (good_tree _ Hg) as (ws & Hws & HT & _). rewrite Hnil in Hp, Hws. inversion Hp; subst. inversion Hws; subst.
  cbn in Hw. rewrite app_nil_r in Hw. split; [done|]. destruct (tree_over _ HT) as [st Hst]. exists st. split; [done|].
  rewrite Hst in Hz. inversion Hz as [|? ? (id & Hid & Hend & Ht) _]; subst. cbn in Hid, Hend, Ht.
  rewrite H1 in Hend, Ht. cbn in Hend, Ht. split; [done|]. by rewrite Hid, Ht.
Qed.

(** However the processes are interleaved, the execution is finite and never
    blocks, and for the pids it goes on to give, its processes do what [timed]
    says and when it says it. *)
Theorem family_runs p :
  wp P p [] (leaves P) ->
  sn (step K) (starting p)
  /\ forall c, rtc (step K) (starting p) c ->
    (procs c <> [] -> exists c', step K c c') /\ Forall (fun z => ok (status z)) (zombies c)
    /\ exists np, let m := Machine np ans in
       (forall f, 0 < np f) /\ apart m p [] [] O /\ tells (timed m p [] 0 [] O) c.
Proof.
  intros Hwp. pose proof (starting_good p Hwp) as Hg0.
  destruct (adequacy K P jinv _ clock_respects clock_progresses Hg0) as [Hsn Hreach]. split; [done|].
  intros c Hc. destruct (Hreach c Hc) as [Hg Hprog]. split; [by destruct Hprog|].
  split; [by destruct Hg as (? & _ & _ & _ & HO)|].
  destruct (completes K P jinv c clock_respects clock_progresses Hg) as (ce & Hce & Hend).
  destruct (Hreach ce) as [Hge _]; [by etrans|]. destruct (good_tree _ Hge) as (ws & _ & _ & HB).
  destruct (pid_of_named (kstate ce)) as [Hn Hpos]; [apply HB|apply HB|].
  exists (pid_of (kstate ce)). intros m. split_and!; [done| |].
  - pose proof (parted_steps (pid_of (kstate ce)) (starting p) ce) as Hp. specialize (Hp ltac:(by etrans) Hg0 Hn).
    rewrite Hend in Hp. specialize (Hp (Forall_nil_2 _)). cbn in Hp. inversion Hp as [|? ? (id & Hid & Ha) _]; subst.
    cbn in Hid. rewrite lookup_singleton_eq in Hid. by injection Hid as <-.
  - pose proof (starting_foretold m p) as Hf0. destruct (timed m p [] 0 [] O) as [[o t] l].
    apply (foretold_tells m); [done|]. eapply foretold_steps; [done..| |done].
    apply steps_names in Hce as [more Hm]. unfold named in *. rewrite Hm in Hn. by apply Forall_app in Hn as [Hn _].
Qed.
End kernel.
