(* ===== verification/Timing.v ===== *)
(** * cpm1.c, cpm2.c, inception.c in every order

    The programs of the kit that fork and wait, under the kernel of Clock: each
    keeps to its protocol, a process waiting only for its children and ending
    without any, so that no interleaving blocks and all end as [timed]
    (Process) says. *)

From S2P Require Import Prelude CInt CString Libc CFloat Utils Calibrate Kernel Routine.
From S2P Require Import Process Kinship Clock Cpm Inception.

Local Open Scope string_scope.
Local Open Scope list_scope.
Local Open Scope Z_scope.

(** ** What the programs need of the answers *)

(** The calls of [calibrate] succeed and the alarm arrives. *)
Definition counting (ans : forall X, sys X -> family -> X * Z) : Prop :=
  forall me, (ans _ Sigemptyset me).1 = 0 /\ (forall s, (ans _ (Sigaction s) me).1 = 0)
    /\ (forall i v, (ans _ (Setitimer_real i v) me).1 = 0) /\ alarm_seen (ans _ Run_reads me).1 = true.

Section programs.
Variable ans : forall X, sys X -> family -> X * Z.
Variable ok : Z -> Prop.
#[local] Notation P := (join_protocol ans ok).

Definition answered X (e : sys X) (x : X) : Prop := exists me, x = (ans X e me).1.

#[export] Instance clock_routine : Routine P (@ordinary) answered.
Proof.
  split; [by intros X [] v|]. intros X e v x v' He Hl.
  apply (jlearns_ordinary ans _ _ _ _ _ He) in Hl as [-> Hx]. by split.
Qed.

#[export] Instance clock_sleeps : Routine.Sleeps (@ordinary).
Proof. by split. Qed.

Lemma clock_counts : counting ans -> Counts (@ordinary) answered.
Proof.
  intros Hc. split; (split; [done|]); intros; destruct H as [me ->]; by apply Hc.
Qed.

(** A process that forks goes on with a child more; the child has none. *)
Lemma wp_fork {A} (f : Z -> prog A) v Q :
  wp P (f 0) [] Q -> (forall c, 0 < c -> c ∉ v -> wp P (f c) (c :: v) Q) -> wp P (call Fork ≫= f) v Q.
Proof. intros H0 Hc. apply wp_step; [done|]. intros x v' [[-> ->]|(Hx & Hn & ->)]; [done|by apply Hc]. Qed.

Lemma wp_waitpid {A} c (f : Z -> prog A) v Q : c ∈ v -> wp P (f c) (without c v) Q -> wp P (call (Waitpid c) ≫= f) v Q.
Proof. intros Hin Hf. apply wp_step; [done|]. by intros x v' [-> ->]. Qed.

Lemma without_only c : without c [c] = [].
Proof. unfold without. by rewrite filter_cons_False by (by intros []). Qed.

(** ** cpm1, cpm2 *)

Lemma wp_cpm1 u (Q : unit -> list Z -> Prop) : Q tt [] -> wp P (Cpm1.master u) [] Q.
Proof.
  intros HQ. unfold Cpm1.master. apply wp_fork.
  - cbn [Z.ltb Z.eqb Z.compare]. apply wp_bind with (Q := fun _ v => v = []); [|intros _ ? ->; by apply wp_ret].
    unfold Cpm1.child1. apply wp_routine; [done|]. intros _ _. apply wp_fork.
    + cbn [Z.ltb Z.eqb Z.compare]. apply wp_routine; [done|]. intros _ _. by apply wp_ret.
    + intros c Hc _. rewrite (proj2 (Z.ltb_ge c 0)), (proj2 (Z.eqb_neq c 0)) by lia.
      apply wp_waitpid; [by left|]. by apply wp_hog; [|apply without_only].
  - intros c Hc _. rewrite (proj2 (Z.ltb_ge c 0)), (proj2 (Z.eqb_neq c 0)) by lia.
    apply wp_routine; [done|]. intros _ _. apply wp_waitpid; [by left|]. rewrite without_only.
    apply wp_routine; [done|]. intros _ _. by apply wp_ret.
Qed.

Lemma wp_cpm2 u (Q : unit -> list Z -> Prop) : Q tt [] -> wp P (Cpm2.master u) [] Q.
Proof.
  intros HQ. unfold Cpm2.master. apply wp_fork.
  - cbn [Z.ltb Z.eqb Z.compare]. apply wp_routine; [done|]. intros _ _. by apply wp_ret.
  - intros c Hc _. rewrite (proj2 (Z.ltb_ge c 0)), (proj2 (Z.eqb_neq c 0)) by lia.
    apply wp_routine; [done|]. intros _ _. apply wp_waitpid; [by left|]. rewrite without_only. by apply wp_ret.
Qed.
End programs.

(** ** Programs that make no processes *)

Fixpoint forkless {A} (p : prog A) : Prop :=
  match p with Vis e k => ordinary e = true /\ forall x, forkless (k x) | _ => True end.

Lemma forkless_bind {A B} (p : prog A) (f : A -> prog B) : forkless p -> (forall a, forkless (f a)) -> forkless (p ≫= f).
Proof. intros Hp Hf. induction p as [a|s|w| |X e k IH]; cbn; [apply Hf|done..|]. destruct Hp as [He Hk]. split; auto. Qed.

Lemma forkless_call {X} (e : sys X) : ordinary e = true -> forkless (call e).
Proof. by intros. Qed.

Lemma forkless_for {T} n i (body : Z -> T -> prog T) s : (forall j s, forkless (body j s)) -> forkless (for_ n i body s).
Proof. intros Hb. revert i s. induction n as [|n IH]; intros i s; cbn [for_]; [done|]. by apply forkless_bind. Qed.

Lemma forkless_or_error r msg : forkless (or_error r msg).
Proof. unfold or_error. case_if; [done|]. by repeat split. Qed.

Lemma forkless_counter n : forkless (counter n).
Proof. split; [done|]. intros reads. cbn. by destruct (counter_loop reads n). Qed.

Lemma forkless_calibrate us : forkless (calibrate us).
Proof.
  unfold calibrate. repeat first [progress intros | apply forkless_bind | apply forkless_call; done
    | apply forkless_or_error | apply forkless_counter | apply forkless_for | done].
Qed.

(** Such a program takes its time and leaves the family as it is. *)
Lemma timed_forkless {A B} np np' ans (p : prog A) (f : A -> prog B) me t kids born kids' born' a t' l :
  forkless p -> timed (Machine np' ans) p me t kids' born' = (Done a, t', l) ->
  timed (Machine np ans) (p ≫= f) me t kids born
  = let '(o, t'', l') := timed (Machine np ans) (f a) me t' kids born in (o, t'', l ++ l').
Proof.
  revert t l. induction p as [x|s|w| |X e k IH]; intros t l Hp Ht; try discriminate Ht.
  - cbn in Ht. injection Ht as -> -> <-. cbn [app]. rewrite timed_ret_bind. by destruct (timed _ (f a) _ _ _ _) as [[o t''] l'].
  - destruct Hp as [He Hk]. cbn [mbind prog_bind]. rewrite timed_ordinary in Ht by done. rewrite timed_ordinary by done. unfold after_call in *. cbn [answer] in *.
    destruct (ans X e me) as [x d]. destruct (timed _ (k x) _ _ _ _) as [[o t1] l1] eqn:E. injection Ht as -> -> <-.
    rewrite (IH x _ _ (Hk x) E). destruct (timed _ (f a) _ _ _ _) as [[o' t''] l']. by rewrite app_assoc.
Qed.

(** What [calibrate] returns, when, and what it does until then. *)
Definition calibrated (ans : forall X, sys X -> family -> X * Z) (n t : Z) (l : list span) : Prop :=
  timed (Machine (fun _ => 0) ans) (calibrate 100000) [] 0 [] O = (Done n, t, l).

(** (C26) cpm1, from the calibration on, with its three processes in any order:
    every interleaving is finite and never blocks, and they do what the
    critical path says, when it says: the master works [4 u], waits for
    child 1, which itself waits for child 2, and ends at
    [max (4 u c0) (u c1 + 2 u c2 + 2 u c1) + u c0] after the calibration, where
    [c0], [c1], [c2] are the costs of a turn in the three processes; on equal
    processors the whole takes six units, the time of child 2 among them.
    When the first fork fails nothing runs, when the second fails only
    child 2 and the wait for it are missing. *)
Theorem cpm1_any_order (ans : forall X, sys X -> family -> X * Z) (cost : family -> Z) (argv : list string)
    (n t : Z) (l : list span)
    (Hcount : counting ans) (Hbusy : forall me k, ans unit (Busy k) me = (tt, cost me * k))
    (Hc : forall p, 0 <= cost p) (Hcal : calibrated ans n t l) (Hn : 1 <= s64 n) (Hmax : 4 * s64 n <= LONG_MAX) :
  let '(c0, c1, c2) := (cost Cpm1.master_, cost Cpm1.child1_, cost Cpm1.child2_) in
  let u := s64 n in
  let K := clock_kernel ans in
  let over := Cpm1.awaited c0 c1 c2 u t + u * c0 in
  (sn (step K) (starting (Cpm1.main argv))
   /\ forall c, rtc (step K) (starting (Cpm1.main argv)) c ->
     (procs c <> [] -> exists c', step K c c')
     /\ tells (Done EXIT_SUCCESS, over, l ++ Cpm1.story c0 c1 c2 u t) c)
  /\ (c0 = 1 -> c1 = 1 -> c2 = 1 -> over = t + 6 * u)
  /\ forall np,
     (np Cpm1.child1_ < 0 ->
      timed (Machine np ans) (Cpm1.main argv) [] 0 [] O = (Done EXIT_SUCCESS, t, l))
     /\ (0 < np Cpm1.child1_ -> np Cpm1.child2_ < 0 ->
         exists l', timed (Machine np ans) (Cpm1.main argv) [] 0 [] O
           = (Done EXIT_SUCCESS, Z.max (t + 4 * u * c0) (t + u * c1) + u * c0, l ++ l')
           /\ Forall (fun s => who s <> Cpm1.child2_) l').
Proof.
  cbv beta iota. intros u K over. unfold Cpm1.master_ in *.
  assert (forall np, timed (Machine np ans) (Cpm1.main argv) [] 0 [] O
    = let '(o, t', l') := timed (Machine np ans) (Cpm1.master u ≫= fun _ => Ret EXIT_SUCCESS) [] t [] O in (o, t', l ++ l')) as Hmain.
  { intros np. unfold Cpm1.main. by erewrite timed_forkless; [|apply forkless_calibrate|exact Hcal]. }
  pose proof (fun np => Cpm1.master_critical_path (Machine np ans) cost u t (fun _ => Ret EXIT_SUCCESS) EXIT_SUCCESS
    Hbusy Hc Hn Hmax (fun _ _ _ _ _ => eq_refl)) as Hpath. unfold Cpm1.master_ in Hpath.
  split; [|split].
  - destruct (family_runs ans (fun _ => True) (Cpm1.main argv)) as [Hsn Hr].
    { unfold Cpm1.main. pose proof (clock_counts ans Hcount). apply wp_calibrate_then. intros k.
      eapply wp_bind; [by apply (wp_cpm1 _ _ _ (fun _ v => v = []))|]. intros _ ? ->. by split. }
    split; [done|]. intros c Hrc. destruct (Hr c Hrc) as (Hprog & _ & np & Hpos & _ & Ht). split; [done|].
    destruct (Hpath np) as [Hall _]. rewrite Hmain, Hall in Ht by apply Hpos. exact Ht.
  - subst over. unfold Cpm1.awaited, Cpm1.e1, Cpm1.e2. lia.
  - intros np. rewrite Hmain. destruct (Hpath np) as (_ & H1 & H2). split.
    + intros Hf. rewrite H1 by done. by rewrite app_nil_r.
    + intros Hf1 Hf2. destruct (H2 Hf1 Hf2) as (l' & -> & Hl'). by exists l'.
Qed.

(** A machine on which a turn of work and a unit of time are the same, and
    where the alarm comes after ten turns. *)
Definition ticking X (e : sys X) (me : family) : X * Z :=
  (match e in sys X return X with Run_reads => replicate 10 true ++ [false] | e => default_answer e end, duration e).

Lemma ticking_counts : counting ticking.
Proof. by intros me. Qed.

Lemma ticking_busy me k : ticking unit (Busy k) me = (tt, 1 * k).
Proof. unfold ticking. cbn. f_equal. lia. Qed.

Lemma ticking_calibrated : calibrated ticking 10 0 [].
Proof. vm_compute. reflexivity. Qed.

Theorem cpm1_any_order_witness :
  let K := clock_kernel ticking in
  let start := starting (Cpm1.main ["wk-cpm1"]) in
  sn (step K) start
  /\ forall c, rtc (step K) start c -> (procs c <> [] -> exists c', step K c c') /\
     tells (Done 0, 60,
      [ Span [O] Works 0 10; Span [O; O] Works 10 30; Span [O] Waits 10 30;
        Span [O] Works 30 50; Span [] Works 0 40; Span [] Waits 40 50;
        Span [] Works 50 60 ]) c.
Proof.
  destruct (cpm1_any_order ticking (fun _ => 1) ["wk-cpm1"] 10 0 [] ticking_counts ticking_busy
    (fun _ => Z.le_0_1) ticking_calibrated ltac:(by vm_compute) ltac:(by vm_compute)) as [H _].
  exact H.
Defined.

(** cpm2 likewise: the master never waits as long as a turn of the child costs
    at most twice a turn of the master. *)
Lemma cpm2_any_order (ans : forall X, sys X -> family -> X * Z) (cost : family -> Z) (argv : list string)
    (n t : Z) (l : list span) :
  counting ans -> (forall me k, ans unit (Busy k) me = (tt, cost me * k)) ->
  calibrated ans n t l -> 1 <= s64 n -> 2 * s64 n <= LONG_MAX ->
  let '(c0, c1) := (cost Cpm2.master_, cost Cpm2.child1_) in
  let u := s64 n in
  let K := clock_kernel ans in
  let w := Z.max (t + 2 * u * c0) (t + u * c1) in
  sn (step K) (starting (Cpm2.main argv))
  /\ forall c, rtc (step K) (starting (Cpm2.main argv)) c ->
    (procs c <> [] -> exists c', step K c c')
    /\ tells (Done EXIT_SUCCESS, w,
         l ++ [ Span Cpm2.child1_ Works t (t + u * c1); Span Cpm2.master_ Works t (t + 2 * u * c0);
                Span Cpm2.master_ Waits (t + 2 * u * c0) w ]) c.
Proof.
  intros Hcount Hbusy Hcal Hn Hmax. cbv beta iota. intros u K w.
  destruct (family_runs ans (fun _ => True) (Cpm2.main argv)) as [Hsn Hr].
  { unfold Cpm2.main. pose proof (clock_counts ans Hcount). apply wp_calibrate_then. intros k.
    eapply wp_bind; [by apply (wp_cpm2 _ _ _ (fun _ v => v = []))|]. intros _ ? ->. by split. }
  split; [done|]. intros c Hrc. destruct (Hr c Hrc) as (Hprog & _ & np & Hpos & _ & Ht). split; [done|].
  unfold Cpm2.main in Ht. erewrite timed_forkless in Ht; [|apply forkless_calibrate|exact Hcal].
  rewrite Cpm2.master_timed with (cost := cost) (b := EXIT_SUCCESS) in Ht; [exact Ht|done..|by apply Hpos|done].
Qed.

(** ** inception *)
Section sleeping.
Variable ans : forall X, sys X -> family -> X * Z.
Variable ok : Z -> Prop.
#[local] Notation P := (join_protocol ans ok).

Lemma wp_int x (f : Z -> prog Z) v Q : in_s32 x -> wp P (f x) v Q -> wp P (int_ x ≫= f) v Q.
Proof. intros Hx Hf. by rewrite int_in_range. Qed.

(** In the family of [n] every process but the last has one child, and waits for it. *)
Lemma wp_do_run fuel n mili (Q : Z -> list Z -> Prop) :
  (n <= fuel)%nat -> (1 <= n)%nat -> 1 <= mili -> mili * 2 ^ Z.of_nat n <= INT_MAX ->
  (forall r, Q r []) -> wp P (do_run fuel mili (Z.of_nat n)) [] Q.
Proof.
  revert n mili Q. induction fuel as [|fuel IH]; intros n mili Q Hn H1 Hmi Hmax HQ; [lia|].
  destruct n as [|n]; [lia|]. cbn [do_run].
  rewrite Nat2Z.inj_succ, Z.pow_succ_r in Hmax by lia.
  assert (Z.of_nat n < 2 ^ Z.of_nat n) as Hlt by (apply Z.pow_gt_lin_r; lia).
  assert (mili * 2 <= INT_MAX /\ Z.of_nat n <= INT_MAX) as [H2 H3] by nia.
  apply wp_sleep_then. intros r. case_if.
  { apply wp_routine; [done|]. intros _ _. by apply wp_ret. }
  apply wp_bind with (Q := fun _ v => v = []).
  2:{ intros r' ? ->. case_if; [apply wp_routine; [done|]; intros _ _|]; by apply wp_ret. }
  unfold spawn_child. apply wp_int; [clia|]. apply wp_int; [clia|].
  replace (Z.of_nat (S n) - 1) with (Z.of_nat n) by lia.
  destruct (Z.eqb_spec (Z.of_nat n) 0) as [Hn0|Hn0]; [done|]. apply wp_fork.
  - cbn [Z.ltb Z.eqb Z.compare]. apply wp_bind with (Q := fun _ v => v = []); [|by intros _ ? ->].
    apply IH; done || lia || nia.
  - intros c Hc _. rewrite (proj2 (Z.ltb_ge c 0)), (proj2 (Z.eqb_neq c 0)) by lia.
    apply wp_waitpid; [by left|]. by rewrite without_only.
Qed.
End sleeping.

(** Sleeping takes the time asked for and succeeds, looking at the clock takes none. *)
Definition sleepy (ans : forall X, sys X -> family -> X * Z) : Prop :=
  (forall me t, ans Z (Nanosleep t) me = (0, tv_sec t * 1000000000 + tv_nsec t))
  /\ (forall me, (ans (Z * Z)%type Gettimeofday me).2 = 0).

(** (C27) The family of [wk-inception M N] is a chain of [N] processes, and however
    they are interleaved no execution blocks or goes on for ever and all do
    what their [story] says, when it says: the [i]-th sleeps [2^i M]
    milliseconds, its child lives, and it waits for it until the end; the
    whole takes [M (2^N - 1)] milliseconds and the first process returns 0,
    as long as the doubled times fit an [int]. *)
Theorem inception_any_order (ans : forall X, sys X -> family -> X * Z) (m : Z) (n : nat) (prog_ : string)
    (Hsleep : sleepy ans)
    (Hn : (1 <= n)%nat) (Hm : 1 <= m) (Hmax : m * 2 ^ Z.of_nat n <= INT_MAX) :
  let K := clock_kernel ans in
  let start := starting (Inception.main n [prog_; render m; render (Z.of_nat n)]) in
  sn (step K) start
  /\ forall c, rtc (step K) start c ->
    (procs c <> [] -> exists c', step K c c')
    /\ tells (Done 0, ms (m * (2 ^ Z.of_nat n - 1)), Inception.story n [] 0 m) c.
Proof.
  intros K start. assert (Z.of_nat n < 2 ^ Z.of_nat n) as Hlt by (apply Z.pow_gt_lin_r; lia).
  assert (m <= INT_MAX /\ Z.of_nat n <= INT_MAX) as [H2 H3] by nia.
  destruct (family_runs ans (fun _ => True) (Inception.main n [prog_; render m; render (Z.of_nat n)])) as [Hsn Hr].
  { cbn [Inception.main]. rewrite !atoi_render by clia. apply wp_bind with (Q := fun _ v => v = []); [|by intros _ ? ->].
    by apply wp_do_run. }
  split; [done|]. intros c Hrc. destruct (Hr c Hrc) as (Hprog & _ & np & Hpos & _ & Ht). split; [done|].
  by rewrite inception_total in Ht.
Qed.

Theorem inception_any_order_witness :
  let K := clock_kernel ticking in
  let start := starting (Inception.main 3 ["wk-inception"; "100"; "3"]) in
  sn (step K) start
  /\ forall c, rtc (step K) start c -> (procs c <> [] -> exists c', step K c c') /\
     tells (Done 0, ms 700,
       [ Span [] Sleeps 0 (ms 100);
         Span [O] Sleeps (ms 100) (ms 300);
         Span [O; O] Sleeps (ms 300) (ms 700);
         Span [O] Waits (ms 300) (ms 700);
         Span [] Waits (ms 100) (ms 700) ]) c.
Proof.
  exact (inception_any_order ticking 100 3 "wk-inception" (conj (fun _ _ => eq_refl) (fun _ => eq_refl))
    ltac:(lia) ltac:(lia) ltac:(clia)).
Defined.

(** ** Programs that take their time

    [plain p Q]: whatever process runs it, [p] makes only ordinary calls and
    returns a value in [Q]; [takes me p]: the time its calls take in the
    process [me]. *)
Section plain.
Variable ans : forall X, sys X -> family -> X * Z.

Fixpoint plain {A} (p : prog A) (Q : A -> Prop) : Prop :=
  match p with
  | Ret a => Q a
  | Vis e k => ordinary e = true /\ forall me, plain (k (ans _ e me).1) Q
  | _ => False
  end.

Fixpoint takes {A} (me : family) (p : prog A) : Z :=
  match p with
  | Vis e k => (ans _ e me).2 + takes me (k (ans _ e me).1)
  | _ => 0
  end.

Lemma plain_bind {A B} (p : prog A) (f : A -> prog B) Q R :
  plain p Q -> (forall a, Q a -> plain (f a) R) -> plain (p ≫= f) R.
Proof.
  induction p as [a|s|w| |X e k IH]; intros Hp Hf; cbn in *; try done; [by apply Hf|].
  destruct Hp as [He Hk]. split; [done|]. intros me. by apply IH.
Qed.

Lemma plain_for {T} n i (body : Z -> T -> prog T) s (Q : T -> Prop) :
  (forall j s, Q s -> plain (body j s) Q) -> Q s -> plain (for_ n i body s) Q.
Proof.
  intros Hb. revert i s. induction n as [|n IH]; intros i s Hs; cbn [for_]; [done|].
  eapply plain_bind; [by apply Hb|]. intros a Ha. by apply IH.
Qed.

Lemma wp_plain {A} ok (p : prog A) v Q :
  plain p Q -> wp (join_protocol ans ok) p v (fun a v' => Q a /\ v' = v).
Proof.
  induction p as [a|s|w| |X e k IH]; intros Hp; cbn in *; try done.
  destruct Hp as [He Hk]. split; [by destruct e|]. intros x v' [-> [me ->]]%(jlearns_ordinary ans); [by eapply IH|done].
Qed.

(** The time of a program that returns nothing, and then of the rest. *)
Lemma takes_then {B} me (p : prog unit) (f : unit -> prog B) :
  plain p (fun _ => True) -> takes me (p ≫= f) = takes me p + takes me (f tt).
Proof.
  induction p as [[]|s|w| |X e k IH]; intros Hp; cbn in *; try done.
  destruct Hp as [_ Hk]. rewrite IH by done. lia.
Qed.

Lemma spans_of_call me {X} (e : sys X) t t' : Forall (fun s => act s <> Waits) (spans_of me (activity_of e) t t').
Proof. destruct e; cbn; repeat constructor; done. Qed.

(** Nothing is waited for in the meantime. *)
Lemma timed_plain {A B} np (p : prog A) (f : A -> prog B) Q me t kids born :
  plain p Q ->
  exists a l, Q a /\ Forall (fun s => act s <> Waits) l /\ timed (Machine np ans) (p ≫= f) me t kids born
    = let '(o, t', l') := timed (Machine np ans) (f a) me (t + takes me p) kids born in (o, t', l ++ l').
Proof.
  revert t. induction p as [a|s|w| |X e k IH]; intros t Hp; cbn in Hp; try done.
  - exists a, []. split; [done|]. split; [constructor|]. cbn [takes]. rewrite timed_ret_bind, Z.add_0_r.
    by destruct (timed _ (f a) _ _ _ _) as [[o t'] l'].
  - destruct Hp as [He Hk]. destruct (IH _ (t + (ans X e me).2) (Hk me)) as (a & l & Ha & Hl & E).
    exists a, (spans_of me (activity_of e) t (t + (ans X e me).2) ++ l). split; [done|].
    split; [apply Forall_app; split; [apply spans_of_call|done]|].
    change (Vis e k ≫= f) with (Vis e (fun x => k x ≫= f)).
    rewrite timed_ordinary by done. unfold after_call. cbn [answer takes].
    destruct (ans X e me) as [x dx]. cbn [fst snd] in *. rewrite E, Z.add_assoc.
    destruct (timed (Machine np ans) (f a) _ _ kids born) as [[o t'] l']. by rewrite app_assoc.
Qed.
End plain.
