(* ===== verification/ProclifeRun.v ===== *)
(** * proclife.c in every order

    The parent and the ten children of Proclife under the kernel of Clock: the
    protocol, the time each of them takes, and the critical path. *)

From S2P Require Import Prelude CInt CString Libc CFloat Utils Calibrate Kernel Routine.
From S2P Require Import Process Kinship Clock Timing Proclife.

Local Open Scope string_scope.
Local Open Scope list_scope.
Local Open Scope Z_scope.

(** ** What the processes do

    Printing is free and [usleep] sleeps for as long as it is asked to; every
    other call, the files and the sound system among them, takes its time,
    which may differ from one process to the next.  The child [i] is the one
    forked [9 - i]th, for the loop counts down. *)
Definition us (n : Z) : Z := n * 1000.

Definition child_of (i : Z) : family := [Z.to_nat (9 - i)].

(** The waits of the parent for children that end at [ends]. *)
Fixpoint waits (t : Z) (ends : list Z) : list span :=
  match ends with [] => [] | e :: ends => Span [] Waits t (Z.max t e) :: waits (Z.max t e) ends end.

Section proclife.
Variable ans : forall X, sys X -> family -> X * Z.
Variable sin : double -> double.
Hypothesis Hfopen : forall path mode me, (ans _ (Fopen path mode) me).1 <> None.
Hypothesis Hprint : forall fmt args me, (ans _ (Printf fmt args) me).2 = 0.
Hypothesis Hsleep : forall n me, (ans _ (Usleep n) me).2 = us n.
Hypothesis Hsound : forall i, 0 <= i < NUM_PROCESSES -> is_Some (mapM (sound_byte sin i) (seqZ 0 NUM_SAMPLES)).

(** How long the child [i] works, when it ends, and the same for the parent. *)
Definition child_work (i : Z) : Z := takes ans (child_of i) (work sin i).
Definition child_end (i : Z) : Z := us (i * 1000000 + 500) + child_work i.
Definition parent_work : Z := takes ans [] (work sin 0).
Definition exec_time : Z := (ans _ (Execv "/bin/ls" ["/bin/ls"; "-r"; "-t"; "-l"]) []).2.

Definition leaves_zero (st : Z) : Prop := st = 0.
#[local] Notation P := (join_protocol ans leaves_zero).
#[local] Notation plain := (plain ans).
#[local] Notation takes := (takes ans).
#[local] Notation any := (fun _ => True).

Lemma plain_then {X A} (e : sys X) (f : X -> prog A) Q :
  ordinary e = true -> (forall x, plain (f x) Q) -> plain (call e ≫= f) Q.
Proof. intros He Hf. split; [done|]. intros me. apply Hf. Qed.

Lemma plain_call {X} (e : sys X) : ordinary e = true -> plain (call e) any.
Proof. by split. Qed.

Ltac straight := repeat first [ by apply plain_call | apply plain_then; [done|]; intros ? | case_if | done ].

Lemma plain_allocate_memory : plain allocate_memory any.
Proof. apply plain_for; [|done]. intros j s _. unfold allocate_once. straight. Qed.

Lemma plain_write_lines f j l : plain (write_lines f j l) any.
Proof. revert j. induction l as [|b l IH]; intros j; cbn [write_lines]; [done|]. apply plain_then; [done|]. intros _. apply IH. Qed.

Lemma plain_play_sound bytes samples : plain (play_sound bytes samples) any.
Proof.
  unfold play_sound. apply plain_then; [done|]. intros [status handle].
  eapply plain_bind with (Q := any); [straight|]. intros _ _. apply plain_then; [done|]. intros _. destruct handle; straight.
Qed.

Lemma plain_write_to_file bytes i : plain (write_to_file bytes i) any.
Proof using Hfopen.
  unfold write_to_file. split; [done|]. intros me. specialize (Hfopen (file_name i) "w" me).
  cbn. destruct (ans _ _ me).1 as [f|]; [|done].
  eapply plain_bind with (Q := any); [apply plain_write_lines|]. intros _ _. straight.
Qed.

Lemma plain_work i : 0 <= i < NUM_PROCESSES -> plain (work sin i) any.
Proof using Hfopen Hsound.
  intros Hi. unfold work, set_up_sound. destruct (Hsound i Hi) as [l ->]. cbn [mbind prog_bind].
  eapply plain_bind with (Q := any); [apply plain_allocate_memory|]. intros _ _.
  eapply plain_bind with (Q := any); [apply plain_write_to_file|]. intros _ _.
  eapply plain_bind with (Q := any); [apply plain_play_sound|]. intros _ _. straight.
Qed.

Lemma plain_wait_for_sync i : plain (wait_for_sync i) any.
Proof. unfold wait_for_sync. straight. Qed.

Lemma takes_wait_for_sync i me : 0 <= i < NUM_PROCESSES -> takes me (wait_for_sync i) = us (i * 1000000 + 500).
Proof using Hprint Hsleep.
  intros Hi. unfold NUM_PROCESSES in *. cbn. rewrite Hprint, Hsleep, u32_id by clia. unfold us. lia.
Qed.

(** ** The protocol *)

Lemma wp_fork_all name n argv0 v (Q : list Z * list ascii -> list Z -> Prop) :
  Z.of_nat n <= NUM_PROCESSES -> NoDup v ->
  (forall pids argv0' v', NoDup v' -> v' ≡ₚ pids ++ v -> Q (pids, argv0') v') ->
  wp P (fork_all sin name n argv0) v Q.
Proof using Hfopen Hsound.
  revert argv0 v Q. induction n as [|n IH]; intros argv0 v Q Hn Hv HQ; cbn [fork_all].
  { apply wp_ret. by apply HQ. }
  apply wp_fork.
  - cbn [Z.eqb]. apply wp_bind with (Q := fun _ _ => False); [|done].
    eapply wp_bind; [apply wp_plain, plain_wait_for_sync|]. intros _ ? [_ ->].
    eapply wp_bind; [apply wp_plain, plain_work; lia|]. intros _ ? [_ ->]. by split.
  - intros c Hc Hcv. rewrite (proj2 (Z.eqb_neq c 0)) by lia. cbn [mbind prog_bind].
    eapply wp_bind; [apply (IH _ _ (fun r v' => NoDup v' /\ v' ≡ₚ r.1 ++ c :: v)); [lia|by apply NoDup_cons|done]|].
    intros [pids argv0'] v' [Hnd Hp]. apply wp_ret, HQ; [done|]. cbn in Hp. by rewrite Hp, <- Permutation_middle.
Qed.

Lemma without_perm c l v : NoDup v -> v ≡ₚ c :: l -> without c v ≡ₚ l /\ NoDup (without c v).
Proof.
  intros Hnd Hp. split; [|by apply NoDup_filter]. unfold without. rewrite Hp.
  rewrite Hp in Hnd. apply NoDup_cons in Hnd as [Hc _]. rewrite filter_cons_False by (by intros []).
  clear Hp v. induction l as [|k l IH]; [done|]. apply not_elem_of_cons in Hc as [Hk Hc].
  rewrite filter_cons_True by done. by rewrite IH.
Qed.

Lemma wp_wait_all pids v : NoDup v -> v ≡ₚ pids -> wp P (wait_all pids) v (fun _ v' => v' = []).
Proof.
  revert v. induction pids as [|c pids IH]; intros v Hnd Hp; cbn [wait_all].
  { apply wp_ret. by apply Permutation_nil_r. }
  apply wp_routine; [done|]. intros _ _. destruct (without_perm c pids v Hnd Hp) as [Hp' Hnd'].
  apply wp_waitpid; [rewrite Hp; by left|]. apply wp_routine; [done|]. intros _ _. by apply IH.
Qed.

Lemma wp_proclife (name : list ascii) : (strlen name < 80)%nat -> wp P (Proclife.main sin name) [] (leaves P).
Proof using Hfopen Hsound.
  intros Hname. unfold Proclife.main. rewrite (proj2 (Nat.leb_gt _ _) Hname).
  eapply wp_bind; [apply (wp_fork_all _ _ _ _ (fun r v => NoDup v /\ v ≡ₚ r.1)); [done|apply NoDup_nil_2|]|].
  { intros pids argv0' v' Hnd Hp. by rewrite app_nil_r in Hp. }
  intros [pids argv0'] v [Hnd Hp]. eapply wp_bind; [by apply wp_plain, plain_work|]. intros _ ? [_ ->].
  eapply wp_bind; [by apply wp_wait_all|]. intros _ ? ->. apply wp_routine; [done|]. intros ? _.
  apply wp_routine; [done|]. intros ? _. by split.
Qed.

(** ** The critical path *)
Section path.
Variable np : family -> Z.
#[local] Notation m := (Machine np ans).
Hypothesis Hnp : forall f, 0 < np f.

(** The children of [fork_all], the last first, with their ends; the place of
    a child in the family counts the forks before it. *)
Fixpoint offspring (n born : nat) (t : Z) : list (Z * Z) :=
  match n with
  | O => []
  | S n =>
      (np [born], t + (us (Z.of_nat n * 1000000 + 500) + takes [born] (work sin (Z.of_nat n))))
      :: offspring n (S born) t
  end.

#[local] Notation awake := (Forall (fun s => act s <> Waits)).

(** Run a plain program, in the goal, and name what it does. *)
Ltac run_plain H l :=
  match type of H with
  | _ ?p ?Q =>
      match goal with
      | |- context [timed _ (p ≫= ?f) ?me ?t ?kids ?born] =>
          let x := fresh "x" in
          destruct (timed_plain ans np p f Q me t kids born H) as (x & l & _ & ?Hl & ->);
          try match type of x with unit => destruct x end
      end
  end.

Lemma timed_child {B} i (f : unit -> prog B) me t kids born :
  0 <= i < NUM_PROCESSES ->
  exists l, awake l /\ timed m ((wait_for_sync i;; work sin i;; Exit 0) ≫= f) me t kids born
    = (Exited 0, t + (us (i * 1000000 + 500) + takes me (work sin i)), l).
Proof using Type*.
  intros Hi. rewrite timed_assoc.
  run_plain (plain_wait_for_sync i) l1.
  rewrite timed_assoc. run_plain (plain_work i Hi) l2.
  cbn [mbind prog_bind timed]. rewrite takes_wait_for_sync, Z.add_assoc, app_nil_r by done.
  eexists. split; [|reflexivity]. by apply Forall_app.
Qed.

Lemma timed_fork_all {B} name n argv0 (f : list Z * list ascii -> prog B) t kids born :
  Z.of_nat n <= NUM_PROCESSES ->
  exists argv0' (l : list span), awake l /\ timed m (fork_all sin name n argv0 ≫= f) [] t kids born
    = let '(o, t', l') := timed m (f ((offspring n born t).*1, argv0')) [] t (rev (offspring n born t) ++ kids) (born + n)%nat
      in (o, t', l ++ l').
Proof using Type*.
  revert argv0 f kids born. induction n as [|n IH]; intros argv0 f kids born Hn; cbn [fork_all].
  { exists argv0, []. split; [constructor|]. cbn. rewrite Nat.add_0_r. by destruct (timed m (f _) _ _ _ _) as [[o t'] l']. }
  rewrite timed_assoc, (timed_fork _ _ _ _ _ _ (np ([] ++ [born]))) by done.
  rewrite (proj2 (Z.eqb_neq (np ([] ++ [born])) 0)) by (specialize (Hnp ([] ++ [born])); lia). cbn [Z.eqb].
  rewrite timed_assoc. match goal with |- context [timed m ((_ ≫= (fun _ => _ ≫= (fun _ => Exit 0))) ≫= ?g) ?me t [] O] =>
    destruct (timed_child (Z.of_nat n) g me t [] O) as (lc & Hlc & ->); [lia|] end.
  rewrite timed_assoc, timed_ret_bind, timed_assoc.
  match goal with |- context [timed m (fork_all _ _ _ ?av ≫= ?g) _ _ ?ks _] =>
    destruct (IH av g ks (S born)) as (argv0' & l & Hl & ->); [lia|] end.
  exists argv0', (lc ++ l). split; [by apply Forall_app|]. rewrite timed_ret_bind. cbn [offspring rev fmap list_fmap fst app].
  rewrite <- app_assoc, Nat.add_succ_comm. cbn [app].
  destruct (timed m (f _) _ _ _ _) as [[o t'] l']. by rewrite app_assoc.
Qed.

Lemma reap_in kids c tc : NoDup kids.*1 -> (c, tc) ∈ kids -> reap kids c = Some tc.
Proof.
  unfold reap. induction kids as [|[k tk] kids IH]; [by intros _ ?%not_elem_of_nil|]. cbn. intros [Hk Hnd]%NoDup_cons Hin.
  destruct (decide (k = c)) as [->|Hne].
  - apply elem_of_cons in Hin as [[= ->]|Hin]; [done|]. exfalso. apply Hk. by apply (list_elem_of_fmap_2 fst) in Hin.
  - apply elem_of_cons in Hin as [[= -> ->]|Hin]; [done|]. specialize (IH Hnd Hin). by destruct (list_find _ kids) as [[j r]|].
Qed.

Lemma forget_perm kids c tc ks : NoDup ((c, tc) :: ks).*1 -> kids ≡ₚ (c, tc) :: ks -> forget kids c ≡ₚ ks.
Proof.
  intros Hnd Hp. unfold forget. rewrite Hp. rewrite filter_cons_False by (by intros []).
  cbn in Hnd. apply NoDup_cons in Hnd as [Hc _]. clear Hp. induction ks as [|[k tk] ks IH]; [done|].
  cbn in Hc. apply not_elem_of_cons in Hc as [Hk Hc]. rewrite filter_cons_True by (cbn; done). by rewrite IH.
Qed.

Lemma awake_filter l : awake l -> filter (fun s => act s = Waits) l = [].
Proof. induction 1 as [|x l Hx _ IH]; [done|]. by rewrite filter_cons_False. Qed.

Lemma timed_waitpid_in {B} c tc (f : Z -> prog B) me t kids born :
  reap kids c = Some tc ->
  timed m (call (Waitpid c) ≫= f) me t kids born
  = let '(o, t', l) := timed m (f c) me (Z.max t tc) (forget kids c) born in
    (o, t', Span me Waits t (Z.max t tc) :: l).
Proof. intros Hr. cbn. unfold after_waitpid. by rewrite Hr. Qed.

(** The parent awaits its children: it ends its waits with the last of them. *)
Lemma timed_wait_all {B} ks (f : unit -> prog B) t kids born :
  NoDup ks.*1 -> kids ≡ₚ ks ->
  exists l, filter (fun s => act s = Waits) l = waits t ks.*2
    /\ timed m (wait_all ks.*1 ≫= f) [] t kids born
    = let '(o, t', l') := timed m (f tt) [] (foldl Z.max t ks.*2) [] born in (o, t', l ++ l').
Proof using Hprint.
  revert t kids. induction ks as [|[c tc] ks IH]; intros t kids Hnd Hp.
  { apply Permutation_nil_r in Hp as ->. exists []. split; [done|]. cbn. by destruct (timed m (f tt) _ _ _ _) as [[o t'] l']. }
  cbn [fmap list_fmap fst snd wait_all foldl waits]. rewrite timed_assoc.
  assert (forall msg args, plain (call (Printf msg args)) any) as Hpr by (intros; by apply plain_call).
  assert (forall msg args, takes [] (call (Printf msg args)) = 0) as Ht by (intros; cbn; by rewrite Hprint).
  match goal with |- context [call (Printf ?a ?b)] => run_plain (Hpr a b) l1 end.
  rewrite timed_assoc, (timed_waitpid_in _ tc) by (apply reap_in; [by rewrite Hp|rewrite Hp; by left]).
  rewrite timed_assoc. match goal with |- context [call (Printf ?a ?b)] => run_plain (Hpr a b) l2 end.
  rewrite !Ht, !Z.add_0_r. destruct (IH (Z.max t tc) (forget kids c)) as (l3 & Hl3 & ->).
  { cbn in Hnd. by apply NoDup_cons in Hnd as [_ Hnd]. }
  { by apply (forget_perm _ _ tc). }
  exists (l1 ++ Span [] Waits t (Z.max t tc) :: l2 ++ l3). split.
  - rewrite filter_app, filter_cons_True by done. rewrite filter_app, Hl3.
    by rewrite !awake_filter by done.
  - destruct (timed m (f tt) _ _ _ _) as [[o t'] l']. rewrite <- !app_assoc. cbn. by rewrite <- !app_assoc.
Qed.

(** No child has the pid of another. *)
Lemma apart_fork_all {B} name n argv0 (f : list Z * list ascii -> prog B) t ks born :
  apart m (fork_all sin name n argv0 ≫= f) [] ks born -> NoDup ks -> NoDup (rev (offspring n born t).*1 ++ ks).
Proof using Hnp.
  revert argv0 f ks born. induction n as [|n IH]; intros argv0 f ks born Ha Hks; [done|].
  cbn [fork_all] in Ha. apply apart_assoc in Ha. destruct Ha as (Hfr & _ & Ha). cbn [newpid app prog_bind] in Hfr, Ha.
  rewrite (proj2 (Z.eqb_neq (np [born]) 0)) in Ha by (specialize (Hnp [born]); lia).
  apply apart_assoc in Ha. cbn [mbind prog_bind] in Ha. apply apart_assoc in Ha.
  cbn [offspring fmap list_fmap fst rev]. rewrite <- app_assoc. eapply IH; [exact Ha|by apply NoDup_cons].
Qed.

(** The ends of the children, in the order of the forks. *)
Lemma offspring_ends : (offspring 10 O 0).*2 = map child_end [9; 8; 7; 6; 5; 4; 3; 2; 1; 0].
Proof. reflexivity. Qed.

(** The whole program. *)
Lemma timed_main name :
  (strlen name < 80)%nat -> apart m (Proclife.main sin name) [] [] O ->
  let ends := map child_end [9; 8; 7; 6; 5; 4; 3; 2; 1; 0] in
  exists l, filter (fun s => act s = Waits) l = waits parent_work ends
    /\ timed m (Proclife.main sin name) [] 0 [] O
       = (Done 0, foldl Z.max parent_work ends + us 250000 + exec_time, l).
Proof using Type*.
  intros Hname Ha ends. unfold Proclife.main in *. rewrite (proj2 (Nat.leb_gt _ _) Hname) in *.
  change (Z.to_nat NUM_PROCESSES) with 10%nat in *.
  assert (NoDup (offspring 10 O 0).*1) as Hnd.
  { apply (apart_fork_all _ 10 _ _ 0) in Ha; [|apply NoDup_nil_2]. rewrite app_nil_r in Ha.
    by rewrite (Permutation_rev (offspring 10 O 0).*1). }
  match goal with |- context [timed m (fork_all _ ?nm _ ?av ≫= ?g)] =>
    destruct (timed_fork_all nm 10 av g 0 [] O ltac:(done)) as (argv0' & l1 & Hl1 & ->) end.
  run_plain (plain_work 0 ltac:(done)) l2. rewrite app_nil_r.
  match goal with |- context [timed m (wait_all _ ≫= ?g) _ ?t ?ks ?b] =>
    destruct (timed_wait_all (offspring 10 O 0) g t ks b Hnd) as (l3 & Hl3 & ->) end.
  { symmetry. apply Permutation_rev. }
  rewrite offspring_ends in Hl3 |- *. rewrite Z.add_0_l in Hl3 |- *. fold ends parent_work in Hl3 |- *.
  run_plain (plain_call (Usleep 250000) eq_refl) l4.
  run_plain (plain_call (Execv "/bin/ls" ["/bin/ls"; "-r"; "-t"; "-l"]) eq_refl) l5.
  rewrite timed_ret. eexists. split.
  2:{ apply (f_equal2 pair); [|reflexivity]. f_equal. unfold exec_time. cbn [takes call]. rewrite Hsleep. lia. }
  rewrite !filter_app, Hl3, !awake_filter by done. cbn [app]. by rewrite !app_nil_r.
Qed.
End path.

(** Nobody waits any more after the first wait, when that is for the last to end. *)
Lemma waits_over t e l : t <= e -> Forall (fun x => x <= e) l ->
  waits t (e :: l) = Span [] Waits t e :: replicate (length l) (Span [] Waits e e)
  /\ foldl Z.max t (e :: l) = e.
Proof.
  intros Ht Hl. cbn [waits foldl]. rewrite Z.max_r by done.
  assert (waits e l = replicate (length l) (Span [] Waits e e) /\ foldl Z.max e l = e) as [-> ->]; [|done].
  clear t Ht. induction Hl as [|x l Hx _ [IH1 IH2]]; [done|].
  cbn [waits foldl length replicate]. rewrite Z.max_l by lia. by rewrite IH1, IH2.
Qed.

Lemma child_ends_last : child_end 9 + us 250000 = us 9250500 + child_work 9.
Proof using. unfold child_end. generalize (child_work 9). intros w. unfold us. lia. Qed.

(** (C38) However the parent and its ten children are interleaved, and however
    long the files, the memory and the sound system take in each of them, the
    execution is finite and never blocks, all end with status 0 and every child
    has been waited for.  The parent does its own work and then waits for
    the children in the order of their creation, each wait starting where the
    one before it ended: it takes as long as the last to end of itself
    and its children, and 250 milliseconds and the [execv] (which the model
    lets return) more.  When the child forked first, which sleeps for 9 seconds,
    is the last to end, it is the critical path: the parent waits for it only,
    all the other waits being over at once, and the whole takes 9250.5
    milliseconds, the time of that child's work and that of the [execv]. *)
Theorem proclife_any_order (name : list ascii) (Hname : (strlen name < 80)%nat) :
  let K := clock_kernel ans in
  let start := starting (Proclife.main sin name) in
  let ends := map child_end [9; 8; 7; 6; 5; 4; 3; 2; 1; 0] in
  sn (step K) start
  /\ forall c, rtc (step K) start c ->
    (procs c <> [] -> exists c', step K c c') /\ Forall (fun z => status z = 0) (zombies c)
    /\ (procs c = [] ->
        let waited := filter (fun s => act s = Waits) (told (kstate c)) in
        let over := clock <$> ids (kstate c) !! 1 in
        zombies c = [Zombie 1 0 0]
        /\ waited ≡ₚ waits parent_work ends
        /\ over = Some (foldl Z.max parent_work ends + us 250000 + exec_time)
        /\ (parent_work <= child_end 9 -> (forall i, 0 <= i < 9 -> child_end i <= child_end 9) ->
            waited ≡ₚ Span [] Waits parent_work (child_end 9)
                        :: replicate 9 (Span [] Waits (child_end 9) (child_end 9))
            /\ over = Some (us 9250500 + child_work 9 + exec_time))).
Proof using Type*.
  intros K start ends. destruct (family_runs ans leaves_zero (Proclife.main sin name)) as [Hsn Hr]; [by apply wp_proclife|].
  split; [done|]. intros c Hrc. destruct (Hr c Hrc) as (Hprog & Hz & np & Hpos & Hap & Ht). split; [done|]. split; [done|].
  intros E waited over. destruct (timed_main np Hpos name Hname Hap) as (l & Hw & Hl). fold ends in Hw, Hl.
  rewrite Hl in Ht. destruct Ht as [_ Ht]. destruct (Ht E) as (Hp & st & Hst & [[= <-]|[=]] & Hcl).
  assert (waited ≡ₚ waits parent_work ends) as Hwaited by (subst waited; by rewrite <- Hw, Hp).
  split; [exact Hst|]. split; [exact Hwaited|]. split; [exact Hcl|]. intros H9 Hi.
  destruct (waits_over parent_work (child_end 9) (map child_end [8; 7; 6; 5; 4; 3; 2; 1; 0]) H9) as [Hw' Hm'].
  { repeat constructor; apply Hi; lia. }
  cbn [length map] in Hw', Hm'. unfold ends in Hwaited, Hcl. cbn [map] in Hwaited, Hcl. rewrite Hw' in Hwaited.
  rewrite Hm', child_ends_last in Hcl. split; [exact Hwaited|exact Hcl].
Qed.
End proclife.

(** A file opens, a sound is silence, and to play it blocks for half a second:
    of the second that it lasts, the device takes the rest into its buffer. *)
Definition playing X (e : sys X) (me : family) : X * Z :=
  (match e in sys X return X with Fopen _ _ => Some 3 | e => default_answer e end,
   match e with Snd_pcm_writei _ _ _ => us 500000 | e => duration e end).

Definition silence : double -> double := fun _ => double_of_Z 0.

Lemma silence_is_sound i : is_Some (mapM (sound_byte silence i) (seqZ 0 NUM_SAMPLES)).
Proof. apply mapM_is_Some, Forall_forall. intros j _. by eexists. Qed.

Lemma takes_write_lines me f j l : takes playing me (write_lines f j l) = 0.
Proof. revert j. induction l as [|b l IH]; intros j; [done|]. cbn. apply IH. Qed.

Lemma work_sounds sin i l :
  mapM (sound_byte sin i) (seqZ 0 NUM_SAMPLES) = Some l ->
  work sin i = (allocate_memory;; write_to_file l i;; play_sound l NUM_SAMPLES;; call (Printf ("Done!" +:+ NL) [])).
Proof. intros Hl. unfold work, set_up_sound. by rewrite Hl. Qed.

(** Two milliseconds and two tenths for the memory, half a second for the sound. *)
Lemma takes_playing i me : takes playing me (work silence i) = us 502200.
Proof.
  destruct (silence_is_sound i) as [l Hl]. rewrite (work_sounds _ _ _ Hl). clear Hl.
  rewrite takes_then by apply plain_allocate_memory.
  rewrite takes_then by (apply plain_write_to_file; done).
  rewrite takes_then by apply plain_play_sound. unfold write_to_file. cbn.
  rewrite takes_then by apply plain_write_lines. rewrite takes_write_lines. reflexivity.
Qed.

Theorem proclife_any_order_witness :
  let K := clock_kernel playing in
  let start := starting (Proclife.main silence (argv0_of (String.list_ascii_of_string "proclife"))) in
  sn (step K) start
  /\ forall c, rtc (step K) start c -> procs c = [] ->
     zombies c = [Zombie 1 0 0]
     /\ filter (fun s => act s = Waits) (told (kstate c))
        ≡ₚ Span [] Waits (us 502200) (us 9502700) :: replicate 9 (Span [] Waits (us 9502700) (us 9502700))
     /\ (clock <$> ids (kstate c) !! 1) = Some (us 9752700).
Proof.
  destruct (proclife_any_order playing silence ltac:(done) ltac:(done) ltac:(done)
    (fun i _ => silence_is_sound i) (argv0_of (String.list_ascii_of_string "proclife")) ltac:(by vm_compute; lia)) as [Hsn H].
  split; [exact Hsn|]. intros c Hc E. destruct (H c Hc) as (_ & _ & Hend).
  destruct (Hend E) as (Hz & _ & _ & Hlast).
  assert (forall i, 0 <= i < NUM_PROCESSES -> child_end playing silence i = us (i * 1000000 + 500) + us 502200) as He
    by (intros i Hi; unfold child_end, child_work; by rewrite takes_playing).
  assert (parent_work playing silence = us 502200) as Hp by (unfold parent_work; by rewrite takes_playing).
  pose proof (He 9 ltac:(by unfold NUM_PROCESSES; lia)) as H9. rewrite Hp, H9 in Hlast.
  destruct Hlast as [Hw Ho].
  { unfold us. lia. }
  { intros i Hi. rewrite He by (unfold NUM_PROCESSES; lia). unfold us. lia. }
  assert (child_work playing silence 9 = us 502200) as Hc9
    by apply takes_playing.
  rewrite Hc9 in Ho. split; [exact Hz|]. split; [exact Hw|exact Ho].
Defined.
